(* ===== verification/_CoqProject ===== *)
-Q . S2P
Prelude.v
Wire.v
BTree.v
Fec.v
Packetizer.v
Depacketizer.v
VideoPath.v
Float.v
Bitrate.v
VideoHost.v
Aead.v
Input.v
HostSession.v
Control.v
Audio.v
Links.v
StreamPath.v
Recorder.v
HubState.v
Hub.v
AdminWs.v
Keyhook.v
Pairing.v
Store.v
Crypto.v
Text.v
KeyLines.v
RtspTypes.v
Rtsp.v
Encoder.v
Ffmpeg.v
Media.v
Device.v
Capture.v
StreamHost.v
Launch.v
Web.v
Tls.v
Agent.v
HubApi.v
Service.v
Mcp.v
Tools.v
Browser.v
Boot.v
AdminApp.v
FrameServer.v
AdminMirror.v
Feed.v
