(* ===== verification/Prelude.v ===== *)
(** * kmcontrol: a verification library

    kmcontrol lets administrators watch and operate a set of laptops.  Its
    Rust crates, under [src/], are:
    - [kmc-streamhost]: runs on the laptop; captures the screen and the sound,
      encodes them and streams them GameStream-style over RTP with
      Reed-Solomon protection; takes input over an encrypted control channel;
    - [kmc-moonclient]: the administrator's receiving end of all this;
    - [kmc-gsproto]: the wire format both ends share;
    - [kmc-keyhook] and [kmc-admin]: capture of the administrator's keyboard
      and pointer by a sidecar process, and the desktop shell;
    - [kmc-hub], [kmc-proto], [kmc-agent], [kmc-mcp]: the server that knows
      which laptops are online and who controls which, its JSON protocol, the
      agent on the laptop and a tool front end for assistants.

    ** Conventions

    [usize] is [nat]; [u8] to [u64] and [i16], [i32] are [Z] with the
    wrap-around written out ([u16], [wrapping_add32], [saturating_sub], ...);
    a byte string is a [list Z]; an [Instant] is a [Z] in nanoseconds.
    [f64] and [f32] are the executable IEEE-754 of [SpecFloat].  A function
    that can panic returns [option], with [None] for the panic.  Debug-only
    assertions are not modelled: the arithmetic is that of a release build.
    Mutable state is a record passed along; state shared by threads is a
    record whose critical sections are the steps.  Names are the source's,
    with a short prefix where two records share a field name.

    Third-party code is a class of operations with the laws its
    documentation states, and each class has a lawful instance, so that every
    conditional theorem is applied at least once: [ReedSolomon] (the [fec_rs]
    crate, Fec.v), [Aead] (AES-128-GCM, Aead.v), [PairCrypto] (SHA-256, the
    AES block, X.509, RSA and hex, Pairing.v), [RsaX509] (the RSA and X.509
    crates, from which Crypto.v builds a [PairCrypto]), [RtspTypes] (the
    [rtsp_types] parser and printer, RtspTypes.v), [VideoCodec] (the QSV encoder
    of FFmpeg, Encoder.v), [VideoProcessor] and [MediaTransform] (Direct3D's
    converter and Media Foundation's encoder, Media.v), [KeyedMutex] and
    [GraphicsDevice] (Direct3D, Capture.v), [HexCodec] (the [hex] crate,
    Launch.v), [JsonText] and [JsonBodies] (serde_json, Store.v and Service.v),
    [XmlParser] (roxmltree, Web.v), [Rustls], [TlsAccept] and [PemLaws]
    (rustls and its PEM reader, Tls.v), [BrowserOs] (processes and windows,
    Browser.v).  The Opus encoder, [powf], Argon2, UUID text, hash map order
    and the database's row order are plain arguments.

    ** Files and the code they model

    - Prelude.v: notation, tactics, hints, machine integers, byte order,
      slices, lists, reachability.
    - Wire.v ([kmc-gsproto/src/lib.rs]): the RTP, NvVideoPacket, frame header,
      loss report and RTT probe codecs and the parity count.  Every reader
      inverts its writer; the parity count keeps a block within 255 shards.
    - BTree.v: the ordered map the depacketizer keeps its frames in.
    - Fec.v: the Reed-Solomon interface and XOR parity as its instance.
    - Packetizer.v ([kmc-streamhost/src/video/packetizer.rs]): a frame becomes
      RTP datagrams in FEC blocks.  [packetize_frame] succeeds for every
      packet size above 16, numbers its datagrams consecutively modulo 2^16
      and 2^32, and its data shards concatenate to the frame.
    - Depacketizer.v ([kmc-moonclient/src/video.rs]): datagrams become frames
      again.  An invariant bounds what is in flight, nothing is delivered
      twice, duplicates change nothing, time-outs and loss reports do what
      they promise, and each input of the receive loop has its effect.
    - VideoPath.v: the two composed.  A frame is delivered unchanged when
      every block keeps as many shards as it has data, and [path_inv] keeps
      that up over any client state; two theorems exhibit frames that are
      never delivered and frames delivered out of order.
    - Float.v, Bitrate.v ([kmc-streamhost/src/bitrate.rs]): the AIMD rate
      controller on floats.  Its bounds hold under every interleaving of the
      three threads that use it; each operation has its specification, and
      quiet polling reaches the learned ceiling.
    - VideoHost.v ([kmc-streamhost/src/video/mod.rs]): the video socket loop:
      one viewer at a time, which frame is sent how, the RTT measurement, and
      the generator of dummy frames.
    - Aead.v, Input.v, HostSession.v, Control.v ([control.rs] of both crates,
      [input.rs], [session.rs], the GCM part of [crypto.rs]): the control
      channel.  [control_delivery] is a refinement: the client's calls, after
      encoding, queueing, encryption, framing, decryption and dispatch, are
      exactly their intended effects on the host.  Nonces never repeat;
      termination reaches the client; unencrypted packets are accepted.
    - Audio.v ([audio.rs] of both crates): framing of the captured samples,
      numbering, and the receiver's delivery and loss statistics.
    - Links.v (the loops of the client's [control.rs] and [audio.rs]): opening
      the control channel, its task up to the end of a shutdown, the receive
      loop of the sound; what each of them survives and when it ends.
    - StreamPath.v (the receive task of [video.rs], from its socket to its
      end): the host's loop, a lossy network and the task composed over a whole
      stream.  Exactly the frames of which enough arrived are handed on, in
      order, whatever losses, PINGs, probes, refusals and strangers come in
      between; and the one datagram that ends the task.
    - Recorder.v (the sound thread of the host's [audio.rs],
      [kmc-streamhost/src/lib.rs]): the device opened again after every
      failure; the recording of the screen to a file.
    - HubState.v, Hub.v, AdminWs.v ([kmc-proto], [kmc-hub/src/db.rs],
      [state.rs], [agent_ws.rs], [routes.rs], [admin_ws.rs]): the hub as a
      set of threads over locked maps.  [Thread] lists the places where a
      handler can stand between two locks, [thread_step] runs one critical
      section, [sys_step] interleaves any number of handlers.  [effect]
      classifies the steps once; the invariant [sys_inv] and the theorems on
      control sessions, connections and commands are by cases on it.  AdminWs.v
      is the feed of one administrator with the snapshot of one moment.
    - Keyhook.v ([kmc-keyhook/src/main.rs], [keyhook.rs] of the admin): the
      hooks; no key is left held down, and the pointer arrives where it was.
    - KeyLines.v (the same files): the text of the lines between the two
      processes, and the processes with their pipes.  Whatever the order of
      reading and writing, they do what the hooks alone do, until the capture
      process ends.
    - Pairing.v ([clients.rs], [state.rs], [pair.rs], the pairing part of
      [webserver.rs] and [crypto.rs]): the pairing protocol end to end.
    - Store.v ([state.rs] of the host, the client's identity): the list of
      paired clients and the identity as files.  A save is a sequence of steps
      of concurrent threads, any of which can fail; what the next start finds.
    - Crypto.v ([crypto.rs] of both crates): certificates, signatures and
      fingerprints over [RsaX509]; they satisfy what Pairing.v assumes, so that
      two new installations pair.
    - Text.v: the [str] operations the text protocols use, with decimal
      printing and parsing as a round trip.
    - RtspTypes.v, Rtsp.v ([rtsp.rs] of both crates, [host.rs]): messages, the
      server's connection handler with its PLAY hook, and the client's
      handshake.  Any bytes at most record a context or run the hook, and only
      with an open session; the handshake negotiates the host's ports.
    - Encoder.v ([encoder.rs], [qsv.rs], [set_bitrate] of [gpu_encode.rs]): the
      bit-rate hysteresis equals its documented policy below the overflow
      bound, and the colour conversion fills its planes.
    - Ffmpeg.v ([gpu_encode.rs]): who owns the objects of FFmpeg.  A [Ledger]
      holds the references the program has to release; freeing what is not
      owned has no result; how a call ends is the answer of an oracle.
      [fx_wp] and its rules carry the specifications of the functions.
    - Media.v ([gpuconvert.rs], [encoder.rs]): the conversion on the graphics
      device and the copy of its pitched rows, the drain loops of the codecs,
      the Media Foundation encoder, the conversion in [f32].
    - Device.v ([xdevice.rs], [setup_zerocopy]): the second device, the shared
      texture and the references of a pipeline, on the ledger of Ffmpeg.v.
    - Capture.v ([capture.rs], [xdevice.rs]): the capture callback and the
      encode loop over one keyed texture, as interleaved steps; safe and live
      hand-off, mode negotiation, the memory loop.
    - StreamHost.v ([streamhost/lib.rs], [host.rs]): sessions, triggers and the
      watcher that starts and stops pipelines; at most one is alive.
    - Launch.v ([session.rs], [pair.rs] of the client, the routes of
      [webserver.rs]): serverinfo, launch, handshake and session start
      composed end to end; the throttle of IDR requests.
    - Web.v ([webserver.rs]): the dispatch of the host's web server
      with every route, the XML it prints and what the client's parser reads
      back; nobody is paired without a PIN submitted for it.
    - Tls.v ([tls.rs], the accept loops of [webserver.rs]): the verifier of
      client certificates, the acceptor made from the PEM files, connections
      and their requests.  A fingerprint belongs to a key the client has, newly
      made certificates serve and are recognised, and no route asks for one.
    - Agent.v ([kmc-agent]): provisioning, the reconnect loop, commands,
      waits, the status report; recovery of a lost identity is proved against
      the hub's hello handler.
    - HubApi.v ([kmc-mcp/src/hub.rs] over [routes.rs]): the class [HubServer]
      with its laws, implemented by running the handlers of Hub.v; the REST
      client with one re-login, as steps that interleave.
    - Service.v ([kmc-hub/src/main.rs]): command line, routing table, bearer
      extractor and the dispatch of any request; what a request without a
      token can and cannot do.
    - Browser.v ([kmc-agent/src/browser.rs]): finding, starting and remembering
      the dedicated browser, and its way to the tools.
    - Boot.v ([kmc-agent/src/main.rs], [host.rs], [kmc-mcp/src/main.rs]): the
      start of the agent in a logon session with other agents: the mutex, the
      ports, the tailnet condition.
    - Mcp.v ([kmc-mcp/src/server.rs]): the tools.  A script reaches the laptop
      and its output comes back; the parallel fan-out and the GUI sequences
      execute exactly what they should; failures a sequence does not see.
    - Tools.v (the same file): the argument structs as they are decoded, the
      choice of a tool, and one contract: no tool sends the hub a request its
      arguments do not stand for.
    - AdminApp.v, AdminMirror.v ([kmc-admin/src-tauri]): the shell's list,
      commands, streaming state and frame fan-out.  The shell converges to the
      hub's state in every interleaving in which no two handlers work on one
      laptop at a time; an example shows what happens otherwise.
    - FrameServer.v ([stream.rs] of the shell): binding the two servers lock by
      lock, alone and overlapping; accepting windows, the session channel and
      the service of every window.  [picture_reaches_window] composes it with
      StreamPath.v: from the encoder's bytes to the message a window gets.
    - Feed.v ([admin_ws.rs], [snapshot] of [state.rs]): the feed lock by lock
      beside the handlers of Hub.v, with resyncs and a failing database.  The
      shell converges although no snapshot is of one moment, [quiet_snapshot]
      relates it to the snapshot of AdminWs.v, and [gap_loses_update] shows what
      the order of snapshot and subscription costs.

    Interfaces: Packetizer.v and Depacketizer.v are proved against the class
    [ReedSolomon], Control.v against [Aead], Pairing.v against [PairCrypto],
    which [rust_crypto] of Crypto.v implements over [RsaX509], the clients of
    HubApi.v against [HubServer], for which [hub_server] is the hub itself.
    StreamPath.v composes VideoHost.v and Depacketizer.v through the lemmas of
    VideoPath.v, FrameServer.v adds the viewers of AdminApp.v; Feed.v shares the
    views and the account of who owes a broadcast with AdminMirror.v; Tls.v runs
    the routes of Web.v under the certificates of Crypto.v and the files of
    StreamHost.v.  VideoHost.v uses the packetizer and the controller through
    their lemmas, Capture.v the controller, Keyhook.v [inject_encoded] of
    Control.v, KeyLines.v [hook_step] of Keyhook.v, Links.v [run_turn] of
    Control.v and [ingest] of Audio.v, Device.v the ledger of Ffmpeg.v, Launch.v
    the handshake of Rtsp.v.

    ** Bounds and fuel

    [encode_ready] (Audio.v) takes the queue length as fuel and removes 960
    bytes a round; [feed_drain] (AdminWs.v) takes the backlog;
    [digits] (HubState.v) the number it
    prints, [print_go] (Text.v) the 20 digits of a [u64]; [wait_ready] takes
    one more poll than the time-out has half seconds, which
    [wait_ready_terminates] proves enough; [call] (HubApi.v) takes five steps,
    the rank of its first state; [recovery_reaches_ceiling] states how many
    polls are enough.  Every
    other recursion is structural on a list or counts down a number the code
    computes.  The connection counter of the hub is not
    wrapped: it would take 2^64 connections.

    ** Simplifications

    Hook callbacks and stdin commands
    of the sidecar are one step each.  JSON and log messages are constructors,
    with the classes above where their text matters.  ENet is reduced to which
    packets it accepts and which events it returns; sockets, timers and
    processes are inputs of the steps.  Text is ASCII; query strings are
    association lists.  The REST handlers run one after the other when seen
    from HubApi.v; their interleaving is the subject of Hub.v.  A frame's
    textures are numbers, and the ring of staging textures is never null.  A
    COM object is one reference on the ledger, whatever it keeps alive itself.

    ** Not modelled

    The Tauri runtime with its plugins and windows, the HTTP client's settings,
    log set-up, the message pump of the hooks, name resolution and the
    re-exports of the crate roots have no logic of their own; the texts of the
    tool descriptions and of [Display] are data nobody branches on; [Notify] is
    the condition under which a step can be taken (StartB in StreamHost.v).
    [send_to_peer] and the CBC cipher have no caller in the program.  The benches, examples and test binaries are not
    part of it. *)
From stdpp Require Export prelude gmap strings.
From Stdlib Require Export ZArith Lia.
From Stdlib Require Import ZifyNat ZifyBool.

(** ** Notation scope, hint databases and tactics *)

Declare Scope kmc_scope.
Delimit Scope kmc_scope with kmc.
Open Scope kmc_scope.
#[global] Open Scope Z_scope.

Create HintDb kmc discriminated.
Create Rewrite HintDb kmc.

(** [x <-? e; k] is Rust's [?] operator on [Option]. *)
Notation "x <-? e ; k" := (match e with Some x => k | None => None end)
  (at level 100, e at next level, right associativity, only parsing) : kmc_scope.

(** Turn [div]/[mod] by literals into equations and call [lia]. *)
Ltac div_lia := Z.to_euclidean_division_equations; lia.

(** Case analysis on the innermost boolean or option test of the goal. *)
Ltac case_if :=
  match goal with
  | |- context [if ?b then _ else _] =>
      lazymatch b with
      | context [if _ then _ else _] => fail
      | _ => let E := fresh "E" in destruct b eqn:E
      end
  end.

(** Boolean comparisons in the context become propositions. *)
Ltac bool_prop :=
  repeat match goal with
  | H : (_ && _) = true |- _ => apply andb_prop in H as [? ?]
  | H : (_ || _) = false |- _ => apply orb_false_iff in H as [? ?]
  | H : (_ =? _)%Z = true |- _ => apply Z.eqb_eq in H
  | H : (_ =? _)%Z = false |- _ => apply Z.eqb_neq in H
  | H : (_ <? _)%Z = true |- _ => apply Z.ltb_lt in H
  | H : (_ <? _)%Z = false |- _ => apply Z.ltb_ge in H
  | H : (_ <=? _)%Z = true |- _ => apply Z.leb_le in H
  | H : (_ <=? _)%Z = false |- _ => apply Z.leb_gt in H
  | H : (_ =? _)%nat = true |- _ => apply Nat.eqb_eq in H
  | H : (_ =? _)%nat = false |- _ => apply Nat.eqb_neq in H
  | H : (_ <? _)%nat = true |- _ => apply Nat.ltb_lt in H
  | H : (_ <? _)%nat = false |- _ => apply Nat.ltb_ge in H
  | H : (_ <=? _)%nat = true |- _ => apply Nat.leb_le in H
  | H : (_ <=? _)%nat = false |- _ => apply Nat.leb_gt in H
  | H : negb _ = true |- _ => apply negb_true_iff in H
  | H : negb _ = false |- _ => apply negb_false_iff in H
  | H : bool_decide _ = true |- _ => apply bool_decide_eq_true in H
  | H : bool_decide _ = false |- _ => apply bool_decide_eq_false in H
  end.

(** ** Machine integers: [uN] is the [as uN] cast (and the wrap-around of
    release-mode arithmetic); [iN] reinterprets a pattern as signed. *)

Definition u8 (z : Z) : Z := z mod 2 ^ 8.
Definition u16 (z : Z) : Z := z mod 2 ^ 16.
Definition u32 (z : Z) : Z := z mod 2 ^ 32.
Definition u64 (z : Z) : Z := z mod 2 ^ 64.
Definition i16 (z : Z) : Z := let m := u16 z in if m <? 2 ^ 15 then m else m - 2 ^ 16.
Definition i32 (z : Z) : Z := let m := u32 z in if m <? 2 ^ 31 then m else m - 2 ^ 32.

Definition U32_MAX : Z := 4294967295.
Definition U16_MAX : Z := 65535.

Definition is_u8 (z : Z) : Prop := 0 <= z < 2 ^ 8.
Definition is_u16 (z : Z) : Prop := 0 <= z < 2 ^ 16.
Definition is_u32 (z : Z) : Prop := 0 <= z < 2 ^ 32.
Definition is_u64 (z : Z) : Prop := 0 <= z < 2 ^ 64.
Definition is_i16 (z : Z) : Prop := - 2 ^ 15 <= z < 2 ^ 15.

#[export] Instance is_u8_dec z : Decision (is_u8 z).
Proof. unfold is_u8; apply _. Defined.
#[export] Instance is_u16_dec z : Decision (is_u16 z).
Proof. unfold is_u16; apply _. Defined.
#[export] Instance is_u32_dec z : Decision (is_u32 z).
Proof. unfold is_u32; apply _. Defined.
#[export] Instance is_u64_dec z : Decision (is_u64 z).
Proof. unfold is_u64; apply _. Defined.

Definition wrapping_add16 (a b : Z) : Z := u16 (a + b).
Definition wrapping_sub16 (a b : Z) : Z := u16 (a - b).
Definition wrapping_add32 (a b : Z) : Z := u32 (a + b).
Definition saturating_sub (a b : Z) : Z := Z.max 0 (a - b).
Definition saturating_add32 (a b : Z) : Z := Z.min U32_MAX (a + b).
Definition saturating_mul32 (a b : Z) : Z := Z.min U32_MAX (a * b).

Lemma u8_range z : is_u8 (u8 z).
Proof. unfold is_u8, u8; apply Z.mod_pos_bound; lia. Qed.
Lemma u16_range z : is_u16 (u16 z).
Proof. unfold is_u16, u16; apply Z.mod_pos_bound; lia. Qed.
Lemma u32_range z : is_u32 (u32 z).
Proof. unfold is_u32, u32; apply Z.mod_pos_bound; lia. Qed.
Lemma u64_range z : is_u64 (u64 z).
Proof. unfold is_u64, u64; apply Z.mod_pos_bound; lia. Qed.
Lemma i16_range z : - 2 ^ 15 <= i16 z < 2 ^ 15.
Proof. unfold i16. pose proof (u16_range z) as Hz. unfold is_u16 in Hz. cbn zeta. destruct (Z.ltb_spec (u16 z) (2 ^ 15)); lia. Qed.
Lemma i32_range z : - 2 ^ 31 <= i32 z < 2 ^ 31.
Proof. unfold i32. pose proof (u32_range z) as Hz. unfold is_u32 in Hz. cbn zeta. destruct (Z.ltb_spec (u32 z) (2 ^ 31)); lia. Qed.
Lemma u8_id z : is_u8 z -> u8 z = z.
Proof. intros; unfold u8; now apply Z.mod_small. Qed.
Lemma u16_id z : is_u16 z -> u16 z = z.
Proof. intros; unfold u16; now apply Z.mod_small. Qed.
Lemma u32_id z : is_u32 z -> u32 z = z.
Proof. intros; unfold u32; now apply Z.mod_small. Qed.
Lemma u64_id z : is_u64 z -> u64 z = z.
Proof. intros; unfold u64; now apply Z.mod_small. Qed.
Lemma i16_u16 z : is_i16 z -> i16 (u16 z) = z.
Proof.
  unfold is_i16, i16, u16; intros H. rewrite Z.mod_mod by lia.
  destruct (_ <? _) eqn:E; bool_prop; div_lia.
Qed.
#[export] Hint Resolve u8_range u16_range u32_range u64_range : kmc.
#[export] Hint Rewrite u8_id u16_id u32_id u64_id using (auto with kmc; lia) : kmc.

(** ** Bytes: [to_le_bytes], [from_le_bytes] and their big-endian twins *)

Definition byte_ok (b : Z) : Prop := 0 <= b < 256.
Abbreviation bytes_ok := (Forall byte_ok).

#[export] Instance byte_ok_dec b : Decision (byte_ok b).
Proof. unfold byte_ok; apply _. Defined.

Fixpoint le_bytes (n : nat) (z : Z) : list Z :=
  match n with
  | O => []
  | S n => z mod 256 :: le_bytes n (z / 256)
  end.

Fixpoint le_val (l : list Z) : Z :=
  match l with
  | [] => 0
  | b :: l => b + 256 * le_val l
  end.

Definition be_bytes (n : nat) (z : Z) : list Z := reverse (le_bytes n z).
Definition be_val (l : list Z) : Z := le_val (reverse l).

Lemma length_le_bytes n z : length (le_bytes n z) = n.
Proof. revert z; induction n; intros; simpl; auto. Qed.

Lemma length_be_bytes n z : length (be_bytes n z) = n.
Proof. unfold be_bytes. now rewrite length_reverse, length_le_bytes. Qed.

Lemma le_bytes_ok n z : bytes_ok (le_bytes n z).
Proof.
  revert z; induction n; intros; simpl; constructor; auto.
  apply Z.mod_pos_bound; lia.
Qed.

Lemma be_bytes_ok n z : bytes_ok (be_bytes n z).
Proof. apply Forall_reverse, le_bytes_ok. Qed.

Lemma le_val_bytes n z : le_val (le_bytes n z) = z mod 256 ^ Z.of_nat n.
Proof.
  revert z; induction n as [|n IH]; intros z; cbn [le_bytes le_val].
  - now rewrite Z.mod_1_r.
  - rewrite IH, Nat2Z.inj_succ, Z.pow_succ_r by lia.
    rewrite Z.rem_mul_r; lia.
Qed.

Lemma be_val_bytes n z : be_val (be_bytes n z) = z mod 256 ^ Z.of_nat n.
Proof. unfold be_val, be_bytes. now rewrite reverse_involutive, le_val_bytes. Qed.

Lemma le_val_id n z : 0 <= z < 256 ^ Z.of_nat n -> le_val (le_bytes n z) = z.
Proof. intros. rewrite le_val_bytes. now apply Z.mod_small. Qed.

Lemma be_val_id n z : 0 <= z < 256 ^ Z.of_nat n -> be_val (be_bytes n z) = z.
Proof. intros. rewrite be_val_bytes. now apply Z.mod_small. Qed.

Lemma le_val_bound l : bytes_ok l -> 0 <= le_val l < 256 ^ Z.of_nat (length l).
Proof.
  induction 1 as [|b l Hb Hl IH]; cbn [le_val length]; [lia|].
  rewrite Nat2Z.inj_succ, Z.pow_succ_r by lia. unfold byte_ok in Hb. lia.
Qed.

Lemma be_val_bound l : bytes_ok l -> 0 <= be_val l < 256 ^ Z.of_nat (length l).
Proof.
  intros. unfold be_val. rewrite <- (length_reverse l).
  apply le_val_bound. now apply Forall_reverse.
Qed.

Lemma le_bytes_val l : bytes_ok l -> le_bytes (length l) (le_val l) = l.
Proof.
  induction 1 as [|b l Hb Hl IH]; cbn [le_val le_bytes length]; [done|].
  unfold byte_ok in Hb. rewrite Z.mul_comm, Z.mod_add, Z.div_add by lia.
  rewrite Z.mod_small, Z.div_small by lia. now rewrite Z.add_0_l, IH.
Qed.

Lemma be_bytes_val l : bytes_ok l -> be_bytes (length l) (be_val l) = l.
Proof.
  intros. unfold be_bytes, be_val. rewrite <- (length_reverse l).
  rewrite le_bytes_val by now apply Forall_reverse. apply reverse_involutive.
Qed.

#[export] Hint Resolve le_bytes_ok be_bytes_ok : kmc.
#[export] Hint Rewrite length_le_bytes length_be_bytes : kmc.

(** ** Slices: [&l[lo..hi]] and [dst[off..off+n].copy_from_slice(src)] *)

Definition slice {A} (lo hi : nat) (l : list A) : list A := take (hi - lo) (drop lo l).
Definition splice {A} (off : nat) (src dst : list A) : list A :=
  take off dst ++ src ++ drop (off + length src) dst.

Lemma length_slice {A} lo hi (l : list A) :
  (hi <= length l)%nat -> length (slice lo hi l) = (hi - lo)%nat.
Proof. intros. unfold slice. rewrite length_take, length_drop. lia. Qed.

Lemma length_splice {A} off (src dst : list A) :
  (off + length src <= length dst)%nat -> length (splice off src dst) = length dst.
Proof. intros. unfold splice. rewrite !length_app, length_take, length_drop. lia. Qed.

Lemma splice_0 {A} (src dst : list A) : splice 0 src dst = src ++ drop (length src) dst.
Proof. done. Qed.

(** ** Bit fields: disjoint [lor] is addition *)

Lemma lor_shiftl_add a b n :
  0 <= n -> 0 <= a < 2 ^ n -> Z.lor a (Z.shiftl b n) = a + b * 2 ^ n.
Proof.
  intros Hn Ha.
  assert (H0 : Z.land a (Z.shiftl b n) = 0).
  { apply Z.bits_inj'; intros i Hi. rewrite Z.land_spec, Z.bits_0, Z.shiftl_spec by lia.
    destruct (Z.ltb_spec i n).
    - rewrite (Z.testbit_neg_r b) by lia. apply andb_false_r.
    - rewrite <- (Z.mod_small a (2 ^ n)), Z.mod_pow2_bits_high by lia. done. }
  rewrite <- Z.lxor_lor, <- Z.add_nocarry_lxor, Z.shiftl_mul_pow2 by assumption. done.
Qed.

(** [(x >> k) & (2^n - 1)] is a division and a remainder. *)
Lemma field_div_mod x k n :
  0 <= k -> 0 <= n -> Z.land (Z.shiftr x k) (Z.ones n) = (x / 2 ^ k) mod 2 ^ n.
Proof. intros. rewrite Z.land_ones, Z.shiftr_div_pow2 by lia. done. Qed.

(** ** Lists of options and counting *)

Lemma list_filter_all {A} (P : A -> Prop) `{forall x, Decision (P x)} l :
  Forall P l -> filter P l = l.
Proof. induction 1; [done|]. rewrite filter_cons_True by done. by f_equal. Qed.

Lemma list_filter_none {A} (P : A -> Prop) `{forall x, Decision (P x)} l :
  Forall (fun x => ~ P x) l -> filter P l = [].
Proof. induction 1; [done|]. by rewrite filter_cons_False. Qed.

Lemma list_filter_iff' {A} (P Q : A -> Prop) `{forall x, Decision (P x), forall x, Decision (Q x)} l :
  Forall (fun x => P x <-> Q x) l -> filter P l = filter Q l.
Proof.
  induction 1 as [|x l Hx Hl IH]; [done|]. destruct (decide (P x)).
  - rewrite !filter_cons_True by tauto. by f_equal.
  - by rewrite !filter_cons_False by tauto.
Qed.

Lemma length_filter_mono {A} (P Q : A -> Prop) `{forall x, Decision (P x), forall x, Decision (Q x)} l :
  (forall x, P x -> Q x) -> (length (filter P l) <= length (filter Q l))%nat.
Proof.
  intros HPQ. induction l as [|x l IH]; [done|]. destruct (decide (P x)) as [HP|HP].
  - rewrite !filter_cons_True by auto. cbn [length]. lia.
  - rewrite (filter_cons_False P) by done. rewrite filter_cons. case_decide; cbn [length]; lia.
Qed.

Definition count_some {A} (l : list (option A)) : nat := length (filter is_Some l).

(** An invariant of a run that folds its events into the state. *)
Lemma foldl_inv {S E} (f : S -> E -> S) (I : S -> Prop) l s :
  (forall s e, I s -> I (f s e)) -> I s -> I (foldl f s l).
Proof. intros Hf. revert s. induction l as [|e l IH]; [done|]. intros s Hs. by apply IH, Hf. Qed.

(** ** Reflexive-transitive closure of a step relation with reachability *)

Section Reachability.
Context {S : Type} (step : S -> S -> Prop).

Inductive steps : S -> S -> Prop :=
| steps_refl s : steps s s
| steps_next s1 s2 s3 : steps s1 s2 -> step s2 s3 -> steps s1 s3.

(** Rule induction for state invariants. *)
Lemma steps_invariant (I : S -> Prop) s0 s :
  I s0 -> (forall s1 s2, I s1 -> step s1 s2 -> I s2) -> steps s0 s -> I s.
Proof. intros H0 Hs Hst. induction Hst; eauto. Qed.
End Reachability.
