(* ===== verification/Wire.v ===== *)
(** * The GameStream video wire format ([kmc-gsproto/src/lib.rs])

    RTP header, [NvVideoPacket], [VideoFrameHeader], [FrameFecStatus] and the
    RTT probe, with the parity-count formula shared by host and client.
    [usize] is [nat]; [u8]/[u16]/[u32]/[u64] are [Z]; a byte string is a
    [list Z].  A writer returns [None] where the Rust slice would panic. *)
From S2P Require Import Prelude.

(** ** Constants *)

Definition NV_VIDEO_PACKET_SIZE : nat := 16.
Definition RTP_HEADER_SIZE : nat := 12.
Definition PADDING_SIZE : nat := 4.
Definition NV_PACKET_OFFSET : nat := RTP_HEADER_SIZE + PADDING_SIZE.
Definition PAYLOAD_OFFSET : nat := NV_PACKET_OFFSET + NV_VIDEO_PACKET_SIZE.
Definition VIDEO_FRAME_HEADER_SIZE : nat := 8.
Definition RTP_VERSION_FLAGS : Z := 0x90.
Definition MULTI_FEC_FLAGS : Z := 0x10.
Definition MAX_FEC_BLOCKS : nat := 4.
Definition MAX_SHARDS : nat := 255.
Definition FRAME_TYPE_DELTA : Z := 1.
Definition FRAME_TYPE_KEY : Z := 2.
Definition FRAME_HEADER_TYPE : Z := 1.
Definition CONTAINS_PIC_DATA : Z := 0x1.
Definition END_OF_FRAME : Z := 0x2.
Definition START_OF_FRAME : Z := 0x4.
Definition DEFAULT_BASE_PORT : Z := 47989.
Definition MSG_FRAME_FEC_STATUS : Z := 0x5502.

Definition ports_from_base (base : Z) : Z * Z * Z :=
  (base, wrapping_sub16 base 5, wrapping_add16 base 21).

(** [checked_sub(PAYLOAD_OFFSET).filter(|n| *n > 0)] *)
Definition shard_payload_len (datagram_len : nat) : option nat :=
  if (datagram_len <? PAYLOAD_OFFSET)%nat then None
  else let n := (datagram_len - PAYLOAD_OFFSET)%nat in
       if (0 <? n)%nat then Some n else None.

Definition div_ceil (a b : nat) : nat := ((a + b - 1) / b)%nat.

(** Parity shards of one FEC block, the formula both ends use. *)
Definition parity_shard_count (data_shards fec_percentage : nat) : nat :=
  if ((data_shards =? 0) || (fec_percentage =? 0))%nat then 0%nat
  else Nat.min (Nat.max (div_ceil (data_shards * fec_percentage) 100) 1)
               (MAX_SHARDS - data_shards).

(** ** RTP header (big-endian) *)

Record RtpHeader := mkRtpHeader {
  sequence_number : Z;
  timestamp : Z;
  ssrc : Z
}.

Definition rtp_header_bytes (h : RtpHeader) : list Z :=
  [RTP_VERSION_FLAGS; 0] ++ be_bytes 2 (sequence_number h)
    ++ be_bytes 4 (timestamp h) ++ be_bytes 4 (ssrc h).

(** [RtpHeader::write]: panics when the buffer is shorter than the header. *)
Definition rtp_header_write (h : RtpHeader) (buf : list Z) : option (list Z) :=
  if (length buf <? RTP_HEADER_SIZE)%nat then None
  else Some (splice 0 (rtp_header_bytes h) buf).

Definition rtp_header_read (buf : list Z) : option RtpHeader :=
  if (length buf <? RTP_HEADER_SIZE)%nat then None
  else Some {| sequence_number := be_val (slice 2 4 buf);
               timestamp := be_val (slice 4 8 buf);
               ssrc := be_val (slice 8 12 buf) |}.

(** ** NvVideoPacket (little-endian) *)

Record NvVideoPacket := mkNvVideoPacket {
  stream_packet_index : Z;
  nv_frame_index : Z;
  flags : Z;
  multi_fec_blocks : Z;
  fec_info : Z
}.

Definition nv_packet_bytes (p : NvVideoPacket) : list Z :=
  le_bytes 4 (u32 (Z.shiftl (stream_packet_index p) 8))
    ++ le_bytes 4 (nv_frame_index p)
    ++ [flags p; 0; MULTI_FEC_FLAGS; multi_fec_blocks p]
    ++ le_bytes 4 (fec_info p).

Definition nv_packet_write (p : NvVideoPacket) (buf : list Z) : option (list Z) :=
  if (length buf <? NV_VIDEO_PACKET_SIZE)%nat then None
  else Some (splice 0 (nv_packet_bytes p) buf).

Definition nv_packet_read (buf : list Z) : option NvVideoPacket :=
  if (length buf <? NV_VIDEO_PACKET_SIZE)%nat then None
  else Some {| stream_packet_index := Z.shiftr (le_val (slice 0 4 buf)) 8;
               nv_frame_index := le_val (slice 4 8 buf);
               flags := buf !!! 8%nat;
               multi_fec_blocks := buf !!! 11%nat;
               fec_info := le_val (slice 12 16 buf) |}.

(** [shard.get(NV_PACKET_OFFSET..)?] then [read]. *)
Definition read_from_shard (shard : list Z) : option NvVideoPacket :=
  if (length shard <? NV_PACKET_OFFSET)%nat then None
  else nv_packet_read (drop NV_PACKET_OFFSET shard).

Definition contains_pic_data (p : NvVideoPacket) : bool :=
  negb (Z.land (flags p) CONTAINS_PIC_DATA =? 0).
Definition start_of_frame (p : NvVideoPacket) : bool :=
  negb (Z.land (flags p) START_OF_FRAME =? 0).
Definition end_of_frame (p : NvVideoPacket) : bool :=
  negb (Z.land (flags p) END_OF_FRAME =? 0).

Definition block_index (p : NvVideoPacket) : nat :=
  Z.to_nat (Z.land (Z.shiftr (multi_fec_blocks p) 4) 0x3).
Definition block_count (p : NvVideoPacket) : nat :=
  Z.to_nat (Z.land (Z.shiftr (multi_fec_blocks p) 6) 0x3 + 1).
Definition shard_index (p : NvVideoPacket) : nat :=
  Z.to_nat (Z.land (Z.shiftr (fec_info p) 12) 0x3FF).
Definition data_shards (p : NvVideoPacket) : nat :=
  Z.to_nat (Z.land (Z.shiftr (fec_info p) 22) 0x3FF).
Definition fec_percentage (p : NvVideoPacket) : nat :=
  Z.to_nat (Z.land (Z.shiftr (fec_info p) 4) 0xFF).
Definition parity_shards (p : NvVideoPacket) : nat :=
  parity_shard_count (data_shards p) (fec_percentage p).

Definition pack_fec_info (shard_index data_shards fec_percentage : nat) : Z :=
  u32 (Z.lor (Z.lor (Z.shiftl (Z.of_nat shard_index) 12)
                    (Z.shiftl (Z.of_nat data_shards) 22))
             (Z.shiftl (Z.of_nat fec_percentage) 4)).

Definition pack_multi_fec_blocks (block_index block_count : nat) : Z :=
  Z.lor (u8 (Z.shiftl (u8 (Z.of_nat block_index)) 4))
        (u8 (Z.shiftl (u8 (u8 (Z.of_nat block_count) - 1)) 6)).

(** ** VideoFrameHeader (little-endian, once per frame) *)

Record VideoFrameHeader := mkVideoFrameHeader {
  is_key_frame : bool;
  frame_processing_latency : Z;
  last_payload_len : Z
}.

(** The destination is a [&mut [u8; 8]], so the write cannot panic. *)
Definition frame_header_bytes (h : VideoFrameHeader) : list Z :=
  [FRAME_HEADER_TYPE] ++ le_bytes 2 (frame_processing_latency h)
    ++ [if is_key_frame h then FRAME_TYPE_KEY else FRAME_TYPE_DELTA]
    ++ le_bytes 4 (last_payload_len h).

Definition frame_header_read (buf : list Z) : option VideoFrameHeader :=
  if (length buf <? VIDEO_FRAME_HEADER_SIZE)%nat then None
  else Some {| is_key_frame := buf !!! 3%nat =? FRAME_TYPE_KEY;
               frame_processing_latency := le_val (slice 1 3 buf);
               last_payload_len := le_val (slice 4 8 buf) |}.

(** ** SS_FRAME_FEC_STATUS (21 bytes, big-endian) *)

Record FrameFecStatus := mkFrameFecStatus {
  fs_frame_index : Z;
  highest_received_seq : Z;
  fs_next_contiguous_seq : Z;
  fs_missing_before_highest : Z;
  total_data_shards : Z;
  total_parity_shards : Z;
  received_data_shards : Z;
  received_parity_shards : Z;
  fs_fec_percentage : Z;
  fs_block_index : Z;
  fs_block_count : Z
}.

Definition FEC_STATUS_SIZE : nat := 21.

Definition fec_status_bytes (s : FrameFecStatus) : list Z :=
  be_bytes 4 (fs_frame_index s) ++ be_bytes 2 (highest_received_seq s)
    ++ be_bytes 2 (fs_next_contiguous_seq s) ++ be_bytes 2 (fs_missing_before_highest s)
    ++ be_bytes 2 (total_data_shards s) ++ be_bytes 2 (total_parity_shards s)
    ++ be_bytes 2 (received_data_shards s) ++ be_bytes 2 (received_parity_shards s)
    ++ [fs_fec_percentage s; fs_block_index s; fs_block_count s].

(** [FrameFecStatus::write]: the flag, and the buffer afterwards. *)
Definition fec_status_write (s : FrameFecStatus) (buf : list Z) : bool * list Z :=
  if (length buf <? FEC_STATUS_SIZE)%nat then (false, buf)
  else (true, splice 0 (fec_status_bytes s) buf).

Definition fec_status_to_bytes (s : FrameFecStatus) : list Z :=
  snd (fec_status_write s (replicate FEC_STATUS_SIZE 0)).

Definition fec_status_parse (buf : list Z) : option FrameFecStatus :=
  if (length buf <? FEC_STATUS_SIZE)%nat then None
  else
    let be16 o := be_val (slice o (o + 2) buf) in
    Some {| fs_frame_index := be_val (slice 0 4 buf);
            highest_received_seq := be16 4%nat;
            fs_next_contiguous_seq := be16 6%nat;
            fs_missing_before_highest := be16 8%nat;
            total_data_shards := be16 10%nat;
            total_parity_shards := be16 12%nat;
            received_data_shards := be16 14%nat;
            received_parity_shards := be16 16%nat;
            fs_fec_percentage := buf !!! 18%nat;
            fs_block_index := buf !!! 19%nat;
            fs_block_count := buf !!! 20%nat |}.

(** [loss_fraction] before the two [as f32] casts and the division: the
    numerator and the denominator. *)
Definition loss_counts (s : FrameFecStatus) : option (Z * Z) :=
  let total := total_data_shards s + total_parity_shards s in
  if total =? 0 then None
  else let recv := Z.min (received_data_shards s + received_parity_shards s) total in
       Some (total - recv, total).

(** ** PING and the RTT probe *)

Definition PING_PAYLOAD : list Z := [0x50; 0x49; 0x4E; 0x47].
Definition PONG_TAG : list Z := [0x50; 0x4F; 0x4E; 0x47].
Definition RTT_PROBE_SIZE : nat := 12.

Definition rtt_probe (micros : Z) : list Z := PONG_TAG ++ le_bytes 8 micros.

Definition parse_rtt_probe (buf : list Z) : option Z :=
  if negb (length buf =? RTT_PROBE_SIZE)%nat || negb (bool_decide (take 4 buf = PONG_TAG))
  then None else Some (le_val (drop 4 buf)).

(** ** Well-formed values: every field at its Rust width *)

Record rtp_header_ok (h : RtpHeader) : Prop := {
  rtp_seq_ok : is_u16 (sequence_number h);
  rtp_ts_ok : is_u32 (timestamp h);
  rtp_ssrc_ok : is_u32 (ssrc h)
}.

Record nv_packet_ok (p : NvVideoPacket) : Prop := {
  nv_spi_ok : is_u32 (stream_packet_index p);
  nv_frame_ok : is_u32 (nv_frame_index p);
  nv_flags_ok : is_u8 (flags p);
  nv_blocks_ok : is_u8 (multi_fec_blocks p);
  nv_fec_ok : is_u32 (fec_info p)
}.

Record frame_header_ok (h : VideoFrameHeader) : Prop := {
  fh_latency_ok : is_u16 (frame_processing_latency h);
  fh_last_ok : is_u32 (last_payload_len h)
}.

Record fec_status_ok (s : FrameFecStatus) : Prop := {
  fs_frame_ok : is_u32 (fs_frame_index s);
  fs_highest_ok : is_u16 (highest_received_seq s);
  fs_next_ok : is_u16 (fs_next_contiguous_seq s);
  fs_missing_ok : is_u16 (fs_missing_before_highest s);
  fs_total_data_ok : is_u16 (total_data_shards s);
  fs_total_parity_ok : is_u16 (total_parity_shards s);
  fs_recv_data_ok : is_u16 (received_data_shards s);
  fs_recv_parity_ok : is_u16 (received_parity_shards s);
  fs_pct_ok : is_u8 (fs_fec_percentage s);
  fs_bi_ok : is_u8 (fs_block_index s);
  fs_bc_ok : is_u8 (fs_block_count s)
}.

(** ** Readers applied to written bytes *)

Lemma rtp_header_bytes_length h : length (rtp_header_bytes h) = RTP_HEADER_SIZE.
Proof. reflexivity. Qed.
Lemma nv_packet_bytes_length p : length (nv_packet_bytes p) = NV_VIDEO_PACKET_SIZE.
Proof. reflexivity. Qed.
Lemma frame_header_bytes_length h : length (frame_header_bytes h) = VIDEO_FRAME_HEADER_SIZE.
Proof. reflexivity. Qed.
Lemma fec_status_bytes_length s : length (fec_status_bytes s) = FEC_STATUS_SIZE.
Proof. reflexivity. Qed.

Lemma rtp_header_read_bytes h rest :
  rtp_header_ok h -> rtp_header_read (rtp_header_bytes h ++ rest) = Some h.
Proof.
  intros [H1 H2 H3].
  transitivity (Some {| sequence_number := be_val (be_bytes 2 (sequence_number h));
                        timestamp := be_val (be_bytes 4 (timestamp h));
                        ssrc := be_val (be_bytes 4 (ssrc h)) |}); [reflexivity|].
  rewrite !be_val_id by assumption. now destruct h.
Qed.

Lemma nv_packet_read_bytes p rest :
  nv_packet_ok p ->
  nv_packet_read (nv_packet_bytes p ++ rest) =
  Some {| stream_packet_index := stream_packet_index p mod 2 ^ 24;
          nv_frame_index := nv_frame_index p; flags := flags p;
          multi_fec_blocks := multi_fec_blocks p; fec_info := fec_info p |}.
Proof.
  intros [H1 H2 H3 H4 H5].
  transitivity (Some {| stream_packet_index :=
                          Z.shiftr (le_val (le_bytes 4 (u32 (Z.shiftl (stream_packet_index p) 8)))) 8;
                        nv_frame_index := le_val (le_bytes 4 (nv_frame_index p));
                        flags := flags p;
                        multi_fec_blocks := multi_fec_blocks p;
                        fec_info := le_val (le_bytes 4 (fec_info p)) |}); [reflexivity|].
  rewrite !le_val_id by (assumption || apply u32_range).
  unfold u32. rewrite Z.shiftl_mul_pow2, Z.shiftr_div_pow2 by lia.
  do 2 f_equal. div_lia.
Qed.

Lemma frame_header_read_bytes h rest :
  frame_header_ok h -> frame_header_read (frame_header_bytes h ++ rest) = Some h.
Proof.
  intros [H1 H2].
  transitivity (Some {| is_key_frame :=
                          (if is_key_frame h then FRAME_TYPE_KEY else FRAME_TYPE_DELTA) =? FRAME_TYPE_KEY;
                        frame_processing_latency := le_val (le_bytes 2 (frame_processing_latency h));
                        last_payload_len := le_val (le_bytes 4 (last_payload_len h)) |});
    [reflexivity|].
  rewrite !le_val_id by assumption. now destruct h as [[] ? ?].
Qed.

Lemma fec_status_parse_bytes s :
  fec_status_ok s -> fec_status_parse (fec_status_bytes s) = Some s.
Proof.
  intros [].
  transitivity (Some
    {| fs_frame_index := be_val (be_bytes 4 (fs_frame_index s));
       highest_received_seq := be_val (be_bytes 2 (highest_received_seq s));
       fs_next_contiguous_seq := be_val (be_bytes 2 (fs_next_contiguous_seq s));
       fs_missing_before_highest := be_val (be_bytes 2 (fs_missing_before_highest s));
       total_data_shards := be_val (be_bytes 2 (total_data_shards s));
       total_parity_shards := be_val (be_bytes 2 (total_parity_shards s));
       received_data_shards := be_val (be_bytes 2 (received_data_shards s));
       received_parity_shards := be_val (be_bytes 2 (received_parity_shards s));
       fs_fec_percentage := fs_fec_percentage s;
       fs_block_index := fs_block_index s;
       fs_block_count := fs_block_count s |}); [reflexivity|].
  rewrite !be_val_id by assumption. now destruct s.
Qed.

Lemma rtt_probe_length m : length (rtt_probe m) = RTT_PROBE_SIZE.
Proof. reflexivity. Qed.

Lemma parse_rtt_probe_probe m : is_u64 m -> parse_rtt_probe (rtt_probe m) = Some m.
Proof.
  intros. transitivity (Some (le_val (le_bytes 8 m))); [reflexivity|].
  now rewrite le_val_id.
Qed.

(** A probe has exactly one length, below that of any datagram with a shard
    payload, and a PING is not a probe. *)
Lemma parse_rtt_probe_length buf m :
  parse_rtt_probe buf = Some m -> length buf = RTT_PROBE_SIZE.
Proof.
  unfold parse_rtt_probe. destruct (negb _ || negb _) eqn:E; [done|]. intros _. now bool_prop.
Qed.

Lemma shard_payload_len_spec n len :
  shard_payload_len n = Some len <-> (n = PAYLOAD_OFFSET + len /\ 0 < len)%nat.
Proof.
  unfold shard_payload_len. repeat case_if; bool_prop; split; intros; simplify_eq; try lia.
  f_equal. lia.
Qed.

(** ** The packed fields *)

Lemma pack_fec_info_value si ds pct :
  (si < 1024)%nat -> (ds < 1024)%nat -> (pct < 256)%nat ->
  pack_fec_info si ds pct
  = Z.of_nat pct * 2 ^ 4 + Z.of_nat si * 2 ^ 12 + Z.of_nat ds * 2 ^ 22.
Proof.
  intros. unfold pack_fec_info.
  rewrite Z.lor_comm, Z.lor_assoc.
  rewrite (Z.shiftl_mul_pow2 (Z.of_nat pct)) by lia.
  rewrite (lor_shiftl_add _ (Z.of_nat si)) by lia.
  rewrite (lor_shiftl_add _ (Z.of_nat ds)) by lia.
  apply u32_id. unfold is_u32. lia.
Qed.

Lemma pack_fec_info_fields p si ds pct :
  (si < 1024)%nat -> (ds < 1024)%nat -> (pct < 256)%nat ->
  fec_info p = pack_fec_info si ds pct ->
  shard_index p = si /\ data_shards p = ds /\ fec_percentage p = pct.
Proof.
  intros H1 H2 H3 E. unfold shard_index, data_shards, fec_percentage.
  rewrite E, pack_fec_info_value by assumption.
  change 0x3FF with (Z.ones 10). change 0xFF with (Z.ones 8).
  rewrite !field_div_mod by lia. repeat split; div_lia.
Qed.

Lemma pack_fec_info_range si ds pct : is_u32 (pack_fec_info si ds pct).
Proof. apply u32_range. Qed.

Lemma pack_multi_fec_blocks_fields p bi bc :
  (bi < bc <= MAX_FEC_BLOCKS)%nat ->
  multi_fec_blocks p = pack_multi_fec_blocks bi bc ->
  block_index p = bi /\ block_count p = bc /\ is_u8 (multi_fec_blocks p).
Proof.
  unfold MAX_FEC_BLOCKS, block_index, block_count; intros H ->.
  destruct bc as [|[|[|[|[|?]]]]]; destruct bi as [|[|[|[|?]]]]; try lia;
    vm_compute; repeat split; congruence.
Qed.

(** ** Parity counts *)

Lemma div_ceil_spec a b :
  (0 < b)%nat -> (a <= div_ceil a b * b)%nat /\ (div_ceil a b * b < a + b)%nat.
Proof. intros. unfold div_ceil. pose proof (Nat.div_mod_eq (a + b - 1) b).
  pose proof (Nat.mod_upper_bound (a + b - 1) b). nia. Qed.

Lemma parity_shard_count_total d pct :
  (d <= MAX_SHARDS)%nat -> (d + parity_shard_count d pct <= MAX_SHARDS)%nat.
Proof. unfold parity_shard_count. case_if; lia. Qed.

Lemma parity_shard_count_overfull d pct :
  (MAX_SHARDS <= d)%nat -> parity_shard_count d pct = 0%nat.
Proof. unfold parity_shard_count. intros. case_if; [done|lia]. Qed.

(** ** A shard with both headers written *)

Lemma write_headers_shape h p buf :
  (PAYLOAD_OFFSET <= length buf)%nat ->
  exists buf1 sub,
    rtp_header_write h buf = Some buf1
    /\ nv_packet_write p (drop NV_PACKET_OFFSET buf1) = Some sub
    /\ take NV_PACKET_OFFSET buf1 ++ sub =
       (rtp_header_bytes h ++ take PADDING_SIZE (drop RTP_HEADER_SIZE buf))
         ++ nv_packet_bytes p ++ drop PAYLOAD_OFFSET buf.
Proof.
  unfold rtp_header_write, nv_packet_write; intros Hl.
  unfold PAYLOAD_OFFSET, NV_PACKET_OFFSET, RTP_HEADER_SIZE, PADDING_SIZE,
    NV_VIDEO_PACKET_SIZE in *.
  rewrite (proj2 (Nat.ltb_ge _ _)) by lia.
  eexists _, _. split; [done|]. rewrite !splice_0, length_drop, length_app, length_drop.
  rewrite rtp_header_bytes_length, nv_packet_bytes_length.
  unfold RTP_HEADER_SIZE, NV_VIDEO_PACKET_SIZE.
  rewrite (proj2 (Nat.ltb_ge _ _)) by lia. split; [done|].
  rewrite drop_app_ge, take_app_ge by (rewrite rtp_header_bytes_length; unfold RTP_HEADER_SIZE; lia).
  rewrite rtp_header_bytes_length. unfold RTP_HEADER_SIZE.
  by rewrite !drop_drop.
Qed.

Lemma read_from_shard_headers h p pad rest :
  nv_packet_ok p -> length pad = PADDING_SIZE ->
  read_from_shard ((rtp_header_bytes h ++ pad) ++ nv_packet_bytes p ++ rest) =
  Some {| stream_packet_index := stream_packet_index p mod 2 ^ 24;
          nv_frame_index := nv_frame_index p; flags := flags p;
          multi_fec_blocks := multi_fec_blocks p; fec_info := fec_info p |}.
Proof.
  intros Hp Hpad. unfold read_from_shard.
  assert (L : length (rtp_header_bytes h ++ pad) = NV_PACKET_OFFSET)
    by by rewrite length_app, rtp_header_bytes_length, Hpad.
  rewrite (proj2 (Nat.ltb_ge _ _)) by (rewrite length_app, L; lia).
  rewrite drop_app_length' by done. by apply nv_packet_read_bytes.
Qed.

(** ** Properties *)

(** A packet written by the host reads back at the client with every
    field as written, except that the stream packet index keeps its low 24
    bits only; the RTP header in front of it reads back unchanged. *)
Theorem nv_packet_roundtrip (h : RtpHeader) (p : NvVideoPacket) (buf : list Z) :
  rtp_header_ok h -> nv_packet_ok p -> (PAYLOAD_OFFSET <= length buf)%nat ->
  exists buf1 sub shard,
    rtp_header_write h buf = Some buf1
    /\ nv_packet_write p (drop NV_PACKET_OFFSET buf1) = Some sub
    /\ shard = take NV_PACKET_OFFSET buf1 ++ sub
    /\ length shard = length buf
    /\ rtp_header_read shard = Some h
    /\ read_from_shard shard =
       Some {| stream_packet_index := stream_packet_index p mod 2 ^ 24;
               nv_frame_index := nv_frame_index p; flags := flags p;
               multi_fec_blocks := multi_fec_blocks p; fec_info := fec_info p |}.
Proof.
  intros Hh Hp Hl. pose proof (write_headers_shape h p buf Hl) as (b1 & sub & E1 & E2 & E3).
  exists b1, sub, (take NV_PACKET_OFFSET b1 ++ sub). rewrite E3.
  split_and!; try done.
  - rewrite !length_app, length_take, !length_drop, rtp_header_bytes_length,
      nv_packet_bytes_length.
    unfold PAYLOAD_OFFSET, NV_PACKET_OFFSET, RTP_HEADER_SIZE, PADDING_SIZE,
      NV_VIDEO_PACKET_SIZE in *. lia.
  - rewrite <- !app_assoc. by apply rtp_header_read_bytes.
  - apply read_from_shard_headers; [done|]. rewrite length_take, length_drop.
    unfold PAYLOAD_OFFSET, NV_PACKET_OFFSET, RTP_HEADER_SIZE, PADDING_SIZE in *. lia.
Qed.

Definition rtp_example : RtpHeader :=
  {| sequence_number := 0x1234; timestamp := 0xDEADBEEF; ssrc := 0 |}.
Definition nv_example : NvVideoPacket :=
  {| stream_packet_index := 0xABCDEF12; nv_frame_index := 7; flags := 5;
     multi_fec_blocks := 0; fec_info := 0 |}.

Lemma nv_packet_roundtrip_witness :
  exists buf1 sub shard,
    rtp_header_write rtp_example (replicate 40 0) = Some buf1
    /\ nv_packet_write nv_example (drop NV_PACKET_OFFSET buf1) = Some sub
    /\ shard = take NV_PACKET_OFFSET buf1 ++ sub
    /\ length shard = length (replicate 40 0)
    /\ rtp_header_read shard = Some rtp_example
    /\ read_from_shard shard =
       Some {| stream_packet_index := stream_packet_index nv_example mod 2 ^ 24;
               nv_frame_index := 7; flags := 5; multi_fec_blocks := 0; fec_info := 0 |}.
Proof.
  apply (nv_packet_roundtrip rtp_example nv_example (replicate 40 0)).
  - split; vm_compute; split; congruence.
  - split; vm_compute; split; congruence.
  - vm_compute; lia.
Defined.

(** The two bit-packed fields of a shard round-trip: the shard index,
    the data shard count and the FEC percentage through [fec_info], and the
    block index and count through [multi_fec_blocks]; so the receiver derives
    the sender's parity count from the wire alone. *)
Theorem packed_fields_roundtrip (p : NvVideoPacket) (si ds pct bi bc : nat) :
  (si < 1024)%nat -> (ds < 1024)%nat -> (pct < 256)%nat ->
  (bi < bc <= MAX_FEC_BLOCKS)%nat ->
  fec_info p = pack_fec_info si ds pct ->
  multi_fec_blocks p = pack_multi_fec_blocks bi bc ->
  shard_index p = si /\ data_shards p = ds /\ fec_percentage p = pct
  /\ block_index p = bi /\ block_count p = bc
  /\ parity_shards p = parity_shard_count ds pct.
Proof.
  intros H1 H2 H3 Hb Hf Hm.
  destruct (pack_fec_info_fields p si ds pct) as (? & E1 & E2); try done.
  destruct (pack_multi_fec_blocks_fields p bi bc) as (? & ? & _); try done.
  unfold parity_shards. by rewrite E1, E2.
Qed.

Lemma packed_fields_roundtrip_witness :
  let p := {| stream_packet_index := 0; nv_frame_index := 0; flags := 0;
              multi_fec_blocks := pack_multi_fec_blocks 2 4;
              fec_info := pack_fec_info 37 200 60 |} in
  shard_index p = 37%nat /\ data_shards p = 200%nat /\ fec_percentage p = 60%nat
  /\ block_index p = 2%nat /\ block_count p = 4%nat
  /\ parity_shards p = parity_shard_count 200 60.
Proof.
  apply packed_fields_roundtrip; try reflexivity; unfold MAX_FEC_BLOCKS; lia.
Defined.

(** The shared parity count: no parity without data or at 0 %, otherwise
    the ceiling of [data * pct / 100] cut at [255 - data]; it is at least 1
    whenever a block of fewer than 255 data shards asks for protection, and a
    block never exceeds 255 shards; a block of 255 data shards or more gets
    none. *)
Theorem parity_shard_count_spec (d pct : nat) :
  let n := parity_shard_count d pct in
  ((d = 0 \/ pct = 0)%nat -> n = 0%nat)
  /\ ((0 < d < MAX_SHARDS)%nat -> (0 < pct)%nat ->
      (1 <= n)%nat /\ (d + n <= MAX_SHARDS)%nat
      /\ ((d + n < MAX_SHARDS)%nat ->
          (d * pct <= 100 * n)%nat /\ (100 * n < d * pct + 100)%nat))
  /\ ((MAX_SHARDS <= d)%nat -> n = 0%nat).
Proof.
  intros n. pose proof (div_ceil_spec (d * pct) 100) as Hc.
  repeat split; subst n; unfold parity_shard_count, MAX_SHARDS in *.
  - intros. case_if; bool_prop; [done|lia].
  - case_if; bool_prop; lia.
  - case_if; bool_prop; lia.
  - case_if; bool_prop; nia.
  - case_if; bool_prop; nia.
  - intros. case_if; bool_prop; lia.
Qed.

(** A FEC status report written on the control channel parses back to
    the same report, a report is rejected exactly when fewer than 21 bytes
    arrive, and the loss it stands for lies between 0 and the total. *)
Theorem fec_status_roundtrip (s : FrameFecStatus) (rest : list Z) :
  fec_status_ok s ->
  fec_status_parse (fec_status_to_bytes s ++ rest) = Some s
  /\ (forall buf, fec_status_parse buf = None <-> (length buf < FEC_STATUS_SIZE)%nat)
  /\ (forall n t, loss_counts s = Some (n, t) -> 0 <= n <= t /\ 0 < t).
Proof.
  intros Hs. split; [|split].
  - exact (fec_status_parse_bytes s Hs).
  - intros buf. unfold fec_status_parse. case_if; bool_prop; split; intros; try done; lia.
  - intros n t. destruct Hs. unfold is_u16 in *. unfold loss_counts.
    case_if; [done|]; intros; simplify_eq; bool_prop. lia.
Qed.

Definition fec_status_example : FrameFecStatus :=
  {| fs_frame_index := 7; highest_received_seq := 41; fs_next_contiguous_seq := 12;
     fs_missing_before_highest := 3; total_data_shards := 100; total_parity_shards := 20;
     received_data_shards := 90; received_parity_shards := 18; fs_fec_percentage := 20;
     fs_block_index := 1; fs_block_count := 2 |}.

Lemma fec_status_roundtrip_witness :
  fec_status_parse (fec_status_to_bytes fec_status_example ++ [9]) = Some fec_status_example
  /\ (forall buf, fec_status_parse buf = None <-> (length buf < FEC_STATUS_SIZE)%nat)
  /\ (forall n t, loss_counts fec_status_example = Some (n, t) -> 0 <= n <= t /\ 0 < t).
Proof.
  apply (fec_status_roundtrip fec_status_example [9]).
  split; vm_compute; split; congruence.
Defined.

(** The RTT probe: the host reads back the timestamp it sent, only
    12-byte datagrams are probes, and neither a PING nor any datagram long
    enough to carry a shard payload is mistaken for one. *)
Theorem rtt_probe_roundtrip (micros : Z) :
  is_u64 micros ->
  parse_rtt_probe (rtt_probe micros) = Some micros
  /\ parse_rtt_probe PING_PAYLOAD = None
  /\ (forall buf len, shard_payload_len (length buf) = Some len -> parse_rtt_probe buf = None)
  /\ shard_payload_len (length (rtt_probe micros)) = None.
Proof.
  intros H. split_and!; try done.
  - by apply parse_rtt_probe_probe.
  - intros buf len E. apply shard_payload_len_spec in E as [E ?].
    destruct (parse_rtt_probe buf) eqn:P; [|done].
    apply parse_rtt_probe_length in P. rewrite E in P. done.
Qed.

Lemma rtt_probe_roundtrip_witness :
  parse_rtt_probe (rtt_probe 1234567890) = Some 1234567890
  /\ parse_rtt_probe PING_PAYLOAD = None
  /\ (forall buf len, shard_payload_len (length buf) = Some len -> parse_rtt_probe buf = None)
  /\ shard_payload_len (length (rtt_probe 1234567890)) = None.
Proof. apply (rtt_probe_roundtrip 1234567890). split; vm_compute; congruence. Defined.
