(* ===== verification/BTree.v ===== *)
(** * Ordered maps ([std::collections::BTreeMap])

    A map from integer keys kept as an association list sorted by key, so
    that [keys().next()], [range(..k)] and [iter()] have the ascending order
    the program relies on. *)
From S2P Require Import Prelude.

Section BTree.
Context {V : Type}.
Implicit Types (m : list (Z * V)) (k : Z) (v : V).

Fixpoint bt_get (k : Z) (m : list (Z * V)) : option V :=
  match m with
  | [] => None
  | (k', v) :: m => if k =? k' then Some v else bt_get k m
  end.

Fixpoint bt_insert (k : Z) (v : V) (m : list (Z * V)) : list (Z * V) :=
  match m with
  | [] => [(k, v)]
  | (k', v') :: m' =>
      if k <? k' then (k, v) :: m
      else if k =? k' then (k, v) :: m'
      else (k', v') :: bt_insert k v m'
  end.

Fixpoint bt_remove (k : Z) (m : list (Z * V)) : list (Z * V) :=
  match m with
  | [] => []
  | (k', v') :: m' => if k =? k' then m' else (k', v') :: bt_remove k m'
  end.

Definition bt_contains (k : Z) (m : list (Z * V)) : bool :=
  match bt_get k m with Some _ => true | None => false end.

(** [range(..k)] and its complement *)
Definition bt_below (k : Z) (m : list (Z * V)) : list (Z * V) :=
  filter (fun e => e.1 < k) m.

Fixpoint bt_sorted (m : list (Z * V)) : Prop :=
  match m with
  | [] => True
  | (k, _) :: m' => Forall (fun e => k < e.1) m' /\ bt_sorted m'
  end.

Lemma bt_get_Some_elem k v m : bt_get k m = Some v -> (k, v) ∈ m.
Proof.
  induction m as [|[k' v'] m IH]; simpl; [done|]. case_if; intros; bool_prop; simplify_eq.
  - left.
  - right. auto.
Qed.

Lemma bt_get_elem k v m : bt_sorted m -> (k, v) ∈ m -> bt_get k m = Some v.
Proof.
  induction m as [|[k' v'] m IH]; simpl; [by rewrite elem_of_nil|].
  intros [H1 H2] [?|?]%elem_of_cons; simplify_eq.
  - by rewrite Z.eqb_refl.
  - pose proof (proj1 (Forall_forall _ _) H1 _ H) as L; simpl in L.
    case_if; bool_prop; [lia|]. auto.
Qed.

Lemma bt_get_None_above k m : Forall (fun e => k < e.1) m -> bt_get k m = None.
Proof.
  induction 1 as [|[k' v'] m H Hm IH]; simpl in *; [done|]. case_if; bool_prop; [lia|done].
Qed.

Lemma bt_insert_elem k v m e : e ∈ bt_insert k v m -> e = (k, v) \/ e ∈ m.
Proof.
  induction m as [|[k1 v1] m IH]; simpl; [intros ->%list_elem_of_singleton; auto|].
  repeat case_if; rewrite ?elem_of_cons; [naive_solver..|]. intros [?|?%IH]; naive_solver.
Qed.

Lemma bt_insert_Forall (P : Z * V -> Prop) k v m :
  P (k, v) -> Forall P m -> Forall P (bt_insert k v m).
Proof. rewrite !Forall_forall. intros ? ? e [->|?]%bt_insert_elem; auto. Qed.

Lemma bt_insert_sorted k v m : bt_sorted m -> bt_sorted (bt_insert k v m).
Proof.
  induction m as [|[k' v'] m IH]; simpl; [auto|]. intros [H1 H2].
  repeat case_if; bool_prop; simpl.
  - split; [|done]. constructor; [done|]. eapply Forall_impl; [exact H1|]. simpl; lia.
  - subst k'. done.
  - split; [|auto]. apply bt_insert_Forall; [simpl; lia|done].
Qed.

Lemma bt_get_insert_eq k v m : bt_get k (bt_insert k v m) = Some v.
Proof.
  induction m as [|[k' v'] m IH]; simpl; [by rewrite Z.eqb_refl|].
  repeat case_if; simpl; rewrite ?Z.eqb_refl; try done. by rewrite E0.
Qed.

Lemma bt_get_insert_ne k k' v m : k <> k' -> bt_get k' (bt_insert k v m) = bt_get k' m.
Proof.
  intros Hne. induction m as [|[k1 v1] m IH]; simpl.
  - case_if; bool_prop; [congruence|done].
  - repeat case_if; simpl; bool_prop; subst; rewrite ?Z.eqb_refl;
      repeat case_if; bool_prop; try congruence; try lia; done.
Qed.

Lemma bt_insert_same k v m : bt_sorted m -> bt_get k m = Some v -> bt_insert k v m = m.
Proof.
  induction m as [|[k' v'] m IH]; simpl; [done|]. intros [H1 H2] E.
  destruct (k =? k') eqn:Ek; bool_prop.
  - subst. simplify_eq. by rewrite Z.ltb_irrefl.
  - assert (k' < k).
    { apply bt_get_Some_elem in E. rewrite Forall_forall in H1. by apply (H1 (k, v)). }
    rewrite (proj2 (Z.ltb_ge _ _)) by lia. by rewrite IH.
Qed.

Lemma bt_insert_insert k v v' m : bt_insert k v (bt_insert k v' m) = bt_insert k v m.
Proof.
  induction m as [|[k' w] m IH]; simpl.
  - by rewrite Z.ltb_irrefl, Z.eqb_refl.
  - repeat case_if; bool_prop; subst; simpl; rewrite ?Z.ltb_irrefl, ?Z.eqb_refl; try done.
    rewrite (proj2 (Z.ltb_ge _ _)), (proj2 (Z.eqb_neq _ _)) by lia. by rewrite IH.
Qed.

(** The greatest key sits at the end. *)
Lemma bt_get_below k m : Forall (fun e => e.1 < k) m -> bt_get k m = None.
Proof. induction 1 as [|[k' v'] m H Hm IH]; simpl in *; [done|]. case_if; bool_prop; [lia|done]. Qed.

Lemma bt_get_last k v m : Forall (fun e => e.1 < k) m -> bt_get k (m ++ [(k, v)]) = Some v.
Proof.
  induction 1 as [|[k' v'] m H Hm IH]; simpl in *; [by rewrite Z.eqb_refl|]. case_if; bool_prop; [lia|done].
Qed.

Lemma bt_insert_last k v m : Forall (fun e => e.1 < k) m -> bt_insert k v m = m ++ [(k, v)].
Proof.
  induction 1 as [|[k' v'] m H Hm IH]; simpl in *; [done|]. rewrite (proj2 (Z.ltb_ge _ _)), (proj2 (Z.eqb_neq _ _)) by lia.
  by rewrite IH.
Qed.

Lemma bt_insert_replace_last k v w m : Forall (fun e => e.1 < k) m ->
  bt_insert k v (m ++ [(k, w)]) = m ++ [(k, v)].
Proof. intros H. by rewrite <- (bt_insert_last k w m), bt_insert_insert, bt_insert_last. Qed.

Lemma bt_sorted_last k v m : bt_sorted m -> Forall (fun e => e.1 < k) m -> bt_sorted (m ++ [(k, v)]).
Proof. intros Hs H. rewrite <- (bt_insert_last k v m) by done. by apply bt_insert_sorted. Qed.

Lemma bt_filter_Forall (Q P : Z * V -> Prop) `{forall e, Decision (P e)} m : Forall Q m -> Forall Q (filter P m).
Proof. rewrite !Forall_forall. by intros H' e [_ He]%list_elem_of_filter; apply H'. Qed.

Lemma bt_filter_sorted (P : Z * V -> Prop) `{forall e, Decision (P e)} m : bt_sorted m -> bt_sorted (filter P m).
Proof.
  induction m as [|[k v] m IH]; [done|]. intros [H1 H2]. rewrite filter_cons. case_decide; [|by apply IH].
  split; [by apply bt_filter_Forall|by apply IH].
Qed.

Lemma bt_remove_elem k m e : e ∈ bt_remove k m -> e ∈ m.
Proof.
  induction m as [|[k' v'] m IH]; simpl; [done|]. case_if.
  - intros. by right.
  - rewrite !elem_of_cons. intros [?|?]; auto.
Qed.

Lemma bt_remove_Forall (P : Z * V -> Prop) k m : Forall P m -> Forall P (bt_remove k m).
Proof. rewrite !Forall_forall. intros H e He. eapply H, bt_remove_elem, He. Qed.

Lemma bt_remove_sorted k m : bt_sorted m -> bt_sorted (bt_remove k m).
Proof.
  induction m as [|[k' v'] m IH]; simpl; [done|]. intros [H1 H2]. case_if; [done|].
  split; [by apply bt_remove_Forall|auto].
Qed.

Lemma length_bt_remove k m : (length (bt_remove k m) <= length m)%nat.
Proof. induction m as [|[k' v'] m IH]; simpl; [done|]. case_if; simpl; lia. Qed.

Lemma length_bt_insert k v m : (length (bt_insert k v m) <= S (length m))%nat.
Proof. induction m as [|[k' v'] m IH]; simpl; [done|]. repeat case_if; simpl; lia. Qed.

Lemma length_bt_insert_eq k v v' m :
  bt_sorted m -> bt_get k m = Some v' -> length (bt_insert k v m) = length m.
Proof.
  induction m as [|[k' w] m IH]; simpl; [done|]. intros [H1 H2] E.
  destruct (k =? k') eqn:Ek; bool_prop.
  - subst. by rewrite Z.ltb_irrefl.
  - assert (k' < k).
    { apply bt_get_Some_elem in E. rewrite Forall_forall in H1. by apply (H1 (k, v')). }
    rewrite (proj2 (Z.ltb_ge _ _)) by lia. simpl. by rewrite IH.
Qed.

Lemma bt_sorted_NoDup m : bt_sorted m -> NoDup (map fst m).
Proof.
  induction m as [|[k v] m IH]; simpl; [constructor|]. intros [H1 H2]. constructor; [|auto].
  rewrite list_elem_of_fmap. intros ([k' v'] & -> & H). rewrite Forall_forall in H1.
  specialize (H1 _ H). simpl in H1. lia.
Qed.

(** Removing the keys of a filter leaves the complement, in order. *)
Lemma bt_remove_head k v m : bt_remove k ((k, v) :: m) = m.
Proof. simpl. by rewrite Z.eqb_refl. Qed.

Lemma bt_remove_skip k m1 m2 :
  Forall (fun e => e.1 <> k) m1 -> bt_remove k (m1 ++ m2) = m1 ++ bt_remove k m2.
Proof.
  induction 1 as [|[k' v'] m1 H Hm IH]; [done|]. simpl in *.
  rewrite (proj2 (Z.eqb_neq _ _)) by lia. by rewrite IH.
Qed.

Lemma bt_get_remove k i m :
  bt_sorted m -> bt_get i (bt_remove k m) = if i =? k then None else bt_get i m.
Proof.
  induction m as [|[k' v'] m IH]; simpl; [by case_if|]. intros [H1 H2].
  destruct (k =? k') eqn:Ek; bool_prop; simpl.
  - subst k'. destruct (i =? k) eqn:Ei; bool_prop; [|done]. subst. by apply bt_get_None_above.
  - rewrite IH by done. destruct (i =? k') eqn:Ei; bool_prop; [|done].
    subst. by rewrite (proj2 (Z.eqb_neq _ _)) by lia.
Qed.

Lemma bt_get_insert k v i m :
  bt_get i (bt_insert k v m) = if i =? k then Some v else bt_get i m.
Proof.
  destruct (i =? k) eqn:E; bool_prop; [subst; apply bt_get_insert_eq|].
  apply bt_get_insert_ne. lia.
Qed.

Lemma bt_filter_get (P : Z * V -> Prop) `{forall e, Decision (P e)} m :
  bt_sorted m ->
  NoDup (map fst (filter P m)) /\ Forall (fun e => bt_get e.1 m = Some e.2) (filter P m).
Proof.
  intros Hs. split.
  - apply bt_sorted_NoDup in Hs. induction m as [|e m IH]; [constructor|].
    simpl in Hs. inversion Hs as [|? ? Hn Hm]; subst. rewrite filter_cons.
    case_decide; [|auto]. simpl. constructor; [|auto].
    rewrite list_elem_of_fmap. intros (e' & Ee & [_ He']%list_elem_of_filter).
    apply Hn. rewrite list_elem_of_fmap. eauto.
  - apply Forall_forall. intros [k v] [_ He]%list_elem_of_filter. simpl.
    by apply bt_get_elem.
Qed.
End BTree.
