(* ===== verification/Fec.v ===== *)
(** * The Reed-Solomon codec the program calls ([fec-rs], third party)

    The codec is a parameter of the model: [ReedSolomon] is its interface and
    [ReedSolomonLaws] the documented behaviour the two ends rely on, stated
    only for the shard counts for which [ReedSolomon::new] succeeds.
    [XorCodec] at the end is a concrete lawful codec (one XOR parity shard),
    used by the witnesses. *)
From S2P Require Import Prelude.

Class ReedSolomon := {
  (** [ReedSolomon::new(data, parity).is_ok()] *)
  rs_new : nat -> nat -> bool;
  (** [encode]: [None] is an error, which leaves the shards untouched *)
  rs_encode : nat -> nat -> list (list Z) -> option (list (list Z));
  (** [reconstruct_data]: fills the missing data shards; an error ([None])
      leaves the slots untouched *)
  rs_reconstruct_data :
    nat -> nat -> list (option (list Z)) -> option (list (option (list Z)))
}.

(** Every slot is empty or holds the shard of the codeword. *)
Definition consistent {A} (slots : list (option A)) (cw : list A) : Prop :=
  Forall2 (fun o c => o = None \/ o = Some c) slots cw.

Definition uniform (len : nat) (shards : list (list Z)) : Prop :=
  Forall (fun s => length s = len) shards.

Class ReedSolomonLaws (R : ReedSolomon) : Prop := {
  rs_encode_ok d p len shards :
    rs_new d p = true -> length shards = (d + p)%nat -> uniform len shards -> (0 < len)%nat ->
    exists out, rs_encode d p shards = Some out /\ length out = (d + p)%nat
      /\ uniform len out /\ take d out = take d shards;
  (** Columns are independent: encoding commutes with dropping columns. *)
  rs_encode_drop d p len shards out k :
    rs_new d p = true -> length shards = (d + p)%nat -> uniform len shards -> (k < len)%nat ->
    rs_encode d p shards = Some out ->
    rs_encode d p (map (drop k) shards) = Some (map (drop k) out);
  (** Any [d] shards of a codeword determine its data shards. *)
  rs_reconstruct_ok d p len shards cw slots :
    rs_new d p = true -> length shards = (d + p)%nat -> uniform len shards -> (0 < len)%nat ->
    rs_encode d p shards = Some cw -> consistent slots cw -> (d <= count_some slots)%nat ->
    exists slots', rs_reconstruct_data d p slots = Some slots'
      /\ consistent slots' cw /\ Forall is_Some (take d slots');
  (** The slots are a slice: their number does not change. *)
  rs_reconstruct_length d p slots slots' :
    rs_reconstruct_data d p slots = Some slots' -> length slots' = length slots
}.

(** ** Lemmas on slots *)

Section Slots.
Context {A : Type}.
Implicit Types (slots : list (option A)) (cw : list A).

Lemma consistent_length slots cw : consistent slots cw -> length slots = length cw.
Proof. apply Forall2_length. Qed.

Lemma consistent_lookup slots cw i c :
  consistent slots cw -> slots !! i = Some (Some c) -> cw !! i = Some c.
Proof.
  intros H E. destruct (Forall2_lookup_l _ _ _ _ _ H E) as (c' & E' & [?|?]); by simplify_eq.
Qed.

Lemma consistent_insert slots cw i c :
  consistent slots cw -> cw !! i = Some c -> consistent (<[i := Some c]> slots) cw.
Proof.
  intros H E. rewrite <- (list_insert_id cw i c E). apply Forall2_insert; auto.
Qed.

Lemma consistent_empty cw : consistent (replicate (length cw) None) cw.
Proof. induction cw; constructor; auto. Qed.

(** Data slots that are all present are the data of the codeword. *)
Lemma consistent_complete slots cw d :
  consistent slots cw -> Forall is_Some (take d slots) -> take d slots = Some <$> take d cw.
Proof.
  intros H. revert d. induction H as [|o c slots cw Ho H IH]; intros [|d] Hd; simpl in *; try done.
  inversion Hd as [|?? [x Hx] Hd']; simplify_eq. destruct Ho; simplify_eq. f_equal. auto.
Qed.
End Slots.

Lemma uniform_drop len k shards :
  uniform len shards -> uniform (len - k) (map (drop k) shards).
Proof.
  unfold uniform. rewrite Forall_map. intros H. eapply Forall_impl; [exact H|].
  intros s <-. apply length_drop.
Qed.

Lemma uniform_app len a b : uniform len a -> uniform len b -> uniform len (a ++ b).
Proof. apply Forall_app_2. Qed.

(** ** [XorCodec]: a concrete lawful codec with a single parity shard *)

Section XorCodec.
Definition col (k : nat) (rows : list (list Z)) : Z :=
  foldr (fun r acc => Z.lxor (r !!! k) acc) 0 rows.

Definition xor_rows (rows : list (list Z)) : list Z :=
  map (fun k => col k rows) (seq 0 (length (default [] (head rows)))).

Definition xor_encode (d p : nat) (shards : list (list Z)) : option (list (list Z)) :=
  if (length shards =? d + p)%nat then Some (take d shards ++ [xor_rows (take d shards)])
  else None.

(** Every empty slot takes the sum of the present ones. *)
Definition xor_reconstruct (d p : nat) (slots : list (option (list Z)))
  : option (list (option (list Z))) :=
  if (count_some slots <? d)%nat then None
  else let fill := xor_rows (omap id slots) in
       Some (map (fun o => Some (default fill o)) slots).

Definition XorCodec : ReedSolomon := {|
  rs_new d p := ((0 <? d) && (p =? 1))%nat;
  rs_encode := xor_encode;
  rs_reconstruct_data := xor_reconstruct
|}.

Lemma col_app k a b : col k (a ++ b) = Z.lxor (col k a) (col k b).
Proof.
  induction a as [|r a IH]; simpl; [by rewrite Z.lxor_0_l|]. by rewrite IH, Z.lxor_assoc.
Qed.

Lemma col_drop n k rows : col k (map (drop n) rows) = col (n + k) rows.
Proof.
  induction rows as [|r rows IH]; simpl; [done|]. by rewrite IH, lookup_total_drop.
Qed.

Lemma head_length len rows :
  uniform len rows -> (0 < length rows)%nat -> length (default [] (head rows)) = len.
Proof. intros H. destruct H; simpl; [lia|done]. Qed.

Lemma length_xor_rows len rows :
  uniform len rows -> (0 < length rows)%nat -> length (xor_rows rows) = len.
Proof. intros. unfold xor_rows. rewrite length_map, length_seq. by apply head_length. Qed.

Lemma lookup_xor_rows len rows k :
  uniform len rows -> (0 < length rows)%nat -> (k < len)%nat ->
  xor_rows rows !! k = Some (col k rows).
Proof.
  intros. unfold xor_rows. rewrite list_lookup_fmap, lookup_seq_lt; [done|].
  by rewrite (head_length len).
Qed.

Lemma xor_rows_drop len n rows :
  uniform len rows -> (0 < length rows)%nat ->
  xor_rows (map (drop n) rows) = drop n (xor_rows rows).
Proof.
  intros Hu Hr. pose proof (uniform_drop len n rows Hu) as Hu'.
  assert (0 < length (map (drop n) rows))%nat by by rewrite length_map.
  apply list_eq_same_length with (len - n)%nat.
  - rewrite length_drop. by rewrite (length_xor_rows len).
  - by apply length_xor_rows.
  - intros i x y Hi. rewrite lookup_drop.
    erewrite !lookup_xor_rows by (eauto; lia). rewrite col_drop. congruence.
Qed.

(** In a codeword with one row missing, the rest sum up to that row. *)
Lemma xor_rows_missing len a x b :
  uniform len (a ++ x :: b) -> (0 < length (a ++ b))%nat ->
  (forall k, (k < len)%nat -> col k (a ++ x :: b) = 0) -> xor_rows (a ++ b) = x.
Proof.
  intros Hu Hl H0. unfold uniform in Hu.
  rewrite Forall_app, Forall_cons in Hu. destruct Hu as (Ha & Hx & Hb).
  assert (Hu : uniform len (a ++ b)) by by apply uniform_app.
  apply list_eq_same_length with len; [done|by apply length_xor_rows|].
  intros i u v Hi Eu Ev. erewrite lookup_xor_rows in Eu by (eauto; lia).
  specialize (H0 i Hi). rewrite col_app in *. simpl in H0.
  rewrite (list_lookup_total_correct _ _ _ Ev) in H0. simplify_eq.
  rewrite (Z.lxor_comm v), <- Z.lxor_assoc in H0. by apply Z.lxor_eq in H0.
Qed.

Lemma xor_codeword_col len d rows k :
  uniform len rows -> (0 < length rows)%nat -> (k < len)%nat -> d = length rows ->
  col k (take d rows ++ [xor_rows (take d rows)]) = 0.
Proof.
  intros Hu Hr Hk ->. rewrite firstn_all, col_app. simpl.
  rewrite (list_lookup_total_correct _ _ _ (lookup_xor_rows _ _ _ Hu Hr Hk)).
  by rewrite Z.lxor_0_r, Z.lxor_nilpotent.
Qed.

(** At most one slot of a consistent row is empty once [length - 1] are
    present: either all are, or the empty one splits the codeword. *)
Lemma one_missing {A} (slots : list (option A)) cw :
  consistent slots cw -> (length cw <= S (count_some slots))%nat ->
  (slots = Some <$> cw)
  \/ exists a x b, cw = a ++ x :: b /\ slots = (Some <$> a) ++ None :: (Some <$> b).
Proof.
  unfold count_some. induction 1 as [|o c slots cw Ho H IH]; simpl; [by left|].
  destruct o as [v|].
  - rewrite filter_cons_True by done. destruct Ho; simplify_eq. simpl. intros.
    destruct IH as [->|(a & x & b & -> & ->)]; [lia|by left|].
    right. by exists (c :: a), x, b.
  - rewrite filter_cons_False by (by intros [? ?]). intros Hl. right. exists [], c, cw.
    simpl. split; [done|]. f_equal. clear Ho IH. revert Hl.
    induction H as [|o' c' slots cw Ho H IH]; simpl; [done|]. destruct o' as [v'|].
    + rewrite filter_cons_True by done. destruct Ho; simplify_eq. simpl. intros.
      f_equal. apply IH. lia.
    + rewrite filter_cons_False by (by intros [? ?]). intros.
      pose proof (length_filter is_Some slots). apply Forall2_length in H. lia.
Qed.

#[export] Instance XorCodec_laws : ReedSolomonLaws XorCodec.
Proof.
  split; simpl.
  - intros d p len shards Hn Hl Hu H0. bool_prop; subst p.
    unfold xor_encode. rewrite Hl, Nat.eqb_refl. eexists. split; [done|].
    assert (Ht : uniform len (take d shards)) by by apply Forall_take.
    assert (length (take d shards) = d) by (rewrite length_take; lia).
    split_and!.
    + rewrite length_app. simpl. lia.
    + apply uniform_app; [done|]. constructor; [|done]. apply length_xor_rows; [done|lia].
    + rewrite take_app_le by lia. by rewrite take_take, Nat.min_id.
  - intros d p len shards out k Hn Hl Hu Hk. bool_prop; subst p.
    unfold xor_encode. rewrite length_map, Hl, Nat.eqb_refl. intros; simplify_eq.
    assert (length (take d shards) = d) by (rewrite length_take; lia).
    rewrite map_app, <- firstn_map. simpl. do 3 f_equal.
    rewrite firstn_map. apply xor_rows_drop with len; [by apply Forall_take|lia].
  - intros d p len shards cw slots Hn Hl Hu H0 E Hc Hs. bool_prop; subst p.
    unfold xor_encode in E. rewrite Hl, Nat.eqb_refl in E. injection E as <-.
    assert (Ld : length (take d shards) = d) by (rewrite length_take; lia).
    unfold xor_reconstruct. rewrite (proj2 (Nat.ltb_ge _ _)) by lia. eexists; split; [done|].
    assert (Hall : Forall is_Some (take d (map (fun o => Some (default (xor_rows (omap id slots)) o)) slots))).
    { apply Forall_take, Forall_map, Forall_true. by eexists. }
    split; [|done].
    assert (Hcw : forall k, (k < len)%nat ->
              col k (take d shards ++ [xor_rows (take d shards)]) = 0).
    { intros k Hk. pose proof (xor_codeword_col len d (take d shards) k) as X.
      rewrite take_take, Nat.min_id in X. apply X; try done; [by apply Forall_take|lia]. }
    destruct (one_missing slots _ Hc) as [->|(a & x & b & Ec & ->)].
    + rewrite length_app. simpl. lia.
    + clear. generalize (xor_rows (omap id (Some <$> take d shards ++ [xor_rows (take d shards)]))).
      intros fill. generalize (take d shards ++ [xor_rows (take d shards)]).
      intros cw. induction cw; constructor; auto.
    + assert (Hfill : xor_rows (omap id ((Some <$> a) ++ None :: (Some <$> b))) = x).
      { assert (Ho : forall l : list (list Z), omap id (Some <$> l) = l)
          by (intros l; induction l as [|? l IH]; [done|]; csimpl; by rewrite IH).
        rewrite omap_app. simpl. rewrite !Ho. apply xor_rows_missing with len.
        - rewrite <- Ec. apply uniform_app; [by apply Forall_take|].
          constructor; [|done]. apply length_xor_rows; [by apply Forall_take|lia].
        - apply (f_equal length) in Ec. rewrite length_app in Ec. rewrite !length_app in *.
          simpl in Ec. lia.
        - intros k Hk. rewrite <- Ec. auto. }
      rewrite Hfill, Ec, map_app. apply Forall2_app; [|constructor; [by right|]].
      * clear. induction a; constructor; auto.
      * clear. induction b; constructor; auto.
  - intros d p slots slots'. unfold xor_reconstruct. case_if; intros; simplify_eq.
    apply length_map.
Qed.
End XorCodec.
