(* ===== verification/Packetizer.v ===== *)
(** * Splitting a frame into shards ([kmc-streamhost/src/video/packetizer.rs])

    [packetize_frame] and its helper [copy_header_and_data].  A result [None]
    is a Rust panic (slice out of range, division by zero, [usize]
    underflow).  The three mutable arguments and the returned vector are the
    components of the result. *)
From S2P Require Import Prelude Wire Fec.

(** ** [copy_header_and_data]: bytes [offset, offset+len) of header ++ data *)

Definition copy_header_and_data
    (dst header encoded_data : list Z) (offset len : nat) : option (list Z) :=
  let total := (VIDEO_FRAME_HEADER_SIZE + length encoded_data)%nat in
  let end_ := Nat.min (offset + len) total in
  if (end_ <? offset)%nat || (length dst <? end_ - offset)%nat then None
  else if (offset <? VIDEO_FRAME_HEADER_SIZE)%nat then
    let header_end := Nat.min VIDEO_FRAME_HEADER_SIZE end_ in
    let n := (header_end - offset)%nat in
    let dst := splice 0 (slice offset header_end header) dst in
    if (VIDEO_FRAME_HEADER_SIZE <? end_)%nat then
      let m := (end_ - VIDEO_FRAME_HEADER_SIZE)%nat in
      Some (splice n (take m encoded_data) dst)
    else Some dst
  else
    let data_start := (offset - VIDEO_FRAME_HEADER_SIZE)%nat in
    let data_end := (end_ - VIDEO_FRAME_HEADER_SIZE)%nat in
    Some (splice 0 (slice data_start data_end encoded_data) dst).

(** ** The splitting policy *)

Definition fec_clamp (fec_percentage : nat) : nat := Nat.min (Nat.max fec_percentage 10) 60.

Definition last_shard_size (packet_data_len shard_payload_size : nat) : nat :=
  match (packet_data_len mod shard_payload_size)%nat with
  | O => shard_payload_size
  | n => n
  end.

Definition total_data_shards_of (packet_data_len shard_payload_size : nat) : nat :=
  Nat.max (div_ceil packet_data_len shard_payload_size) 1.

Definition nr_data_per_block (fec : nat) : nat :=
  (MAX_SHARDS - MAX_SHARDS * fec / (100 + fec))%nat.

Definition nr_blocks_of (total_data_shards nr_data : nat) : nat :=
  Nat.min ((total_data_shards - 1) / nr_data + 1) MAX_FEC_BLOCKS.

(** Data shards [start, end) of a block; the last block takes the rest. *)
Definition block_range (total_data_shards nr_data nr_blocks block_index : nat) : nat * nat :=
  let start := (block_index * nr_data)%nat in
  let end_ := if (block_index =? nr_blocks - 1)%nat then total_data_shards
              else Nat.min ((block_index + 1) * nr_data) total_data_shards in
  (start, end_).

(** What one call fixes for all its shards. *)
Record FrameJob := mkFrameJob {
  job_header : list Z;
  job_data : list Z;
  job_payload_size : nat;
  job_frame_number : Z;
  job_timestamp : Z;
  job_fec : nat;
  job_total : nat;
  job_blocks : nat
}.

Definition job_packet_len (j : FrameJob) : nat :=
  (VIDEO_FRAME_HEADER_SIZE + length (job_data j))%nat.
Definition job_shard_size (j : FrameJob) : nat := (PAYLOAD_OFFSET + job_payload_size j)%nat.

(** ** Data shards *)

Definition shard_flags (global_data_index total : nat) : Z :=
  let f := CONTAINS_PIC_DATA in
  let f := if (global_data_index =? 0)%nat then Z.lor f START_OF_FRAME else f in
  if (global_data_index =? total - 1)%nat then Z.lor f END_OF_FRAME else f.

(** Body of the inner loop: headers, then the payload bytes. *)
Definition pack_data_shard (j : FrameJob) (mfb : Z) (start nr_data_shards : nat)
    (seq spi : Z) (i : nat) : option (list Z) :=
  let global_data_index := (start + i)%nat in
  let payload_start := (global_data_index * job_payload_size j)%nat in
  if (job_packet_len j <? payload_start)%nat then None
  else
    let payload_len := Nat.min (job_payload_size j) (job_packet_len j - payload_start) in
    let cur_seq := wrapping_add32 seq (Z.of_nat i) in
    let shard := replicate (job_shard_size j) 0 in
    shard <-? rtp_header_write {| sequence_number := u16 cur_seq;
                                  timestamp := job_timestamp j; ssrc := 0 |} shard;
    sub <-? nv_packet_write
              {| stream_packet_index := spi;
                 nv_frame_index := job_frame_number j;
                 flags := shard_flags global_data_index (job_total j);
                 multi_fec_blocks := mfb;
                 fec_info := pack_fec_info i nr_data_shards (job_fec j) |}
              (drop NV_PACKET_OFFSET shard);
    let shard := take NV_PACKET_OFFSET shard ++ sub in
    payload <-? copy_header_and_data (drop PAYLOAD_OFFSET shard) (job_header j) (job_data j)
                  payload_start payload_len;
    Some (take PAYLOAD_OFFSET shard ++ payload).

(** The inner loop from shard [i] on, with the stream packet index threaded. *)
Fixpoint pack_data_shards (j : FrameJob) (mfb : Z) (start nr_data_shards : nat)
    (seq spi : Z) (i todo : nat) : option (list (list Z) * Z) :=
  match todo with
  | O => Some ([], spi)
  | S todo =>
      shard <-? pack_data_shard j mfb start nr_data_shards seq spi i;
      rest <-? pack_data_shards j mfb start nr_data_shards seq (wrapping_add32 spi 1) (S i) todo;
      Some (shard :: rest.1, rest.2)
  end.

(** ** Parity shards: the header bytes patched after the encoding *)

Definition patch_parity (j : FrameJob) (mfb : Z) (nr_data_shards : nat) (seq : Z)
    (block_shard_index : nat) (shard : list Z) : list Z :=
  let cur_seq := wrapping_add32 seq (Z.of_nat block_shard_index) in
  let shard := splice 0 [RTP_VERSION_FLAGS; 0] shard in
  let shard := splice 2 (be_bytes 2 (u16 cur_seq)) shard in
  let shard := splice (NV_PACKET_OFFSET + 4) (le_bytes 4 (job_frame_number j)) shard in
  let shard := splice (NV_PACKET_OFFSET + 11) [mfb] shard in
  splice (NV_PACKET_OFFSET + 12)
    (le_bytes 4 (pack_fec_info block_shard_index nr_data_shards (job_fec j))) shard.

Section Packetize.
Context `{R : ReedSolomon}.

(** [rs.encode(block_slice)]; any error leaves the zero parity shards. *)
Definition encode_block (nr_data nr_parity : nat) (shards : list (list Z)) : list (list Z) :=
  if (0 <? nr_parity)%nat then
    if rs_new nr_data nr_parity then default shards (rs_encode nr_data nr_parity shards)
    else shards
  else shards.

(** One iteration of the block loop: the shards of the block, the next
    sequence number and stream packet index. *)
Definition pack_block (j : FrameJob) (start nr_data_shards block_index : nat)
    (seq spi : Z) : option (list (list Z) * Z * Z) :=
  let nr_parity := parity_shard_count nr_data_shards (job_fec j) in
  let mfb := pack_multi_fec_blocks block_index (job_blocks j) in
  data <-? pack_data_shards j mfb start nr_data_shards seq spi 0 nr_data_shards;
  let block := encode_block nr_data_shards nr_parity
                 (data.1 ++ replicate nr_parity (replicate (job_shard_size j) 0)) in
  let parity := imap (fun i => patch_parity j mfb nr_data_shards seq (nr_data_shards + i))
                     (drop nr_data_shards block) in
  Some (take nr_data_shards block ++ parity,
        wrapping_add32 seq (Z.of_nat (nr_data_shards + nr_parity)), data.2).

(** The block loop from [block_index] on. *)
Fixpoint pack_blocks (j : FrameJob) (nr_data : nat) (block_index todo : nat)
    (seq spi : Z) : option (list (list Z) * Z * Z) :=
  match todo with
  | O => Some ([], seq, spi)
  | S todo =>
      let '(start, end_) := block_range (job_total j) nr_data (job_blocks j) block_index in
      if (end_ <? start)%nat then None
      else if (end_ - start =? 0)%nat then Some ([], seq, spi)
      else
        b <-? pack_block j start (end_ - start) block_index seq spi;
        let '(shards, seq, spi) := b in
        rest <-? pack_blocks j nr_data (S block_index) todo seq spi;
        let '(more, seq, spi) := rest in
        Some (shards ++ more, seq, spi)
  end.

Definition frame_job (encoded_data : list Z) (key : bool) (shard_payload_size : nat)
    (frame_number rtp_timestamp : Z) (fec : nat) : FrameJob :=
  let packet_data_len := (VIDEO_FRAME_HEADER_SIZE + length encoded_data)%nat in
  let total := total_data_shards_of packet_data_len shard_payload_size in
  {| job_header := frame_header_bytes
       {| is_key_frame := key; frame_processing_latency := 0;
          last_payload_len := u32 (Z.of_nat (last_shard_size packet_data_len shard_payload_size)) |};
     job_data := encoded_data;
     job_payload_size := shard_payload_size;
     job_frame_number := frame_number;
     job_timestamp := rtp_timestamp;
     job_fec := fec;
     job_total := total;
     job_blocks := nr_blocks_of total (nr_data_per_block fec) |}.

(** [packetize_frame]: the shards and the two counters it advances. *)
Definition packetize_frame (encoded_data : list Z) (key : bool)
    (requested_packet_size : nat) (frame_number sequence_number spi rtp_timestamp : Z)
    (fec_percentage : nat) : option (list (list Z) * Z * Z) :=
  let fec := fec_clamp fec_percentage in
  if (requested_packet_size <=? NV_VIDEO_PACKET_SIZE)%nat then None
  else
    let shard_payload_size := (requested_packet_size - NV_VIDEO_PACKET_SIZE)%nat in
    let j := frame_job encoded_data key shard_payload_size frame_number rtp_timestamp fec in
    pack_blocks j (nr_data_per_block fec) 0 (job_blocks j) sequence_number spi.
End Packetize.

(** ** What a data shard looks like *)

(** The logical stream of a frame, and its [k]-th zero-padded piece. *)
Definition job_stream (j : FrameJob) : list Z := job_header j ++ job_data j.
Definition chunk (psz k : nat) (l : list Z) : list Z :=
  let c := take psz (drop (k * psz) l) in c ++ replicate (psz - length c) 0.

Lemma length_chunk psz k l : length (chunk psz k l) = psz.
Proof. unfold chunk. rewrite length_app, length_replicate, length_take. lia. Qed.

(** The pieces of a stream, in order, are the stream and its padding. *)
Lemma concat_chunks psz n l :
  (0 < psz)%nat -> (length l <= n * psz)%nat ->
  concat (map (fun k => chunk psz k l) (seq 0 n)) = l ++ replicate (n * psz - length l) 0.
Proof.
  intros Hp. revert l. induction n as [|n IH]; intros l Hl.
  - destruct l; simpl in *; [done|lia].
  - simpl seq. rewrite map_cons, <- seq_shift, map_map. simpl concat.
    rewrite (map_ext _ (fun k => chunk psz k (drop psz l))).
    2: { intros k. unfold chunk. by rewrite drop_drop. }
    rewrite IH by (rewrite length_drop; lia).
    unfold chunk. simpl. rewrite drop_0, length_take, length_drop.
    destruct (Nat.le_gt_cases (length l) psz).
    + rewrite (take_ge l), (drop_ge l) by lia. simpl. rewrite <- app_assoc. f_equal.
      rewrite <- replicate_add. f_equal. lia.
    + replace (psz - _)%nat with 0%nat by lia. simpl. rewrite app_nil_r, app_assoc, take_drop.
      f_equal. f_equal. lia.
Qed.

Record job_ok (j : FrameJob) : Prop := {
  job_header_ok : length (job_header j) = VIDEO_FRAME_HEADER_SIZE;
  job_payload_ok : (0 < job_payload_size j)%nat;
  job_total_ok : job_total j = total_data_shards_of (job_packet_len j) (job_payload_size j)
}.

Lemma job_stream_length j : job_ok j -> length (job_stream j) = job_packet_len j.
Proof. intros H. unfold job_stream, job_packet_len. by rewrite length_app, job_header_ok. Qed.

Lemma job_total_spec j :
  job_ok j ->
  (1 <= job_total j)%nat /\ (job_packet_len j <= job_total j * job_payload_size j)%nat
  /\ ((job_total j - 1) * job_payload_size j < job_packet_len j)%nat.
Proof.
  intros H. rewrite (job_total_ok j H). unfold total_data_shards_of.
  pose proof (div_ceil_spec (job_packet_len j) _ (job_payload_ok j H)) as [H1 H2].
  unfold job_packet_len, VIDEO_FRAME_HEADER_SIZE in *.
  destruct (div_ceil _ _) as [|n]; simpl in *; nia.
Qed.

(** The last shard's valid length, and with it the padding. *)
Lemma last_shard_size_spec j :
  job_ok j ->
  let last := last_shard_size (job_packet_len j) (job_payload_size j) in
  (0 < last <= job_payload_size j)%nat
  /\ (job_total j * job_payload_size j - job_packet_len j = job_payload_size j - last)%nat.
Proof.
  intros Hj last. pose proof (job_total_spec j Hj) as (H1 & H2 & H3).
  pose proof (job_payload_ok j Hj) as Hp.
  pose proof (Nat.div_mod_eq (job_packet_len j) (job_payload_size j)) as E.
  pose proof (Nat.mod_upper_bound (job_packet_len j) (job_payload_size j) ltac:(lia)).
  subst last. unfold last_shard_size.
  destruct (job_total j) as [|t]; [lia|]. rewrite Nat.sub_succ, Nat.sub_0_r in H3.
  set (psz := job_payload_size j) in *. set (len := job_packet_len j) in *.
  destruct (len mod psz)%nat as [|n] eqn:Er.
  - assert (len / psz = S t)%nat by nia. split; [lia|]. nia.
  - assert (len / psz = t)%nat by nia. split; [lia|]. nia.
Qed.

Lemma copy_header_and_data_eq dst h d off len :
  length h = VIDEO_FRAME_HEADER_SIZE -> (off <= VIDEO_FRAME_HEADER_SIZE + length d)%nat ->
  (len <= length dst)%nat ->
  copy_header_and_data dst h d off len =
  Some (let c := take len (drop off (h ++ d)) in c ++ drop (length c) dst).
Proof.
  unfold copy_header_and_data, VIDEO_FRAME_HEADER_SIZE. intros Hh Ho Hl. cbv zeta.
  rewrite length_take, length_drop, length_app, Hh.
  rewrite (proj2 (Nat.ltb_ge _ off)) by lia. rewrite (proj2 (Nat.ltb_ge (length dst) _)) by lia.
  simpl orb. cbv iota. repeat case_if; bool_prop; f_equal.
  - rewrite drop_app_le, take_app_ge by (rewrite ?length_drop; lia). rewrite !length_drop, Hh.
    replace (Nat.min 8 _) with 8%nat by lia. unfold slice.
    rewrite (take_ge (drop off h)) by (rewrite length_drop; lia).
    rewrite splice_0. unfold splice.
    rewrite take_app_length' by (rewrite length_drop; lia).
    rewrite length_take, <- app_assoc. f_equal. f_equal.
    + destruct (Nat.le_gt_cases (off + len) (8 + length d)); [f_equal; lia|].
      by rewrite !take_ge by lia.
    + rewrite drop_app_ge, drop_drop by (rewrite length_drop; lia). f_equal.
      rewrite length_drop. lia.
  - rewrite splice_0. unfold slice. rewrite length_take, length_drop.
    destruct (Nat.le_gt_cases (off + len) (8 + length d)).
    + rewrite drop_app_le, take_app_le by (rewrite ?length_drop; lia).
      f_equal; f_equal; lia.
    + assert (d = []) as -> by (destruct d; [done|simpl in *; lia]).
      rewrite app_nil_r, !take_ge by (rewrite ?length_drop; cbn [length] in *; lia).
      do 2 f_equal. cbn [length] in *. lia.
  - rewrite splice_0. unfold slice. rewrite length_take, length_drop.
    rewrite drop_app_ge by lia. rewrite Hh. f_equal.
    + destruct (Nat.le_gt_cases (off + len) (8 + length d)); [f_equal; lia|].
      rewrite !take_ge by (rewrite length_drop; lia). done.
    + f_equal. lia.
Qed.

Definition data_shard_rtp (j : FrameJob) (seq : Z) (i : nat) : RtpHeader :=
  {| sequence_number := u16 (wrapping_add32 seq (Z.of_nat i));
     timestamp := job_timestamp j; ssrc := 0 |}.

Definition data_shard_nv (j : FrameJob) (mfb : Z) (start nd : nat) (spi : Z) (i : nat)
  : NvVideoPacket :=
  {| stream_packet_index := spi; nv_frame_index := job_frame_number j;
     flags := shard_flags (start + i) (job_total j); multi_fec_blocks := mfb;
     fec_info := pack_fec_info i nd (job_fec j) |}.

Definition data_shard (j : FrameJob) (mfb : Z) (start nd : nat) (seq spi : Z) (i : nat)
  : list Z :=
  (rtp_header_bytes (data_shard_rtp j seq i) ++ replicate PADDING_SIZE 0)
    ++ nv_packet_bytes (data_shard_nv j mfb start nd spi i)
    ++ chunk (job_payload_size j) (start + i) (job_stream j).

Lemma length_data_shard j mfb start nd seq spi i :
  length (data_shard j mfb start nd seq spi i) = job_shard_size j.
Proof.
  unfold data_shard, job_shard_size.
  rewrite !length_app, rtp_header_bytes_length, nv_packet_bytes_length, length_chunk,
    length_replicate. unfold PAYLOAD_OFFSET, NV_PACKET_OFFSET. lia.
Qed.

Lemma pack_data_shard_eq j mfb start nd seq spi i :
  job_ok j -> (start + i < job_total j)%nat ->
  pack_data_shard j mfb start nd seq spi i = Some (data_shard j mfb start nd seq spi i).
Proof.
  intros Hj Hi. pose proof (job_total_spec j Hj) as (H1 & H2 & H3).
  pose proof (job_payload_ok j Hj). pose proof (job_stream_length j Hj) as Hs.
  unfold pack_data_shard. set (psz := job_payload_size j) in *.
  assert (Hps : ((start + i) * psz < job_packet_len j)%nat).
  { eapply Nat.le_lt_trans; [|exact H3]. apply Nat.mul_le_mono_r. lia. }
  rewrite (proj2 (Nat.ltb_ge _ _)) by lia.
  destruct (write_headers_shape (data_shard_rtp j seq i) (data_shard_nv j mfb start nd spi i)
              (replicate (job_shard_size j) 0)) as (b1 & sub & E1 & E2 & E3).
  { rewrite length_replicate. unfold job_shard_size. lia. }
  unfold data_shard_rtp, data_shard_nv in E1, E2. rewrite E1, E2, E3. clear E1 E2 E3.
  rewrite !drop_replicate, take_replicate, !app_assoc.
  set (hd := (_ ++ _) ++ nv_packet_bytes _).
  assert (Hhd : length hd = PAYLOAD_OFFSET).
  { unfold hd. rewrite !length_app, rtp_header_bytes_length, nv_packet_bytes_length,
      length_replicate. unfold job_shard_size, PAYLOAD_OFFSET, NV_PACKET_OFFSET,
      RTP_HEADER_SIZE, PADDING_SIZE, NV_VIDEO_PACKET_SIZE. lia. }
  rewrite drop_app_length', take_app_length' by done.
  rewrite copy_header_and_data_eq; [|by apply job_header_ok|unfold job_packet_len in *; lia|].
  2: { rewrite length_replicate. unfold job_shard_size. lia. }
  f_equal. unfold data_shard. rewrite (app_assoc (rtp_header_bytes _ ++ _)). f_equal.
  unfold chunk. cbv zeta. fold (job_stream j) psz.
  assert (Ht : take (Nat.min psz (job_packet_len j - (start + i) * psz))
                    (drop ((start + i) * psz) (job_stream j))
               = take psz (drop ((start + i) * psz) (job_stream j))).
  { rewrite <- take_take. f_equal. rewrite take_ge; [done|]. by rewrite length_drop, Hs. }
  rewrite Ht, drop_replicate. f_equal.
  apply (f_equal (fun n => replicate n 0)). unfold job_shard_size. lia.
Qed.

Lemma pack_data_shards_eq j mfb start nd seq spi i todo :
  job_ok j -> is_u32 spi -> (start + i + todo <= job_total j)%nat ->
  pack_data_shards j mfb start nd seq spi i todo =
  Some (map (fun k => data_shard j mfb start nd seq (u32 (spi + Z.of_nat k)) (i + k))
            (List.seq 0 todo),
        u32 (spi + Z.of_nat todo)).
Proof.
  intros Hj. revert spi i. induction todo as [|todo IH]; intros spi i Hs Ht.
  - simpl. do 2 f_equal. by rewrite Z.add_0_r, u32_id.
  - cbn [pack_data_shards]. rewrite pack_data_shard_eq by (done || lia).
    rewrite IH by (apply u32_range || lia). cbn [fst snd List.seq map]. f_equal. f_equal.
    + rewrite Z.add_0_r, u32_id, Nat.add_0_r by done. f_equal.
      rewrite <- seq_shift, map_map. apply map_ext. intros k. f_equal; [|lia].
      unfold wrapping_add32, u32. rewrite Zplus_mod_idemp_l. f_equal. lia.
    + unfold wrapping_add32, u32. rewrite Zplus_mod_idemp_l. f_equal. lia.
Qed.

(** ** The block plan of a frame *)

Lemma fec_clamp_range pct : (10 <= fec_clamp pct <= 60)%nat.
Proof. unfold fec_clamp. lia. Qed.

Lemma nr_data_per_block_range fec :
  (10 <= fec <= 60)%nat -> (160 <= nr_data_per_block fec <= 232)%nat.
Proof.
  intros H. unfold nr_data_per_block, MAX_SHARDS.
  assert (E : (255 * fec / (100 + fec) <= 95)%nat).
  { apply Nat.lt_succ_r, Nat.Div0.div_lt_upper_bound. lia. }
  assert (E' : (23 <= 255 * fec / (100 + fec))%nat) by (apply Nat.div_le_lower_bound; lia).
  lia.
Qed.

Section Plan.
Context (total nd : nat).
Context (Ht : (1 <= total)%nat) (Hn : (1 <= nd)%nat).
Abbreviation blocks := (nr_blocks_of total nd).

Lemma nr_blocks_range : (1 <= blocks <= MAX_FEC_BLOCKS)%nat.
Proof. clear. unfold nr_blocks_of, MAX_FEC_BLOCKS. lia. Qed.

(** Every block before the last is full. *)
Lemma nr_blocks_full b : (b < blocks)%nat -> (b * nd < total)%nat.
Proof.
  unfold nr_blocks_of. intros H. pose proof (Nat.Div0.mul_div_le (total - 1) nd). nia.
Qed.

Lemma nr_blocks_uncapped : (total <= 4 * nd)%nat -> (total <= blocks * nd)%nat.
Proof.
  unfold nr_blocks_of, MAX_FEC_BLOCKS. intros H.
  pose proof (Nat.mul_succ_div_gt (total - 1) nd). nia.
Qed.

Lemma block_range_spec b :
  (b < blocks)%nat ->
  let '(start, end_) := block_range total nd blocks b in
  start = (b * nd)%nat /\ (start < end_ <= total)%nat
  /\ end_ = (if (b =? blocks - 1)%nat then total else (S b * nd)%nat).
Proof.
  intros H. unfold block_range. pose proof (nr_blocks_full b H).
  destruct (b =? blocks - 1)%nat eqn:E; bool_prop; [lia|].
  pose proof (nr_blocks_full (S b)). split; [done|]. nia.
Qed.
End Plan.

(** First data shard and number of data and parity shards of block [b]. *)
Definition blk_start (j : FrameJob) (b : nat) : nat :=
  (block_range (job_total j) (nr_data_per_block (job_fec j)) (job_blocks j) b).1.
Definition blk_end (j : FrameJob) (b : nat) : nat :=
  (block_range (job_total j) (nr_data_per_block (job_fec j)) (job_blocks j) b).2.
Definition blk_data (j : FrameJob) (b : nat) : nat := (blk_end j b - blk_start j b)%nat.
Definition blk_parity (j : FrameJob) (b : nat) : nat :=
  parity_shard_count (blk_data j b) (job_fec j).
Definition blk_mfb (j : FrameJob) (b : nat) : Z := pack_multi_fec_blocks b (job_blocks j).

(** A job as [packetize_frame] builds it. *)
Record job_plan_ok (j : FrameJob) : Prop := {
  plan_job :> job_ok j;
  plan_fec : (10 <= job_fec j <= 60)%nat;
  plan_blocks : job_blocks j = nr_blocks_of (job_total j) (nr_data_per_block (job_fec j))
}.

Lemma frame_job_ok data key psz fn ts pct :
  (0 < psz)%nat -> job_plan_ok (frame_job data key psz fn ts (fec_clamp pct)).
Proof.
  intros. split; [split|apply fec_clamp_range|]; try done.
Qed.

Section PlanOf.
Context (j : FrameJob) (Hj : job_plan_ok j).

Lemma plan_blocks_range : (1 <= job_blocks j <= MAX_FEC_BLOCKS)%nat.
Proof. rewrite (plan_blocks j Hj). apply nr_blocks_range. Qed.

Lemma blk_spec b :
  (b < job_blocks j)%nat ->
  blk_start j b = (b * nr_data_per_block (job_fec j))%nat
  /\ (blk_start j b < blk_end j b <= job_total j)%nat
  /\ blk_end j b = (if (b =? job_blocks j - 1)%nat then job_total j else blk_start j (S b)).
Proof.
  unfold blk_start, blk_end. rewrite (plan_blocks j Hj). intros H.
  pose proof (block_range_spec (job_total j) (nr_data_per_block (job_fec j))) as X.
  pose proof (nr_data_per_block_range _ (plan_fec j Hj)).
  pose proof (job_total_spec j Hj) as (? & _).
  specialize (X ltac:(lia) ltac:(lia) b H).
  destruct (block_range _ _ _ b) as [s e] eqn:E. simpl. destruct X as (-> & X2 & ->).
  repeat split; try lia.
Qed.

(** No block of a frame of at most [3 * nd + 255] shards is oversized. *)
Lemma blk_data_bound b :
  (job_total j <= 3 * nr_data_per_block (job_fec j) + MAX_SHARDS)%nat ->
  (b < job_blocks j)%nat -> (1 <= blk_data j b <= MAX_SHARDS)%nat.
Proof.
  intros Ht Hb. unfold blk_data. pose proof (blk_spec b Hb) as (E1 & E2 & E3).
  pose proof (nr_data_per_block_range _ (plan_fec j Hj)).
  split; [lia|]. rewrite E3 in *. destruct (b =? job_blocks j - 1)%nat eqn:E; bool_prop.
  - destruct (Nat.le_gt_cases (job_total j) (4 * nr_data_per_block (job_fec j))) as [Hle|Hgt].
    + pose proof (nr_blocks_uncapped (job_total j) (nr_data_per_block (job_fec j))) as X.
      rewrite <- (plan_blocks j Hj) in X. pose proof (job_total_spec j Hj) as (? & _).
      unfold MAX_SHARDS in *. specialize (X ltac:(lia) ltac:(lia) Hle). nia.
    + assert (job_blocks j = 4%nat) as E4.
      { rewrite (plan_blocks j Hj). unfold nr_blocks_of, MAX_FEC_BLOCKS.
        assert (4 <= (job_total j - 1) / nr_data_per_block (job_fec j))%nat; [|lia].
        apply Nat.div_le_lower_bound; lia. }
      rewrite E1, E, E4 in *. unfold MAX_SHARDS in *. lia.
  - destruct (blk_spec (S b)) as (-> & _); [lia|]. rewrite E1. unfold MAX_SHARDS. lia.
Qed.

(** Any block but the last has at most [nd] data shards. *)
Lemma blk_data_lt_total b : (b < job_blocks j)%nat -> (blk_start j b + blk_data j b <= job_total j)%nat.
Proof. intros Hb. unfold blk_data. pose proof (blk_spec b Hb). lia. Qed.
End PlanOf.

(** ** What every shard of a block carries *)

(** The header fields both kinds of shards have; parity shards keep codec
    bytes in the others. *)
Record shard_headers (j : FrameJob) (b : nat) (seq : Z) (i : nat) (d : list Z) : Prop := {
  sh_length : length d = job_shard_size j;
  sh_version : d !!! 0%nat = RTP_VERSION_FLAGS;
  sh_rtp : exists rtp, rtp_header_read d = Some rtp
                       /\ sequence_number rtp = u16 (wrapping_add32 seq (Z.of_nat i));
  sh_nv : exists nv, read_from_shard d = Some nv
                     /\ nv_frame_index nv = job_frame_number j
                     /\ multi_fec_blocks nv = blk_mfb j b
                     /\ fec_info nv = pack_fec_info i (blk_data j b) (job_fec j)
}.

Lemma u16_u32 z : is_u16 z -> is_u32 z.
Proof. unfold is_u16, is_u32. lia. Qed.

Lemma shard_flags_u8 k n : is_u8 (shard_flags k n).
Proof. unfold shard_flags. repeat case_if; vm_compute; split; congruence. Qed.

Lemma pack_multi_fec_blocks_u8 bi bc :
  (bi < bc <= MAX_FEC_BLOCKS)%nat -> is_u8 (pack_multi_fec_blocks bi bc).
Proof.
  intros H. set (p := mkNvVideoPacket 0 0 0 (pack_multi_fec_blocks bi bc) 0).
  by destruct (pack_multi_fec_blocks_fields p bi bc H) as (_ & _ & ?).
Qed.

Section Headers.
Context (j : FrameJob) (Hj : job_plan_ok j).
Context (Hf : is_u32 (job_frame_number j)) (Hts : is_u32 (job_timestamp j)).

Lemma blk_mfb_u8 b : (b < job_blocks j)%nat -> is_u8 (blk_mfb j b).
Proof.
  intros. apply pack_multi_fec_blocks_u8. pose proof (plan_blocks_range j Hj). lia.
Qed.

Lemma data_shard_headers b seq spi i :
  (b < job_blocks j)%nat -> is_u32 spi ->
  shard_headers j b seq i
    (data_shard j (blk_mfb j b) (blk_start j b) (blk_data j b) seq spi i).
Proof.
  intros Hb Hs. split.
  - apply length_data_shard.
  - done.
  - exists (data_shard_rtp j seq i). split; [|done]. unfold data_shard.
    rewrite <- app_assoc. apply rtp_header_read_bytes. split; simpl.
    + apply u16_range.
    + done.
    + split; vm_compute; congruence.
  - eexists. split.
    + apply read_from_shard_headers.
      * split; simpl; try done; [apply shard_flags_u8|by apply blk_mfb_u8|].
        apply pack_fec_info_range.
      * apply length_replicate.
    + done.
Qed.

Lemma data_shard_payload mfb start nd seq spi i :
  drop PAYLOAD_OFFSET (data_shard j mfb start nd seq spi i)
  = chunk (job_payload_size j) (start + i) (job_stream j).
Proof.
  unfold data_shard. rewrite (app_assoc (rtp_header_bytes _ ++ _)).
  apply drop_app_length'. rewrite !length_app, rtp_header_bytes_length,
    nv_packet_bytes_length, length_replicate. done.
Qed.

(** The patch overwrites header bytes only. *)
Lemma patch_parity_shape mfb nd seq k s :
  (PAYLOAD_OFFSET <= length s)%nat ->
  exists x4_19 x24_26,
    length x4_19 = 16%nat /\ length x24_26 = 3%nat
    /\ patch_parity j mfb nd seq k s =
       [RTP_VERSION_FLAGS; 0] ++ be_bytes 2 (u16 (wrapping_add32 seq (Z.of_nat k)))
         ++ x4_19 ++ le_bytes 4 (job_frame_number j) ++ x24_26 ++ [mfb]
         ++ le_bytes 4 (pack_fec_info k nd (job_fec j)) ++ drop PAYLOAD_OFFSET s.
Proof.
  change PAYLOAD_OFFSET with 32%nat. intros Hl.
  do 32 (destruct s as [|? s]; [simpl in Hl; lia|]).
  eexists [_;_;_;_;_;_;_;_;_;_;_;_;_;_;_;_], [_;_;_]. split_and!; reflexivity.
Qed.

Lemma length_patch_parity mfb nd seq k s :
  (PAYLOAD_OFFSET <= length s)%nat -> length (patch_parity j mfb nd seq k s) = length s.
Proof.
  intros Hl. destruct (patch_parity_shape mfb nd seq k s Hl) as (x & y & Hx & Hy & ->).
  rewrite !length_app, length_drop, Hx, Hy, length_be_bytes, !length_le_bytes.
  simpl length. unfold PAYLOAD_OFFSET, NV_PACKET_OFFSET, RTP_HEADER_SIZE, PADDING_SIZE,
    NV_VIDEO_PACKET_SIZE in *. lia.
Qed.

Lemma patch_parity_headers b seq k s :
  (b < job_blocks j)%nat -> length s = job_shard_size j ->
  shard_headers j b seq k (patch_parity j (blk_mfb j b) (blk_data j b) seq k s)
  /\ drop PAYLOAD_OFFSET (patch_parity j (blk_mfb j b) (blk_data j b) seq k s)
     = drop PAYLOAD_OFFSET s.
Proof.
  intros Hb Hl.
  destruct (patch_parity_shape (blk_mfb j b) (blk_data j b) seq k s) as (x & y & Hx & Hy & E).
  { unfold job_shard_size in Hl. lia. }
  rewrite E. do 16 (destruct x as [|? x]; [done|]). destruct x; [|done].
  do 3 (destruct y as [|? y]; [done|]). destruct y; [|done].
  split; [split|reflexivity].
  - rewrite !length_app, length_drop, Hl, length_be_bytes, !length_le_bytes.
    unfold job_shard_size, PAYLOAD_OFFSET, NV_PACKET_OFFSET, RTP_HEADER_SIZE, PADDING_SIZE,
      NV_VIDEO_PACKET_SIZE. simpl length. lia.
  - done.
  - eexists. split; [reflexivity|]. simpl sequence_number.
    apply (be_val_id 2). apply u16_range.
  - eexists. split; [reflexivity|]. split_and!; simpl.
    + by apply (le_val_id 4).
    + done.
    + apply (le_val_id 4), pack_fec_info_range.
Qed.
End Headers.

(** ** The blocks of a frame *)

Section Blocks.
Context {R : ReedSolomon} {RL : ReedSolomonLaws R}.
Implicit Types (j : FrameJob).

Definition block_input j b seq spi : list (list Z) :=
  map (fun k => data_shard j (blk_mfb j b) (blk_start j b) (blk_data j b) seq
                           (u32 (spi + Z.of_nat k)) k) (List.seq 0 (blk_data j b))
    ++ replicate (blk_parity j b) (replicate (job_shard_size j) 0).

Definition block_encoded j b seq spi : list (list Z) :=
  encode_block (blk_data j b) (blk_parity j b) (block_input j b seq spi).

Definition block_shards j b seq spi : list (list Z) :=
  take (blk_data j b) (block_encoded j b seq spi)
    ++ imap (fun i => patch_parity j (blk_mfb j b) (blk_data j b) seq (blk_data j b + i))
            (drop (blk_data j b) (block_encoded j b seq spi)).

(** The payload columns of a block: the codeword the receiver works on. *)
Definition block_codeword j b seq spi : list (list Z) :=
  map (drop PAYLOAD_OFFSET) (block_encoded j b seq spi).

Lemma length_block_input j b seq spi :
  length (block_input j b seq spi) = (blk_data j b + blk_parity j b)%nat.
Proof.
  unfold block_input. by rewrite length_app, length_map, length_seq, length_replicate.
Qed.

Lemma uniform_block_input j b seq spi : uniform (job_shard_size j) (block_input j b seq spi).
Proof.
  unfold block_input. apply uniform_app.
  - apply Forall_map, Forall_true. intros. apply length_data_shard.
  - apply Forall_replicate, length_replicate.
Qed.

Lemma job_shard_size_pos j : (PAYLOAD_OFFSET <= job_shard_size j)%nat.
Proof. unfold job_shard_size. lia. Qed.

Lemma block_encoded_spec j b seq spi :
  length (block_encoded j b seq spi) = (blk_data j b + blk_parity j b)%nat
  /\ uniform (job_shard_size j) (block_encoded j b seq spi)
  /\ take (blk_data j b) (block_encoded j b seq spi)
     = take (blk_data j b) (block_input j b seq spi).
Proof.
  pose proof (length_block_input j b seq spi) as Hl.
  pose proof (uniform_block_input j b seq spi) as Hu.
  unfold block_encoded, encode_block. repeat case_if; try done.
  destruct (rs_encode_ok _ _ _ _ E0 Hl Hu) as (out & -> & ? & ? & ?).
  { unfold job_shard_size, PAYLOAD_OFFSET, NV_PACKET_OFFSET, RTP_HEADER_SIZE, PADDING_SIZE. lia. }
  done.
Qed.

Lemma take_block_input j b seq spi :
  take (blk_data j b) (block_input j b seq spi) =
  map (fun k => data_shard j (blk_mfb j b) (blk_start j b) (blk_data j b) seq
                           (u32 (spi + Z.of_nat k)) k) (List.seq 0 (blk_data j b)).
Proof.
  unfold block_input. apply take_app_length'. by rewrite length_map, length_seq.
Qed.

Lemma length_block_shards j b seq spi :
  length (block_shards j b seq spi) = (blk_data j b + blk_parity j b)%nat.
Proof.
  destruct (block_encoded_spec j b seq spi) as (L & _).
  unfold block_shards. rewrite length_app, length_take, length_imap, length_drop, L. lia.
Qed.

Lemma length_block_codeword j b seq spi :
  length (block_codeword j b seq spi) = (blk_data j b + blk_parity j b)%nat.
Proof. unfold block_codeword. rewrite length_map. apply block_encoded_spec. Qed.

(** Every shard: its headers, and its payload is the codeword's. *)
Lemma block_shards_lookup j b seq spi i d :
  job_plan_ok j -> is_u32 (job_frame_number j) -> is_u32 (job_timestamp j) ->
  (b < job_blocks j)%nat -> block_shards j b seq spi !! i = Some d ->
  shard_headers j b seq i d
  /\ block_codeword j b seq spi !! i = Some (drop PAYLOAD_OFFSET d).
Proof.
  intros Hj Hf Hts Hb. destruct (block_encoded_spec j b seq spi) as (L & Hu & Ht).
  unfold block_shards, block_codeword. rewrite list_lookup_fmap.
  intros [E|[Hi E]]%lookup_app_Some.
  - pose proof E as E'. rewrite lookup_take_Some in E'. destruct E' as [E' Hlt].
    rewrite E'. split; [|done].
    rewrite Ht, take_block_input, list_lookup_fmap, lookup_seq_lt in E by done.
    injection E as <-. apply data_shard_headers; auto using u32_range.
  - rewrite length_take, L in *. rewrite list_lookup_imap, lookup_drop in E.
    replace (blk_data j b + _)%nat with i in E by lia.
    destruct (block_encoded j b seq spi !! i) as [s|] eqn:Es; simpl in E; [|done].
    injection E as <-.
    pose proof (Forall_lookup_1 _ _ _ _ Hu Es) as Hs.
    destruct (patch_parity_headers j Hf b seq i s Hb Hs) as [? ->]. done.
Qed.

(** Its data part is the frame's chunks. *)
Lemma block_codeword_data j b seq spi :
  take (blk_data j b) (block_codeword j b seq spi) =
  map (fun k => chunk (job_payload_size j) k (job_stream j))
      (List.seq (blk_start j b) (blk_data j b)).
Proof.
  unfold block_codeword. rewrite firstn_map.
  destruct (block_encoded_spec j b seq spi) as (_ & _ & ->).
  rewrite take_block_input, map_map, <- (Nat.add_0_r (blk_start j b)), <- fmap_add_seq.
  unfold fmap. rewrite map_map, Nat.add_0_r.
  apply map_ext. intros k. apply data_shard_payload.
Qed.
End Blocks.

Section Frame.
Context {R : ReedSolomon} {RL : ReedSolomonLaws R}.
Context (j : FrameJob) (Hj : job_plan_ok j).
Abbreviation nd := (nr_data_per_block (job_fec j)).

Lemma pack_block_eq b seq spi :
  (b < job_blocks j)%nat -> is_u32 spi ->
  pack_block j (blk_start j b) (blk_data j b) b seq spi =
  Some (block_shards j b seq spi,
        wrapping_add32 seq (Z.of_nat (blk_data j b + blk_parity j b)),
        u32 (spi + Z.of_nat (blk_data j b))).
Proof.
  intros Hb Hs. unfold pack_block.
  rewrite pack_data_shards_eq; [|apply Hj|done|]; [done|].
  rewrite Nat.add_0_r. by apply blk_data_lt_total.
Qed.

(** The shards of the blocks from [b] on, one list per block. *)
Fixpoint frame_blocks (b todo : nat) (seq spi : Z) : list (list (list Z)) :=
  match todo with
  | O => []
  | S todo =>
      block_shards j b seq spi
        :: frame_blocks (S b) todo
             (wrapping_add32 seq (Z.of_nat (blk_data j b + blk_parity j b)))
             (u32 (spi + Z.of_nat (blk_data j b)))
  end.

(** Shards and data shards of [todo] blocks from [b] on. *)
Fixpoint frame_count (b todo : nat) : nat :=
  match todo with
  | O => 0%nat
  | S todo => (blk_data j b + blk_parity j b + frame_count (S b) todo)%nat
  end.
Fixpoint frame_data_count (b todo : nat) : nat :=
  match todo with
  | O => 0%nat
  | S todo => (blk_data j b + frame_data_count (S b) todo)%nat
  end.

Lemma pack_blocks_eq b todo seq spi :
  (b + todo = job_blocks j)%nat -> is_u32 seq -> is_u32 spi ->
  pack_blocks j nd b todo seq spi =
  Some (concat (frame_blocks b todo seq spi),
        u32 (seq + Z.of_nat (frame_count b todo)),
        u32 (spi + Z.of_nat (frame_data_count b todo))).
Proof.
  revert b seq spi. induction todo as [|todo IH]; intros b seq spi Hb Hq Hs.
  - simpl. by rewrite !Z.add_0_r, !u32_id.
  - cbn [pack_blocks frame_blocks frame_count frame_data_count concat].
    pose proof (blk_spec j Hj b ltac:(lia)) as (_ & H2 & _).
    unfold blk_start, blk_end in H2.
    destruct (block_range _ _ _ b) as [s e] eqn:E. simpl in H2.
    rewrite (proj2 (Nat.ltb_ge _ _)) by lia. rewrite (proj2 (Nat.eqb_neq _ _)) by lia.
    assert (Es : s = blk_start j b) by (unfold blk_start; by rewrite E).
    assert (Ed : (e - s)%nat = blk_data j b) by (unfold blk_data, blk_start, blk_end; by rewrite E).
    rewrite Ed, Es, pack_block_eq by (done || lia).
    rewrite IH by (try apply u32_range; lia). f_equal. f_equal; [f_equal|].
    + unfold wrapping_add32, u32. rewrite Zplus_mod_idemp_l. f_equal. lia.
    + unfold u32. rewrite Zplus_mod_idemp_l. f_equal. lia.
Qed.

Lemma length_frame_blocks b todo seq spi : length (frame_blocks b todo seq spi) = todo.
Proof. revert b seq spi; induction todo; simpl; auto. Qed.

Lemma length_concat_frame_blocks b todo seq spi :
  length (concat (frame_blocks b todo seq spi)) = frame_count b todo.
Proof.
  revert b seq spi; induction todo as [|todo IH]; intros; simpl; [done|].
  by rewrite length_app, length_block_shards, IH.
Qed.

(** Each block starts at the counters advanced by the blocks before it. *)
Lemma frame_blocks_lookup b todo seq spi k sh :
  frame_blocks b todo seq spi !! k = Some sh -> is_u32 seq -> is_u32 spi ->
  sh = block_shards j (b + k) (u32 (seq + Z.of_nat (frame_count b k)))
                              (u32 (spi + Z.of_nat (frame_data_count b k))).
Proof.
  revert b seq spi k. induction todo as [|todo IH]; intros b seq spi k; [done|].
  destruct k as [|k]; simpl.
  - intros [= <-] ? ?. by rewrite Nat.add_0_r, !Z.add_0_r, !u32_id.
  - intros E _ _. rewrite (IH _ _ _ _ E) by apply u32_range.
    rewrite Nat.add_succ_comm. f_equal.
    + unfold wrapping_add32, u32. rewrite Zplus_mod_idemp_l. f_equal. lia.
    + unfold u32. rewrite Zplus_mod_idemp_l. f_equal. lia.
Qed.

Lemma frame_data_count_end b todo :
  (b + todo = job_blocks j)%nat -> (0 < todo)%nat ->
  (blk_start j b + frame_data_count b todo = job_total j)%nat.
Proof.
  revert b. induction todo as [|todo IH]; intros b Hb Ht; [lia|].
  cbn [frame_data_count]. pose proof (blk_spec j Hj b ltac:(lia)) as (_ & H2 & H3).
  unfold blk_data. destruct (b =? job_blocks j - 1)%nat eqn:E; bool_prop.
  - assert (todo = 0%nat) as -> by lia. simpl. lia.
  - specialize (IH (S b) ltac:(lia) ltac:(lia)). lia.
Qed.

Lemma frame_data_count_total : frame_data_count 0 (job_blocks j) = job_total j.
Proof.
  pose proof (plan_blocks_range j Hj).
  pose proof (frame_data_count_end 0 (job_blocks j) ltac:(lia) ltac:(lia)) as X.
  destruct (blk_spec j Hj 0 ltac:(lia)) as (E & _). lia.
Qed.
End Frame.

Lemma packetize_frame_eq {R : ReedSolomon} {RL : ReedSolomonLaws R} data key req fn seq spi ts pct :
  (NV_VIDEO_PACKET_SIZE < req)%nat -> is_u32 seq -> is_u32 spi ->
  let j := frame_job data key (req - NV_VIDEO_PACKET_SIZE) fn ts (fec_clamp pct) in
  job_plan_ok j /\
  packetize_frame data key req fn seq spi ts pct =
  Some (concat (frame_blocks j 0 (job_blocks j) seq spi),
        u32 (seq + Z.of_nat (frame_count j 0 (job_blocks j))),
        u32 (spi + Z.of_nat (job_total j))).
Proof.
  intros Hr Hq Hs j. assert (Hj : job_plan_ok j) by (apply frame_job_ok; lia).
  split; [done|]. unfold packetize_frame. rewrite (proj2 (Nat.leb_gt _ _)) by lia.
  fold j. rewrite <- (frame_data_count_total j Hj). by apply (pack_blocks_eq j Hj).
Qed.

(** ** Properties *)

(** A frame is packetized without a panic exactly when the requested
    packet size exceeds the 16-byte packet header, and then the RTP sequence
    number moves by the number of shards and the stream packet index by the
    number of data shards only. *)
Theorem packetize_frame_total {R : ReedSolomon} {RL : ReedSolomonLaws R}
    (data : list Z) (key : bool) (req : nat) (fn seq spi ts : Z) (pct : nat) :
  is_u32 seq -> is_u32 spi ->
  match packetize_frame data key req fn seq spi ts pct with
  | None => (req <= NV_VIDEO_PACKET_SIZE)%nat
  | Some (shards, seq', spi') =>
      (NV_VIDEO_PACKET_SIZE < req)%nat
      /\ seq' = u32 (seq + Z.of_nat (length shards))
      /\ spi' = u32 (spi + Z.of_nat (total_data_shards_of
                       (VIDEO_FRAME_HEADER_SIZE + length data) (req - NV_VIDEO_PACKET_SIZE)))
      /\ shards <> [] /\ Forall (fun s => length s = (NV_PACKET_OFFSET + req)%nat) shards
  end.
Proof.
  intros Hq Hs. destruct (Nat.le_gt_cases req NV_VIDEO_PACKET_SIZE) as [Hle|Hgt].
  { unfold packetize_frame. by rewrite (proj2 (Nat.leb_le _ _)). }
  destruct (packetize_frame_eq data key req fn seq spi ts pct) as [Hj ->]; try done.
  set (j := frame_job _ _ _ _ _ _) in *.
  rewrite length_concat_frame_blocks. split_and!; try done.
  - intros E%(f_equal length). rewrite length_concat_frame_blocks in E.
    pose proof (plan_blocks_range j Hj). pose proof (blk_spec j Hj 0 ltac:(lia)) as (_ & X & _).
    destruct (job_blocks j) as [|n]; [lia|]. simpl in E. unfold blk_data in E. lia.
  - apply Forall_concat, Forall_lookup_2. intros k sh Hk.
    apply frame_blocks_lookup in Hk as ->; [|done..].
    assert (job_shard_size j = NV_PACKET_OFFSET + req)%nat as <-.
    { unfold job_shard_size, PAYLOAD_OFFSET.
      change (job_payload_size j) with (req - NV_VIDEO_PACKET_SIZE)%nat. lia. }
    set (q := u32 _). set (p := u32 (spi + _)).
    destruct (block_encoded_spec j (0 + k) q p) as (_ & Hu & _).
    apply Forall_app. split; [by apply Forall_take|].
    apply Forall_lookup_2. intros i s Hi. rewrite list_lookup_imap in Hi.
    destruct (drop _ _ !! i) as [s0|] eqn:E; [|done]. injection Hi as <-.
    assert (Hs0 : length s0 = job_shard_size j).
    { rewrite lookup_drop in E. exact (Forall_lookup_1 _ _ _ _ Hu E). }
    rewrite <- Hs0. apply length_patch_parity. rewrite Hs0. apply job_shard_size_pos.
Qed.

Lemma packetize_frame_total_witness :
  match packetize_frame (R := XorCodec) (replicate 100 7) true 48 9 4294967294 5 1 20 with
  | None => (48 <= NV_VIDEO_PACKET_SIZE)%nat
  | Some (shards, seq', spi') =>
      (NV_VIDEO_PACKET_SIZE < 48)%nat
      /\ seq' = u32 (4294967294 + Z.of_nat (length shards))
      /\ spi' = u32 (5 + Z.of_nat (total_data_shards_of
                       (VIDEO_FRAME_HEADER_SIZE + length (replicate 100 7))
                       (48 - NV_VIDEO_PACKET_SIZE)))
      /\ shards <> [] /\ Forall (fun s => length s = (NV_PACKET_OFFSET + 48)%nat) shards
  end.
Proof.
  apply (packetize_frame_total (R := XorCodec) (replicate 100 7) true 48 9 4294967294 5 1 20);
    split; vm_compute; congruence.
Defined.

(** Positions: shard [i] of the frame is shard [i'] of some block [b']. *)
Lemma frame_blocks_concat_lookup {R : ReedSolomon} {RL : ReedSolomonLaws R} j b todo seq spi i s :
  is_u32 seq -> is_u32 spi -> concat (frame_blocks j b todo seq spi) !! i = Some s ->
  exists b' i' q p, (b <= b' < b + todo)%nat /\ is_u32 q /\ is_u32 p
    /\ block_shards j b' q p !! i' = Some s /\ u32 (q + Z.of_nat i') = u32 (seq + Z.of_nat i).
Proof.
  revert b seq spi i. induction todo as [|todo IH]; intros b seq spi i Hq Hs; [done|].
  simpl. intros [E|[Hi E]]%lookup_app_Some.
  - exists b, i, seq, spi. split_and!; try done; lia.
  - rewrite length_block_shards in Hi, E.
    destruct (IH _ _ _ _ (u32_range _) (u32_range _) E) as (b' & i' & q & p & Hb & ? & ? & ? & Eq).
    exists b', i', q, p. split_and!; try done; [lia..|]. rewrite Eq.
    unfold wrapping_add32, u32. rewrite Zplus_mod_idemp_l. f_equal. lia.
Qed.

(** The shards of a frame carry consecutive RTP sequence numbers from the
    caller's counter on, across blocks and parity shards alike, and each one
    starts with the RTP version byte and carries the frame number. *)
Theorem packetize_frame_sequence {R : ReedSolomon} {RL : ReedSolomonLaws R}
    (data : list Z) (key : bool) (req : nat) (fn seq spi ts : Z) (pct : nat)
    (shards : list (list Z)) (seq' spi' : Z) (i : nat) (s : list Z) :
  is_u32 seq -> is_u32 spi -> is_u32 fn -> is_u32 ts ->
  packetize_frame data key req fn seq spi ts pct = Some (shards, seq', spi') ->
  shards !! i = Some s ->
  s !!! 0%nat = RTP_VERSION_FLAGS
  /\ (exists rtp, rtp_header_read s = Some rtp
        /\ sequence_number rtp = u16 (seq + Z.of_nat i))
  /\ (exists nv, read_from_shard s = Some nv /\ nv_frame_index nv = fn).
Proof.
  intros Hq Hs Hf Ht E Hi. destruct (Nat.le_gt_cases req NV_VIDEO_PACKET_SIZE) as [Hle|Hgt].
  { unfold packetize_frame in E. by rewrite (proj2 (Nat.leb_le _ _)) in E. }
  destruct (packetize_frame_eq data key req fn seq spi ts pct) as [Hj E2]; try done.
  rewrite E in E2. set (j := frame_job _ _ _ _ _ _) in *. injection E2 as -> _ _.
  destruct (frame_blocks_concat_lookup _ _ _ _ _ _ _ Hq Hs Hi)
    as (b & i' & q & p & Hb & Hq' & Hp' & El & Eq).
  destruct (block_shards_lookup j b q p i' s) as [H _]; [done..| |done|]; [destruct Hb; done|].
  destruct (sh_rtp _ _ _ _ _ H) as (rtp & Er & En).
  destruct (sh_nv _ _ _ _ _ H) as (nv & Ev & Ef & _).
  split_and!; [apply (sh_version _ _ _ _ _ H)|exists rtp|exists nv]; split; try done.
  rewrite En. unfold wrapping_add32. rewrite Eq. unfold u16, u32. change (2 ^ 32) with (2 ^ 16 * 2 ^ 16).
  rewrite Z.rem_mul_r by lia. rewrite Z.mul_comm, Z.mod_add by lia. by rewrite Z.mod_mod.
Qed.

Lemma packetize_frame_sequence_witness :
  exists shards seq' spi' s,
    packetize_frame (R := XorCodec) (replicate 40 7) true 48 9 65534 5 1 20
      = Some (shards, seq', spi')
    /\ shards !! 2%nat = Some s
    /\ s !!! 0%nat = RTP_VERSION_FLAGS
    /\ (exists rtp, rtp_header_read s = Some rtp
          /\ sequence_number rtp = u16 (65534 + Z.of_nat 2))
    /\ (exists nv, read_from_shard s = Some nv /\ nv_frame_index nv = 9).
Proof.
  set (x := packetize_frame (R := XorCodec) (replicate 40 7) true 48 9 65534 5 1 20).
  vm_compute in x. eexists _, _, _, _. split; [reflexivity|]. split; [reflexivity|].
  eapply (packetize_frame_sequence (R := XorCodec) (replicate 40 7) true 48 9 65534 5 1 20
            _ _ _ 2); try reflexivity; split; vm_compute; congruence.
Defined.

(** The receiver's test for a data shard: its index within the block. *)
Definition is_data_shard (s : list Z) : bool :=
  match read_from_shard s with
  | Some nv => (shard_index nv <? data_shards nv)%nat
  | None => false
  end.

(** All blocks of the frame fit the receiver's shard limit. *)
Definition frame_fits (data_len psz fec : nat) : Prop :=
  (total_data_shards_of (VIDEO_FRAME_HEADER_SIZE + data_len) psz
   <= 3 * nr_data_per_block fec + MAX_SHARDS)%nat.

Lemma shard_headers_fields j b q i s :
  job_plan_ok j -> (b < job_blocks j)%nat -> (blk_data j b <= MAX_SHARDS)%nat ->
  (i < MAX_SHARDS)%nat -> shard_headers j b q i s ->
  exists nv, read_from_shard s = Some nv /\ nv_frame_index nv = job_frame_number j
    /\ shard_index nv = i /\ data_shards nv = blk_data j b
    /\ fec_percentage nv = job_fec j /\ parity_shards nv = blk_parity j b
    /\ block_index nv = b /\ block_count nv = job_blocks j.
Proof.
  intros Hj Hb Hd Hi H. destruct (sh_nv _ _ _ _ _ H) as (nv & E & Hf & Hm & Hfec).
  pose proof (plan_fec j Hj). pose proof (plan_blocks_range j Hj). unfold MAX_SHARDS in *.
  destruct (pack_fec_info_fields nv i (blk_data j b) (job_fec j)) as (E1 & E2 & E3);
    [lia..|done|].
  destruct (pack_multi_fec_blocks_fields nv b (job_blocks j)) as (E4 & E5 & _); [lia|done|].
  exists nv. split_and!; try done. unfold parity_shards. by rewrite E2, E3.
Qed.

Section Payload.
Context {R : ReedSolomon} {RL : ReedSolomonLaws R}.
Context (j : FrameJob) (Hj : job_plan_ok j).
Context (Hf : is_u32 (job_frame_number j)) (Hts : is_u32 (job_timestamp j)).
Context (Hfit : (job_total j <= 3 * nr_data_per_block (job_fec j) + MAX_SHARDS)%nat).

Lemma blk_total_bound b :
  (b < job_blocks j)%nat -> (blk_data j b + blk_parity j b <= MAX_SHARDS)%nat.
Proof. intros. apply parity_shard_count_total. by apply blk_data_bound. Qed.

Lemma is_data_shard_spec b q p i s :
  (b < job_blocks j)%nat -> block_shards j b q p !! i = Some s ->
  is_data_shard s = (i <? blk_data j b)%nat.
Proof.
  intros Hb E. destruct (block_shards_lookup j b q p i s) as [H _]; try done.
  apply lookup_lt_Some in E. rewrite length_block_shards in E.
  pose proof (blk_total_bound b Hb). pose proof (blk_data_bound j Hj b Hfit Hb).
  destruct (shard_headers_fields j b q i s Hj Hb) as (nv & Er & _ & E1 & E2 & _); [lia|lia|done|].
  unfold is_data_shard. by rewrite Er, E1, E2.
Qed.

(** The data shards of a block are its first [blk_data] ones. *)
Lemma filter_block_shards b q p :
  (b < job_blocks j)%nat ->
  map (drop PAYLOAD_OFFSET) (filter is_data_shard (block_shards j b q p)) =
  map (fun k => chunk (job_payload_size j) k (job_stream j))
      (List.seq (blk_start j b) (blk_data j b)).
Proof.
  intros Hb. rewrite <- (block_codeword_data j b q p).
  rewrite <- (take_drop (blk_data j b) (block_shards j b q p)), filter_app.
  rewrite (list_filter_all is_data_shard (take _ _)), (list_filter_none is_data_shard (drop _ _)), app_nil_r.
  - rewrite <- firstn_map. apply list_eq. intros i.
    destruct (Nat.lt_ge_cases i (blk_data j b)) as [Hi|Hi].
    + rewrite !lookup_take_lt by done. unfold block_codeword. rewrite !list_lookup_fmap.
      destruct (block_shards j b q p !! i) as [s|] eqn:E.
      * destruct (block_shards_lookup j b q p i s) as [_ H]; try done.
        unfold block_codeword in H. rewrite list_lookup_fmap in H. by rewrite H.
      * apply lookup_ge_None in E. rewrite length_block_shards in E. lia.
    + by rewrite !lookup_take_ge.
  - apply Forall_lookup_2. intros i s E. rewrite lookup_drop in E.
    rewrite (is_data_shard_spec b q p _ s Hb E). rewrite (proj2 (Nat.ltb_ge _ _)); [auto|lia].
  - apply Forall_lookup_2. intros i s [E Hi]%lookup_take_Some.
    rewrite (is_data_shard_spec b q p _ s Hb E). by rewrite (proj2 (Nat.ltb_lt _ _)).
Qed.
Lemma frame_blocks_payload b todo seq spi :
  (b + todo = job_blocks j)%nat ->
  map (drop PAYLOAD_OFFSET) (filter is_data_shard (concat (frame_blocks j b todo seq spi))) =
  map (fun k => chunk (job_payload_size j) k (job_stream j))
      (List.seq (blk_start j b) (frame_data_count j b todo)).
Proof.
  revert b seq spi. induction todo as [|todo IH]; intros b seq spi Hb; [done|].
  cbn [frame_blocks concat frame_data_count].
  rewrite filter_app, map_app, filter_block_shards by lia.
  destruct todo as [|todo]; [simpl; by rewrite Nat.add_0_r, app_nil_r|].
  rewrite IH by lia. rewrite seq_app, map_app. do 3 f_equal.
  pose proof (blk_spec j Hj b ltac:(lia)) as (_ & H2 & H3).
  rewrite (proj2 (Nat.eqb_neq _ _)) in H3 by lia. unfold blk_data. lia.
Qed.
End Payload.

(** Read in order, the payloads of the data shards are the frame header,
    the encoded frame and the zero padding of the last shard, byte for byte;
    the header's last payload length says where the padding starts. *)
Theorem packetize_frame_payload {R : ReedSolomon} {RL : ReedSolomonLaws R}
    (data : list Z) (key : bool) (req : nat) (fn seq spi ts : Z) (pct : nat)
    (shards : list (list Z)) (seq' spi' : Z) :
  is_u32 seq -> is_u32 spi -> is_u32 fn -> is_u32 ts ->
  frame_fits (length data) (req - NV_VIDEO_PACKET_SIZE) (fec_clamp pct) ->
  packetize_frame data key req fn seq spi ts pct = Some (shards, seq', spi') ->
  let psz := (req - NV_VIDEO_PACKET_SIZE)%nat in
  let len := (VIDEO_FRAME_HEADER_SIZE + length data)%nat in
  let last := last_shard_size len psz in
  (0 < last <= psz)%nat
  /\ concat (map (drop PAYLOAD_OFFSET) (filter is_data_shard shards)) =
     frame_header_bytes {| is_key_frame := key; frame_processing_latency := 0;
                           last_payload_len := u32 (Z.of_nat last) |}
       ++ data ++ replicate (psz - last) 0.
Proof.
  intros Hq Hs Hf Ht Hfit E psz len last.
  destruct (Nat.le_gt_cases req NV_VIDEO_PACKET_SIZE) as [Hle|Hgt].
  { unfold packetize_frame in E. by rewrite (proj2 (Nat.leb_le _ _)) in E. }
  destruct (packetize_frame_eq data key req fn seq spi ts pct) as [Hj E2]; try done.
  rewrite E in E2. set (j := frame_job _ _ _ _ _ _) in *. injection E2 as -> _ _.
  pose proof (last_shard_size_spec j Hj) as (Hl & Hlast).
  split; [done|]. rewrite (frame_blocks_payload j Hj Hf Ht Hfit) by done.
  rewrite frame_data_count_total by done.
  pose proof (plan_blocks_range j Hj). destruct (blk_spec j Hj 0 ltac:(lia)) as (-> & _).
  destruct (job_total_spec j Hj) as (_ & Hbound & _).
  rewrite Nat.mul_0_l, concat_chunks;
    [|apply Hj|by rewrite (job_stream_length j Hj)].
  rewrite (job_stream_length j Hj). unfold job_stream. rewrite <- app_assoc. do 3 f_equal. exact Hlast.
Qed.

Lemma packetize_frame_payload_witness :
  exists shards seq' spi',
    packetize_frame (R := XorCodec) (replicate 40 7) true 48 9 65534 5 1 20
      = Some (shards, seq', spi')
    /\ (0 < last_shard_size 48 32 <= 32)%nat
    /\ concat (map (drop PAYLOAD_OFFSET) (filter is_data_shard shards)) =
       frame_header_bytes {| is_key_frame := true; frame_processing_latency := 0;
                             last_payload_len := u32 (Z.of_nat (last_shard_size 48 32)) |}
         ++ replicate 40 7 ++ replicate (32 - last_shard_size 48 32) 0.
Proof.
  set (x := packetize_frame (R := XorCodec) (replicate 40 7) true 48 9 65534 5 1 20).
  vm_compute in x. eexists _, _, _. split; [reflexivity|].
  eapply (packetize_frame_payload (R := XorCodec) (replicate 40 7) true 48 9 65534 5 1 20);
    try reflexivity; try (split; vm_compute; congruence). vm_compute. lia.
Defined.
