(* ===== verification/Depacketizer.v ===== *)
(** * Reassembling access units ([kmc-moonclient/src/video.rs])

    The depacketizer state machine: per-block assembly with FEC recovery and
    loss statistics, per-frame assembly, delivery, retirement and expiry, and
    the receive loop around it.  [Instant]s are nanoseconds ([Z]); the event
    queue is a list, oldest first. *)
From S2P Require Import Prelude BTree Wire Fec.

Definition MAX_INFLIGHT_FRAMES : nat := 4.
Definition ASSEMBLY_BUDGET : Z := 100 * 1000 * 1000.

Record AuFrame := mkAuFrame { au_keyframe : bool; au_data : list Z }.

Inductive VideoEvent :=
| Frame (au : AuFrame)
| Lost (frame_index : Z)
| Fec (st : FrameFecStatus).

(** [(x.wrapping_sub(y) as i16) < 0] *)
Definition is_before16 (x y : Z) : bool := i16 (wrapping_sub16 x y) <? 0.

(** ** Sequence statistics of a block *)

Record SeqStats := mkSeqStats {
  seen_first : bool;
  lowest_seq : Z;
  highest_seq : Z;
  next_contiguous_seq : Z;
  missing_before_highest : Z;
  fast_path : bool
}.

Definition seq_stats_new : SeqStats := mkSeqStats false 0 0 0 0 true.

Definition note_seq (st : SeqStats) (seq : Z) (shard_index : nat) : SeqStats :=
  let st1 :=
    if negb (seen_first st) then
      let low := wrapping_sub16 seq (u16 (Z.of_nat shard_index)) in
      mkSeqStats true low seq low (wrapping_sub16 seq low) (fast_path st)
    else if is_before16 (highest_seq st) seq then
      mkSeqStats true (lowest_seq st) seq (next_contiguous_seq st)
        (wrapping_add16 (missing_before_highest st)
           (wrapping_sub16 (wrapping_sub16 seq (highest_seq st)) 1)) (fast_path st)
    else
      mkSeqStats true (lowest_seq st) (highest_seq st) (next_contiguous_seq st)
        (saturating_sub (missing_before_highest st) 1) (fast_path st) in
  if fast_path st1 && (seq =? next_contiguous_seq st1) then
    mkSeqStats (seen_first st1) (lowest_seq st1) (highest_seq st1)
      (wrapping_add16 (next_contiguous_seq st1) 1) (missing_before_highest st1) true
  else if negb (seq =? next_contiguous_seq st1) then
    mkSeqStats (seen_first st1) (lowest_seq st1) (highest_seq st1)
      (next_contiguous_seq st1) (missing_before_highest st1) false
  else st1.

(** ** One FEC block *)

Record BlockAsm := mkBlockAsm {
  b_data_shards : nat;
  b_fec_percentage : nat;
  b_slots : list (option (list Z));
  b_received : list bool;
  b_received_data : Z;
  b_received_parity : Z;
  b_stats : SeqStats
}.

Definition block_new (data_shards parity_slots fec_percentage : nat) : BlockAsm :=
  let total := (data_shards + parity_slots)%nat in
  {| b_data_shards := data_shards; b_fec_percentage := fec_percentage;
     b_slots := replicate total None; b_received := replicate total false;
     b_received_data := 0; b_received_parity := 0; b_stats := seq_stats_new |}.

Definition parity_slots (b : BlockAsm) : nat := (length (b_slots b) - b_data_shards b)%nat.

Definition is_someb {A} (o : option A) : bool := match o with Some _ => true | None => false end.

Definition data_complete (b : BlockAsm) : bool :=
  forallb is_someb (take (b_data_shards b) (b_slots b)).

Definition block_set_slots (b : BlockAsm) (slots : list (option (list Z))) : BlockAsm :=
  {| b_data_shards := b_data_shards b; b_fec_percentage := b_fec_percentage b;
     b_slots := slots; b_received := b_received b; b_received_data := b_received_data b;
     b_received_parity := b_received_parity b; b_stats := b_stats b |}.

(** The bookkeeping of [push] for a shard that is new to its block. *)
Definition block_receive (b : BlockAsm) (shard_index : nat) (seq : Z) (payload : list Z) : BlockAsm :=
  let is_data := (shard_index <? b_data_shards b)%nat in
  {| b_data_shards := b_data_shards b; b_fec_percentage := b_fec_percentage b;
     b_slots := <[shard_index := Some payload]> (b_slots b);
     b_received := <[shard_index := true]> (b_received b);
     b_received_data := if is_data then b_received_data b + 1 else b_received_data b;
     b_received_parity := if is_data then b_received_parity b else b_received_parity b + 1;
     b_stats := note_seq (b_stats b) seq shard_index |}.

Definition fec_status (b : BlockAsm) (frame_index : Z) (block_index block_count : nat)
  : FrameFecStatus :=
  {| fs_frame_index := frame_index;
     highest_received_seq := highest_seq (b_stats b);
     fs_next_contiguous_seq := next_contiguous_seq (b_stats b);
     fs_missing_before_highest := missing_before_highest (b_stats b);
     total_data_shards := u16 (Z.of_nat (b_data_shards b));
     total_parity_shards := u16 (Z.of_nat (parity_slots b));
     received_data_shards := b_received_data b;
     received_parity_shards := b_received_parity b;
     fs_fec_percentage := u8 (Z.of_nat (Nat.min (b_fec_percentage b) 255));
     fs_block_index := u8 (Z.of_nat block_index);
     fs_block_count := u8 (Z.of_nat block_count) |}.

(** ** One frame *)

Record FrameAsm := mkFrameAsm {
  f_frame_index : Z;
  f_first_seen : Z;
  f_block_count : nat;
  f_blocks : list (option BlockAsm);
  f_shard_payload_len : nat;
  f_delivered : bool
}.

Definition frame_new (frame_index : Z) (block_count shard_payload_len : nat) (now : Z) : FrameAsm :=
  {| f_frame_index := frame_index; f_first_seen := now; f_block_count := block_count;
     f_blocks := replicate MAX_FEC_BLOCKS None; f_shard_payload_len := shard_payload_len;
     f_delivered := false |}.

Definition frame_set_block (f : FrameAsm) (i : nat) (b : BlockAsm) : FrameAsm :=
  {| f_frame_index := f_frame_index f; f_first_seen := f_first_seen f;
     f_block_count := f_block_count f; f_blocks := <[i := Some b]> (f_blocks f);
     f_shard_payload_len := f_shard_payload_len f; f_delivered := f_delivered f |}.

Definition frame_set_delivered (f : FrameAsm) : FrameAsm :=
  {| f_frame_index := f_frame_index f; f_first_seen := f_first_seen f;
     f_block_count := f_block_count f; f_blocks := f_blocks f;
     f_shard_payload_len := f_shard_payload_len f; f_delivered := true |}.

(** [self.blocks[b].as_ref()] *)
Definition frame_block (f : FrameAsm) (b : nat) : option BlockAsm := mjoin (f_blocks f !! b).

Definition frame_complete (f : FrameAsm) : bool :=
  forallb (fun b => match frame_block f b with Some blk => data_complete blk | None => false end)
          (seq 0 (f_block_count f)).

(** The copy loops of [assemble]: [off] is the logical stream offset. *)
Fixpoint assemble_slots (slots : list (option (list Z))) (logical off : nat) (data : list Z)
  : option (nat * list Z) :=
  match slots with
  | [] => Some (off, data)
  | slot :: slots =>
      p <-? slot;
      let start := off in
      let end_ := (off + length p)%nat in
      let lo := Nat.max start VIDEO_FRAME_HEADER_SIZE in
      let hi := Nat.min end_ logical in
      let data := if (lo <? hi)%nat then data ++ slice (lo - start) (hi - start) p else data in
      assemble_slots slots logical end_ data
  end.

Fixpoint assemble_blocks (blocks : list (option BlockAsm)) (logical off : nat) (data : list Z)
  : option (list Z) :=
  match blocks with
  | [] => Some data
  | o :: blocks =>
      blk <-? o;
      r <-? assemble_slots (take (b_data_shards blk) (b_slots blk)) logical off data;
      assemble_blocks blocks logical r.1 r.2
  end.

Fixpoint sum_data_shards (blocks : list (option BlockAsm)) : option nat :=
  match blocks with
  | [] => Some 0%nat
  | o :: blocks =>
      blk <-? o; rest <-? sum_data_shards blocks; Some (b_data_shards blk + rest)%nat
  end.

Definition assemble (f : FrameAsm) : option AuFrame :=
  let plen := f_shard_payload_len f in
  if (plen <? VIDEO_FRAME_HEADER_SIZE)%nat then None
  else
    let blocks := frame_block f <$> seq 0 (f_block_count f) in
    total_data <-? sum_data_shards blocks;
    if (total_data =? 0)%nat then None
    else
      blk0 <-? frame_block f 0;
      slot0 <-? mjoin (b_slots blk0 !! 0%nat);
      hdr <-? frame_header_read slot0;
      let last := Z.to_nat (last_payload_len hdr) in
      if (last =? 0)%nat || (plen <? last)%nat then None
      else
        let logical := ((total_data - 1) * plen + last)%nat in
        if (logical <=? VIDEO_FRAME_HEADER_SIZE)%nat then None
        else
          data <-? assemble_blocks blocks logical 0 [if is_key_frame hdr then 1 else 0];
          Some {| au_keyframe := is_key_frame hdr; au_data := data |}.

(** ** The state machine *)

Record Depacketizer := mkDepacketizer {
  frames : list (Z * FrameAsm);
  last_retired : option Z;
  events : list VideoEvent
}.

Definition depacketizer_new : Depacketizer := mkDepacketizer [] None [].

Definition push_event (dp : Depacketizer) (e : VideoEvent) : Depacketizer :=
  mkDepacketizer (frames dp) (last_retired dp) (events dp ++ [e]).

Definition set_frames (dp : Depacketizer) (fs : list (Z * FrameAsm)) : Depacketizer :=
  mkDepacketizer fs (last_retired dp) (events dp).

Definition pop_event (dp : Depacketizer) : option VideoEvent * Depacketizer :=
  match events dp with
  | [] => (None, dp)
  | e :: es => (Some e, mkDepacketizer (frames dp) (last_retired dp) es)
  end.

(** What one block of a retired frame reports. *)
Definition block_report (f : FrameAsm) (lost : bool) (b : nat) : list VideoEvent :=
  match frame_block f b with
  | Some blk =>
      if b_received_data blk <? Z.of_nat (b_data_shards blk)
      then [Fec (fec_status blk (f_frame_index f) b (f_block_count f))] else []
  | None =>
      if lost then
        match head (omap (frame_block f) (seq 0 (f_block_count f))) with
        | Some t =>
            let st := fec_status t (f_frame_index f) b (f_block_count f) in
            [Fec {| fs_frame_index := fs_frame_index st;
                    highest_received_seq := 0; fs_next_contiguous_seq := 0;
                    fs_missing_before_highest :=
                      u16 (total_data_shards st + total_parity_shards st);
                    total_data_shards := total_data_shards st;
                    total_parity_shards := total_parity_shards st;
                    received_data_shards := 0; received_parity_shards := 0;
                    fs_fec_percentage := fs_fec_percentage st;
                    fs_block_index := fs_block_index st;
                    fs_block_count := fs_block_count st |}]
        | None => []
        end
      else []
  end.

Definition report_fec (f : FrameAsm) (lost : bool) : list VideoEvent :=
  seq 0 (f_block_count f) ≫= block_report f lost.

Definition retire (dp : Depacketizer) (f : FrameAsm) : Depacketizer :=
  let lost := negb (f_delivered f) in
  {| frames := frames dp;
     events := events dp ++ report_fec f lost
                 ++ (if lost then [Lost (f_frame_index f)] else []);
     last_retired := Some (match last_retired dp with
                           | Some c => if f_frame_index f <? c then c else f_frame_index f
                           | None => f_frame_index f
                           end) |}.

(** Remove the listed frames, in order, retiring each. *)
Definition retire_all (dp : Depacketizer) (fs : list (Z * FrameAsm)) : Depacketizer :=
  foldl (fun dp e => retire (set_frames dp (bt_remove e.1 (frames dp))) e.2) dp fs.

Definition emit_completed (dp : Depacketizer) (frame_index : Z) : Depacketizer :=
  let dp := retire_all dp (bt_below frame_index (frames dp)) in
  match bt_get frame_index (frames dp) with
  | None => dp
  | Some f =>
      let dp := set_frames dp (bt_insert frame_index (frame_set_delivered f) (frames dp)) in
      match assemble f with
      | Some au => push_event dp (Frame au)
      | None => push_event dp (Lost frame_index)
      end
  end.

Definition expire (dp : Depacketizer) (now : Z) : Depacketizer :=
  retire_all dp
    (filter (fun e => ASSEMBLY_BUDGET < saturating_sub now (f_first_seen e.2)) (frames dp)).

(** Make room for a new frame: [None] drops the shard (it is older still). *)
Definition admit_frame (dp : Depacketizer) (frame_index : Z) (block_count plen : nat) (now : Z)
  : option Depacketizer :=
  if bt_contains frame_index (frames dp) then Some dp
  else
    let room :=
      if (MAX_INFLIGHT_FRAMES <=? length (frames dp))%nat then
        match frames dp with
        | (oldest, f) :: _ =>
            if frame_index <? oldest then None
            else Some (retire (set_frames dp (bt_remove oldest (frames dp))) f)
        | [] => Some dp
        end
      else Some dp in
    dp <-? room;
    Some (set_frames dp (bt_insert frame_index (frame_new frame_index block_count plen now)
                           (frames dp))).

(** The header tests of [push] that look at the datagram alone. *)
Definition parse_shard (datagram : list Z) : option (nat * RtpHeader * NvVideoPacket) :=
  plen <-? shard_payload_len (length datagram);
  if negb (datagram !!! 0%nat =? RTP_VERSION_FLAGS) then None
  else
    rtp <-? rtp_header_read datagram;
    nv <-? read_from_shard datagram;
    if (block_count nv <=? block_index nv)%nat || (data_shards nv =? 0)%nat
       || (MAX_SHARDS <? data_shards nv)%nat || (MAX_SHARDS <=? shard_index nv)%nat
    then None else Some (plen, rtp, nv).

Section Push.
Context `{R : ReedSolomon}.

(** [try_recover], on a block whose data is not complete. *)
Definition try_recover (b : BlockAsm) : BlockAsm :=
  let parity := parity_slots b in
  if data_complete b then b
  else if (parity =? 0)%nat then b
  else if (count_some (b_slots b) <? b_data_shards b)%nat then b
  else if rs_new (b_data_shards b) parity then
    match rs_reconstruct_data (b_data_shards b) parity (b_slots b) with
    | Some slots => block_set_slots b slots
    | None => b
    end
  else b.

(** The part of [push] after the frame is known to exist. *)
Definition push_to_frame (dp : Depacketizer) (f : FrameAsm) (plen : nat)
    (rtp : RtpHeader) (nv : NvVideoPacket) (datagram : list Z) : Depacketizer :=
  let frame_index := nv_frame_index nv in
  let store f dp := set_frames dp (bt_insert frame_index f (frames dp)) in
  if negb (f_shard_payload_len f =? plen)%nat || negb (f_block_count f =? block_count nv)%nat
  then dp
  else
    let bi := block_index nv in
    let blk := default (block_new (data_shards nv) (parity_shards nv) (fec_percentage nv))
                       (frame_block f bi) in
    let si := shard_index nv in
    if negb (b_data_shards blk =? data_shards nv)%nat || (length (b_slots blk) <=? si)%nat
       || (b_received blk !!! si)
    then store (frame_set_block f bi blk) dp
    else
      let blk := block_receive blk si (sequence_number rtp) (drop PAYLOAD_OFFSET datagram) in
      if f_delivered f then store (frame_set_block f bi blk) dp
      else
        let f := frame_set_block f bi (try_recover blk) in
        let dp := store f dp in
        if frame_complete f then emit_completed dp frame_index else dp.

Definition push (dp : Depacketizer) (datagram : list Z) (now : Z) : Depacketizer :=
  match parse_shard datagram with
  | None => dp
  | Some (plen, rtp, nv) =>
      let frame_index := nv_frame_index nv in
      if match last_retired dp with Some c => frame_index <=? c | None => false end then dp
      else
        match admit_frame dp frame_index (block_count nv) plen now with
        | None => dp
        | Some dp =>
            match bt_get frame_index (frames dp) with
            | None => dp
            | Some f => push_to_frame dp f plen rtp nv datagram
            end
        end
  end.

(** ** The receive loop *)

(** What wakes the loop up: a datagram (with whether it came from the
    host's address), or the PING timer. *)
Inductive VideoInput :=
| Recv (from_host : bool) (datagram : list Z) (now : Z)
| PingTick (now : Z).

Inductive VideoOutput :=
| SendToHost (payload : list Z)
| SendAu (au : AuFrame)
| SendFec (st : FrameFecStatus)
| SendLost (frame_index : Z).

(** The event drain; [sink_open] is whether [au_tx.send] succeeds, and the
    result says whether the loop goes on. *)
Fixpoint drain_events (sink_open : bool) (es : list VideoEvent) : bool * list VideoOutput :=
  match es with
  | [] => (true, [])
  | Frame au :: es =>
      if sink_open then let r := drain_events sink_open es in (r.1, SendAu au :: r.2)
      else (false, [])
  | Fec st :: es => let r := drain_events sink_open es in (r.1, SendFec st :: r.2)
  | Lost i :: es => let r := drain_events sink_open es in (r.1, SendLost i :: r.2)
  end.

Definition run_step (sink_open : bool) (dp : Depacketizer) (i : VideoInput)
  : bool * Depacketizer * list VideoOutput :=
  let finish dp outs :=
    let r := drain_events sink_open (events dp) in
    (r.1, mkDepacketizer (frames dp) (last_retired dp) [], outs ++ r.2) in
  match i with
  | Recv from_host datagram now =>
      if negb from_host then (true, dp, [])
      else match parse_rtt_probe datagram with
           | Some _ => (true, dp, [SendToHost datagram])
           | None => finish (push dp datagram now) []
           end
  | PingTick now => finish (expire dp now) [SendToHost PING_PAYLOAD]
  end.
End Push.

(** ** Assembling complete blocks *)

Lemma is_someb_true {A} (o : option A) : is_someb o = true <-> is_Some o.
Proof. destruct o; simpl; [|by split; [|intros [? ?]]]. split; [by eexists|done]. Qed.

Lemma data_complete_spec b :
  data_complete b = true <-> Forall is_Some (take (b_data_shards b) (b_slots b)).
Proof.
  unfold data_complete. rewrite forallb_forall, Forall_forall.
  split; intros H x Hx; apply is_someb_true; apply H; by apply list_elem_of_In.
Qed.

(** One copied piece: the part of [p] inside [8, logical). *)
Lemma assemble_piece logical (pre p : list Z) :
  let off := length pre in
  let lo := Nat.max off VIDEO_FRAME_HEADER_SIZE in
  let hi := Nat.min (off + length p) logical in
  drop VIDEO_FRAME_HEADER_SIZE (take logical (pre ++ p)) =
  drop VIDEO_FRAME_HEADER_SIZE (take logical pre)
    ++ (if (lo <? hi)%nat then slice (lo - off) (hi - off) p else []).
Proof.
  intros off lo hi. unfold VIDEO_FRAME_HEADER_SIZE in *.
  rewrite take_app, drop_app. f_equal. fold off. rewrite length_take. fold off.
  rewrite skipn_firstn_comm. unfold slice. case_if; bool_prop; subst lo hi.
  - replace (8 - Nat.min logical off)%nat with (Nat.max off 8 - off)%nat by lia.
    destruct (Nat.le_gt_cases (off + length p) logical).
    + rewrite !take_ge by (rewrite length_drop; lia). done.
    + f_equal. lia.
  - destruct (Nat.le_gt_cases logical off).
    + replace (logical - off - _)%nat with 0%nat by lia. done.
    + destruct (Nat.le_gt_cases (off + length p) logical).
      * rewrite drop_ge by lia. apply take_nil.
      * replace (logical - off - _)%nat with 0%nat by lia. done.
Qed.

Lemma assemble_slots_spec ps logical pre t :
  assemble_slots (Some <$> ps) logical (length pre)
    (t :: drop VIDEO_FRAME_HEADER_SIZE (take logical pre)) =
  Some (length (pre ++ concat ps),
        t :: drop VIDEO_FRAME_HEADER_SIZE (take logical (pre ++ concat ps))).
Proof.
  revert pre. induction ps as [|p ps IH]; intros pre.
  - simpl. by rewrite app_nil_r.
  - rewrite fmap_cons. cbn [assemble_slots]. cbv zeta. cbn [concat].
    rewrite app_assoc, <- IH, assemble_piece, length_app. f_equal.
    case_if; [done|by rewrite app_nil_r].
Qed.

(** A block whose data slots hold [ps]. *)
Definition holds_data (o : option BlockAsm) (ps : list (list Z)) : Prop :=
  exists blk, o = Some blk /\ take (b_data_shards blk) (b_slots blk) = Some <$> ps
              /\ length ps = b_data_shards blk.

Lemma assemble_blocks_spec blocks pss logical pre t :
  Forall2 holds_data blocks pss ->
  assemble_blocks blocks logical (length pre)
    (t :: drop VIDEO_FRAME_HEADER_SIZE (take logical pre)) =
  Some (t :: drop VIDEO_FRAME_HEADER_SIZE (take logical (pre ++ concat (concat pss)))).
Proof.
  intros H. revert pre. induction H as [|o ps blocks pss (blk & -> & Ht & _) H IH]; intros pre.
  - simpl. by rewrite app_nil_r.
  - cbn [assemble_blocks concat]. rewrite Ht, assemble_slots_spec. cbn [fst snd].
    rewrite IH, concat_app, app_assoc. done.
Qed.

Lemma sum_data_shards_spec blocks pss :
  Forall2 holds_data blocks pss -> sum_data_shards blocks = Some (length (concat pss)).
Proof.
  induction 1 as [|o ps blocks pss (blk & -> & _ & Hl) H IH]; [done|].
  cbn [sum_data_shards concat]. by rewrite IH, length_app, Hl.
Qed.

(** A frame whose blocks hold the pieces of [hdr ++ data ++ padding]
    assembles to the type byte and [data]. *)
Lemma assemble_spec f pss h data pad :
  Forall2 holds_data (frame_block f <$> seq 0 (f_block_count f)) pss ->
  Forall (fun p => length p = f_shard_payload_len f) (concat pss) ->
  concat (concat pss) = frame_header_bytes h ++ data ++ pad ->
  frame_header_ok h -> data <> [] ->
  (VIDEO_FRAME_HEADER_SIZE <= f_shard_payload_len f)%nat -> (0 < f_block_count f)%nat ->
  (Z.to_nat (last_payload_len h) + length pad = f_shard_payload_len f)%nat ->
  (0 < Z.to_nat (last_payload_len h))%nat ->
  Forall (fun ps => ps <> []) pss ->
  assemble f = Some {| au_keyframe := is_key_frame h;
                       au_data := (if is_key_frame h then 1 else 0) :: data |}.
Proof.
  intros Hb Hu Hc Hh Hd Hp Hn Hlast Hpos Hne. unfold assemble.
  set (plen := f_shard_payload_len f) in *. set (last := Z.to_nat _) in *.
  rewrite (proj2 (Nat.ltb_ge _ _)) by done. rewrite (sum_data_shards_spec _ _ Hb).
  (* the first slot *)
  destruct (f_block_count f) as [|n] eqn:En; [lia|].
  pose proof Hb as Hb'. simpl in Hb'.
  inversion Hb' as [|o ps0 bl pss0 (blk & Eb & Et & El) Hrest E1 E2]; subst pss.
  inversion Hne as [|? ? Hps _]; subst. destruct ps0 as [|p0 ps0]; [done|].
  simpl length at 1. cbn [concat app length Nat.eqb]. rewrite Eb.
  assert (E0 : b_slots blk !! 0%nat = Some (Some p0)).
  { apply (f_equal (fun l => l !! 0%nat)) in Et. rewrite lookup_take_lt in Et; [done|].
    rewrite <- El. simpl. lia. }
  rewrite E0. cbn [mjoin option_join].
  (* the header *)
  assert (Hp0 : length p0 = plen) by (by inversion Hu).
  assert (Ehdr : frame_header_read p0 = Some h).
  { rewrite <- (take_drop VIDEO_FRAME_HEADER_SIZE p0).
    assert (take VIDEO_FRAME_HEADER_SIZE p0 = frame_header_bytes h) as ->.
    { apply (f_equal (take VIDEO_FRAME_HEADER_SIZE)) in Hc. cbn [concat app] in Hc.
      rewrite !take_app_le in Hc by (rewrite ?frame_header_bytes_length; lia).
      rewrite Hc. by apply take_ge. }
    by apply frame_header_read_bytes. }
  rewrite Ehdr. fold last.
  rewrite (proj2 (Nat.eqb_neq last 0)), (proj2 (Nat.ltb_ge plen last)) by lia. simpl orb. cbv iota.
  (* the logical length *)
  set (pss := (p0 :: ps0) :: pss0) in *.
  change (S (length (ps0 ++ concat pss0))) with (length (concat pss)).
  assert (Hlen : (length (concat pss) * plen = length (frame_header_bytes h ++ data ++ pad))%nat).
  { rewrite <- Hc. clear -Hu. induction Hu as [|p l Hp Hl IH]; simpl; [done|].
    rewrite length_app. lia. }
  rewrite !length_app, frame_header_bytes_length in Hlen.
  assert (Hlog : ((length (concat pss) - 1) * plen + last = VIDEO_FRAME_HEADER_SIZE + length data)%nat).
  { assert (1 <= length (concat pss))%nat by (subst pss; simpl; lia). nia. }
  rewrite Hlog. assert (0 < length data)%nat by (destruct data; [done|simpl; lia]).
  rewrite (proj2 (Nat.leb_gt _ _)) by lia.
  pose proof (assemble_blocks_spec _ _ (VIDEO_FRAME_HEADER_SIZE + length data) []
                (if is_key_frame h then 1 else 0) Hb) as X.
  rewrite take_nil, drop_nil, app_nil_l, Hc in X. cbn [length] in X. rewrite X.
  rewrite <- frame_header_bytes_length with h, <- length_app, app_assoc, take_app_length.
  by rewrite drop_app_length.
Qed.

(** ** Counting received shards *)

Definition count_true (l : list bool) : nat := length (filter (fun b => b = true) l).

Lemma count_some_true {A} (l : list (option A)) : count_some l = count_true (map is_someb l).
Proof.
  unfold count_some, count_true. induction l as [|[x|] l IH]; [done|..]; cbn [map is_someb].
  - rewrite !filter_cons_True by done. cbn [length]. by rewrite IH.
  - rewrite !filter_cons_False; [done|done|by intros [? ?]].
Qed.

Lemma count_true_map {A} (P : A -> Prop) `{forall x, Decision (P x)} (l : list A) :
  count_true (map (fun x => bool_decide (P x)) l) = length (filter P l).
Proof.
  unfold count_true. induction l as [|x l IH]; [done|]. cbn [map]. destruct (decide (P x)).
  - rewrite bool_decide_true, !filter_cons_True by done. cbn [length]. by rewrite IH.
  - rewrite bool_decide_false, !filter_cons_False by done. done.
Qed.

(** Slots that are all empty, or complete, have the expected counts. *)
Lemma count_some_full {A} (l : list (option A)) :
  (length l <= count_some l)%nat -> Forall is_Some l.
Proof.
  unfold count_some. induction l as [|[x|] l IH]; [constructor|..]; cbn [length].
  - rewrite filter_cons_True by done. cbn [length]. intros. constructor; [done|]. apply IH. lia.
  - rewrite filter_cons_False by (by intros [? ?]). pose proof (length_filter is_Some l). lia.
Qed.

Lemma count_some_take {A} (l : list (option A)) n :
  Forall is_Some (take n l) -> (n <= length l)%nat -> (n <= count_some l)%nat.
Proof.
  intros H Hn. unfold count_some. rewrite <- (take_drop n l) at 1.
  rewrite filter_app, length_app, (list_filter_all is_Some (take n l)) by done.
  rewrite length_take. lia.
Qed.

Lemma frame_block_set f b b' blk :
  (b < length (f_blocks f))%nat ->
  frame_block (frame_set_block f b blk) b' = if decide (b' = b) then Some blk else frame_block f b'.
Proof.
  intros Hb. unfold frame_block. simpl. case_decide as E; [subst b'|].
  - by rewrite list_lookup_insert_eq.
  - by rewrite list_lookup_insert_ne.
Qed.

(** ** Retiring frames *)

Definition retire_events (f : FrameAsm) : list VideoEvent :=
  report_fec f (negb (f_delivered f))
    ++ (if f_delivered f then [] else [Lost (f_frame_index f)]).

Definition raise_watermark (c : option Z) (k : Z) : option Z :=
  Some (match c with Some c => Z.max c k | None => k end).

Lemma retire_eq dp f :
  retire dp f = {| frames := frames dp; last_retired := raise_watermark (last_retired dp) (f_frame_index f);
                   events := events dp ++ retire_events f |}.
Proof.
  unfold retire, retire_events, raise_watermark. f_equal.
  - destruct (last_retired dp); [|done]. f_equal. case_if; bool_prop; lia.
  - by destruct (f_delivered f).
Qed.

(** Retiring a selection keeps the other frames and reports the selected
    ones in ascending order. *)
Lemma retire_all_spec (P : Z * FrameAsm -> Prop) `{forall e, Decision (P e)} dp :
  bt_sorted (frames dp) ->
  retire_all dp (filter P (frames dp)) =
  {| frames := filter (fun e => ~ P e) (frames dp);
     last_retired := foldl raise_watermark (last_retired dp)
                       (map (fun e => f_frame_index e.2) (filter P (frames dp)));
     events := events dp ++ concat (map (fun e => retire_events e.2) (filter P (frames dp))) |}.
Proof.
  intros Hs%bt_sorted_NoDup.
  assert (X : forall m kept lr es, NoDup (map fst (kept ++ m)) ->
    retire_all (mkDepacketizer (kept ++ m) lr es) (filter P m) =
    mkDepacketizer (kept ++ filter (fun e => ~ P e) m)
      (foldl raise_watermark lr (map (fun e => f_frame_index e.2) (filter P m)))
      (es ++ concat (map (fun e => retire_events e.2) (filter P m)))).
  { induction m as [|[k f] m IH]; intros kept lr es Hnd.
    - simpl. by rewrite !app_nil_r.
    - destruct (decide (P (k, f))) as [HP|HP].
      + rewrite filter_cons_True, (filter_cons_False (fun e => ~ P e)) by tauto.
        cbn [retire_all foldl map concat]. unfold retire_all in *. cbn [foldl].
        rewrite retire_eq. cbn [set_frames frames last_retired events fst snd].
        rewrite bt_remove_skip, bt_remove_head.
        * rewrite IH, app_assoc; [done|]. rewrite map_app in *. simpl in Hnd.
          apply NoDup_app in Hnd as (N1 & N2 & N3). inversion N3; subst.
          apply NoDup_app. split_and!; try done. intros x Hx Hx'. apply (N2 x Hx). by right.
        * rewrite map_app in Hnd. apply NoDup_app in Hnd as (N1 & N2 & N3).
          apply Forall_forall. intros [k' f'] He. simpl. intros ->.
          apply (N2 k); [apply list_elem_of_fmap; by exists (k, f')|by left].
      + rewrite (filter_cons_False P), (filter_cons_True (fun e => ~ P e)) by done.
        specialize (IH (kept ++ [(k, f)]) lr es). rewrite <- !app_assoc in IH.
        apply IH. exact Hnd. }
  destruct dp as [fs lr es]. apply (X fs [] lr es Hs).
Qed.

(** Expiry: exactly the frames first seen more than the assembly budget
    ago leave, in ascending order, each with its FEC reports and, when no
    access unit of it was delivered, one loss event; the rest stay. *)
Theorem expire_spec (dp : Depacketizer) (now : Z) :
  bt_sorted (frames dp) ->
  let stale := filter (fun e => ASSEMBLY_BUDGET < saturating_sub now (f_first_seen e.2)) (frames dp) in
  frames (expire dp now)
    = filter (fun e => ~ ASSEMBLY_BUDGET < saturating_sub now (f_first_seen e.2)) (frames dp)
  /\ events (expire dp now) = events dp ++ concat (map (fun e => retire_events e.2) stale)
  /\ (forall e, e ∈ frames (expire dp now) -> now <= f_first_seen e.2 + ASSEMBLY_BUDGET)
  /\ (forall e, e ∈ stale -> exists c, last_retired (expire dp now) = Some c /\ f_frame_index e.2 <= c).
Proof.
  intros Hs stale. unfold expire. rewrite retire_all_spec by done. cbn [frames events last_retired].
  split_and!; try done.
  - intros e [He _]%list_elem_of_filter. unfold saturating_sub in He. lia.
  - intros e He. fold stale. clearbody stale.
    assert (Hmono : forall (l : list (Z * FrameAsm)) lr c, lr = Some c ->
              exists c', foldl raise_watermark lr (map (fun e => f_frame_index e.2) l) = Some c' /\ c <= c').
    { induction l as [|x l IH]; intros lr c ->; simpl; [by exists c|].
      destruct (IH (raise_watermark (Some c) (f_frame_index x.2)) _ eq_refl) as (c' & -> & ?).
      exists c'. split; [done|lia]. }
    revert He. generalize (last_retired dp). induction stale as [|x l IH]; intros lr He; [by apply not_elem_of_nil in He|].
    simpl. apply elem_of_cons in He as [->|He]; [|by apply IH].
    destruct (Hmono l (raise_watermark lr (f_frame_index x.2)) _ eq_refl) as (c & -> & Hc).
    exists c. split; [done|]. destruct lr; lia.
Qed.

Lemma expire_spec_witness :
  let f := frame_new 7 1 32 0 in
  let g := frame_new 8 1 32 90000000 in
  let dp := mkDepacketizer [(7, f); (8, g)] None [] in
  let stale := filter (fun e => ASSEMBLY_BUDGET < saturating_sub 120000000 (f_first_seen e.2)) (frames dp) in
  frames (expire dp 120000000)
    = filter (fun e => ~ ASSEMBLY_BUDGET < saturating_sub 120000000 (f_first_seen e.2)) (frames dp)
  /\ events (expire dp 120000000) = events dp ++ concat (map (fun e => retire_events e.2) stale)
  /\ (forall e, e ∈ frames (expire dp 120000000) -> 120000000 <= f_first_seen e.2 + ASSEMBLY_BUDGET)
  /\ (forall e, e ∈ stale ->
        exists c, last_retired (expire dp 120000000) = Some c /\ f_frame_index e.2 <= c).
Proof.
  intros f g dp. apply (expire_spec dp 120000000). simpl. repeat constructor; simpl; lia.
Defined.

(** ** The invariant of the state machine *)

Record block_ok (b : BlockAsm) : Prop := {
  bo_data : (1 <= b_data_shards b <= MAX_SHARDS)%nat;
  bo_slots : (b_data_shards b <= length (b_slots b) <= MAX_SHARDS)%nat;
  bo_received : length (b_received b) = length (b_slots b);
  bo_rdata : b_received_data b = Z.of_nat (count_true (take (b_data_shards b) (b_received b)));
  bo_rparity : b_received_parity b = Z.of_nat (count_true (drop (b_data_shards b) (b_received b)))
}.

Record frame_ok (k : Z) (f : FrameAsm) : Prop := {
  fo_index : f_frame_index f = k;
  fo_count : (1 <= f_block_count f <= MAX_FEC_BLOCKS)%nat;
  fo_blocks : length (f_blocks f) = MAX_FEC_BLOCKS;
  fo_block : forall b blk, frame_block f b = Some blk -> block_ok blk
}.

Definition lost_index (e : VideoEvent) : option Z :=
  match e with Lost i => Some i | _ => None end.

(** Indices of the loss events of a history. *)
Definition lost_of (es : list VideoEvent) : list Z := omap lost_index es.

(** Why a frame already reported lost cannot be reported again: it is gone
    and below the watermark, or still in flight and marked delivered. *)
Definition closed (fs : list (Z * FrameAsm)) (c : option Z) (i : Z) : Prop :=
  match bt_get i fs with
  | Some f => f_delivered f = true
  | None => exists w, c = Some w /\ i <= w
  end.

Record dp_ok (hist : list VideoEvent) (dp : Depacketizer) : Prop := {
  do_sorted : bt_sorted (frames dp);
  do_bound : (length (frames dp) <= MAX_INFLIGHT_FRAMES)%nat;
  do_frames : Forall (fun e => frame_ok e.1 e.2) (frames dp);
  do_nodup : NoDup (lost_of (hist ++ events dp));
  do_closed : Forall (closed (frames dp) (last_retired dp)) (lost_of (hist ++ events dp))
}.

(** *** Blocks *)

Lemma count_true_app l l' : count_true (l ++ l') = (count_true l + count_true l')%nat.
Proof. unfold count_true. by rewrite filter_app, length_app. Qed.

Lemma count_true_insert l i :
  l !! i = Some false -> count_true (<[i := true]> l) = S (count_true l).
Proof.
  intros E. rewrite (insert_take_drop l i true) by by apply lookup_lt_Some in E.
  rewrite <- (take_drop_middle l i false E) at 3. by rewrite !count_true_app.
Qed.

Lemma count_true_le l : (count_true l <= length l)%nat.
Proof. apply length_filter. Qed.

Lemma block_new_ok d p fec :
  (1 <= d)%nat -> (d + p <= MAX_SHARDS)%nat -> block_ok (block_new d p fec).
Proof.
  intros. assert (Hc : forall n, count_true (replicate n false) = 0%nat).
  { intros n. unfold count_true. rewrite list_filter_none; [done|]. by apply Forall_replicate. }
  split; simpl; rewrite ?length_replicate, ?take_replicate, ?drop_replicate, ?Hc; lia.
Qed.

Lemma block_receive_ok b si seq payload :
  block_ok b -> b_received b !! si = Some false -> block_ok (block_receive b si seq payload).
Proof.
  intros [H1 H2 H3 H4 H5] E. pose proof (lookup_lt_Some _ _ _ E) as Hlt.
  split; simpl; rewrite ?length_insert; try done.
  - destruct (si <? b_data_shards b)%nat eqn:El; bool_prop.
    + rewrite take_insert_lt, count_true_insert by (done || by rewrite lookup_take_lt). lia.
    + by rewrite take_insert_ge.
  - destruct (si <? b_data_shards b)%nat eqn:El; bool_prop.
    + by rewrite drop_insert_lt.
    + rewrite drop_insert_ge by done. rewrite count_true_insert; [lia|].
      rewrite lookup_drop. by replace (b_data_shards b + _)%nat with si by lia.
Qed.

Lemma try_recover_ok {R : ReedSolomon} {RL : ReedSolomonLaws R} b :
  block_ok b -> block_ok (try_recover b).
Proof.
  intros Hb. unfold try_recover. repeat case_if; try done.
  destruct (rs_reconstruct_data _ _ _) as [slots|] eqn:E3; [|done].
  apply rs_reconstruct_length in E3. destruct Hb as [H1 H2 H3 H4 H5].
  split; simpl; rewrite ?E3; done.
Qed.

(** *** Frames *)

Lemma frame_new_ok k bc plen now :
  (1 <= bc <= MAX_FEC_BLOCKS)%nat -> frame_ok k (frame_new k bc plen now).
Proof.
  intros. split; try done. intros b blk. unfold frame_block. cbn [frame_new f_blocks].
  intros E. destruct (replicate _ _ !! b) as [o|] eqn:E'; [|done].
  apply lookup_replicate in E' as [-> _]. done.
Qed.

Lemma frame_set_block_ok k f b blk :
  frame_ok k f -> block_ok blk -> (b < MAX_FEC_BLOCKS)%nat -> frame_ok k (frame_set_block f b blk).
Proof.
  intros [H1 H2 H3 H4] Hb Hlt. split; simpl; try done; [by rewrite length_insert|].
  intros b' blk'. rewrite frame_block_set by by rewrite H3. case_decide; [congruence|apply H4].
Qed.

Lemma frame_set_delivered_ok k f : frame_ok k f -> frame_ok k (frame_set_delivered f).
Proof. intros [H1 H2 H3 H4]. by split. Qed.

(** The fields of a shard that passes the header tests. *)
Lemma parse_shard_fields d plen rtp nv :
  parse_shard d = Some (plen, rtp, nv) ->
  (block_index nv < block_count nv <= MAX_FEC_BLOCKS)%nat
  /\ (1 <= data_shards nv)%nat /\ (data_shards nv + parity_shards nv <= MAX_SHARDS)%nat.
Proof.
  unfold parse_shard. destruct (shard_payload_len _); [|done]. case_if; [done|].
  destruct (rtp_header_read d); [|done]. destruct (read_from_shard d) as [nv'|]; [|done].
  case_if; [done|]. intros; simplify_eq. bool_prop.
  assert (block_count nv <= MAX_FEC_BLOCKS)%nat.
  { unfold block_count, MAX_FEC_BLOCKS. change 3 with (Z.ones 2). rewrite field_div_mod by lia.
    pose proof (Z.mod_pos_bound (multi_fec_blocks nv / 2 ^ 6) (2 ^ 2) ltac:(lia)). lia. }
  split_and!; try lia. apply parity_shard_count_total. lia.
Qed.

(** *** States *)

Lemma lost_of_app a b : lost_of (a ++ b) = lost_of a ++ lost_of b.
Proof. apply omap_app. Qed.

Lemma lost_of_report f lost : lost_of (report_fec f lost) = [].
Proof.
  unfold report_fec. induction (seq 0 (f_block_count f)) as [|b l IH]; [done|].
  rewrite bind_cons, lost_of_app, IH, app_nil_r. unfold block_report.
  repeat (case_match; try done).
Qed.

Lemma lost_of_retire f :
  lost_of (retire_events f) = if f_delivered f then [] else [f_frame_index f].
Proof. unfold retire_events. rewrite lost_of_app, lost_of_report. by destruct (f_delivered f). Qed.

Lemma closed_raise fs c i k : closed fs c i -> closed fs (raise_watermark c k) i.
Proof.
  unfold closed, raise_watermark. destruct (bt_get i fs); [done|].
  intros (w & -> & ?). eexists. split; [done|]. lia.
Qed.

Section StateOk.
Context (hist : list VideoEvent).

Lemma frame_ok_get dp k f : dp_ok hist dp -> bt_get k (frames dp) = Some f -> frame_ok k f.
Proof.
  intros H E%bt_get_Some_elem. pose proof (do_frames _ _ H) as Hf.
  rewrite Forall_forall in Hf. exact (Hf _ E).
Qed.

Lemma undelivered_not_lost dp k f :
  dp_ok hist dp -> bt_get k (frames dp) = Some f -> f_delivered f = false ->
  k ∉ lost_of (hist ++ events dp).
Proof.
  intros H E Hd Hin. pose proof (do_closed _ _ H) as Hc. rewrite Forall_forall in Hc.
  specialize (Hc k Hin). unfold closed in Hc. rewrite E in Hc. congruence.
Qed.

Lemma retire_ok dp k f :
  dp_ok hist dp -> bt_get k (frames dp) = Some f ->
  dp_ok hist (retire (set_frames dp (bt_remove k (frames dp))) f).
Proof.
  intros H E. pose proof (frame_ok_get _ _ _ H E) as Hf.
  pose proof (undelivered_not_lost _ _ _ H E) as Hnl. destruct H as [H1 H2 H3 H4 H5].
  rewrite retire_eq, (fo_index _ _ Hf). split; cbn [frames events last_retired set_frames].
  - by apply bt_remove_sorted.
  - pose proof (length_bt_remove k (frames dp)). lia.
  - by apply bt_remove_Forall.
  - rewrite app_assoc, lost_of_app, lost_of_retire, (fo_index _ _ Hf).
    destruct (f_delivered f); [by rewrite app_nil_r|]. apply NoDup_app. split_and!; [done| |].
    + intros x Hx ->%list_elem_of_singleton. by apply Hnl.
    + apply NoDup_singleton.
  - assert (Hk : closed (bt_remove k (frames dp)) (raise_watermark (last_retired dp) k) k).
    { unfold closed, raise_watermark. rewrite bt_get_remove, Z.eqb_refl by done.
      eexists. split; [done|]. destruct (last_retired dp); lia. }
    rewrite app_assoc, lost_of_app, lost_of_retire, (fo_index _ _ Hf). apply Forall_app. split.
    + eapply Forall_impl; [exact H5|]. intros i Hi. destruct (decide (i = k)) as [->|Hne]; [done|].
      apply closed_raise with (k := k) in Hi. revert Hi. unfold closed.
      by rewrite bt_get_remove, (proj2 (Z.eqb_neq _ _)).
    + destruct (f_delivered f); [done|]. by constructor.
Qed.

Lemma retire_all_ok dp es :
  dp_ok hist dp -> NoDup (map fst es) ->
  Forall (fun e => bt_get e.1 (frames dp) = Some e.2) es -> dp_ok hist (retire_all dp es).
Proof.
  unfold retire_all. revert dp. induction es as [|[k f] es IH]; intros dp H Hnd Hg; [done|].
  inversion Hg as [|? ? E Hg']; inversion Hnd as [|? ? Hn Hnd']; subst. simpl in *.
  apply IH; [by apply retire_ok|done|]. rewrite retire_eq. cbn [frames set_frames].
  apply Forall_forall. intros e He. rewrite Forall_forall in Hg'.
  rewrite bt_get_remove by apply H. rewrite (proj2 (Z.eqb_neq _ _)); [by apply Hg'|].
  intros <-. apply Hn. apply list_elem_of_fmap. eauto.
Qed.

Lemma update_ok dp k f f0 :
  dp_ok hist dp -> bt_get k (frames dp) = Some f0 -> frame_ok k f ->
  (f_delivered f0 = true -> f_delivered f = true) ->
  dp_ok hist (set_frames dp (bt_insert k f (frames dp))).
Proof.
  intros [H1 H2 H3 H4 H5] E Hf Hd. split; cbn [frames events last_retired set_frames]; try done.
  - by apply bt_insert_sorted.
  - by rewrite (length_bt_insert_eq k f f0).
  - by apply bt_insert_Forall.
  - eapply Forall_impl; [exact H5|]. intros i. unfold closed. rewrite bt_get_insert.
    destruct (i =? k) eqn:Ei; bool_prop; [subst; rewrite E|]; auto.
Qed.

Lemma insert_new_ok dp k f :
  dp_ok hist dp -> frame_ok k f -> bt_get k (frames dp) = None ->
  (forall c, last_retired dp = Some c -> c < k) ->
  (length (frames dp) < MAX_INFLIGHT_FRAMES)%nat ->
  dp_ok hist (set_frames dp (bt_insert k f (frames dp))).
Proof.
  intros [H1 H2 H3 H4 H5] Hf E Hw Hl. split; cbn [frames events last_retired set_frames]; try done.
  - by apply bt_insert_sorted.
  - pose proof (length_bt_insert k f (frames dp)). lia.
  - by apply bt_insert_Forall.
  - eapply Forall_impl; [exact H5|]. intros i. unfold closed. rewrite bt_get_insert.
    destruct (i =? k) eqn:Ei; bool_prop; [|done]. subst. rewrite E.
    intros (w & Hc & ?). specialize (Hw w Hc). lia.
Qed.

Lemma push_event_ok dp e :
  dp_ok hist dp ->
  (forall i, lost_index e = Some i ->
     (i ∉ lost_of (hist ++ events dp)) /\ closed (frames dp) (last_retired dp) i) ->
  dp_ok hist (push_event dp e).
Proof.
  intros [H1 H2 H3 H4 H5] He. unfold push_event.
  split; cbn [frames events last_retired]; try done; rewrite app_assoc, lost_of_app.
  - unfold lost_of at 2. simpl. destruct (lost_index e) as [i|] eqn:Ei; [|by rewrite app_nil_r].
    apply NoDup_app. split_and!; [done| |apply NoDup_singleton].
    intros x Hx ->%list_elem_of_singleton. by apply (He i eq_refl).
  - apply Forall_app. split; [done|]. unfold lost_of. simpl.
    destruct (lost_index e) as [i|] eqn:Ei; [|done]. constructor; [|done]. by apply (He i eq_refl).
Qed.
End StateOk.

Section Transitions.
Context {R : ReedSolomon} {RL : ReedSolomonLaws R}.
Context (hist : list VideoEvent).

Lemma expire_ok dp now : dp_ok hist dp -> dp_ok hist (expire dp now).
Proof. intros H. apply retire_all_ok; [done|apply bt_filter_get, H..]. Qed.

Lemma retire_all_frames dp es k :
  bt_sorted (frames dp) -> k ∉ map fst es ->
  bt_get k (frames (retire_all dp es)) = bt_get k (frames dp).
Proof.
  unfold retire_all. revert dp. induction es as [|[k' f] es IH]; intros dp Hs Hk; [done|].
  simpl in *. apply not_elem_of_cons in Hk as [Hne Hk]. rewrite IH; [|by apply bt_remove_sorted|done].
  rewrite retire_eq. cbn [frames set_frames]. rewrite bt_get_remove by done.
  by rewrite (proj2 (Z.eqb_neq _ _)).
Qed.

Lemma below_not_self k (m : list (Z * FrameAsm)) : k ∉ map fst (bt_below k m).
Proof.
  unfold bt_below. rewrite list_elem_of_fmap. intros (e & -> & [? _]%list_elem_of_filter). lia.
Qed.

Lemma emit_completed_ok dp k f :
  dp_ok hist dp -> bt_get k (frames dp) = Some f -> f_delivered f = false ->
  dp_ok hist (emit_completed dp k).
Proof.
  intros H E Hd. unfold emit_completed.
  assert (H' : dp_ok hist (retire_all dp (bt_below k (frames dp))))
    by (apply retire_all_ok; [done|apply bt_filter_get, H..]).
  assert (E' : bt_get k (frames (retire_all dp (bt_below k (frames dp)))) = Some f).
  { rewrite retire_all_frames; [done|apply H|apply below_not_self]. }
  revert H' E'. generalize (retire_all dp (bt_below k (frames dp))). intros dp' H' E'.
  rewrite E'.
  assert (H'' : dp_ok hist (set_frames dp' (bt_insert k (frame_set_delivered f) (frames dp')))).
  { eapply update_ok; try done. by eapply frame_set_delivered_ok, frame_ok_get. }
  destruct (assemble f); apply push_event_ok; try done. intros i [= <-].
  cbn [set_frames events frames last_retired]. split.
  - by apply (undelivered_not_lost hist dp' k f).
  - unfold closed. by rewrite bt_get_insert_eq.
Qed.

Lemma push_to_frame_ok dp f d plen rtp nv :
  dp_ok hist dp -> parse_shard d = Some (plen, rtp, nv) ->
  bt_get (nv_frame_index nv) (frames dp) = Some f ->
  dp_ok hist (push_to_frame dp f plen rtp nv d).
Proof.
  intros H Hp E. pose proof (frame_ok_get _ _ _ _ H E) as Hf.
  destruct (parse_shard_fields _ _ _ _ Hp) as (Hbi & Hds & Htot).
  unfold push_to_frame. case_if; [done|].
  set (blk := default _ _).
  assert (Hb : block_ok blk).
  { subst blk. destruct (frame_block f (block_index nv)) eqn:Eb; simpl.
    - by eapply fo_block.
    - apply block_new_ok; lia. }
  assert (Hset : forall b', block_ok b' -> frame_ok (nv_frame_index nv) (frame_set_block f (block_index nv) b')).
  { intros b' Hb'. apply frame_set_block_ok; try done. lia. }
  case_if; [by eapply update_ok; eauto|]. bool_prop.
  assert (Hr : b_received blk !! shard_index nv = Some false).
  { destruct (lookup_lt_is_Some_2 (b_received blk) (shard_index nv)) as [x Ex].
    { rewrite (bo_received _ Hb). lia. }
    rewrite (list_lookup_total_correct _ _ _ Ex) in *. by subst. }
  set (blk' := block_receive _ _ _ _).
  assert (Hb' : block_ok blk') by by apply block_receive_ok.
  case_if; [by eapply update_ok; eauto|].
  set (f' := frame_set_block _ _ (try_recover blk')).
  assert (Hf' : frame_ok (nv_frame_index nv) f') by by apply Hset, try_recover_ok.
  assert (H' : dp_ok hist (set_frames dp (bt_insert (nv_frame_index nv) f' (frames dp))))
    by (by eapply update_ok; eauto).
  case_if; [|done]. eapply emit_completed_ok; [done|apply bt_get_insert_eq|done].
Qed.

Lemma admit_frame_ok dp k bc plen now dp' :
  dp_ok hist dp -> (1 <= bc <= MAX_FEC_BLOCKS)%nat ->
  (forall c, last_retired dp = Some c -> c < k) ->
  admit_frame dp k bc plen now = Some dp' -> dp_ok hist dp'.
Proof.
  intros H Hbc Hw. unfold admit_frame, bt_contains.
  destruct (bt_get k (frames dp)) eqn:E; [by intros [= <-]|].
  destruct (MAX_INFLIGHT_FRAMES <=? length (frames dp))%nat eqn:El; bool_prop.
  - destruct (frames dp) as [|[oldest f] fs] eqn:Ef.
    { unfold MAX_INFLIGHT_FRAMES in El. simpl in El. lia. }
    case_if; [done|]. intros [= <-]. bool_prop.
    assert (Hg : bt_get oldest (frames dp) = Some f) by by rewrite Ef; simpl; rewrite Z.eqb_refl.
    pose proof (retire_ok hist dp oldest f H Hg) as H'. rewrite Ef in H'.
    pose proof (do_bound _ _ H) as Hb. rewrite Ef in Hb.
    simpl bt_remove in H'. rewrite retire_eq, Z.eqb_refl in *. apply insert_new_ok; try done.
    + by apply frame_new_ok.
    + cbn [frames set_frames]. simpl in E. by destruct (k =? oldest).
    + cbn [last_retired set_frames]. intros c [= <-].
      rewrite (fo_index _ _ (frame_ok_get _ _ _ _ H Hg)).
      assert (oldest <> k). { intros ->. simpl in E. by rewrite Z.eqb_refl in E. }
      destruct (last_retired dp) as [w|]; [specialize (Hw w eq_refl)|]; lia.
  - intros [= <-]. apply insert_new_ok; try done. by apply frame_new_ok.
Qed.

Lemma push_ok dp d now : dp_ok hist dp -> dp_ok hist (push dp d now).
Proof.
  intros H. unfold push. destruct (parse_shard d) as [[[plen rtp] nv]|] eqn:Ep; [|done].
  destruct (parse_shard_fields _ _ _ _ Ep) as (Hbi & _).
  destruct (match last_retired dp with Some c => nv_frame_index nv <=? c | None => false end)
    eqn:Ew; [done|].
  destruct (admit_frame _ _ _ _ _) as [dp'|] eqn:Ea; [|done].
  assert (H' : dp_ok hist dp').
  { eapply admit_frame_ok; [done| |..|exact Ea]; [lia|]. intros c Ec. rewrite Ec in Ew. bool_prop. lia. }
  destruct (bt_get _ (frames dp')) eqn:Eg; [|done]. by apply push_to_frame_ok.
Qed.
End Transitions.

(** One step of the client: a datagram, an expiry tick or the consumption of
    an event, which moves to the history. *)
Inductive client_step {R : ReedSolomon}
  : list VideoEvent * Depacketizer -> list VideoEvent * Depacketizer -> Prop :=
| step_push hist dp d now : client_step (hist, dp) (hist, push dp d now)
| step_expire hist dp now : client_step (hist, dp) (hist, expire dp now)
| step_pop hist dp dp' e : pop_event dp = (Some e, dp') -> client_step (hist, dp) (hist ++ [e], dp').

Lemma client_step_ok {R : ReedSolomon} {RL : ReedSolomonLaws R} s s' :
  dp_ok s.1 s.2 -> client_step s s' -> dp_ok s'.1 s'.2.
Proof.
  intros H Hs. destruct Hs as [hist dp d now|hist dp now|hist dp dp' e Ee]; simpl in *.
  - by apply push_ok.
  - by apply expire_ok.
  - unfold pop_event in Ee. destruct (events dp) as [|e' es] eqn:E; simplify_eq.
    destruct H as [H1 H2 H3 H4 H5]. rewrite E in *.
    split; cbn [frames events last_retired]; rewrite <- ?app_assoc; done.
Qed.

(** C14: Whatever datagrams arrive, in whatever order, and whenever the timer
    fires, the client keeps at most four frames in flight in ascending order,
    counts in every block exactly the distinct data and parity shards it
    received, and reports a given frame as lost at most once over its whole
    history. *)
Theorem depacketizer_invariant {R : ReedSolomon} {RL : ReedSolomonLaws R}
    (hist : list VideoEvent) (dp : Depacketizer) :
  steps client_step ([], depacketizer_new) (hist, dp) -> dp_ok hist dp.
Proof.
  intros Hst. apply (steps_invariant client_step (fun s => dp_ok s.1 s.2)) in Hst; [done| |].
  - split; simpl; [done|lia|constructor|apply NoDup_nil_2|constructor].
  - intros s1 s2. apply client_step_ok.
Qed.

(** Data shard 0 of the two of frame 7, with a 32-byte payload. *)
Definition shard_example : list Z :=
  (rtp_header_bytes {| sequence_number := 100; timestamp := 1; ssrc := 0 |} ++ replicate 4 0)
    ++ nv_packet_bytes {| stream_packet_index := 0; nv_frame_index := 7; flags := 5;
                          multi_fec_blocks := pack_multi_fec_blocks 0 1;
                          fec_info := pack_fec_info 0 2 20 |}
    ++ replicate 32 1.

Lemma depacketizer_invariant_witness :
  dp_ok [] (expire (push (R := XorCodec) depacketizer_new shard_example 5) 200000000).
Proof.
  apply (depacketizer_invariant (R := XorCodec)).
  eapply steps_next; [|apply step_expire]. eapply steps_next; [|apply step_push].
  apply steps_refl.
Defined.

(** ** Loss reports *)

Lemma block_report_loss k f lost b e :
  frame_ok k f -> e ∈ block_report f lost b ->
  exists st n t, e = Fec st /\ fs_frame_index st = k /\ loss_counts st = Some (n, t) /\ 0 < n <= t.
Proof.
  intros Hf. unfold block_report. destruct (frame_block f b) as [blk|] eqn:Eb.
  - case_if; [|by intros ?%not_elem_of_nil]. intros ->%list_elem_of_singleton. bool_prop.
    pose proof (fo_block _ _ Hf _ _ Eb) as [B1 B2 B3 B4 B5]. unfold MAX_SHARDS in *.
    pose proof (count_true_le (drop (b_data_shards blk) (b_received blk))) as Hp.
    rewrite length_drop, B3 in Hp. eexists _, _, _. split; [done|]. split; [apply Hf|].
    unfold loss_counts, fec_status, parity_slots.
    cbn [total_data_shards total_parity_shards received_data_shards received_parity_shards].
    rewrite !u16_id by (unfold is_u16; lia). rewrite (proj2 (Z.eqb_neq _ _)) by lia.
    split; [done|]. lia.
  - destruct lost; [|by intros ?%not_elem_of_nil].
    destruct (head _) as [t|] eqn:Et; [|by intros ?%not_elem_of_nil].
    intros ->%list_elem_of_singleton.
    assert (exists b', frame_block f b' = Some t) as [b' Eb'].
    { apply head_Some_elem_of in Et. apply list_elem_of_omap in Et as (b' & _ & E). eauto. }
    pose proof (fo_block _ _ Hf _ _ Eb') as [B1 B2 B3 B4 B5]. unfold MAX_SHARDS in *.
    eexists _, _, _. split; [done|]. split; [apply Hf|].
    unfold loss_counts, fec_status, parity_slots.
    cbn [total_data_shards total_parity_shards received_data_shards received_parity_shards].
    rewrite !u16_id by (unfold is_u16; lia). rewrite (proj2 (Z.eqb_neq _ _)) by lia.
    split; [done|]. lia.
Qed.

(** Block [b] has nothing to report. *)
Definition block_lossless (f : FrameAsm) (lost : bool) (b : nat) : Prop :=
  match frame_block f b with
  | Some blk => b_received_data blk = Z.of_nat (b_data_shards blk)
  | None => lost = false \/ Forall (fun b' => frame_block f b' = None) (seq 0 (f_block_count f))
  end.

Lemma block_report_nil k f lost b :
  frame_ok k f -> block_report f lost b = [] <-> block_lossless f lost b.
Proof.
  intros Hf. unfold block_report, block_lossless. destruct (frame_block f b) as [blk|] eqn:Eb.
  - pose proof (fo_block _ _ Hf _ _ Eb) as [B1 B2 B3 B4 B5].
    pose proof (count_true_le (take (b_data_shards blk) (b_received blk))) as Hp.
    rewrite length_take in Hp. case_if; bool_prop; split; try done; lia.
  - destruct lost; [|by split; [left|]].
    destruct (head _) as [t|] eqn:Et; split; try done.
    + intros [?|Hall]; [done|]. apply head_Some_elem_of in Et.
      apply list_elem_of_omap in Et as (b' & Hb' & E). rewrite Forall_forall in Hall.
      by rewrite Hall in E.
    + intros _. right. apply Forall_forall. intros b' Hb'.
      destruct (frame_block f b') as [t|] eqn:E; [|done]. exfalso.
      assert (Hin : t ∈ omap (frame_block f) (seq 0 (f_block_count f)))
        by (apply list_elem_of_omap; eauto).
      destruct (omap _ _); [by apply not_elem_of_nil in Hin|done].
Qed.

(** A retired frame reports a FEC status for a block exactly when data
    shards of it were lost (or the whole block of a lost frame was), every
    report names the frame and stands for a positive loss, and a frame
    received without loss reports nothing, so the host's rate is not cut
    without cause. *)
Theorem report_fec_spec (k : Z) (f : FrameAsm) (lost : bool) :
  frame_ok k f ->
  (forall e, e ∈ report_fec f lost ->
     exists st n t, e = Fec st /\ fs_frame_index st = k
                    /\ loss_counts st = Some (n, t) /\ 0 < n <= t)
  /\ (report_fec f lost = [] <->
      Forall (block_lossless f lost) (seq 0 (f_block_count f))).
Proof.
  intros Hf. unfold report_fec. split.
  - intros e (b & He & _)%list_elem_of_bind. by eapply block_report_loss.
  - induction (seq 0 (f_block_count f)) as [|b l IH]; [by split; [constructor|]|].
    rewrite bind_cons, Forall_cons, <- IH, <- block_report_nil by done.
    split; [by intros ?%app_eq_nil|]. by intros [-> ->].
Qed.

(** A one-block frame of two data shards that received only the first. *)
Definition lossy_example : FrameAsm :=
  frame_set_block (frame_new 7 1 32 0) 0 (block_receive (block_new 2 1 20) 0 100 (replicate 32 1)).

Lemma report_fec_spec_witness :
  (forall e, e ∈ report_fec lossy_example true ->
     exists st n t, e = Fec st /\ fs_frame_index st = 7
                    /\ loss_counts st = Some (n, t) /\ 0 < n <= t)
  /\ (report_fec lossy_example true = [] <->
      Forall (block_lossless lossy_example true) (seq 0 (f_block_count lossy_example))).
Proof.
  apply (report_fec_spec 7 lossy_example true). unfold lossy_example.
  apply frame_set_block_ok; [apply frame_new_ok; vm_compute; lia| |vm_compute; lia].
  apply block_receive_ok; [apply block_new_ok; vm_compute; lia|reflexivity].
Defined.

(** ** Duplicates *)

Lemma frame_set_block_same f b blk : frame_block f b = Some blk -> frame_set_block f b blk = f.
Proof.
  unfold frame_block, frame_set_block. destruct (f_blocks f !! b) as [o|] eqn:E; [|done].
  simpl. intros ->. destruct f; simpl in *. by rewrite list_insert_id.
Qed.

(** The frame refuses (another copy of) the shard. *)
Definition settled (f : FrameAsm) (plen : nat) (nv : NvVideoPacket) : Prop :=
  f_shard_payload_len f <> plen \/ f_block_count f <> block_count nv
  \/ exists blk, frame_block f (block_index nv) = Some blk
       /\ (b_data_shards blk <> data_shards nv \/ (length (b_slots blk) <= shard_index nv)%nat
           \/ b_received blk !!! shard_index nv = true).

Section Duplicates.
Context {R : ReedSolomon} {RL : ReedSolomonLaws R}.

Lemma push_to_frame_settled dp f plen rtp nv d :
  bt_sorted (frames dp) -> bt_get (nv_frame_index nv) (frames dp) = Some f ->
  settled f plen nv -> push_to_frame dp f plen rtp nv d = dp.
Proof.
  intros Hs E Hset. unfold push_to_frame. case_if; [done|].
  destruct Hset as [?|[?|(blk & Eb & Hc)]]; bool_prop; [done..|]. rewrite Eb. simpl default.
  assert (C : negb (b_data_shards blk =? data_shards nv)%nat
              || (length (b_slots blk) <=? shard_index nv)%nat
              || b_received blk !!! shard_index nv = true).
  { destruct Hc as [Hd|[Hl| ->]]; [|rewrite (proj2 (Nat.leb_le _ _) Hl)|];
      rewrite ?orb_true_r; try done. by rewrite (proj2 (Nat.eqb_neq _ _) Hd). }
  rewrite C, frame_set_block_same, bt_insert_same by done. by destruct dp.
Qed.

Lemma emit_completed_get dp k f :
  bt_sorted (frames dp) -> bt_get k (frames dp) = Some f ->
  bt_get k (frames (emit_completed dp k)) = Some (frame_set_delivered f).
Proof.
  intros Hs E. unfold emit_completed. rewrite retire_all_frames, E by (done || apply below_not_self).
  destruct (assemble f); simpl; apply bt_get_insert_eq.
Qed.

Lemma push_to_frame_settles hist dp f plen rtp nv d :
  dp_ok hist dp -> parse_shard d = Some (plen, rtp, nv) ->
  bt_get (nv_frame_index nv) (frames dp) = Some f ->
  exists f', bt_get (nv_frame_index nv) (frames (push_to_frame dp f plen rtp nv d)) = Some f'
             /\ settled f' plen nv.
Proof.
  intros H Hp E. pose proof (frame_ok_get _ _ _ _ H E) as Hf.
  destruct (parse_shard_fields _ _ _ _ Hp) as (Hbi & _).
  assert (Hget : forall b', frame_block (frame_set_block f (block_index nv) b') (block_index nv) = Some b').
  { intros b'. rewrite frame_block_set by (rewrite (fo_blocks _ _ Hf); lia). by rewrite decide_True. }
  unfold push_to_frame. case_if.
  { exists f. split; [done|]. apply orb_prop in E0 as [?|?]; bool_prop; [by left|by right; left]. }
  set (blk := default _ _). case_if.
  { eexists. split; [apply bt_get_insert_eq|]. right; right. exists blk. split; [apply Hget|].
    repeat (apply orb_prop in E1 as [E1|E1]); bool_prop; auto. }
  set (blk' := block_receive _ _ _ _). bool_prop.
  assert (Hr : forall b', b_received b' = b_received blk' -> block_ok blk ->
                 b_received b' !!! shard_index nv = true).
  { intros b' -> Hb. apply list_lookup_total_correct. simpl. apply list_lookup_insert_eq.
    rewrite (bo_received _ Hb). lia. }
  assert (Hb : block_ok blk).
  { subst blk. destruct (frame_block f (block_index nv)) eqn:Eb; simpl; [by eapply fo_block|].
    destruct (parse_shard_fields _ _ _ _ Hp) as (_ & ? & ?). by apply block_new_ok. }
  assert (Ht : b_received (try_recover blk') = b_received blk').
  { unfold try_recover. repeat case_if; try done. by destruct (rs_reconstruct_data _ _ _). }
  case_if; [|case_if].
  - eexists. split; [apply bt_get_insert_eq|]. right; right. exists blk'. split; [apply Hget|]. auto.
  - eexists. split; [apply emit_completed_get; [by apply bt_insert_sorted, H|apply bt_get_insert_eq]|].
    right; right. exists (try_recover blk'). split; [exact (Hget _)|]. auto.
  - eexists. split; [apply bt_get_insert_eq|]. right; right. exists (try_recover blk').
    split; [exact (Hget _)|]. auto.
Qed.
End Duplicates.

(** In every reachable state, a second copy of a datagram, at whatever
    time it arrives, changes nothing. *)
Theorem push_duplicate {R : ReedSolomon} {RL : ReedSolomonLaws R}
    (hist : list VideoEvent) (dp : Depacketizer) (d : list Z) (t1 t2 : Z) :
  dp_ok hist dp -> push (push dp d t1) d t2 = push dp d t1.
Proof.
  intros H. unfold push at 2 3. destruct (parse_shard d) as [[[plen rtp] nv]|] eqn:Ep.
  2: { unfold push. by rewrite Ep. }
  destruct (match last_retired dp with Some c => nv_frame_index nv <=? c | None => false end) eqn:Ew.
  { unfold push. by rewrite Ep, Ew. }
  destruct (parse_shard_fields _ _ _ _ Ep) as (Hbi & _).
  destruct (admit_frame dp _ _ _ t1) as [dp1|] eqn:Ea.
  - assert (H1 : dp_ok hist dp1).
    { eapply admit_frame_ok; [done| |..|exact Ea]; [lia|]. intros c Ec. rewrite Ec in Ew. bool_prop. lia. }
    assert (exists f, bt_get (nv_frame_index nv) (frames dp1) = Some f) as [f Ef].
    { revert Ea. unfold admit_frame, bt_contains.
      destruct (bt_get (nv_frame_index nv) (frames dp)) eqn:E; [intros [= <-]; eauto|].
      repeat case_match; intros; simplify_eq; eexists; apply bt_get_insert_eq. }
    rewrite Ef. destruct (push_to_frame_settles hist dp1 f plen rtp nv d) as (f' & Ef' & Hs'); try done.
    pose proof (push_to_frame_ok hist dp1 f d plen rtp nv H1 Ep Ef) as H2.
    revert Ef' H2. generalize (push_to_frame dp1 f plen rtp nv d). intros dp2 Ef' H2.
    unfold push. rewrite Ep.
    destruct (match last_retired dp2 with Some c => nv_frame_index nv <=? c | None => false end); [done|].
    unfold admit_frame, bt_contains. rewrite Ef', Ef'.
    apply push_to_frame_settled; try done. apply H2.
  - unfold push. rewrite Ep, Ew.
    assert (admit_frame dp (nv_frame_index nv) (block_count nv) plen t2 = None) as ->; [|done].
    revert Ea. unfold admit_frame. repeat case_match; try done.
Qed.

Lemma push_duplicate_witness :
  push (R := XorCodec) (push (R := XorCodec) depacketizer_new shard_example 5) shard_example 6
  = push (R := XorCodec) depacketizer_new shard_example 5.
Proof.
  apply (push_duplicate (R := XorCodec) []).
  split; simpl; [done|lia|constructor|apply NoDup_nil_2|constructor].
Defined.

(** ** The receive loop *)

Definition output_of (e : VideoEvent) : VideoOutput :=
  match e with
  | Frame au => SendAu au
  | Fec st => SendFec st
  | Lost i => SendLost i
  end.

Definition is_frame (e : VideoEvent) : bool := match e with Frame _ => true | _ => false end.

Lemma drain_events_open es : drain_events true es = (true, map output_of es).
Proof. induction es as [|[] es IH]; simpl; rewrite ?IH; done. Qed.

Lemma drain_events_closed es :
  (drain_events false es).1 = negb (existsb is_frame es)
  /\ exists rest, map output_of es = (drain_events false es).2 ++ rest.
Proof.
  induction es as [|[] es [IH1 [rest IH2]]]; simpl; eauto.
  all: split; [done|]; exists rest; by rewrite IH2.
Qed.

(** What the loop sends to the host in one iteration. *)
Definition to_host (outs : list VideoOutput) : list (list Z) :=
  omap (fun o => match o with SendToHost p => Some p | _ => None end) outs.

Lemma to_host_events es : to_host (map output_of es) = [].
Proof. induction es as [|[] es IH]; done. Qed.

(** One iteration of the receive loop: datagrams from other addresses
    are ignored; an RTT probe is echoed unchanged and touches no state; in any
    other case the depacketizer takes the datagram (or expires frames, after
    a PING) and, while the consumer lives, every event is passed on once and
    in order, leaving the queue empty; the loop ends only when an access unit
    has no consumer. *)
Theorem run_step_spec {R : ReedSolomon} (dp : Depacketizer) (i : VideoInput) :
  let next := match i with
              | Recv true d now => if is_someb (parse_rtt_probe d) then dp else push dp d now
              | Recv false _ _ => dp
              | PingTick now => expire dp now
              end in
  let quiet := match i with
               | Recv from_host d _ => negb from_host || is_someb (parse_rtt_probe d)
               | PingTick _ => false
               end in
  (forall open cont dp' outs, run_step open dp i = (cont, dp', outs) ->
     to_host outs = match i with
                    | Recv true d _ => if is_someb (parse_rtt_probe d) then [d] else []
                    | Recv false _ _ => []
                    | PingTick _ => [PING_PAYLOAD]
                    end
     /\ (quiet = true -> cont = true /\ dp' = dp)
     /\ (quiet = false -> frames dp' = frames next /\ events dp' = []
           /\ cont = open || negb (existsb is_frame (events next))))
  /\ (quiet = false ->
      (run_step true dp i).2
      = match i with PingTick _ => [SendToHost PING_PAYLOAD] | _ => [] end
          ++ map output_of (events next)).
Proof.
  assert (Hto : forall open es, to_host (drain_events open es).2 = []).
  { intros [] es; [rewrite drain_events_open; apply to_host_events|].
    destruct (drain_events_closed es) as [_ [rest E]]. apply (f_equal to_host) in E.
    rewrite to_host_events in E. unfold to_host in *. rewrite omap_app in E.
    symmetry in E. by apply app_eq_nil in E as [? _]. }
  assert (Hcont : forall open es, (drain_events open es).1 = open || negb (existsb is_frame es)).
  { intros [] es; [by rewrite drain_events_open|]. apply drain_events_closed. }
  intros next quiet. destruct i as [[] d now|now]; unfold run_step; simpl in *.
  - subst next quiet. destruct (parse_rtt_probe d) as [m|] eqn:E.
    + split; [|done]. intros open cont dp' outs [= <- <- <-]. done.
    + split.
      * intros open cont dp' outs [= <- <- <-]. rewrite Hto, Hcont. done.
      * intros _. by rewrite drain_events_open.
  - split; [|done]. intros open cont dp' outs [= <- <- <-]. done.
  - split.
    + intros open cont dp' outs [= <- <- <-]. cbn [frames events]. rewrite Hcont.
      split; [|done]. unfold to_host in *. simpl. f_equal. apply Hto.
    + intros _. by rewrite drain_events_open.
Qed.
