(* ===== verification/VideoPath.v ===== *)
(** * The video path end to end: packetizer, lossy network, depacketizer

    The shards the host makes of a frame are delivered to a fresh client
    depacketizer in any order, with any loss and duplication.  The theorem
    [frame_delivery] says exactly when the access unit comes out and that it
    is the encoded frame. *)
From S2P Require Import Prelude BTree Wire Fec Packetizer Depacketizer.

(** ** The network's view of a frame *)

Definition shard_nv (s : list Z) : option NvVideoPacket :=
  r <-? parse_shard s; Some r.2.

Definition in_block (b : nat) (s : list Z) : Prop :=
  (block_index <$> shard_nv s) = Some b.
#[export] Instance in_block_dec b s : Decision (in_block b s).
Proof. unfold in_block. apply _. Defined.

(** The shards of block [b] among those that arrived. *)
Definition arrived (shards ds : list (list Z)) (b : nat) : nat :=
  length (filter (fun s => s ∈ ds /\ in_block b s) shards).

(** Every block has at least as many distinct shards as it has data shards. *)
Definition shard_covered (shards ds : list (list Z)) (s : list Z) : Prop :=
  match shard_nv s with
  | Some nv => (data_shards nv <= arrived shards ds (block_index nv))%nat
  | None => False
  end.
#[export] Instance shard_covered_dec shards ds s : Decision (shard_covered shards ds s).
Proof. unfold shard_covered. destruct (shard_nv s); apply _. Defined.

Definition deliverable (shards ds : list (list Z)) : Prop := Forall (shard_covered shards ds) shards.
#[export] Instance deliverable_dec shards ds : Decision (deliverable shards ds).
Proof. unfold deliverable. apply _. Defined.

(** The codec accepts the shard counts of every protected block. *)
Definition codec_supports `{ReedSolomon} (shards : list (list Z)) : Prop :=
  Forall (fun s => match shard_nv s with
                   | Some nv => (0 < parity_shards nv)%nat ->
                                rs_new (data_shards nv) (parity_shards nv) = true
                   | None => True
                   end) shards.

(** Datagrams with their arrival times, fed to the depacketizer. *)
Definition receive `{ReedSolomon} (dp : Depacketizer) (arrivals : list (list Z * Z)) : Depacketizer :=
  foldl (fun dp a => push dp a.1 a.2) dp arrivals.

(** ** A client with earlier frames *)

Definition au_of (e : VideoEvent) : option AuFrame := match e with Frame au => Some au | _ => None end.

(** The access units among the events. *)
Definition delivered (es : list VideoEvent) : list AuFrame := omap au_of es.

Lemma delivered_app es es' : delivered (es ++ es') = delivered es ++ delivered es'.
Proof. apply omap_app. Qed.

(** Whatever the client holds or has given up belongs to frames before [n]. *)
Record settled_below (n : Z) (dp : Depacketizer) : Prop := {
  sb_sorted : bt_sorted (frames dp);
  sb_keys : Forall (fun e => e.1 < n /\ f_frame_index e.2 = e.1) (frames dp);
  sb_room : (length (frames dp) <= MAX_INFLIGHT_FRAMES)%nat;
  sb_mark : forall c, last_retired dp = Some c -> c < n
}.

Lemma settled_below_mono n n' dp : n <= n' -> settled_below n dp -> settled_below n' dp.
Proof.
  intros Hn [S1 S2 S3 S4]. split; try done.
  - eapply Forall_impl; [exact S2|]. simpl. lia.
  - intros c Hc. specialize (S4 c Hc). lia.
Qed.

Lemma settled_new n : settled_below n depacketizer_new.
Proof. split; simpl; [done|done|lia|done]. Qed.

Definition keys_below (n : Z) (m : list (Z * FrameAsm)) : Prop := Forall (fun e => e.1 < n /\ f_frame_index e.2 = e.1) m.

Lemma keys_below_lt n m : keys_below n m -> Forall (fun e => e.1 < n) m.
Proof. intros H. eapply Forall_impl; [exact H|]. simpl. lia. Qed.

Lemma raise_below n lr k : (forall c, lr = Some c -> c < n) -> k < n -> forall c, raise_watermark lr k = Some c -> c < n.
Proof. intros H Hk c [= <-]. destruct lr as [c|]; [specialize (H c eq_refl)|]; lia. Qed.

Lemma raise_all_below n m lr : (forall c, lr = Some c -> c < n) -> keys_below n m ->
  forall c, foldl raise_watermark lr (map (fun e => f_frame_index e.2) m) = Some c -> c < n.
Proof.
  intros H Hm. revert lr H. induction Hm as [|[k f] m [Hk Hf] Hm IH]; intros lr H; [exact H|]. cbn [map foldl].
  apply IH. apply raise_below; [exact H|]. simpl in *. lia.
Qed.

(** Retiring never delivers. *)
Lemma report_fec_quiet f lost : delivered (report_fec f lost) = [].
Proof.
  unfold report_fec. generalize (seq 0 (f_block_count f)). intros l. induction l as [|b l IH]; [done|].
  cbn [mbind list_bind]. rewrite delivered_app, IH, app_nil_r. unfold block_report.
  destruct (frame_block f b); [by case_if|]. destruct lost; [|done]. by destruct (head _).
Qed.

Lemma retire_events_quiet f : delivered (retire_events f) = [].
Proof. unfold retire_events. rewrite delivered_app, report_fec_quiet. by destruct (f_delivered f). Qed.

Lemma retire_all_quiet (m : list (Z * FrameAsm)) : delivered (concat (map (fun e => retire_events e.2) m)) = [].
Proof. induction m as [|e m IH]; [done|]. cbn [map concat]. by rewrite delivered_app, retire_events_quiet, IH. Qed.

(** What is left of the frames of [dp0] while a later frame [n] is received:
    those still held, the watermark, and what was reported of the others. *)
Record earlier (dp0 : Depacketizer) (n : Z) (older : list (Z * FrameAsm)) (lr : option Z) (extra : list VideoEvent) : Prop := {
  ea_sorted : bt_sorted older;
  ea_keys : keys_below n older;
  ea_room : (length older < MAX_INFLIGHT_FRAMES)%nat;
  ea_mark : forall c, lr = Some c -> c < n;
  ea_quiet : delivered extra = [];
  ea_fresh : frames dp0 = [] -> older = [] /\ extra = [] /\ lr = last_retired dp0
}.

Lemma admit_later dp0 n bc plen now : settled_below n dp0 ->
  exists older lr extra, earlier dp0 n older lr extra /\
    admit_frame dp0 n bc plen now
    = Some (mkDepacketizer (older ++ [(n, frame_new n bc plen now)]) lr (events dp0 ++ extra)).
Proof.
  intros [S1 S2 S3 S4]. unfold admit_frame, bt_contains. rewrite bt_get_below by by apply keys_below_lt.
  destruct (MAX_INFLIGHT_FRAMES <=? length (frames dp0))%nat eqn:E; bool_prop.
  - destruct (frames dp0) as [|[o f] m] eqn:Ef; [unfold MAX_INFLIGHT_FRAMES in E; simpl in E; lia|].
    apply Forall_cons in S2 as [[Ho Hi] S2]. simpl in *. destruct S1 as [_ S1].
    rewrite (proj2 (Z.ltb_ge _ _)) by lia. rewrite Z.eqb_refl, retire_eq. cbn [set_frames frames last_retired events].
    exists m, (raise_watermark (last_retired dp0) (f_frame_index f)), (retire_events f). split.
    + split; [done|done|lia| |apply retire_events_quiet|by rewrite Ef]. apply raise_below; [done|]. lia.
    + by rewrite bt_insert_last by by apply keys_below_lt.
  - exists (frames dp0), (last_retired dp0), []. split; [by split|].
    unfold set_frames. by rewrite app_nil_r, bt_insert_last by by apply keys_below_lt.
Qed.

Lemma emit_later dp0 n older lr extra f : earlier dp0 n older lr extra ->
  exists lr' extra', earlier dp0 n [] lr' extra' /\
    emit_completed (mkDepacketizer (older ++ [(n, f)]) lr (events dp0 ++ extra)) n
    = mkDepacketizer [(n, frame_set_delivered f)] lr'
        (events dp0 ++ extra' ++ [match assemble f with Some a => Frame a | None => Lost n end]).
Proof.
  intros [E1 E2 E3 E4 E5 E6]. unfold emit_completed, bt_below. cbn [frames].
  pose proof (keys_below_lt _ _ E2) as Hlt.
  rewrite (retire_all_spec (fun e => e.1 < n) (mkDepacketizer (older ++ [(n, f)]) lr _)) by by apply bt_sorted_last.
  cbn [frames last_retired events]. rewrite !filter_app, (filter_cons_False (fun e : Z * FrameAsm => e.1 < n)), (filter_cons_True (fun e : Z * FrameAsm => ~ e.1 < n)) by (simpl; lia).
  rewrite (list_filter_all (fun e : Z * FrameAsm => e.1 < n)) by done.
  rewrite (list_filter_none (fun e : Z * FrameAsm => ~ e.1 < n)) by (eapply Forall_impl; [exact Hlt|simpl; lia]).
  cbn [app filter list_filter bt_get]. rewrite app_nil_r, Z.eqb_refl. cbn [set_frames frames bt_insert last_retired events].
  rewrite Z.ltb_irrefl, Z.eqb_refl.
  exists (foldl raise_watermark lr (map (fun e => f_frame_index e.2) older)),
         (extra ++ concat (map (fun e => retire_events e.2) older)). split.
  - split; [done|constructor|simpl; unfold MAX_INFLIGHT_FRAMES; lia|by apply raise_all_below| |].
    + by rewrite delivered_app, E5, retire_all_quiet.
    + intros H. by destruct (E6 H) as (-> & -> & ->).
  - unfold push_event, set_frames. cbn [frames last_retired events]. destruct (assemble f); f_equal; by rewrite <- !app_assoc.
Qed.

(** ** The shards of one frame *)

Section Delivery.
Context {R : ReedSolomon} {RL : ReedSolomonLaws R}.
Context (j : FrameJob) (Hj : job_plan_ok j).
Context (Hf : is_u32 (job_frame_number j)) (Hts : is_u32 (job_timestamp j)).
Context (Hfit : (job_total j <= 3 * nr_data_per_block (job_fec j) + MAX_SHARDS)%nat).
Context (seq0 spi0 : Z) (Hq : is_u32 seq0) (Hs : is_u32 spi0).

Abbreviation blocks := (job_blocks j).
Abbreviation nd := (blk_data j).
Abbreviation np := (blk_parity j).
Abbreviation psz := (job_payload_size j).
Abbreviation fn := (job_frame_number j).
Abbreviation shards := (concat (frame_blocks j 0 blocks seq0 spi0)).

Definition sh (b : nat) : list (list Z) :=
  block_shards j b (u32 (seq0 + Z.of_nat (frame_count j 0 b)))
                   (u32 (spi0 + Z.of_nat (frame_data_count j 0 b))).
Definition cw (b : nat) : list (list Z) :=
  block_codeword j b (u32 (seq0 + Z.of_nat (frame_count j 0 b)))
                     (u32 (spi0 + Z.of_nat (frame_data_count j 0 b))).

Lemma length_sh b : length (sh b) = (nd b + np b)%nat.
Proof. apply length_block_shards. Qed.
Lemma length_cw b : length (cw b) = (nd b + np b)%nat.
Proof. apply length_block_codeword. Qed.

Lemma nd_bound b : (b < blocks)%nat -> (1 <= nd b /\ nd b + np b <= MAX_SHARDS)%nat.
Proof.
  intros Hb. pose proof (blk_data_bound j Hj b Hfit Hb).
  pose proof (blk_total_bound j Hj Hfit b Hb). lia.
Qed.

(** The receiver accepts every shard and reads the sender's numbers. *)
Lemma sh_parse b i s :
  (b < blocks)%nat -> sh b !! i = Some s ->
  exists rtp nv, parse_shard s = Some (psz, rtp, nv)
    /\ nv_frame_index nv = fn /\ shard_index nv = i /\ data_shards nv = nd b
    /\ fec_percentage nv = job_fec j /\ parity_shards nv = np b
    /\ block_index nv = b /\ block_count nv = blocks
    /\ cw b !! i = Some (drop PAYLOAD_OFFSET s).
Proof.
  intros Hb E. pose proof (nd_bound b Hb) as [H1 H2].
  pose proof (lookup_lt_Some _ _ _ E) as Hi. rewrite length_sh in Hi.
  destruct (block_shards_lookup j b _ _ i s Hj Hf Hts Hb E) as [H Hc].
  destruct (shard_headers_fields j b _ i s Hj Hb ltac:(lia) ltac:(lia) H)
    as (nv & Er & Ef & Ei & Ed & Epc & Epa & Ebi & Ebc).
  destruct (sh_rtp _ _ _ _ _ H) as (rtp & Ert & _).
  exists rtp, nv. split_and!; try done. unfold parse_shard.
  assert (shard_payload_len (length s) = Some psz) as ->.
  { apply shard_payload_len_spec. split; [apply (sh_length _ _ _ _ _ H)|].
    apply (job_payload_ok j Hj). }
  rewrite (sh_version _ _ _ _ _ H), Ert, Er, Ebi, Ebc, Ed, Ei. simpl negb. cbv iota.
  rewrite (proj2 (Nat.leb_gt _ _)) by lia. rewrite (proj2 (Nat.eqb_neq _ _)) by lia.
  rewrite (proj2 (Nat.ltb_ge _ _)) by lia. rewrite (proj2 (Nat.leb_gt _ _)) by lia. done.
Qed.

Lemma sh_parse_nv b i s :
  (b < blocks)%nat -> sh b !! i = Some s ->
  exists nv, shard_nv s = Some nv /\ shard_index nv = i /\ data_shards nv = nd b
    /\ parity_shards nv = np b /\ block_index nv = b.
Proof.
  intros Hb E. destruct (sh_parse b i s Hb E) as (rtp & nv & Ep & ?).
  exists nv. unfold shard_nv. rewrite Ep. intuition congruence.
Qed.

Lemma sh_inj b i b' i' s :
  (b < blocks)%nat -> (b' < blocks)%nat ->
  sh b !! i = Some s -> sh b' !! i' = Some s -> b = b' /\ i = i'.
Proof.
  intros Hb Hb' E E'. destruct (sh_parse_nv b i s Hb E) as (nv & E1 & ? & _ & _ & ?).
  destruct (sh_parse_nv b' i' s Hb' E') as (nv' & E2 & ? & _ & _ & ?). simplify_eq. done.
Qed.

Lemma frame_blocks_sh : frame_blocks j 0 blocks seq0 spi0 = map sh (seq 0 blocks).
Proof.
  apply list_eq_same_length with blocks.
  - by rewrite length_map, length_seq.
  - apply length_frame_blocks.
  - intros k x y Hk Ex Ey. apply frame_blocks_lookup in Ex; [|done..].
    rewrite list_lookup_fmap, lookup_seq_lt in Ey by done. injection Ey as <-. exact Ex.
Qed.

Lemma elem_of_shards s :
  s ∈ shards <-> exists b i, (b < blocks)%nat /\ sh b !! i = Some s.
Proof.
  rewrite frame_blocks_sh, list_elem_of_In, in_concat. setoid_rewrite in_map_iff.
  setoid_rewrite in_seq. split.
  - intros (l & (b & <- & Hb) & [i Hi]%list_elem_of_In%list_elem_of_lookup).
    exists b, i. split; [lia|done].
  - intros (b & i & Hb & E). exists (sh b). split; [exists b; split; [done|lia]|].
    by apply list_elem_of_In, list_elem_of_lookup_2 with i.
Qed.

(** ** Arrived shards, block by block *)

Definition got (ds : list (list Z)) (b : nat) : nat := length (filter (fun s => s ∈ ds) (sh b)).

Lemma in_block_sh b b' i s :
  (b' < blocks)%nat -> sh b' !! i = Some s -> in_block b s <-> b' = b.
Proof.
  intros Hb' E. destruct (sh_parse_nv b' i s Hb' E) as (nv & En & _ & _ & _ & <-).
  unfold in_block. rewrite En. simpl. split; [by intros [= ->]|by intros ->].
Qed.

Lemma arrived_got ds b : (b < blocks)%nat -> arrived shards ds b = got ds b.
Proof.
  intros Hb. unfold arrived, got. rewrite frame_blocks_sh.
  assert (X : forall n k, (k + n <= blocks)%nat ->
    length (filter (fun s => s ∈ ds /\ in_block b s) (concat (map sh (seq k n)))) =
    if decide (k <= b < k + n)%nat then length (filter (fun s => s ∈ ds) (sh b)) else 0%nat).
  { induction n as [|n IH]; intros k Hk; [rewrite decide_False by lia; done|].
    cbn [seq map concat]. rewrite filter_app, length_app, IH by lia.
    destruct (decide (k = b)) as [->|Hne].
    - rewrite decide_False, decide_True by lia. rewrite Nat.add_0_r. f_equal.
      apply list_filter_iff'. apply Forall_lookup_2. intros i s E.
      rewrite (in_block_sh b b i s Hb E). intuition.
    - rewrite (list_filter_none _ (sh k)).
      + cbn [length]. repeat case_decide; lia.
      + apply Forall_lookup_2. intros i s E.
        rewrite (in_block_sh b k i s ltac:(lia) E). intuition. }
  rewrite X by lia. by rewrite decide_True by lia.
Qed.

Definition all_got (ds : list (list Z)) : Prop := forall b, (b < blocks)%nat -> (nd b <= got ds b)%nat.

Lemma deliverable_all_got ds : deliverable shards ds <-> all_got ds.
Proof.
  unfold deliverable, all_got. rewrite Forall_forall. unfold shard_covered. split.
  - intros H b Hb. pose proof (nd_bound b Hb).
    destruct (lookup_lt_is_Some_2 (sh b) 0) as [s Es]; [rewrite length_sh; lia|].
    specialize (H s (proj2 (elem_of_shards s) ltac:(by exists b, 0%nat))).
    destruct (sh_parse_nv b 0 s Hb Es) as (nv & En & _ & Ed & _ & Eb). rewrite En, Ed, Eb in H.
    by rewrite <- arrived_got.
  - intros H s (b & i & Hb & Es)%elem_of_shards.
    destruct (sh_parse_nv b i s Hb Es) as (nv & En & _ & Ed & _ & Eb). rewrite En, Ed, Eb.
    rewrite arrived_got by done. by apply H.
Qed.

(** ** One block while shards arrive *)

Context (Hrs : forall b, (b < blocks)%nat -> (0 < np b)%nat -> rs_new (nd b) (np b) = true).

Definition recv_flags (ds : list (list Z)) (b : nat) : list bool :=
  map (fun s => bool_decide (s ∈ ds)) (sh b).

(** Either complete (by reception or recovery), or still exactly the
    received shards and too few of them. *)
Record block_inv (ds : list (list Z)) (b : nat) (blk : BlockAsm) : Prop := {
  bi_nd : b_data_shards blk = nd b;
  bi_recv : b_received blk = recv_flags ds b;
  bi_cons : consistent (b_slots blk) (cw b);
  bi_cases : (data_complete blk = true /\ (nd b <= got ds b)%nat)
             \/ (data_complete blk = false /\ (got ds b < nd b)%nat
                 /\ map is_someb (b_slots blk) = recv_flags ds b)
}.

Lemma bi_slots ds b blk : block_inv ds b blk -> length (b_slots blk) = (nd b + np b)%nat.
Proof. intros H. rewrite <- length_cw. apply consistent_length, H. Qed.

Lemma got_flags ds b : got ds b = count_true (recv_flags ds b).
Proof. unfold got, recv_flags. by rewrite count_true_map. Qed.

(** The payload columns encode to the codeword. *)
Lemma cw_encoded b :
  (b < blocks)%nat -> (0 < np b)%nat ->
  exists input, length input = (nd b + np b)%nat /\ uniform psz input
                /\ rs_encode (nd b) (np b) input = Some (cw b).
Proof.
  intros Hb Hp. pose proof (Hrs b Hb Hp) as Hn.
  set (q := u32 (seq0 + Z.of_nat (frame_count j 0 b))).
  set (p := u32 (spi0 + Z.of_nat (frame_data_count j 0 b))).
  pose proof (length_block_input j b q p) as Hl. pose proof (uniform_block_input j b q p) as Hu.
  pose proof (job_payload_ok j Hj) as Hpsz.
  destruct (rs_encode_ok _ _ _ _ Hn Hl Hu) as (out & E & _).
  { unfold job_shard_size. lia. }
  exists (map (drop PAYLOAD_OFFSET) (block_input j b q p)). split_and!.
  - by rewrite length_map.
  - replace psz with (job_shard_size j - PAYLOAD_OFFSET)%nat by (unfold job_shard_size; lia).
    by apply uniform_drop.
  - rewrite (rs_encode_drop _ _ _ _ out PAYLOAD_OFFSET Hn Hl Hu) by (unfold job_shard_size; lia || done).
    unfold cw, block_codeword, block_encoded, encode_block. fold q p.
    by rewrite (proj2 (Nat.ltb_lt _ _)), Hn, E.
Qed.

Lemma try_recover_spec b blk :
  (b < blocks)%nat -> b_data_shards blk = nd b -> consistent (b_slots blk) (cw b) ->
  let blk' := try_recover blk in
  b_data_shards blk' = nd b /\ b_received blk' = b_received blk
  /\ consistent (b_slots blk') (cw b)
  /\ ((nd b <= count_some (b_slots blk))%nat -> data_complete blk' = true)
  /\ (data_complete blk = false -> (count_some (b_slots blk) < nd b)%nat -> blk' = blk)
  /\ (data_complete blk = true -> blk' = blk).
Proof.
  intros Hb Hnd Hc blk'. pose proof (consistent_length _ _ Hc) as Hl. rewrite length_cw in Hl.
  subst blk'. unfold try_recover, parity_slots. rewrite Hl, Hnd, Nat.add_comm, Nat.add_sub.
  repeat case_if; bool_prop; try (split_and!; try done; intros; lia).
  - split_and!; try done. intros Hn. apply data_complete_spec, Forall_take, count_some_full. lia.
  - destruct (cw_encoded b Hb) as (input & Li & Hu & Ee); [lia|].
    destruct (rs_reconstruct_ok _ _ _ _ _ _ E2 Li Hu (job_payload_ok j Hj) Ee Hc) as (s' & -> & Hc' & Hs');
      [lia|]. simpl. split_and!; try done; try (intros; lia).
    + intros _. apply data_complete_spec. simpl. by rewrite Hnd.
  - rewrite Hrs in E2; [done|done|lia].
Qed.

Lemma flags_lookup ds b i s :
  sh b !! i = Some s -> recv_flags ds b !! i = Some (bool_decide (s ∈ ds)).
Proof. intros E. unfold recv_flags. by rewrite list_lookup_fmap, E. Qed.

Lemma flags_ext ds ds' b :
  (forall i s, sh b !! i = Some s -> s ∈ ds <-> s ∈ ds') -> recv_flags ds b = recv_flags ds' b.
Proof.
  intros H. unfold recv_flags. apply list_eq. intros i. rewrite !list_lookup_fmap.
  destruct (sh b !! i) as [s|] eqn:E; [|done]. simpl. f_equal. apply bool_decide_ext. by apply (H i).
Qed.

Lemma flags_dup ds b s : s ∈ ds -> recv_flags (ds ++ [s]) b = recv_flags ds b.
Proof.
  intros H. apply flags_ext. intros i s' _. rewrite elem_of_app, list_elem_of_singleton.
  split; [intros [?| ->]; done|auto].
Qed.

Lemma flags_other ds b b' i s :
  (b < blocks)%nat -> (b' < blocks)%nat -> b <> b' -> sh b !! i = Some s ->
  recv_flags (ds ++ [s]) b' = recv_flags ds b'.
Proof.
  intros Hb Hb' Hne E. apply flags_ext. intros i' s' E'.
  rewrite elem_of_app, list_elem_of_singleton. split; [|auto]. intros [?| ->]; [done|].
  by destruct (sh_inj b i b' i' s).
Qed.

Lemma flags_new ds b i s :
  (b < blocks)%nat -> sh b !! i = Some s ->
  recv_flags (ds ++ [s]) b = <[i := true]> (recv_flags ds b).
Proof.
  intros Hb E. apply list_eq. intros k. destruct (decide (k = i)) as [->|Hne].
  - rewrite (flags_lookup _ b i s E), list_lookup_insert_eq.
    + rewrite bool_decide_true; [done|]. rewrite elem_of_app, list_elem_of_singleton. auto.
    + unfold recv_flags. rewrite length_map. by apply lookup_lt_Some in E.
  - rewrite list_lookup_insert_ne by done. unfold recv_flags. rewrite !list_lookup_fmap.
    destruct (sh b !! k) as [s'|] eqn:E'; [|done]. simpl. f_equal. apply bool_decide_ext.
    rewrite elem_of_app, list_elem_of_singleton. split; [|auto]. intros [?| ->]; [done|].
    by destruct (sh_inj b k b i s).
Qed.

Lemma got_mono ds s b : (got ds b <= got (ds ++ [s]) b)%nat.
Proof. apply length_filter_mono. intros x Hx. rewrite elem_of_app. by left. Qed.

Lemma block_inv_ext ds ds' b blk :
  recv_flags ds' b = recv_flags ds b -> block_inv ds b blk -> block_inv ds' b blk.
Proof.
  intros E [H1 H2 H3 H4]. rewrite !got_flags in H4.
  split; rewrite ?got_flags, ?E; done.
Qed.

Lemma block_inv_new b : (b < blocks)%nat -> block_inv [] b (block_new (nd b) (np b) (job_fec j)).
Proof.
  intros Hb. pose proof (nd_bound b Hb) as [H1 _].
  assert (Ef : recv_flags [] b = replicate (nd b + np b) false).
  { rewrite <- length_sh. unfold recv_flags. induction (sh b) as [|s l IH]; [done|].
    cbn [map length replicate]. rewrite bool_decide_false by apply not_elem_of_nil. by f_equal. }
  split; simpl; try done.
  - rewrite <- length_cw. apply consistent_empty.
  - right. rewrite got_flags, Ef. split_and!.
    + unfold data_complete. simpl. destruct (nd b); [lia|]. done.
    + replace (count_true _) with 0%nat; [lia|]. unfold count_true.
      rewrite list_filter_none; [done|]. by apply Forall_replicate.
    + unfold block_new. simpl. clear. induction (nd b + np b)%nat; simpl; congruence.
Qed.

(** A new shard in its block. *)
Lemma block_inv_receive ds b blk i s seqn :
  (b < blocks)%nat -> sh b !! i = Some s -> s ∉ ds -> block_inv ds b blk ->
  block_inv (ds ++ [s]) b (try_recover (block_receive blk i seqn (drop PAYLOAD_OFFSET s))).
Proof.
  intros Hb E Hn Hinv. pose proof (bi_slots _ _ _ Hinv) as Hsl.
  destruct Hinv as [H1 H2 H3 H4]. pose proof (nd_bound b Hb) as [Hnd _].
  set (blk1 := block_receive blk i seqn (drop PAYLOAD_OFFSET s)).
  pose proof (lookup_lt_Some _ _ _ E) as Hi. rewrite length_sh in Hi.
  destruct (sh_parse b i s Hb E) as (_ & _ & _ & _ & _ & _ & _ & _ & _ & _ & Ecw).
  assert (Hc1 : consistent (b_slots blk1) (cw b)) by by apply consistent_insert.
  destruct (try_recover_spec b blk1 Hb H1 Hc1) as (T1 & T2 & T3 & T4 & T5 & T6).
  split; [done| |done|].
  - rewrite T2. simpl. by rewrite H2, (flags_new ds b i s).
  - destruct H4 as [[Hd Hg]|(Hd & Hg & Hm)].
    + left. assert (Hd1 : data_complete blk1 = true).
      { apply data_complete_spec. apply data_complete_spec in Hd. simpl.
        destruct (decide (i < b_data_shards blk)%nat) as [Hlt|Hge].
        - rewrite take_insert_lt by done. apply Forall_insert; [done|by eexists].
        - by rewrite take_insert_ge by lia. }
      rewrite T6 by done. split; [done|]. pose proof (got_mono ds s b). lia.
    + assert (Hm1 : map is_someb (b_slots blk1) = recv_flags (ds ++ [s]) b).
      { rewrite (flags_new ds b i s) by done. rewrite <- Hm. simpl.
        apply list_fmap_insert. }
      assert (Hcnt : count_some (b_slots blk1) = got (ds ++ [s]) b)
        by by rewrite count_some_true, Hm1, got_flags.
      destruct (Nat.le_gt_cases (nd b) (got (ds ++ [s]) b)) as [Hle|Hgt].
      * left. split; [|done]. apply T4. by rewrite Hcnt.
      * right. assert (Hd1 : data_complete blk1 = false).
        { destruct (data_complete blk1) eqn:Ed; [|done]. apply data_complete_spec in Ed.
          apply count_some_take in Ed.
          - rewrite Hcnt in Ed. simpl in Ed. lia.
          - simpl. rewrite length_insert. lia. }
        rewrite T5 by (done || lia). done.
Qed.

(** ** The frame while shards arrive *)

Context (h : VideoFrameHeader) (Hh : frame_header_ok h) (Eh : job_header j = frame_header_bytes h).
Context (Hlast : Z.to_nat (last_payload_len h) = last_shard_size (job_packet_len j) psz).
Context (Hpsz : (VIDEO_FRAME_HEADER_SIZE <= psz)%nat) (Hdata : job_data j <> []).

Definition au : AuFrame :=
  {| au_keyframe := is_key_frame h;
     au_data := (if is_key_frame h then 1 else 0) :: job_data j |}.

(** Block [b] as [push] sees it: the stored one, or a fresh one. *)
Definition cur_blk (f : FrameAsm) (b : nat) : BlockAsm :=
  default (block_new (nd b) (np b) (job_fec j)) (frame_block f b).

Record frame_inv (ds : list (list Z)) (f : FrameAsm) : Prop := {
  fi_index : f_frame_index f = fn;
  fi_count : f_block_count f = blocks;
  fi_plen : f_shard_payload_len f = psz;
  fi_delivered : f_delivered f = false;
  fi_blocks : length (f_blocks f) = MAX_FEC_BLOCKS;
  fi_inv : forall b, (b < blocks)%nat -> block_inv ds b (cur_blk f b)
}.

Lemma frame_inv_new now : frame_inv [] (frame_new fn blocks psz now).
Proof.
  split; try done. intros b Hb. unfold cur_blk, frame_block.
  pose proof (plan_blocks_range j Hj). cbn [frame_new f_blocks].
  rewrite lookup_replicate_2 by lia. by apply block_inv_new.
Qed.

(** Updating block [b] with a shard of block [b]. *)
Lemma frame_inv_set ds s b i f blk :
  (b < blocks)%nat -> sh b !! i = Some s -> frame_inv ds f ->
  block_inv (ds ++ [s]) b blk -> frame_inv (ds ++ [s]) (frame_set_block f b blk).
Proof.
  intros Hb E [F0 F1 F2 F3 F4 F5] Hblk. pose proof (plan_blocks_range j Hj).
  split; try done; [simpl; by rewrite length_insert|].
  intros b' Hb'. unfold cur_blk. rewrite frame_block_set by lia. case_decide as Eb.
  - by subst.
  - apply block_inv_ext with ds; [by apply (flags_other ds b b' i)|]. by apply F5.
Qed.

Lemma frame_complete_spec ds f :
  frame_inv ds f -> frame_complete f = true <-> all_got ds.
Proof.
  intros [_ F1 _ _ _ F5]. unfold frame_complete, all_got. rewrite forallb_forall, F1.
  setoid_rewrite in_seq. split; intros H b Hb; specialize (F5 b ltac:(lia));
    specialize (H b ltac:(lia)); unfold cur_blk in F5; destruct (bi_cases _ _ _ F5) as [[Hd Hg]|(Hd & Hg & _)].
  - done.
  - destruct (frame_block f b); simpl in Hd; congruence.
  - destruct (frame_block f b); [done|]. simpl in Hd.
    pose proof (nd_bound b ltac:(lia)). unfold data_complete in Hd. simpl in Hd.
    destruct (nd b); [lia|done].
  - lia.
Qed.

(** The blocks cover the stream in order. *)
Lemma concat_plan b todo :
  (b + todo = blocks)%nat ->
  concat (map (fun b => List.seq (blk_start j b) (nd b)) (List.seq b todo)) =
  List.seq (blk_start j b) (frame_data_count j b todo).
Proof.
  revert b. induction todo as [|todo IH]; intros b Hb; [done|].
  cbn [List.seq map concat frame_data_count]. destruct todo as [|todo].
  { simpl. by rewrite Nat.add_0_r, app_nil_r. }
  rewrite IH by lia. rewrite seq_app. do 2 f_equal.
  pose proof (blk_spec j Hj b ltac:(lia)) as (_ & H2 & H3).
  rewrite (proj2 (Nat.eqb_neq _ _)) in H3 by lia. unfold blk_data. lia.
Qed.

Definition pieces (b : nat) : list (list Z) :=
  map (fun k => chunk psz k (job_stream j)) (List.seq (blk_start j b) (nd b)).

Lemma concat_pieces :
  concat (map pieces (List.seq 0 blocks)) =
  map (fun k => chunk psz k (job_stream j)) (List.seq 0 (job_total j)).
Proof.
  unfold pieces. rewrite <- (map_map _ (map (fun k => chunk psz k (job_stream j)))).
  rewrite <- concat_map, concat_plan, frame_data_count_total by (done || lia).
  pose proof (plan_blocks_range j Hj). by destruct (blk_spec j Hj 0 ltac:(lia)) as (-> & _).
Qed.

(** A complete block holds its pieces of the stream. *)
Lemma block_inv_holds ds b blk :
  (b < blocks)%nat -> block_inv ds b blk -> (nd b <= got ds b)%nat ->
  holds_data (Some blk) (pieces b).
Proof.
  intros Hb [H1 _ H3 H4] Hg. destruct H4 as [[Hd _]|(_ & ? & _)]; [|lia].
  exists blk. split; [done|]. apply data_complete_spec in Hd. split.
  - rewrite (consistent_complete _ _ _ H3 Hd), H1. unfold cw. by rewrite block_codeword_data.
  - unfold pieces. by rewrite length_map, length_seq.
Qed.

Lemma frame_inv_assemble ds f :
  frame_inv ds f -> all_got ds -> assemble f = Some au.
Proof.
  intros Hfi Hg. pose proof (frame_complete_spec ds f Hfi) as [_ Hfc]. specialize (Hfc Hg).
  destruct Hfi as [_ F1 F2 F3 F4 F5]. pose proof (plan_blocks_range j Hj).
  destruct (last_shard_size_spec j Hj) as [Hl Hpad]. pose proof (job_total_spec j Hj) as (_ & Hbound & _).
  apply (assemble_spec f (map pieces (List.seq 0 blocks)) h (job_data j)
           (replicate (psz - last_shard_size (job_packet_len j) psz) 0)); try done.
  - rewrite F1. apply Forall2_fmap_2, Forall2_same_length_lookup_2; [done|].
    intros k b b' E1 E2. simplify_eq. apply lookup_seq in E1 as [-> Hk]. simpl.
    specialize (F5 k Hk). unfold frame_complete in Hfc. rewrite forallb_forall, F1 in Hfc.
    specialize (Hfc k ltac:(apply in_seq; lia)). unfold cur_blk in F5.
    destruct (frame_block f k) as [blk|]; [|done]. apply (block_inv_holds ds); auto.
  - rewrite concat_pieces, F2. apply Forall_map, Forall_true. intros. apply length_chunk.
  - rewrite concat_pieces, concat_chunks; [|apply Hj|by rewrite (job_stream_length j Hj)].
    rewrite (job_stream_length j Hj), Hpad. unfold job_stream. by rewrite Eh, <- app_assoc.
  - by rewrite F2.
  - lia.
  - rewrite F2, Hlast, length_replicate. lia.
  - rewrite Hlast. lia.
  - apply Forall_map, Forall_forall. intros b Hb%elem_of_seq. unfold pieces.
    pose proof (nd_bound b ltac:(lia)). destruct (nd b); [lia|done].
Qed.

(** ** The depacketizer while shards arrive *)

Context (dp0 : Depacketizer) (H0 : settled_below fn dp0).

Inductive path_inv (ds : list (list Z)) : Depacketizer -> Prop :=
| path_fresh : ds = [] -> path_inv ds dp0
| path_pending f older lr extra :
    earlier dp0 fn older lr extra -> frame_inv ds f -> ~ all_got ds ->
    path_inv ds (mkDepacketizer (older ++ [(fn, f)]) lr (events dp0 ++ extra))
| path_done f lr extra :
    earlier dp0 fn [] lr extra -> f_delivered f = true -> f_frame_index f = fn -> all_got ds ->
    path_inv ds (mkDepacketizer [(fn, f)] lr (events dp0 ++ extra ++ [Frame au])).

Lemma push_pending ds f older lr extra b i s rtp nv :
  (b < blocks)%nat -> sh b !! i = Some s -> parse_shard s = Some (psz, rtp, nv) ->
  earlier dp0 fn older lr extra -> frame_inv ds f -> (s ∈ ds -> ~ all_got ds) ->
  path_inv (ds ++ [s])
    (push_to_frame (mkDepacketizer (older ++ [(fn, f)]) lr (events dp0 ++ extra)) f psz rtp nv s).
Proof.
  intros Hb E Ep Hea Hfi Hng. pose proof Hfi as [F0 F1 F2 F3 F4 F5]. pose proof (keys_below_lt _ _ (ea_keys _ _ _ _ _ Hea)) as Hlt.
  destruct (sh_parse b i s Hb E) as (rtp' & nv' & Ep' & Efn & Esi & Eds & Epct & Epar & Ebi & Ebc & _).
  rewrite Ep in Ep'. injection Ep' as <- <-.
  unfold push_to_frame. rewrite F1, F2, Ebc, Ebi, Esi, Eds, Epct, Epar, Efn, !Nat.eqb_refl.
  cbn [negb orb]. fold (cur_blk f b). pose proof (F5 b Hb) as Hblk.
  rewrite (bi_nd _ _ _ Hblk), Nat.eqb_refl, (bi_slots _ _ _ Hblk). cbn [negb orb].
  pose proof (lookup_lt_Some _ _ _ E) as Hi. rewrite length_sh in Hi.
  rewrite (proj2 (Nat.leb_gt _ _)) by done.
  rewrite (bi_recv _ _ _ Hblk), (list_lookup_total_correct _ _ _ (flags_lookup ds b i s E)).
  cbn [orb frames set_frames]. rewrite !bt_insert_replace_last by done.
  destruct (decide (s ∈ ds)) as [Hin|Hnin].
  - rewrite bool_decide_true by done. apply path_pending; [done| |].
    + apply (frame_inv_set ds s b i); try done. by apply block_inv_ext with ds; [apply flags_dup|].
    + intros Hg. apply (Hng Hin). intros b' Hb'. specialize (Hg b' Hb').
      by rewrite got_flags, flags_dup, <- got_flags in Hg.
  - rewrite bool_decide_false, F3 by done.
    pose proof (block_inv_receive ds b _ i s (sequence_number rtp) Hb E Hnin Hblk) as Hblk'.
    pose proof (frame_inv_set ds s b i f _ Hb E Hfi Hblk') as Hfi'.
    pose proof (frame_complete_spec _ _ Hfi') as Hc.
    destruct (frame_complete _) eqn:Ec.
    + unfold set_frames. cbn [last_retired events].
      edestruct (emit_later dp0 fn older lr extra) as (lr' & extra' & Hea' & ->); [done|].
      rewrite (frame_inv_assemble _ _ Hfi') by by apply Hc. apply path_done; [done|done| |by apply Hc].
      exact (fi_index _ _ Hfi').
    + apply path_pending; [done|done|]. by intros Hg%Hc.
Qed.

Lemma path_inv_push ds dp s now :
  path_inv ds dp -> s ∈ shards -> path_inv (ds ++ [s]) (push dp s now).
Proof.
  intros Hinv (b & i & Hb & E)%elem_of_shards.
  destruct (sh_parse b i s Hb E) as (rtp & nv & Ep & Efn & Esi & Eds & Epct & Epar & Ebi & Ebc & _).
  assert (Hmark : forall lr, (forall c, lr = Some c -> c < fn) -> match lr with Some c => fn <=? c | None => false end = false).
  { intros [c|] Hc; [|done]. specialize (Hc c eq_refl). apply Z.leb_gt. lia. }
  unfold push. rewrite Ep, Efn, Ebc.
  destruct Hinv as [->|f older lr extra Hea Hfi Hng|f lr extra Hea Hd Hi Hg].
  - rewrite Hmark by apply H0. destruct (admit_later dp0 fn blocks psz now H0) as (older & lr & extra & Hea & ->).
    cbn [frames]. rewrite bt_get_last by (eapply keys_below_lt, Hea).
    apply (push_pending [] _ older lr extra b i); try done; [apply frame_inv_new|]. by intros ?%not_elem_of_nil.
  - cbn [last_retired]. rewrite Hmark by apply Hea. pose proof (keys_below_lt _ _ (ea_keys _ _ _ _ _ Hea)) as Hlt.
    unfold admit_frame, bt_contains. cbn [frames]. rewrite !bt_get_last by done. cbv iota. cbn [frames].
    rewrite bt_get_last by done. by apply (push_pending ds f older lr extra b i).
  - cbn [last_retired]. rewrite Hmark by apply Hea. unfold admit_frame, bt_contains. cbn [frames bt_get]. rewrite Z.eqb_refl. cbv iota.
    cbn [frames bt_get]. rewrite Z.eqb_refl.
    assert (Hg' : all_got (ds ++ [s])).
    { intros b' Hb'. pose proof (got_mono ds s b'). specialize (Hg b' Hb'). lia. }
    unfold push_to_frame. rewrite Hd, Efn. cbn [frames bt_insert set_frames].
    rewrite Z.eqb_refl, Z.ltb_irrefl. repeat case_if; by apply path_done.
Qed.

Lemma receive_spec arrivals :
  Forall (fun a => a.1 ∈ shards) arrivals ->
  path_inv (map fst arrivals) (receive dp0 arrivals).
Proof.
  induction arrivals as [|[s now] l IH] using rev_ind; intros H; [by apply path_fresh|].
  apply Forall_app in H as [Hl Hs']. inversion Hs' as [|? ? Hin _]; subst.
  unfold receive. rewrite foldl_app, map_app. apply path_inv_push; [by apply IH|done].
Qed.

Lemma nothing_got : ~ all_got [].
Proof.
  intros Hg. pose proof (plan_blocks_range j Hj). specialize (Hg 0%nat ltac:(lia)). pose proof (nd_bound 0 ltac:(lia)).
  unfold got in Hg. rewrite list_filter_none in Hg; [simpl in Hg; lia|].
  apply Forall_forall. intros s _. apply not_elem_of_nil.
Qed.

(** What a client that held only earlier frames emits, and that it holds only
    this one and earlier ones afterwards. *)
Lemma path_inv_events ds dp :
  path_inv ds dp ->
  exists extra, delivered extra = [] /\ (frames dp0 = [] -> extra = []) /\
    events dp = events dp0 ++ extra ++ (if decide (deliverable shards ds) then [Frame au] else []) /\
    settled_below (fn + 1) dp.
Proof.
  intros [->|f older lr extra Hea Hfi Hng|f lr extra Hea Hd Hi Hg].
  - exists []. rewrite decide_False, !app_nil_r by by intros ?%deliverable_all_got%nothing_got.
    split_and!; try done. eapply settled_below_mono; [|exact H0]. lia.
  - exists extra. rewrite decide_False, app_nil_r by by intros ?%deliverable_all_got. destruct Hea as [E1 E2 E3 E4 E5 E6].
    split_and!; [done|intros H; by destruct (E6 H) as (_ & -> & _)|done|]. split; cbn [frames last_retired].
    + apply bt_sorted_last; [done|by apply keys_below_lt].
    + apply Forall_app. split; [eapply Forall_impl; [exact E2|simpl; lia]|]. constructor; [|done].
      simpl. rewrite (fi_index _ _ Hfi). lia.
    + rewrite length_app. simpl. lia.
    + intros c Hc. specialize (E4 c Hc). lia.
  - exists extra. rewrite decide_True by by apply deliverable_all_got. destruct Hea as [E1 E2 E3 E4 E5 E6].
    split_and!; [done|intros H; by destruct (E6 H) as (_ & -> & _)|done|]. split; cbn [frames last_retired].
    + split; [constructor|done].
    + constructor; [|done]. simpl. lia.
    + simpl. unfold MAX_INFLIGHT_FRAMES. lia.
    + intros c Hc. specialize (E4 c Hc). lia.
Qed.
End Delivery.

(** What a client makes of the shards of one frame, after earlier frames of
    whatever fate: it reports earlier frames at most, emits the access unit
    exactly when enough shards arrived, and is ready for the next frame. *)
Lemma frame_received {R : ReedSolomon} {RL : ReedSolomonLaws R}
    (data : list Z) (key : bool) (req : nat) (fn seq spi ts : Z) (pct : nat)
    (shards : list (list Z)) (seq' spi' : Z) (dp0 : Depacketizer) (arrivals : list (list Z * Z)) :
  is_u32 seq -> is_u32 spi -> is_u32 fn -> is_u32 ts ->
  data <> [] -> (NV_VIDEO_PACKET_SIZE + VIDEO_FRAME_HEADER_SIZE <= req)%nat ->
  is_u32 (Z.of_nat req) ->
  frame_fits (length data) (req - NV_VIDEO_PACKET_SIZE) (fec_clamp pct) ->
  packetize_frame data key req fn seq spi ts pct = Some (shards, seq', spi') ->
  codec_supports shards ->
  Forall (fun a => a.1 ∈ shards) arrivals ->
  settled_below fn dp0 ->
  exists extra, delivered extra = [] /\ (frames dp0 = [] -> extra = []) /\
    events (receive dp0 arrivals) = events dp0 ++ extra ++
      (if decide (deliverable shards (map fst arrivals))
       then [Frame {| au_keyframe := key; au_data := (if key then 1 else 0) :: data |}]
       else []) /\
    settled_below (fn + 1) (receive dp0 arrivals) /\
    Forall (fun a => exists rtp nv, parse_shard a.1 = Some ((req - NV_VIDEO_PACKET_SIZE)%nat, rtp, nv)) arrivals.
Proof.
  intros Hq Hs Hf Ht Hd Hr Hr32 Hfit E Hrs Harr H0.
  destruct (packetize_frame_eq data key req fn seq spi ts pct) as [Hj E2]; try done.
  { unfold VIDEO_FRAME_HEADER_SIZE in Hr. lia. }
  rewrite E in E2. set (j := frame_job _ _ _ _ _ _) in *. injection E2 as -> _ _.
  set (last := last_shard_size (job_packet_len j) (job_payload_size j)).
  destruct (last_shard_size_spec j Hj) as [Hl _]. fold last in Hl.
  assert (Hl32 : is_u32 (Z.of_nat last)).
  { assert (job_payload_size j <= req)%nat by (simpl; lia). unfold is_u32 in *. lia. }
  assert (Hrs' : forall b, (b < job_blocks j)%nat -> (0 < blk_parity j b)%nat ->
                   rs_new (blk_data j b) (blk_parity j b) = true).
  { intros b Hb Hp. pose proof (nd_bound j Hj Hfit b Hb).
    destruct (lookup_lt_is_Some_2 (sh j seq spi b) 0) as [s Es]; [rewrite length_sh; lia|].
    unfold codec_supports in Hrs. rewrite Forall_forall in Hrs.
    specialize (Hrs s (proj2 (elem_of_shards j Hfit seq spi Hq Hs s) ltac:(by exists b, 0%nat))).
    destruct (sh_parse_nv j Hj Hf Ht Hfit seq spi b 0 s Hb Es) as (nv & En & _ & Ed & Ep & _).
    rewrite En, Ed, Ep in Hrs. auto. }
  set (h := {| is_key_frame := key; frame_processing_latency := 0; last_payload_len := Z.of_nat last |}).
  assert (HL : Z.to_nat (last_payload_len h)
               = last_shard_size (job_packet_len j) (job_payload_size j)) by apply Nat2Z.id.
  assert (Hh : frame_header_ok h) by (split; [split; vm_compute; congruence|done]).
  assert (Eh : job_header j = frame_header_bytes h) by (simpl; by rewrite u32_id).
  assert (Hpsz : (VIDEO_FRAME_HEADER_SIZE <= job_payload_size j)%nat)
    by (simpl; unfold NV_VIDEO_PACKET_SIZE, VIDEO_FRAME_HEADER_SIZE in *; lia).
  edestruct (path_inv_events j) with (h := h) (dp0 := dp0) as (extra & H1 & H2 & H3 & H4);
    [..|exists extra; split_and!; [exact H1|exact H2|exact H3|exact H4|]]; try done.
  - by apply (receive_spec j) with (h := h).
  - eapply Forall_impl; [exact Harr|]. intros [s now] Hin. cbn [fst] in *.
    apply (elem_of_shards j) in Hin as (b & i & Hb & Es); [|done..].
    destruct (sh_parse j Hj Hf Ht Hfit seq spi b i s Hb Es) as (rtp & nv & Ep & _). by exists rtp, nv.
Qed.

(** C2: The video path: whatever subset of a frame's shards reaches a fresh
    client, in whatever order and with whatever duplicates, the client emits
    nothing until every FEC block has as many distinct shards as it has data
    shards, and exactly one access unit from then on: the type byte followed
    by the encoded frame, byte for byte. *)
Theorem frame_delivery {R : ReedSolomon} {RL : ReedSolomonLaws R}
    (data : list Z) (key : bool) (req : nat) (fn seq spi ts : Z) (pct : nat)
    (shards : list (list Z)) (seq' spi' : Z) (arrivals : list (list Z * Z)) :
  is_u32 seq -> is_u32 spi -> is_u32 fn -> is_u32 ts ->
  data <> [] -> (NV_VIDEO_PACKET_SIZE + VIDEO_FRAME_HEADER_SIZE <= req)%nat ->
  is_u32 (Z.of_nat req) ->
  frame_fits (length data) (req - NV_VIDEO_PACKET_SIZE) (fec_clamp pct) ->
  packetize_frame data key req fn seq spi ts pct = Some (shards, seq', spi') ->
  codec_supports shards ->
  Forall (fun a => a.1 ∈ shards) arrivals ->
  events (receive depacketizer_new arrivals) =
    if decide (deliverable shards (map fst arrivals))
    then [Frame {| au_keyframe := key; au_data := (if key then 1 else 0) :: data |}]
    else [].
Proof.
  intros. destruct (frame_received data key req fn seq spi ts pct shards seq' spi' depacketizer_new arrivals)
    as (extra & _ & Hextra & -> & _ & _); [done..|apply settled_new|]. by rewrite Hextra.
Qed.

Lemma frame_delivery_witness :
  exists shards seq' spi',
    packetize_frame (R := XorCodec) (replicate 40 7) true 48 9 65534 5 1 20
      = Some (shards, seq', spi')
    /\ let arrivals := [(shards !!! 2%nat, 0); (shards !!! 2%nat, 1); (shards !!! 1%nat, 2)] in
       events (receive (H := XorCodec) depacketizer_new arrivals) =
         if decide (deliverable shards (map fst arrivals))
         then [Frame {| au_keyframe := true; au_data := 1 :: replicate 40 7 |}]
         else [].
Proof.
  set (x := packetize_frame (R := XorCodec) (replicate 40 7) true 48 9 65534 5 1 20).
  vm_compute in x. eexists _, _, _. split; [reflexivity|]. intros arrivals.
  eapply (frame_delivery (R := XorCodec) (replicate 40 7) true 48 9 65534 5 1 20).
  1-4, 7: split; vm_compute; congruence.
  - done.
  - vm_compute; lia.
  - vm_compute; lia.
  - reflexivity.
  - repeat apply Forall_cons_2; [..|apply Forall_nil_2]; vm_compute; auto.
  - subst arrivals. repeat apply Forall_cons_2; [..|apply Forall_nil_2];
      apply list_elem_of_lookup; [exists 2%nat|exists 2%nat|exists 1%nat]; reflexivity.
Defined.

(** ** Frames too large for the receiver's shard limit *)

Section Oversize.
Context {R : ReedSolomon} {RL : ReedSolomonLaws R}.
Context (j : FrameJob) (Hj : job_plan_ok j).
Context (Hf : is_u32 (job_frame_number j)) (Hts : is_u32 (job_timestamp j)).
Context (Hbig : (3 * nr_data_per_block (job_fec j) + MAX_SHARDS < job_total j)%nat)
        (Hfield : (job_total j < 3 * nr_data_per_block (job_fec j) + 1024)%nat).

Lemma oversize_blocks : job_blocks j = MAX_FEC_BLOCKS.
Proof.
  pose proof (nr_data_per_block_range _ (plan_fec j Hj)).
  rewrite (plan_blocks j Hj). unfold nr_blocks_of, MAX_FEC_BLOCKS, MAX_SHARDS in *.
  assert (3 <= (job_total j - 1) / nr_data_per_block (job_fec j))%nat; [|lia].
  apply Nat.div_le_lower_bound; lia.
Qed.

(** The receiver drops a shard of the last block, and sees any other one
    as a shard of one of the first three of four blocks. *)
Lemma oversize_parse b q p i s :
  (b < job_blocks j)%nat -> block_shards j b q p !! i = Some s ->
  match parse_shard s with
  | None => True
  | Some (_, _, nv) => nv_frame_index nv = job_frame_number j
                       /\ (block_index nv < 3)%nat /\ block_count nv = 4%nat
  end.
Proof.
  intros Hb E. destruct (block_shards_lookup j b q p i s Hj Hf Hts Hb E) as [H _].
  pose proof oversize_blocks as Eb. pose proof (nr_data_per_block_range _ (plan_fec j Hj)) as Hn.
  apply lookup_lt_Some in E. rewrite length_block_shards in E.
  destruct (sh_nv _ _ _ _ _ H) as (nv & Er & Ef & Em & Efec).
  destruct (pack_multi_fec_blocks_fields nv b (job_blocks j)) as (E4 & E5 & _); [lia|done|].
  unfold parse_shard. destruct (shard_payload_len _); [|done]. case_if; [done|].
  destruct (rtp_header_read s); [|done]. rewrite Er. case_if; [done|]. bool_prop.
  rewrite E4, E5, Eb. split_and!; try done.
  destruct (decide (b = 3%nat)) as [->|]; [|unfold MAX_FEC_BLOCKS in *; lia].
  assert (Ed : blk_data j 3 = (job_total j - 3 * nr_data_per_block (job_fec j))%nat).
  { unfold blk_data. destruct (blk_spec j Hj 3 Hb) as (-> & _ & ->). by rewrite Eb. }
  assert (Ep : blk_parity j 3 = 0%nat).
  { apply parity_shard_count_overfull. unfold MAX_SHARDS in *. lia. }
  pose proof (plan_fec j Hj).
  destruct (pack_fec_info_fields nv i (blk_data j 3) (job_fec j)) as (_ & Ed' & _);
    [lia..|done|]. unfold MAX_SHARDS in *. lia.
Qed.

Definition never_inv (dp : Depacketizer) : Prop :=
  last_retired dp = None /\ events dp = []
  /\ (frames dp = [] \/ exists f, frames dp = [(job_frame_number j, f)] /\ f_block_count f = 4%nat
        /\ frame_block f 3 = None /\ length (f_blocks f) = MAX_FEC_BLOCKS).

Lemma never_push_to_frame dp f plen rtp nv s :
  frames dp = [(job_frame_number j, f)] -> last_retired dp = None -> events dp = [] ->
  f_block_count f = 4%nat -> frame_block f 3 = None -> length (f_blocks f) = MAX_FEC_BLOCKS ->
  nv_frame_index nv = job_frame_number j -> (block_index nv < 3)%nat ->
  never_inv (push_to_frame dp f plen rtp nv s).
Proof.
  intros Ef El Ee Hc H3 Hl Hfn Hbi.
  assert (Hset : forall blk, frame_block (frame_set_block f (block_index nv) blk) 3 = None).
  { intros blk. rewrite frame_block_set by (rewrite Hl; unfold MAX_FEC_BLOCKS; lia).
    rewrite decide_False by lia. done. }
  assert (Hstore : forall blk, never_inv (set_frames dp (bt_insert (nv_frame_index nv)
            (frame_set_block f (block_index nv) blk) (frames dp)))).
  { intros blk. rewrite Hfn, Ef. cbn [bt_insert]. rewrite Z.eqb_refl, Z.ltb_irrefl.
    split_and!; try done. right. eexists. split_and!; [done|done|done|].
    simpl. by rewrite length_insert. }
  unfold push_to_frame. case_if; [by split_and!; eauto 10|].
  case_if; [apply Hstore|]. case_if; [apply Hstore|].
  case_if; [|apply Hstore]. exfalso. unfold frame_complete in E2.
  rewrite forallb_forall in E2. specialize (E2 3%nat). rewrite Hset in E2.
  apply diff_false_true, E2, in_seq. simpl. rewrite Hc. lia.
Qed.

Lemma never_push dp s now b q p i :
  (b < job_blocks j)%nat -> block_shards j b q p !! i = Some s ->
  never_inv dp -> never_inv (push dp s now).
Proof.
  intros Hb E Hinv. pose proof (oversize_parse b q p i s Hb E) as Hp.
  destruct Hinv as (El & Ee & Hfr). unfold push.
  destruct (parse_shard s) as [[[plen rtp] nv]|]; [|done]. destruct Hp as (Hfn & Hbi & Hbc).
  rewrite El, Hfn. unfold admit_frame, bt_contains.
  destruct Hfr as [Ef|(f & Ef & Hc & H3 & Hl)]; rewrite Ef; cbn [bt_get length].
  - rewrite (proj2 (Nat.leb_gt _ _)) by (unfold MAX_INFLIGHT_FRAMES; lia).
    cbn [set_frames frames]. rewrite Ef. cbn [bt_insert bt_get]. rewrite Z.eqb_refl.
    by apply never_push_to_frame.
  - rewrite Z.eqb_refl, Ef. cbn [bt_get]. rewrite Z.eqb_refl. by apply never_push_to_frame.
Qed.
End Oversize.

(** A frame of more than [3 * nd + 255] data shards, whose surplus the
    packetizer puts unprotected into the fourth block, is never delivered:
    the client drops every shard of that block, so even a lossless network
    yields no access unit (the frame is reported lost only when it expires). *)
Theorem oversize_frame_undelivered {R : ReedSolomon} {RL : ReedSolomonLaws R}
    (data : list Z) (key : bool) (req : nat) (fn seq spi ts : Z) (pct : nat)
    (shards : list (list Z)) (seq' spi' : Z) (arrivals : list (list Z * Z)) :
  is_u32 seq -> is_u32 spi -> is_u32 fn -> is_u32 ts ->
  ~ frame_fits (length data) (req - NV_VIDEO_PACKET_SIZE) (fec_clamp pct) ->
  (total_data_shards_of (VIDEO_FRAME_HEADER_SIZE + length data) (req - NV_VIDEO_PACKET_SIZE)
     < 3 * nr_data_per_block (fec_clamp pct) + 1024)%nat ->
  packetize_frame data key req fn seq spi ts pct = Some (shards, seq', spi') ->
  Forall (fun a => a.1 ∈ shards) arrivals ->
  events (receive depacketizer_new arrivals) = [].
Proof.
  intros Hq Hs Hf Ht Hbig Hfield E Harr.
  destruct (Nat.le_gt_cases req NV_VIDEO_PACKET_SIZE) as [Hle|Hgt].
  { unfold packetize_frame in E. by rewrite (proj2 (Nat.leb_le _ _)) in E. }
  destruct (packetize_frame_eq data key req fn seq spi ts pct) as [Hj E2]; try done.
  rewrite E in E2. set (j := frame_job _ _ _ _ _ _) in *. injection E2 as -> _ _.
  apply Nat.nle_gt in Hbig.
  cut (never_inv j (receive depacketizer_new arrivals)); [by intros (_ & ? & _)|].
  unfold receive. revert Harr. induction arrivals as [|[s now] l IH] using rev_ind; intros Harr.
  { split_and!; auto. }
  apply Forall_app in Harr as [Hl Hs']. inversion Hs' as [|? ? Hin _]; subst.
  rewrite foldl_app. simpl in Hin |- *. apply list_elem_of_lookup in Hin as [i Hi].
  destruct (frame_blocks_concat_lookup _ _ _ _ _ _ _ Hq Hs Hi) as (b & i' & q & p & [_ Hb] & _ & _ & El & _).
  apply (never_push j Hj Hf Ht Hbig Hfield _ s now b q p i' Hb El). by apply IH.
Qed.

Lemma oversize_frame_undelivered_witness :
  match packetize_frame (R := XorCodec) (replicate 1000 7) false 17 3 0 0 0 10 with
  | Some (shards, _, _) =>
      events (receive (H := XorCodec) depacketizer_new (map (fun s => (s, 0)) shards)) = []
  | None => False
  end.
Proof.
  destruct (packetize_frame (R := XorCodec) (replicate 1000 7) false 17 3 0 0 0 10)
    as [[[shards seq'] spi']|] eqn:E.
  - eapply (oversize_frame_undelivered (R := XorCodec) (replicate 1000 7) false 17 3 0 0 0 10).
    1-4: split; vm_compute; congruence.
    + intros H. apply Nat.leb_le in H. vm_compute in H. discriminate.
    + apply Nat.ltb_lt. vm_compute. reflexivity.
    + exact E.
    + apply Forall_map, Forall_forall. done.
  - destruct (packetize_frame_eq (R := XorCodec) (replicate 1000 7) false 17 3 0 0 0 10) as [_ E2].
    + apply Nat.ltb_lt. reflexivity.
    + split; vm_compute; congruence.
    + split; vm_compute; congruence.
    + rewrite E in E2. discriminate.
Defined.

(** ** Delivery order *)

(** Delivery does not raise the late-shard watermark: when frame 11
    arrives completely before the first shard of frame 10, the client emits
    frame 11 and then frame 10. *)
Theorem frames_delivered_out_of_order :
  exists s10 s11 q p,
    packetize_frame (R := XorCodec) [10; 10; 10] false 48 10 0 0 0 20 = Some (s10, q, p)
    /\ (exists q' p', packetize_frame (R := XorCodec) [11; 11] false 48 11 q p 0 20 = Some (s11, q', p'))
    /\ events (receive (H := XorCodec) depacketizer_new (map (fun s => (s, 0)) (s11 ++ s10)))
       = [Frame {| au_keyframe := false; au_data := [0; 11; 11] |};
          Frame {| au_keyframe := false; au_data := [0; 10; 10; 10] |}].
Proof.
  eexists _, _, _, _. split; [vm_compute; reflexivity|].
  split; [eexists _, _; vm_compute; reflexivity|]. vm_compute. reflexivity.
Qed.
