(* ===== verification/Float.v ===== *)
(** * IEEE-754 binary64 and binary32 as the program uses them

    [f64] and [f32] arithmetic is the Standard Library's executable
    specification of IEEE-754 ([SpecFloat], round to nearest even); the
    [as u32] cast truncates and saturates as Rust's does.  The lemmas bound
    a truncated product between its exact value and one unit, which is what
    the rate control relies on. *)
From Stdlib Require Import Floats.SpecFloat.
From S2P Require Import Prelude.

Definition f64 : Type := spec_float.
Definition f32 : Type := spec_float.

Definition f64_of_Z (z : Z) : f64 := binary_normalize 53 1024 z 0 false.
Definition f64_mul : f64 -> f64 -> f64 := SFmul 53 1024.
Definition f64_add : f64 -> f64 -> f64 := SFadd 53 1024.
Definition f64_sub : f64 -> f64 -> f64 := SFsub 53 1024.
Definition f64_div : f64 -> f64 -> f64 := SFdiv 53 1024.

(** The decimal literal [n / 10^k]: the quotient of two exact integers is
    rounded once, as the literal is. *)
Definition f64_lit (n d : Z) : f64 := f64_div (f64_of_Z n) (f64_of_Z d).
Definition f32_lit (n d : Z) : f32 :=
  SFdiv 24 128 (binary_normalize 24 128 n 0 false) (binary_normalize 24 128 d 0 false).

(** [x as f64] of an [f32]: exact. *)
Definition f64_of_f32 (x : f32) : f64 :=
  match x with
  | S754_finite s m e => binary_round 53 1024 s m e
  | _ => x
  end.

(** [clamp]: NaN stays NaN. *)
Definition fclamp (lo hi x : spec_float) : spec_float :=
  if SFltb x lo then lo else if SFltb hi x then hi else x.

(** [x as u32] *)
Definition u32_of_f64 (x : f64) : Z :=
  match x with
  | S754_finite false m e =>
      Z.min U32_MAX (if e <? 0 then Zpos m / 2 ^ (- e) else Zpos m * 2 ^ e)
  | S754_infinity false => U32_MAX
  | _ => 0
  end.

(** ** Digits and shifts *)

Lemma digits2_pos_spec p : 2 ^ (Zpos (digits2_pos p) - 1) <= Zpos p < 2 ^ Zpos (digits2_pos p).
Proof.
  induction p as [p IH|p IH|]; cbn [digits2_pos]; [| |lia].
  all: rewrite Pos2Z.inj_succ; replace (Z.succ _ - 1) with (Z.succ (Zpos (digits2_pos p) - 1)) by lia;
    rewrite !Z.pow_succ_r by lia; lia.
Qed.

Lemma Zdigits2_upper m : 0 <= m -> m < 2 ^ Zdigits2 m.
Proof. destruct m as [|p|p]; [done| |lia]. intros _. apply digits2_pos_spec. Qed.

Lemma Zdigits2_lt m k : 0 <= m < 2 ^ k -> 0 <= k -> Zdigits2 m <= k.
Proof.
  destruct m as [|p|p]; [done| |lia]. intros [_ H] Hk. simpl.
  pose proof (digits2_pos_spec p) as [L _].
  destruct (Z.le_gt_cases (Zpos (digits2_pos p)) k); [done|].
  pose proof (Z.pow_le_mono_r 2 k (Zpos (digits2_pos p) - 1)). lia.
Qed.

Lemma Zdigits2_ge m k : 2 ^ (k - 1) <= m -> 1 <= k -> k <= Zdigits2 m.
Proof.
  intros H Hk. assert (0 < 2 ^ (k - 1)) by (apply Z.pow_pos_nonneg; lia).
  pose proof (Zdigits2_upper m ltac:(lia)) as U.
  destruct (Z.le_gt_cases k (Zdigits2 m)); [done|].
  assert (0 <= Zdigits2 m) by (destruct m; simpl; lia).
  pose proof (Z.pow_le_mono_r 2 (Zdigits2 m) (k - 1)). lia.
Qed.

Lemma shr_1_m r : 0 <= shr_m r -> shr_m (shr_1 r) = shr_m r / 2.
Proof.
  destruct r as [[|[p|p|]|p] b s]; simpl; try done; lia.
Qed.

Lemma iter_shr_1 p r : 0 <= shr_m r -> shr_m (SpecFloat.iter_pos shr_1 p r) = shr_m r / 2 ^ Zpos p.
Proof.
  revert r. induction p as [p IH|p IH|]; intros r H; cbn [SpecFloat.iter_pos].
  - assert (H1 : 0 <= shr_m (shr_1 r)) by (rewrite shr_1_m by done; apply Z.div_pos; lia).
    assert (H2 : 0 <= shr_m (SpecFloat.iter_pos shr_1 p (shr_1 r)))
      by (rewrite IH by done; apply Z.div_pos; lia).
    rewrite IH, IH, shr_1_m by done. rewrite !Z.div_div by lia. f_equal.
    replace (Zpos p~1) with (Zpos p + Zpos p + 1) by lia. rewrite !Z.pow_add_r by lia. lia.
  - assert (H2 : 0 <= shr_m (SpecFloat.iter_pos shr_1 p r)) by (rewrite IH by done; apply Z.div_pos; lia).
    rewrite IH, IH by done. rewrite Z.div_div by lia. f_equal.
    replace (Zpos p~0) with (Zpos p + Zpos p) by lia. rewrite Z.pow_add_r by lia. lia.
  - by rewrite shr_1_m.
Qed.

(** One shift to the format's exponent. *)
Lemma shr_fexp_spec m e :
  0 <= m ->
  let n := Z.max 0 (fexp 53 1024 (Zdigits2 m + e) - e) in
  exists r, shr_fexp 53 1024 m e loc_Exact = (r, e + n) /\ shr_m r = m / 2 ^ n
            /\ (n = 0 -> r = Build_shr_record m false false).
Proof.
  intros Hm n. unfold shr_fexp, shr. simpl shr_record_of_loc. set (k := fexp _ _ _ - e) in *.
  destruct k as [|p|p] eqn:E; subst n; eexists; (split; [by rewrite ?Z.add_0_r|]).
  - split; [|done]. simpl. by rewrite Z.div_1_r.
  - split; [by rewrite iter_shr_1|lia].
  - split; [|done]. simpl. by rewrite Z.div_1_r.
Qed.

Lemma round_nearest_even_range m l : m <= round_nearest_even m l <= m + 1.
Proof. destruct l as [|[]]; simpl; try lia. case_if; lia. Qed.

(** ** Rounding a positive mantissa in the normal range *)

Lemma fexp_normal d e : -1074 <= d + e - 53 -> fexp 53 1024 (d + e) = d + e - 53.
Proof. intros. unfold fexp, emin. lia. Qed.

Lemma pow_div_bounds m n : 0 <= n -> 0 <= m -> m - 2 ^ n < m / 2 ^ n * 2 ^ n <= m.
Proof.
  intros Hn Hm. pose proof (Z.pow_pos_nonneg 2 n ltac:(lia) Hn).
  pose proof (Z.mod_pos_bound m (2 ^ n) ltac:(lia)). pose proof (Z.div_mod m (2 ^ n) ltac:(lia)). lia.
Qed.

Lemma round_aux_exact m e :
  Zdigits2 (Zpos m) <= 53 -> -1074 <= e <= 971 -> e = fexp 53 1024 (Zdigits2 (Zpos m) + e) ->
  binary_round_aux 53 1024 false (Zpos m) e loc_Exact = S754_finite false m e.
Proof.
  intros Hd He Ee. unfold binary_round_aux.
  destruct (shr_fexp_spec (Zpos m) e ltac:(lia)) as (r & -> & _ & Hr).
  rewrite <- Ee, Z.sub_diag in *. rewrite Hr by done. simpl shr_m. simpl loc_of_shr_record.
  simpl round_nearest_even. rewrite Z.add_0_r.
  destruct (shr_fexp_spec (Zpos m) e ltac:(lia)) as (r2 & -> & _ & Hr2).
  rewrite <- Ee, Z.sub_diag in *. rewrite Hr2 by done. simpl.
  rewrite Z.add_0_r. by rewrite (proj2 (Z.leb_le _ _)) by lia.
Qed.

Lemma round_aux_bounds m e :
  let d := Zdigits2 m in
  let n := Z.max 0 (d - 53) in
  0 < m -> -1074 <= d + e - 53 -> d + e <= 900 ->
  exists m' e', binary_round_aux 53 1024 false m e loc_Exact = S754_finite false m' e'
    /\ e <= e' <= e + n + 1
    /\ m - 3 * 2 ^ n < Zpos m' * 2 ^ (e' - e) <= m + 2 ^ n.
Proof.
  intros d n Hm Hlo Hhi. unfold binary_round_aux.
  destruct (shr_fexp_spec m e ltac:(lia)) as (r & -> & Hr & _).
  fold d in Hr |- *. rewrite fexp_normal in * by lia.
  replace (Z.max 0 (d + e - 53 - e)) with n in * by lia.
  assert (Hn : 0 <= n) by lia.
  pose proof (Z.pow_pos_nonneg 2 n ltac:(lia) Hn) as Hpn.
  pose proof (pow_div_bounds m n Hn ltac:(lia)) as Hq.
  set (m1 := round_nearest_even _ _).
  assert (Hm1 : m / 2 ^ n <= m1 <= m / 2 ^ n + 1) by (rewrite <- Hr; apply round_nearest_even_range).
  assert (Hq53 : m / 2 ^ n < 2 ^ 53).
  { apply Z.div_lt_upper_bound; [lia|]. rewrite <- Z.pow_add_r by lia.
    pose proof (Zdigits2_upper m ltac:(lia)). pose proof (Z.pow_le_mono_r 2 d (n + 53)). fold d in H. lia. }
  assert (Hq0 : 0 < m / 2 ^ n).
  { apply Z.div_str_pos. split; [lia|]. destruct m as [|p|p]; try lia.
    pose proof (digits2_pos_spec p) as [L _]. simpl in d.
    destruct (Z.le_gt_cases d 53).
    - replace n with 0 by lia. lia.
    - pose proof (Z.pow_le_mono_r 2 n (Zpos (digits2_pos p) - 1)). lia. }
  destruct (shr_fexp_spec m1 (e + n) ltac:(lia)) as (r2 & -> & Hr2 & _).
  set (n2 := Z.max 0 (fexp 53 1024 (Zdigits2 m1 + (e + n)) - (e + n))) in *.
  assert (Hn2 : 0 <= n2 <= 1).
  { pose proof (Zdigits2_lt m1 54 ltac:(lia) ltac:(lia)). subst n2. unfold fexp, emin. lia. }
  rewrite Hr2.
  assert (Hm2 : 0 < m1 / 2 ^ n2).
  { destruct (Z.eq_dec n2 0) as [->|]; [rewrite Z.div_1_r; lia|].
    assert (n2 = 1) as E1 by lia. apply Z.div_str_pos. rewrite E1. split; [lia|].
    destruct (Z.eq_dec m1 1) as [E|]; [|lia]. exfalso.
    assert (Zdigits2 m1 = 1) as Ed by by rewrite E.
    unfold n2, fexp, emin in E1. rewrite Ed in E1. lia. }
  destruct (m1 / 2 ^ n2) as [|m2|m2] eqn:Em2; try lia.
  assert (0 <= d) by (unfold d; destruct m; simpl; lia).
  rewrite (proj2 (Z.leb_le _ _)) by lia.
  exists m2, (e + n + n2). split; [done|]. split; [lia|].
  replace (e + n + n2 - e) with (n2 + n) by lia. rewrite Z.pow_add_r by lia.
  pose proof (pow_div_bounds m1 n2 ltac:(lia) ltac:(lia)) as Hq2. rewrite Em2 in Hq2.
  assert (2 ^ n2 <= 2) by (change 2 with (2 ^ 1) at 2; apply Z.pow_le_mono_r; lia).
  rewrite Z.mul_assoc. nia.
Qed.

(** The mantissa of a rounded result fits the format. *)
Lemma round_aux_digits m e l m' e' s :
  0 <= m -> binary_round_aux 53 1024 s m e l = S754_finite false m' e' -> Zpos m' < 2 ^ 53.
Proof.
  intros Hm. unfold binary_round_aux.
  destruct (shr_fexp 53 1024 m e l) as [r e1] eqn:E1.
  assert (Hr : 0 <= shr_m r).
  { unfold shr_fexp, shr in E1. destruct (fexp _ _ _ - e) as [|p|p]; simplify_eq.
    - by destruct l as [|[]].
    - rewrite iter_shr_1 by by destruct l as [|[]]. apply Z.div_pos; [by destruct l as [|[]]|lia].
    - by destruct l as [|[]]. }
  set (m1 := round_nearest_even _ _).
  assert (Hm1 : 0 <= m1) by (pose proof (round_nearest_even_range (shr_m r) (loc_of_shr_record r)); lia).
  destruct (shr_fexp_spec m1 e1 Hm1) as (r2 & -> & Hr2 & _). rewrite Hr2.
  set (n2 := Z.max 0 (fexp 53 1024 (Zdigits2 m1 + e1) - e1)) in *. destruct (m1 / 2 ^ n2) as [|m2|m2] eqn:E; try done.
  case_if; intros; simplify_eq. rewrite <- E. assert (0 <= n2) by lia.
  apply Z.div_lt_upper_bound; [apply Z.pow_pos_nonneg; lia|]. rewrite <- Z.pow_add_r by lia.
  pose proof (Zdigits2_upper m1 Hm1). pose proof (Z.pow_le_mono_r 2 (Zdigits2 m1) (n2 + 53)) as X.
  assert (Zdigits2 m1 <= n2 + 53) by (unfold n2, fexp; lia). lia.
Qed.

(** The upper bound alone, subnormal results included. *)
Lemma round_aux_upper m e :
  let n := Z.max 0 (fexp 53 1024 (Zdigits2 m + e) - e) in
  0 < m -> Zdigits2 m + e <= 900 ->
  binary_round_aux 53 1024 false m e loc_Exact = S754_zero false
  \/ exists m' e', binary_round_aux 53 1024 false m e loc_Exact = S754_finite false m' e'
       /\ e <= e' /\ Zpos m' * 2 ^ (e' - e) <= m + 2 ^ n.
Proof.
  intros n Hm Hhi. unfold binary_round_aux.
  destruct (shr_fexp_spec m e ltac:(lia)) as (r & -> & Hr & _). fold n in Hr |- *.
  assert (Hn : 0 <= n) by lia. pose proof (Z.pow_pos_nonneg 2 n ltac:(lia) Hn) as Hpn.
  pose proof (pow_div_bounds m n Hn ltac:(lia)) as Hq.
  set (m1 := round_nearest_even _ _).
  assert (Hm1 : m / 2 ^ n <= m1 <= m / 2 ^ n + 1) by (rewrite <- Hr; apply round_nearest_even_range).
  assert (0 <= m / 2 ^ n) by (apply Z.div_pos; lia).
  destruct (shr_fexp_spec m1 (e + n) ltac:(lia)) as (r2 & -> & Hr2 & _).
  set (n2 := Z.max 0 (fexp 53 1024 (Zdigits2 m1 + (e + n)) - (e + n))) in *.
  assert (Hq53 : m / 2 ^ n < 2 ^ 53).
  { apply Z.div_lt_upper_bound; [lia|]. rewrite <- Z.pow_add_r by lia.
    pose proof (Zdigits2_upper m ltac:(lia)).
    pose proof (Z.pow_le_mono_r 2 (Zdigits2 m) (n + 53)) as X.
    assert (Zdigits2 m <= n + 53) by (unfold n, fexp; lia). lia. }
  assert (Hn2 : 0 <= n2 <= 1).
  { pose proof (Zdigits2_lt m1 54 ltac:(lia) ltac:(lia)). subst n2 n. unfold fexp, emin. lia. }
  rewrite Hr2. pose proof (pow_div_bounds m1 n2 ltac:(lia) ltac:(lia)) as Hq2.
  assert (0 <= Zdigits2 m) by (destruct m; simpl; lia).
  assert (0 <= m1 / 2 ^ n2) by (apply Z.div_pos; [lia|apply Z.pow_pos_nonneg; lia]).
  destruct (m1 / 2 ^ n2) as [|m2|m2] eqn:Em2; [by left| |lia].
  right. rewrite (proj2 (Z.leb_le _ _)) by (unfold n, fexp, emin in *; lia).
  exists m2, (e + n + n2). split; [done|]. split; [lia|].
  replace (e + n + n2 - e) with (n2 + n) by lia. rewrite Z.pow_add_r, Z.mul_assoc by lia. nia.
Qed.

(** ** Integers as floats *)

Lemma iter_xO p d : Zpos (Pos.iter xO p d) = Zpos p * 2 ^ Zpos d.
Proof.
  induction d as [|d IH] using Pos.peano_ind; [simpl; lia|].
  rewrite Pos.iter_succ, Pos2Z.inj_succ, Z.pow_succ_r by lia. rewrite Pos2Z.inj_xO, IH. lia.
Qed.

Lemma f64_of_Z_spec z :
  0 < z < 2 ^ 53 ->
  exists m e, f64_of_Z z = S754_finite false m e /\ Zpos m = z * 2 ^ (- e)
    /\ 2 ^ 52 <= Zpos m < 2 ^ 53 /\ e = Zdigits2 z - 53 /\ e <= 0.
Proof.
  destruct z as [|p|p]; [lia| |lia]. intros [_ H].
  pose proof (Zdigits2_lt (Zpos p) 53 ltac:(lia) ltac:(lia)) as Hd. simpl in Hd.
  pose proof (digits2_pos_spec p) as [L U].
  unfold f64_of_Z. simpl binary_normalize. unfold binary_round.
  rewrite Z.add_0_r. set (d := Zpos (digits2_pos p)) in *.
  assert (Ee : fexp 53 1024 d = d - 53) by (unfold fexp, emin; lia). rewrite Ee.
  unfold shl_align. rewrite Z.sub_0_r.
  assert (Hround : forall m e, Zpos m = Zpos p * 2 ^ (- e) -> e = d - 53 ->
            binary_round_aux 53 1024 false (Zpos m) e loc_Exact = S754_finite false m e
            /\ 2 ^ 52 <= Zpos m < 2 ^ 53).
  { intros m e Em ->.
    assert (Hm : 2 ^ 52 <= Zpos m < 2 ^ 53).
    { rewrite Em. replace (- (d - 53)) with (53 - d) by lia.
      replace (2 ^ 52) with (2 ^ (d - 1) * 2 ^ (53 - d)) by (rewrite <- Z.pow_add_r by lia; f_equal; lia).
      replace (2 ^ 53) with (2 ^ d * 2 ^ (53 - d)) by (rewrite <- Z.pow_add_r by lia; f_equal; lia).
      assert (0 < 2 ^ (53 - d)) by (apply Z.pow_pos_nonneg; lia). nia. }
    split; [|done]. pose proof (Zdigits2_lt (Zpos m) 53 ltac:(lia) ltac:(lia)).
    pose proof (Zdigits2_ge (Zpos m) 53 ltac:(lia) ltac:(lia)).
    apply round_aux_exact; try lia. unfold fexp, emin. lia. }
  destruct (d - 53) as [|q|q] eqn:Eq; [|lia|].
  - destruct (Hround p 0) as [-> ?]; [simpl; lia|lia|]. exists p, 0. split_and!; try done; simpl; lia.
  - destruct (Hround (Pos.iter xO p q) (Zneg q)) as [-> ?].
    + rewrite iter_xO. done.
    + lia.
    + exists (Pos.iter xO p q), (Zneg q).
      split_and!; [done|apply iter_xO|lia|lia|simpl; lia|lia].
Qed.

(** ** Truncated products *)

(** [(z as f64 * f) as u32] lies within a few units in the last place of
    the exact product [z * mf * 2^ef]. *)
Lemma trunc_mul_bounds z mf ef :
  0 < z < 2 ^ 32 -> 2 ^ 52 <= Zpos mf < 2 ^ 53 -> -60 <= ef <= -40 ->
  let t := u32_of_f64 (f64_mul (f64_of_Z z) (S754_finite false mf ef)) in
  0 <= t <= U32_MAX /\ t * 2 ^ (- ef) <= z * (Zpos mf + 2)
  /\ (t = U32_MAX \/ z * (Zpos mf - 6) < (t + 1) * 2 ^ (- ef)).
Proof.
  intros Hz Hmf Hef. destruct (f64_of_Z_spec z) as (mz & ez & -> & Emz & Hmz & Eez & Hez); [lia|].
  unfold f64_mul, SFmul. simpl xorb.
  pose proof (Zdigits2_lt z 32 ltac:(lia) ltac:(lia)) as Hdz.
  assert (Hdz1 : 1 <= Zdigits2 z) by (destruct z; simpl; lia).
  set (m := Zpos (mz * mf)). assert (Em : m = Zpos mz * Zpos mf) by (unfold m; lia).
  assert (Hm : 2 ^ 104 <= m < 2 ^ 106).
  { rewrite Em. change (2 ^ 104) with (2 ^ 52 * 2 ^ 52). change (2 ^ 106) with (2 ^ 53 * 2 ^ 53). nia. }
  pose proof (Zdigits2_lt m 106 ltac:(lia) ltac:(lia)). pose proof (Zdigits2_ge m 105 ltac:(lia) ltac:(lia)).
  destruct (round_aux_bounds m (ez + ef)) as (m' & e' & -> & He' & Hb); [lia..|].
  set (n := Z.max 0 (Zdigits2 m - 53)) in *. simpl u32_of_f64.
  rewrite (proj2 (Z.ltb_lt _ _)) by lia.
  set (q := Zpos m' / 2 ^ (- e')).
  assert (Hpe' : 0 < 2 ^ (- e')) by (apply Z.pow_pos_nonneg; lia).
  assert (Hq : q * 2 ^ (- e') <= Zpos m' < (q + 1) * 2 ^ (- e')).
  { pose proof (Z.div_mod (Zpos m') (2 ^ (- e')) ltac:(lia)) as D.
    pose proof (Z.mod_pos_bound (Zpos m') (2 ^ (- e')) ltac:(lia)). fold q in D. lia. }
  assert (Hq0 : 0 <= q) by (apply Z.div_pos; lia).
  (* scale everything to the exponent of the product *)
  assert (HA : 0 < 2 ^ (- ez)) by (apply Z.pow_pos_nonneg; lia).
  assert (HB : 0 < 2 ^ (- ef)) by (apply Z.pow_pos_nonneg; lia).
  assert (Hscale : 2 ^ (- e') * 2 ^ (e' - (ez + ef)) = 2 ^ (- ez) * 2 ^ (- ef)).
  { rewrite <- !Z.pow_add_r by lia. f_equal. lia. }
  assert (HC : 0 < 2 ^ (e' - (ez + ef))) by (apply Z.pow_pos_nonneg; lia).
  assert (Hslack : 2 ^ n <= 2 * z * 2 ^ (- ez)).
  { rewrite <- Z.mul_assoc, <- Emz. pose proof (Z.pow_le_mono_r 2 n 53 ltac:(lia)). lia. }
  set (A := 2 ^ (- ez)) in *. set (B := 2 ^ (- ef)) in *. set (C := 2 ^ (e' - (ez + ef))) in *.
  set (P := 2 ^ (- e')) in *. rewrite Em, Emz in Hb. clearbody A B C P.
  assert (HqC : q * P * C <= Zpos m' * C < (q + 1) * P * C)
    by (split; [apply Z.mul_le_mono_nonneg_r|apply Z.mul_lt_mono_pos_r]; lia).
  assert (Hup : q * B <= z * (Zpos mf + 2)).
  { apply (Z.mul_le_mono_pos_r _ _ A HA). replace (q * B * A) with (q * P * C) by (rewrite <- !Z.mul_assoc, Hscale; ring). lia. }
  assert (Hlow : z * (Zpos mf - 6) < (q + 1) * B).
  { apply (Z.mul_lt_mono_pos_r A _ _ HA). replace ((q + 1) * B * A) with ((q + 1) * P * C) by (rewrite <- !Z.mul_assoc, Hscale; ring). lia. }
  unfold U32_MAX. split; [lia|].
  destruct (Z.min_spec 4294967295 q) as [[Hlt ->]|[Hle ->]]; split; try lia.
  etransitivity; [|exact Hup]. apply Z.mul_le_mono_nonneg_r; lia.
Qed.

(** ** Products with a fraction in [0, 1] *)

Definition fits53 (x : f64) : Prop :=
  match x with S754_finite false m _ => Zpos m < 2 ^ 53 | _ => True end.

Lemma f64_div_fits x y : fits53 (f64_div x y).
Proof.
  unfold f64_div, SFdiv. destruct x as [| | |sx mx ex], y as [| | |sy my ey]; try done.
  destruct (SFdiv_core_binary 53 1024 (Zpos mx) ex (Zpos my) ey) as [[mz ez] lz] eqn:E.
  assert (Hmz : 0 <= mz).
  { unfold SFdiv_core_binary in E. set (m' := match _ with Z0 => _ | Zpos _ => _ | Zneg _ => _ end) in E.
    assert (Hm' : 0 <= m').
    { subst m'. destruct (ex - ey - _); try lia. apply Z.shiftl_nonneg. lia. }
    destruct (Z.div_eucl m' (Zpos my)) as [q r] eqn:Eq. injection E as <- <- <-.
    pose proof (Z.div_pos m' (Zpos my) Hm' ltac:(lia)) as Hd. unfold Z.div in Hd. by rewrite Eq in Hd. }
  destruct (binary_round_aux 53 1024 (xorb sx sy) mz ez lz) as [| | |[] m e] eqn:Er; try done.
  simpl. by eapply round_aux_digits.
Qed.

Definition f64_zero : f64 := S754_zero false.
Definition f64_one : f64 := f64_of_Z 1.

Lemma mul_ten_unit m e :
  Zpos m < 2 ^ 53 -> e <= -52 -> Zpos m <= 2 ^ (- e) ->
  0 <= u32_of_f64 (f64_mul (f64_of_Z 10) (S754_finite false m e)) <= 10.
Proof.
  intros Hm He Hle.
  assert (E10 : f64_of_Z 10 = S754_finite false 5629499534213120 (-49)) by reflexivity.
  rewrite E10. unfold f64_mul, SFmul. simpl xorb.
  set (M := Zpos (5629499534213120 * m)).
  assert (EM : M = 5629499534213120 * Zpos m) by (unfold M; lia).
  pose proof (Zdigits2_lt M 106 ltac:(lia) ltac:(lia)) as Hd.
  destruct (round_aux_upper M (-49 + e)) as [->|(m' & e' & -> & He' & Hb)]; [lia|lia|done|].
  set (n := Z.max 0 (fexp 53 1024 (Zdigits2 M + (-49 + e)) - (-49 + e))) in *.
  assert (Hn : 0 <= n < 49 - e) by (unfold n, fexp, emin; lia).
  pose proof (Z.pow_lt_mono_r 2 n (49 - e) ltac:(lia) ltac:(lia) ltac:(lia)) as Hpn.
  assert (HK : 2 ^ (49 - e) = 562949953421312 * 2 ^ (- e)).
  { replace (49 - e) with (49 + - e) by lia. rewrite Z.pow_add_r by lia. reflexivity. }
  assert (Hb' : Zpos m' * 2 ^ (e' - (-49 + e)) < 11 * 2 ^ (49 - e)) by lia.
  assert (HP : 0 < 2 ^ (49 - e)) by (apply Z.pow_pos_nonneg; lia).
  simpl u32_of_f64. unfold U32_MAX. destruct (e' <? 0) eqn:Es; bool_prop.
  - assert (Hpe : 0 < 2 ^ (- e')) by (apply Z.pow_pos_nonneg; lia).
    assert (HC : 0 < 2 ^ (e' - (-49 + e))) by (apply Z.pow_pos_nonneg; lia).
    assert (Hsc : 2 ^ (- e') * 2 ^ (e' - (-49 + e)) = 2 ^ (49 - e))
      by (rewrite <- Z.pow_add_r by lia; f_equal; lia).
    assert (Zpos m' / 2 ^ (- e') < 11).
    { apply Z.div_lt_upper_bound; [lia|]. rewrite Z.mul_comm.
      apply (Z.mul_lt_mono_pos_r (2 ^ (e' - (-49 + e))) _ _ HC). rewrite <- Z.mul_assoc, Hsc. lia. }
    pose proof (Z.div_pos (Zpos m') (2 ^ (- e')) ltac:(lia) Hpe). lia.
  - replace (e' - (-49 + e)) with (e' + (49 - e)) in Hb' by lia.
    rewrite Z.pow_add_r, Z.mul_assoc in Hb' by lia.
    apply Z.mul_lt_mono_pos_r in Hb'; [|done].
    assert (0 < Zpos m' * 2 ^ e') by (apply Z.mul_pos_pos; [lia|apply Z.pow_pos_nonneg; lia]). lia.
Qed.

Lemma not_above_one m e :
  SFltb f64_one (S754_finite false m e) = false ->
  e < -52 \/ (e = -52 /\ Zpos m <= 2 ^ 52).
Proof.
  assert (E1 : exists c, f64_one = S754_finite false c (-52) /\ Zpos c = 2 ^ 52)
    by (eexists; split; reflexivity).
  destruct E1 as (c & -> & Hc). unfold SFltb. cbn [SFcompare].
  change (Pos.compare_cont Eq c m) with (Zpos c ?= Zpos m). rewrite Hc.
  destruct (Z.compare_spec (-52) e); [subst| |]; try done; [|lia].
  destruct (Z.compare_spec (2 ^ 52) (Zpos m)); try done; lia.
Qed.

Lemma mul_ten_clamped x :
  fits53 x -> 0 <= u32_of_f64 (f64_mul (f64_of_Z 10) (fclamp f64_zero f64_one x)) <= 10.
Proof.
  intros Hf. unfold fclamp.
  destruct x as [s|[]| |[] m e]; try (vm_compute; split; congruence).
  unfold SFltb at 1. simpl SFcompare. cbv iota.
  destruct (SFltb f64_one _) eqn:Ec; [vm_compute; split; congruence|].
  simpl in Hf. apply not_above_one in Ec as [He|[-> Hm]].
  - apply mul_ten_unit; [exact Hf|lia|].
    pose proof (Z.pow_le_mono_r 2 53 (- e) ltac:(lia) ltac:(lia)). lia.
  - apply mul_ten_unit; [exact Hf|lia|exact Hm].
Qed.
