(* ===== verification/Bitrate.v ===== *)
(** * Adaptive bitrate ([kmc-streamhost/src/bitrate.rs])

    The AIMD controller shared by the control channel ([on_loss]), the video
    socket ([on_rtt]) and the encode loop ([poll_target],
    [poll_fec_percentage]).  Floating point is IEEE-754 ([Float]); [powf] is
    the platform's and a parameter.  [Instant]s are nanoseconds, the earliest
    representable one being the parameter [instant_min].  The locked section
    of each operation is one atomic step; [poll_target], which reads the
    maximum and the target before it takes the lock, is two. *)
From Stdlib Require Import Floats.SpecFloat.
From S2P Require Import Prelude Float.

Definition DECREASE_FACTOR : f64 := f64_lit 6 10.
Definition DECREASE_THROTTLE_MS : Z := 400.
Definition RECOVER_DELAY_MS : Z := 5000.
Definition RECOVER_INTERVAL_MS : Z := 2000.
Definition RECOVER_STEP_FRAC : f64 := f64_lit 3 100.
Definition RECOVER_LOSS_GATE : f64 := f64_lit 2 100.
Definition REPROBE_AFTER_MS : Z := 30000.
Definition FEC_MIN_PCT : Z := 15.
Definition FEC_MAX_PCT : Z := 25.
Definition LOSS_EWMA_ALPHA : f64 := f64_lit 3 10.
Definition FEC_SATURATION_LOSS : f64 := f64_lit 1 10.
Definition LOSS_DECAY_GRACE_MS : Z := 500.
Definition LOSS_HALF_LIFE_MS : f64 := f64_of_Z 2000.
Definition RTT_INFLATION_MS : Z := 30.
Definition RTT_TRIGGER_SAMPLES : Z := 3.
Definition RTT_DECREASE_FACTOR : f64 := f64_lit 85 100.
Definition RTT_DECREASE_THROTTLE_MS : Z := 1000.
Definition MIN_RTT_WINDOW_MS : Z := 30000.
Definition RTT_STALE_MS : Z := 3000.

Definition rtt_trigger_ms (min_rtt_ms : Z) : Z := Z.max RTT_INFLATION_MS (min_rtt_ms / 2).

Record Timing := mkTiming {
  last_loss : option Z;
  last_decrease : Z;
  last_recover : Z;
  min_rtt_ms : Z;
  win_min_rtt_ms : Z;
  min_rtt_epoch : Z;
  last_rtt : option (Z * Z);
  rtt_streak : Z;
  last_rtt_decrease : Z
}.

Record BitrateController := mkBitrateController {
  target : Z;
  bc_min : Z;
  bc_max : Z;
  timing : Timing;
  loss_ewma_ppm : Z;
  learned_ceiling : Z;
  probe_cap : Z
}.

(** [now.duration_since(t).as_millis()] *)
Definition millis_since (now t : Z) : Z := saturating_sub now t / 1000000.

Definition bitrate_default (now : Z) : BitrateController :=
  {| target := 0; bc_min := 0; bc_max := 0;
     timing := {| last_loss := None; last_decrease := now; last_recover := now;
                  min_rtt_ms := U32_MAX; win_min_rtt_ms := U32_MAX; min_rtt_epoch := now;
                  last_rtt := None; rtt_streak := 0; last_rtt_decrease := now |};
     loss_ewma_ppm := 0; learned_ceiling := 0; probe_cap := 0 |}.

Section Controller.
Context (powf : f64 -> f64 -> f64) (instant_min : Z).

Definition stale_instant (now : Z) : Z :=
  let t := now - 3600 * 1000000000 in if t <? instant_min then now else t.

Definition decayed_loss (raw : f64) (since_loss_ms : option Z) : f64 :=
  match since_loss_ms with
  | None => f64_zero
  | Some since =>
      if SFleb raw f64_zero then f64_zero
      else if since <? LOSS_DECAY_GRACE_MS then raw
      else f64_mul raw (powf (f64_lit 1 2)
             (f64_div (f64_of_Z (since - LOSS_DECAY_GRACE_MS)) LOSS_HALF_LIFE_MS))
  end.

Definition configure (c : BitrateController) (now ceiling_bps : Z) : BitrateController :=
  let ceiling := Z.max ceiling_bps 1000000 in
  let floor := Z.min 1000000 ceiling in
  let start := Z.min (Z.max (Z.min 3000000 (ceiling / 4)) floor) ceiling in
  {| target := start; bc_min := floor; bc_max := ceiling;
     timing := {| last_loss := None; last_decrease := stale_instant now; last_recover := now;
                  min_rtt_ms := U32_MAX; win_min_rtt_ms := U32_MAX; min_rtt_epoch := now;
                  last_rtt := None; rtt_streak := 0; last_rtt_decrease := stale_instant now |};
     loss_ewma_ppm := 0; learned_ceiling := ceiling; probe_cap := ceiling |}.

(** The stored EWMA, decayed to [now]. *)
Definition current_loss (c : BitrateController) (now : Z) : f64 :=
  decayed_loss (f64_div (f64_of_Z (loss_ewma_ppm c)) (f64_of_Z 1000000))
               (millis_since now <$> last_loss (timing c)).

Definition loss_factor (loss_fraction : f32) : f64 :=
  if SFleb (f32_lit 3 10) loss_fraction then f64_lit 5 10
  else if SFleb loss_fraction (f32_lit 5 100) then f64_lit 75 100
  else DECREASE_FACTOR.

Definition set_timing_loss (t : Timing) (now : Z) : Timing :=
  {| last_loss := Some now; last_decrease := last_decrease t; last_recover := last_recover t;
     min_rtt_ms := min_rtt_ms t; win_min_rtt_ms := win_min_rtt_ms t;
     min_rtt_epoch := min_rtt_epoch t; last_rtt := last_rtt t; rtt_streak := rtt_streak t;
     last_rtt_decrease := last_rtt_decrease t |}.

Definition set_last_decrease (t : Timing) (now : Z) : Timing :=
  {| last_loss := last_loss t; last_decrease := now; last_recover := last_recover t;
     min_rtt_ms := min_rtt_ms t; win_min_rtt_ms := win_min_rtt_ms t;
     min_rtt_epoch := min_rtt_epoch t; last_rtt := last_rtt t; rtt_streak := rtt_streak t;
     last_rtt_decrease := last_rtt_decrease t |}.

Definition on_loss (c : BitrateController) (now : Z) (loss_fraction : f32) : BitrateController :=
  if bc_max c =? 0 then c
  else
    let lf := f64_of_f32 (fclamp f64_zero (f32_lit 1 1) loss_fraction) in
    let prev := current_loss c now in
    let ewma := f64_add (f64_mul LOSS_EWMA_ALPHA lf)
                        (f64_mul (f64_sub f64_one LOSS_EWMA_ALPHA) prev) in
    let ppm := u32_of_f64 (f64_mul ewma (f64_of_Z 1000000)) in
    let t := set_timing_loss (timing c) now in
    if millis_since now (last_decrease t) <? DECREASE_THROTTLE_MS then
      {| target := target c; bc_min := bc_min c; bc_max := bc_max c; timing := t;
         loss_ewma_ppm := ppm; learned_ceiling := learned_ceiling c; probe_cap := probe_cap c |}
    else
      let cur := target c in
      let next := Z.max (u32_of_f64 (f64_mul (f64_of_Z cur) (loss_factor loss_fraction))) (bc_min c) in
      let t := set_last_decrease t now in
      if SFleb (f32_lit 1 10) loss_fraction then
        let collapse := u32_of_f64 (f64_mul (f64_of_Z cur) (f64_lit 70 100)) in
        let new_lc := Z.min (Z.max collapse (bc_min c)) (learned_ceiling c) in
        let new_pc := Z.min (Z.max (u32_of_f64 (f64_mul (f64_of_Z cur) (f64_lit 12 10))) new_lc)
                            (probe_cap c) in
        {| target := next; bc_min := bc_min c; bc_max := bc_max c; timing := t;
           loss_ewma_ppm := ppm; learned_ceiling := new_lc; probe_cap := new_pc |}
      else
        {| target := next; bc_min := bc_min c; bc_max := bc_max c; timing := t;
           loss_ewma_ppm := ppm; learned_ceiling := learned_ceiling c; probe_cap := probe_cap c |}.

(** The RTT bookkeeping of [on_rtt] before the streak test. *)
Definition note_rtt (t : Timing) (now rtt_ms : Z) : Timing :=
  let renew := MIN_RTT_WINDOW_MS <=? millis_since now (min_rtt_epoch t) in
  let base := if renew then win_min_rtt_ms t else min_rtt_ms t in
  let win := if renew then U32_MAX else win_min_rtt_ms t in
  {| last_loss := last_loss t; last_decrease := last_decrease t; last_recover := last_recover t;
     min_rtt_ms := Z.min base rtt_ms; win_min_rtt_ms := Z.min win rtt_ms;
     min_rtt_epoch := if renew then now else min_rtt_epoch t;
     last_rtt := Some (rtt_ms, now); rtt_streak := rtt_streak t;
     last_rtt_decrease := last_rtt_decrease t |}.

Definition set_streak (t : Timing) (streak last_dec : Z) : Timing :=
  {| last_loss := last_loss t; last_decrease := last_decrease t; last_recover := last_recover t;
     min_rtt_ms := min_rtt_ms t; win_min_rtt_ms := win_min_rtt_ms t;
     min_rtt_epoch := min_rtt_epoch t; last_rtt := last_rtt t; rtt_streak := streak;
     last_rtt_decrease := last_dec |}.

Definition set_target (c : BitrateController) (tgt : Z) (t : Timing) : BitrateController :=
  {| target := tgt; bc_min := bc_min c; bc_max := bc_max c; timing := t;
     loss_ewma_ppm := loss_ewma_ppm c; learned_ceiling := learned_ceiling c;
     probe_cap := probe_cap c |}.

Definition on_rtt (c : BitrateController) (now rtt_ms : Z) : BitrateController :=
  if bc_max c =? 0 then c
  else
    let t := note_rtt (timing c) now rtt_ms in
    if saturating_sub rtt_ms (min_rtt_ms t) <? rtt_trigger_ms (min_rtt_ms t) then
      set_target c (target c) (set_streak t 0 (last_rtt_decrease t))
    else
      let streak := rtt_streak t + 1 in
      let t := set_streak t streak (last_rtt_decrease t) in
      if streak <? RTT_TRIGGER_SAMPLES then set_target c (target c) t
      else if millis_since now (last_rtt_decrease t) <? RTT_DECREASE_THROTTLE_MS then
        set_target c (target c) t
      else
        let next := Z.max (u32_of_f64 (f64_mul (f64_of_Z (target c)) RTT_DECREASE_FACTOR)) (bc_min c) in
        set_target c next (set_streak t 0 now).

(** The RTT gate of [poll_target]: a fresh, inflated sample. *)
Definition rtt_inflated (t : Timing) (now : Z) : bool :=
  match last_rtt t with
  | Some (rtt, at_) =>
      (millis_since now at_ <? RTT_STALE_MS) && negb (min_rtt_ms t =? U32_MAX)
      && (rtt_trigger_ms (min_rtt_ms t) <=? saturating_sub rtt (min_rtt_ms t))
  | None => false
  end.

Definition set_last_recover (t : Timing) (now : Z) : Timing :=
  {| last_loss := last_loss t; last_decrease := last_decrease t; last_recover := now;
     min_rtt_ms := min_rtt_ms t; win_min_rtt_ms := win_min_rtt_ms t;
     min_rtt_epoch := min_rtt_epoch t; last_rtt := last_rtt t; rtt_streak := rtt_streak t;
     last_rtt_decrease := last_rtt_decrease t |}.

Definition set_learned (c : BitrateController) (lc : Z) : BitrateController :=
  {| target := target c; bc_min := bc_min c; bc_max := bc_max c; timing := timing c;
     loss_ewma_ppm := loss_ewma_ppm c; learned_ceiling := lc; probe_cap := probe_cap c |}.

(** Every gate of [poll_target] lets the recovery through. *)
Definition recovery_open (c : BitrateController) (now : Z) : bool :=
  match last_loss (timing c) with
  | Some l => RECOVER_DELAY_MS <=? millis_since now l
  | None => true
  end
  && negb (SFleb RECOVER_LOSS_GATE (current_loss c now))
  && negb (rtt_inflated (timing c) now)
  && (RECOVER_INTERVAL_MS <=? millis_since now (last_recover (timing c))).

Definition reprobe (c : BitrateController) (now : Z) : Z :=
  let long_quiet := match last_loss (timing c) with
                    | Some l => REPROBE_AFTER_MS <=? millis_since now l
                    | None => true
                    end in
  let lc := learned_ceiling c in
  if (lc <? probe_cap c) && long_quiet
  then Z.min (u32_of_f64 (f64_mul (f64_of_Z lc) (f64_lit 102 100))) (probe_cap c)
  else lc.

Definition recover_step (max cur : Z) : Z :=
  Z.max (Z.max (u32_of_f64 (f64_mul (f64_of_Z max) RECOVER_STEP_FRAC))
               (u32_of_f64 (f64_mul (f64_of_Z cur) (f64_lit 10 100)))) 250000.

(** [poll_target] under the lock, with the maximum and the target it read
    before taking it. *)
Definition poll_locked (c : BitrateController) (max cur now : Z) : Z * BitrateController :=
  if negb (recovery_open c now) then (cur, c)
  else
    let lc := reprobe c now in
    let c := set_learned c lc in
    let cap := Z.min lc max in
    if cap <=? cur then (cur, c)
    else
      let next := Z.min (saturating_add32 cur (recover_step max cur)) cap in
      (next, set_target c next (set_last_recover (timing c) now)).

Definition poll_target (c : BitrateController) (now : Z) : Z * BitrateController :=
  if bc_max c =? 0 then (0, c) else poll_locked c (bc_max c) (target c) now.

Definition poll_fec_percentage (c : BitrateController) (now : Z) : Z :=
  let ewma := current_loss c now in
  if (bc_min c =? 0) || (target c <=? u32 (bc_min c * 3) / 2) then FEC_MIN_PCT
  else
    let frac := fclamp f64_zero f64_one (f64_div ewma FEC_SATURATION_LOSS) in
    FEC_MIN_PCT + u32_of_f64 (f64_mul (f64_of_Z (FEC_MAX_PCT - FEC_MIN_PCT)) frac).
End Controller.

(** ** Scaling a rate by the literal factors *)

(** Evaluate a literal to its mantissa and exponent. *)
Ltac lit_bounds z lit :=
  let H := fresh "Hlit" in
  let v := eval vm_compute in lit in
  lazymatch v with
  | S754_finite false ?m ?e =>
      pose proof (trunc_mul_bounds z m e) as H;
      change (S754_finite false m e) with v in H;
      replace v with lit in H by (vm_compute; reflexivity);
      specialize (H ltac:(lia) ltac:(lia) ltac:(lia));
      cbv zeta in H; simpl Z.opp in H; unfold U32_MAX in H
  end.

Section Scaling.
Context (cur : Z) (Hcur : 1000000 <= cur <= U32_MAX).

Lemma scale_half : u32_of_f64 (f64_mul (f64_of_Z cur) (f64_lit 5 10)) <= cur.
Proof. unfold U32_MAX in *. lit_bounds cur (f64_lit 5 10). lia. Qed.

Lemma scale_75 : u32_of_f64 (f64_mul (f64_of_Z cur) (f64_lit 75 100)) <= cur.
Proof. unfold U32_MAX in *. lit_bounds cur (f64_lit 75 100). lia. Qed.

Lemma scale_60 : u32_of_f64 (f64_mul (f64_of_Z cur) DECREASE_FACTOR) <= cur.
Proof. unfold U32_MAX in *. lit_bounds cur DECREASE_FACTOR. lia. Qed.

Lemma scale_85 : u32_of_f64 (f64_mul (f64_of_Z cur) RTT_DECREASE_FACTOR) <= cur.
Proof. unfold U32_MAX in *. lit_bounds cur RTT_DECREASE_FACTOR. lia. Qed.

Lemma scale_60_70 :
  u32_of_f64 (f64_mul (f64_of_Z cur) DECREASE_FACTOR)
  <= u32_of_f64 (f64_mul (f64_of_Z cur) (f64_lit 70 100)).
Proof.
  unfold U32_MAX in *. lit_bounds cur DECREASE_FACTOR. lit_bounds cur (f64_lit 70 100). lia.
Qed.

Lemma scale_50_70 :
  u32_of_f64 (f64_mul (f64_of_Z cur) (f64_lit 5 10))
  <= u32_of_f64 (f64_mul (f64_of_Z cur) (f64_lit 70 100)).
Proof.
  unfold U32_MAX in *. lit_bounds cur (f64_lit 5 10). lit_bounds cur (f64_lit 70 100). lia.
Qed.

Lemma scale_102 : cur <= u32_of_f64 (f64_mul (f64_of_Z cur) (f64_lit 102 100)).
Proof. unfold U32_MAX in *. lit_bounds cur (f64_lit 102 100). lia. Qed.
End Scaling.

(** ** The invariant *)

Record configured_ok (c : BitrateController) : Prop := {
  co_min : bc_min c = 1000000;
  co_floor : bc_min c <= target c;
  co_target : target c <= learned_ceiling c;
  co_learned : learned_ceiling c <= probe_cap c;
  co_probe : probe_cap c <= bc_max c;
  co_width : bc_max c <= U32_MAX
}.

Definition bitrate_ok (c : BitrateController) : Prop := bc_max c = 0 \/ configured_ok c.

Lemma configured_max c : configured_ok c -> (bc_max c =? 0) = false.
Proof. intros []. apply Z.eqb_neq. lia. Qed.

Section Invariant.
Context (powf : f64 -> f64 -> f64) (instant_min : Z).

Lemma configure_ok c now b : is_u32 b -> configured_ok (configure instant_min c now b).
Proof.
  unfold is_u32, configure. intros Hb. pose proof (Z.div_le_upper_bound (Z.max b 1000000) 4).
  pose proof (Z.div_pos (Z.max b 1000000) 4). split; simpl; unfold U32_MAX; try lia.
Qed.

(** A loss of 10 % or more is never treated as a slight one. *)
Lemma severe_factor l :
  SFleb (f32_lit 1 10) l = true ->
  loss_factor l = f64_lit 5 10 \/ loss_factor l = DECREASE_FACTOR.
Proof.
  intros H. unfold loss_factor. case_if; [by left|]. case_if; [|by right]. exfalso.
  assert (exists m1 e1, f32_lit 1 10 = S754_finite false m1 e1 /\ e1 = -27)
    as (m1 & e1 & E1 & He1) by (eexists _, _; split; reflexivity).
  assert (exists m2 e2, f32_lit 5 100 = S754_finite false m2 e2 /\ e2 = -28)
    as (m2 & e2 & E2 & He2) by (eexists _, _; split; reflexivity).
  rewrite E1 in H. rewrite E2 in E0. unfold SFleb in *.
  destruct l as [[]|[]| |[] m e]; simpl in *; try done.
  destruct (Z.compare_spec e1 e), (Z.compare_spec e e2); try done; lia.
Qed.

Lemma loss_factor_le l cur :
  1000000 <= cur <= U32_MAX -> u32_of_f64 (f64_mul (f64_of_Z cur) (loss_factor l)) <= cur.
Proof.
  intros H. unfold loss_factor. repeat case_if; auto using scale_half, scale_75, scale_60.
Qed.

Lemma severe_le_collapse l cur :
  1000000 <= cur <= U32_MAX -> SFleb (f32_lit 1 10) l = true ->
  u32_of_f64 (f64_mul (f64_of_Z cur) (loss_factor l))
  <= u32_of_f64 (f64_mul (f64_of_Z cur) (f64_lit 70 100)).
Proof.
  intros H Hl. destruct (severe_factor l Hl) as [-> | ->]; auto using scale_50_70, scale_60_70.
Qed.

Lemma on_loss_ok c now l : bitrate_ok c -> bitrate_ok (on_loss powf c now l).
Proof.
  intros [H|H]; unfold on_loss; [rewrite H; by left|]. right. rewrite configured_max by done.
  destruct H as [H1 H2 H3 H4 H5 H6].
  pose proof (loss_factor_le l (target c) ltac:(lia)) as Hle.
  case_if; [by split|]. case_if.
  - pose proof (severe_le_collapse l (target c) ltac:(lia) E0). split; simpl; lia.
  - split; simpl; lia.
Qed.

Lemma on_rtt_ok c now r : bitrate_ok c -> bitrate_ok (on_rtt c now r).
Proof.
  intros [H|H]; unfold on_rtt; [rewrite H; by left|]. right. rewrite configured_max by done.
  destruct H as [H1 H2 H3 H4 H5 H6].
  pose proof (scale_85 (target c) ltac:(lia)). repeat case_if; split; simpl; lia.
Qed.

Lemma reprobe_range c now :
  configured_ok c -> learned_ceiling c <= reprobe c now <= probe_cap c.
Proof.
  intros [H1 H2 H3 H4 H5 H6]. unfold reprobe.
  pose proof (scale_102 (learned_ceiling c) ltac:(lia)). case_if; lia.
Qed.

Lemma poll_locked_ok c max cur now :
  configured_ok c -> 1000000 <= cur -> configured_ok (poll_locked powf c max cur now).2.
Proof.
  intros H Hcur. pose proof (reprobe_range c now H). destruct H as [H1 H2 H3 H4 H5 H6].
  unfold poll_locked, saturating_add32, recover_step. case_if; [done|].
  case_if; [split; simpl; lia|]. bool_prop. split; simpl; unfold U32_MAX in *; lia.
Qed.

(** The threads that share the controller: each locked section is a step,
    and a poller's earlier unlocked reads wait in the pending list. *)
Inductive bitrate_step
  : BitrateController * list (Z * Z) -> BitrateController * list (Z * Z) -> Prop :=
| step_configure c ps now b :
    is_u32 b -> bitrate_step (c, ps) (configure instant_min c now b, ps)
| step_loss c ps now l : bitrate_step (c, ps) (on_loss powf c now l, ps)
| step_rtt c ps now r : bitrate_step (c, ps) (on_rtt c now r, ps)
| step_read c ps : bc_max c <> 0 -> bitrate_step (c, ps) (c, (bc_max c, target c) :: ps)
| step_commit c ps1 ps2 max cur now :
    bitrate_step (c, ps1 ++ (max, cur) :: ps2) ((poll_locked powf c max cur now).2, ps1 ++ ps2).

Definition shared_ok (s : BitrateController * list (Z * Z)) : Prop :=
  bitrate_ok s.1 /\ Forall (fun p => 1000000 <= p.2) s.2 /\ (s.2 <> [] -> bc_max s.1 <> 0).

Lemma bitrate_step_ok s s' : shared_ok s -> bitrate_step s s' -> shared_ok s'.
Proof.
  intros (H1 & H2 & H3) Hs. destruct Hs as [c ps now b Hb|c ps now l|c ps now r|c ps Hm|c ps1 ps2 mx cur now];
    unfold shared_ok in *; simpl in *.
  - split_and!; [right; by apply configure_ok|done|]. intros _. simpl. lia.
  - split_and!; [by apply on_loss_ok|done|]. unfold on_loss. by repeat case_if.
  - split_and!; [by apply on_rtt_ok|done|]. unfold on_rtt. by repeat case_if.
  - destruct H1 as [|H1]; [done|]. pose proof (co_min c H1). pose proof (co_floor c H1).
    split_and!; [by right|constructor; [simpl; lia|done]|done].
  - apply Forall_app in H2 as [F1 F2]. inversion F2 as [|? ? Hc F3]; subst. simpl in Hc.
    assert (Hm : bc_max c <> 0) by (apply H3; by destruct ps1).
    destruct H1 as [|H1]; [done|]. pose proof (poll_locked_ok c mx cur now H1 Hc) as Hok.
    split_and!; [by right|by apply Forall_app|]. intros _. pose proof (configured_max _ Hok). by bool_prop.
Qed.

End Invariant.

Definition powf_half (_ _ : f64) : f64 := f64_lit 1 2.


(** ** Behaviour of the operations *)

Section Behaviour.
Context (powf : f64 -> f64 -> f64) (instant_min : Z).

(** A loss report never raises the target or a ceiling; within 400 ms of
    the last decrease it changes none of them; a report of 10 % or more
    outside that window caps the learned ceiling at 70 % of the rate that
    failed (but not below the floor) and pulls the target under it. *)
Theorem on_loss_spec (c : BitrateController) (now : Z) (l : f32) :
  configured_ok c ->
  let c' := on_loss powf c now l in
  let throttled := millis_since now (last_decrease (timing c)) <? DECREASE_THROTTLE_MS in
  last_loss (timing c') = Some now
  /\ target c' <= target c /\ learned_ceiling c' <= learned_ceiling c /\ probe_cap c' <= probe_cap c
  /\ (throttled = true -> target c' = target c /\ learned_ceiling c' = learned_ceiling c
                          /\ last_decrease (timing c') = last_decrease (timing c))
  /\ (throttled = false -> last_decrease (timing c') = now)
  /\ (throttled = false -> SFleb (f32_lit 1 10) l = true ->
      target c' <= learned_ceiling c'
      <= Z.max (u32_of_f64 (f64_mul (f64_of_Z (target c)) (f64_lit 70 100))) (bc_min c)).
Proof.
  intros H c' throttled. subst c' throttled. unfold on_loss. rewrite configured_max by done.
  destruct H as [H1 H2 H3 H4 H5 H6].
  pose proof (loss_factor_le l (target c) ltac:(lia)) as Hle.
  cbn [set_timing_loss last_decrease]. case_if; [split_and!; simpl; try done; lia|]. case_if.
  - pose proof (severe_le_collapse l (target c) ltac:(lia) E0). split_and!; simpl; try done; lia.
  - split_and!; simpl; try done; lia.
Qed.

(** Polling never lowers the target; it raises it only when the last
    loss is at least 5 s old, the decayed loss rate is below 2 %, no fresh RTT
    sample is inflated and 2 s passed since the last raise; it then moves by
    at least min(250 kbps, what is left) and never above the learned ceiling,
    which itself moves only after 30 s without loss and only up to the probe
    cap. *)
Theorem poll_target_spec (c : BitrateController) (now : Z) :
  configured_ok c ->
  let r := poll_target powf c now in
  let cap := Z.min (reprobe c now) (bc_max c) in
  r.1 = target r.2
  /\ target c <= target r.2 <= bc_max c
  /\ (recovery_open powf c now = false -> r.2 = c)
  /\ (recovery_open powf c now = true ->
      learned_ceiling r.2 = reprobe c now
      /\ Z.min cap (target c + 250000) <= target r.2 <= cap
      /\ (target c < target r.2 -> last_recover (timing r.2) = now)).
Proof.
  intros H r cap. subst r cap. unfold poll_target. rewrite configured_max by done.
  pose proof (reprobe_range c now H). destruct H as [H1 H2 H3 H4 H5 H6].
  unfold poll_locked, saturating_add32, recover_step, U32_MAX in *.
  destruct (recovery_open powf c now); simpl negb; cbv iota.
  - case_if; bool_prop; simpl; split_and!; try done; intros; try lia; split_and!; try done; lia.
  - simpl. split_and!; try done; lia.
Qed.

(** Polls at the given times. *)
Definition poll_times (c : BitrateController) (ts : list Z) : BitrateController :=
  foldl (fun c t => (poll_target powf c t).2) c ts.

(** Each time is at least the recovery interval after the one before. *)
Fixpoint spaced (prev : Z) (ts : list Z) : Prop :=
  match ts with
  | [] => True
  | t :: ts => RECOVER_INTERVAL_MS <= millis_since t prev /\ spaced t ts
  end.

Definition quiet (c : BitrateController) : Prop :=
  last_loss (timing c) = None /\ last_rtt (timing c) = None.

Lemma quiet_open c now :
  quiet c -> RECOVER_INTERVAL_MS <= millis_since now (last_recover (timing c)) ->
  recovery_open powf c now = true.
Proof.
  intros [E1 E2] Ht. unfold recovery_open, rtt_inflated, current_loss. rewrite E1, E2. simpl.
  by rewrite (proj2 (Z.leb_le _ _)).
Qed.

Lemma poll_quiet c now :
  configured_ok c -> quiet c -> learned_ceiling c = probe_cap c ->
  RECOVER_INTERVAL_MS <= millis_since now (last_recover (timing c)) ->
  let c' := (poll_target powf c now).2 in
  configured_ok c' /\ quiet c' /\ learned_ceiling c' = learned_ceiling c /\ probe_cap c' = probe_cap c
  /\ last_recover (timing c') <= Z.max now (last_recover (timing c))
  /\ Z.min (learned_ceiling c) (target c + 250000) <= target c'.
Proof.
  intros H Hq Hl Ht c'. pose proof (quiet_open c now Hq Ht) as Ho.
  assert (Hr : reprobe c now = learned_ceiling c).
  { unfold reprobe. rewrite Hl, Z.ltb_irrefl. done. }
  assert (Hok : configured_ok c').
  { subst c'. unfold poll_target. rewrite configured_max by done. apply poll_locked_ok; [done|].
    pose proof (co_min c H). pose proof (co_floor c H). lia. }
  split; [done|]. subst c'. unfold poll_target in *. rewrite configured_max in * by done.
  destruct H as [H1 H2 H3 H4 H5 H6]. unfold poll_locked, saturating_add32, recover_step, U32_MAX in *.
  rewrite Ho, Hr in *. simpl negb in *. cbv iota in *. destruct Hq as [E1 E2].
  case_if; bool_prop; simpl in *; split_and!; try done; lia.
Qed.

Lemma spaced_weaken p p' ts : spaced p ts -> p' <= p -> spaced p' ts.
Proof.
  destruct ts as [|t ts]; [done|]. intros [H1 H2] Hp. split; [|done].
  unfold millis_since, saturating_sub in *.
  assert (Z.max 0 (t - p) / 1000000 <= Z.max 0 (t - p') / 1000000) by (apply Z.div_le_mono; lia). lia.
Qed.

(** C32: Recovery is live: without loss or RTT reports, polls at least 2 s
    apart raise the target by at least 250 kbps each until it reaches the
    learned ceiling, so after enough of them the target is that ceiling. *)
Theorem recovery_reaches_ceiling (c : BitrateController) (ts : list Z) :
  configured_ok c -> quiet c -> learned_ceiling c = probe_cap c ->
  spaced (last_recover (timing c)) ts ->
  learned_ceiling c - target c <= 250000 * Z.of_nat (length ts) ->
  target (poll_times c ts) = learned_ceiling c.
Proof.
  revert c. induction ts as [|t ts IH]; intros c H Hq Hl Hs Hn.
  - simpl in *. pose proof (co_target c H). lia.
  - destruct Hs as [Ht Hs]. unfold poll_times. cbn [foldl].
    destruct (poll_quiet c t H Hq Hl Ht) as (H' & Hq' & El & Ep & Er & Hstep).
    set (c' := (poll_target powf c t).2) in *. rewrite <- El. apply IH; try done; [congruence| |].
    + apply spaced_weaken with t; [done|]. unfold millis_since, saturating_sub, RECOVER_INTERVAL_MS in Ht.
      assert (last_recover (timing c) <= t); [|lia].
      destruct (Z.le_gt_cases (last_recover (timing c)) t); [done|].
      rewrite Z.max_l in Ht by lia. vm_compute in Ht. congruence.
    + pose proof (co_target c' H'). cbn [length] in Hn. lia.
Qed.

(** The FEC percentage handed to the packetizer lies between 15 and 25,
    and is exactly 15 before configuration and whenever the target is at most
    one and a half times the floor. *)
Theorem fec_percentage_range (c : BitrateController) (now : Z) :
  15 <= poll_fec_percentage powf c now <= 25
  /\ ((bc_min c = 0 \/ (configured_ok c /\ target c <= 1500000)) ->
      poll_fec_percentage powf c now = 15).
Proof.
  unfold poll_fec_percentage, FEC_MIN_PCT, FEC_MAX_PCT.
  pose proof (mul_ten_clamped _ (f64_div_fits (current_loss powf c now) FEC_SATURATION_LOSS)) as Hm.
  split.
  - case_if; [lia|]. change (25 - 15) with 10. lia.
  - intros [E|[H Ht]].
    + by rewrite E.
    + rewrite (co_min c H). change (u32 (1000000 * 3) / 2) with 1500000.
      by rewrite (proj2 (Z.leb_le _ _) Ht), orb_true_r.
Qed.
End Behaviour.

(** A stream negotiated at 20 Mbps, one hour and more after boot. *)
Definition bitrate_example : BitrateController :=
  configure 0 (bitrate_default 0) 5000000000000 20000000.

Lemma on_loss_spec_witness :
  let c := bitrate_example in
  let c' := on_loss powf_half c 5000400000000 (f32_lit 2 10) in
  let throttled := millis_since 5000400000000 (last_decrease (timing c)) <? DECREASE_THROTTLE_MS in
  last_loss (timing c') = Some 5000400000000
  /\ target c' <= target c /\ learned_ceiling c' <= learned_ceiling c /\ probe_cap c' <= probe_cap c
  /\ (throttled = true -> target c' = target c /\ learned_ceiling c' = learned_ceiling c
                          /\ last_decrease (timing c') = last_decrease (timing c))
  /\ (throttled = false -> last_decrease (timing c') = 5000400000000)
  /\ (throttled = false -> SFleb (f32_lit 1 10) (f32_lit 2 10) = true ->
      target c' <= learned_ceiling c'
      <= Z.max (u32_of_f64 (f64_mul (f64_of_Z (target c)) (f64_lit 70 100))) (bc_min c)).
Proof. apply (on_loss_spec powf_half bitrate_example). split; vm_compute; congruence. Defined.

Lemma poll_target_spec_witness :
  let c := bitrate_example in
  let r := poll_target powf_half c 5003000000000 in
  let cap := Z.min (reprobe c 5003000000000) (bc_max c) in
  r.1 = target r.2
  /\ target c <= target r.2 <= bc_max c
  /\ (recovery_open powf_half c 5003000000000 = false -> r.2 = c)
  /\ (recovery_open powf_half c 5003000000000 = true ->
      learned_ceiling r.2 = reprobe c 5003000000000
      /\ Z.min cap (target c + 250000) <= target r.2 <= cap
      /\ (target c < target r.2 -> last_recover (timing r.2) = 5003000000000)).
Proof. apply (poll_target_spec powf_half bitrate_example). split; vm_compute; congruence. Defined.

Lemma recovery_reaches_ceiling_witness :
  let c := configure 0 (bitrate_default 0) 0 3500000 in
  target (poll_times powf_half c
            (map (fun k => 3000000000 * Z.of_nat k) (seq 1 11))) = 3500000.
Proof.
  apply (recovery_reaches_ceiling powf_half (configure 0 (bitrate_default 0) 0 3500000)).
  - split; vm_compute; congruence.
  - split; reflexivity.
  - reflexivity.
  - vm_compute. repeat split; congruence.
  - vm_compute. congruence.
Defined.

(** Where the clock cannot go back an hour (less than an hour after boot
    on a platform whose [Instant]s start at zero), [stale_instant] is the
    present, and a severe loss 100 ms after the stream is configured is
    throttled: the target stays as it was. *)
Theorem first_loss_throttled_after_boot :
  let c := configure 0 (bitrate_default 0) 60000000000 20000000 in
  target (on_loss powf_half c 60100000000 (f32_lit 5 10)) = target c
  /\ target (on_loss powf_half bitrate_example 5000100000000 (f32_lit 5 10)) = target bitrate_example / 2.
Proof. vm_compute. done. Qed.
