(* ===== verification/VideoHost.v ===== *)
(** * The host's video socket loop ([kmc-streamhost/src/video/mod.rs])

    One iteration of the [select!] loop of [start] as a function of the
    branch that fires.  An address is a [Z]; [Instant]s are nanoseconds.
    [client_active] and [session_reset] are the two shared flags and
    [bitrate] the shared controller. *)
From S2P Require Import Prelude Wire Fec Packetizer Float Bitrate Depacketizer.

Definition OWNER_TIMEOUT : Z := 2 * 1000000000.
Definition IDLE_TIMEOUT : Z := 3 * 1000000000.
Definition MAX_SANE_RTT_MS : Z := 5000.
Definition WSAECONNRESET : Z := 10054.

Record EncodedFrame := mkEncodedFrame {
  ef_data : list Z;
  ef_is_key_frame : bool;
  ef_rtp_timestamp : Z
}.

Record VideoHost := mkVideoHost {
  client_addr : option Z;
  vh_sequence_number : Z;
  vh_stream_packet_index : Z;
  vh_frame_number : Z;
  last_ping : Z;
  client_active : bool;
  session_reset : bool;
  vh_bitrate : BitrateController
}.

(** What the [select!] waits for: a datagram with its sender, a receive
    error, a frame (with those already queued behind it and the number of
    shards the socket accepts before it fails, if it does), the 1 s timer,
    or another task raising [session_reset]. *)
Inductive HostInput :=
| RecvFrom (addr : Z) (datagram : list Z) (now : Z)
| RecvError (code : Z)
| FrameReady (frame : EncodedFrame) (newer : list EncodedFrame) (send_fails_at : option nat) (now : Z)
| IdleTick (now : Z)
| NewPlay.

Section Loop.
Context {R : ReedSolomon} (powf : f64 -> f64 -> f64).
Context (packet_size : nat) (probe_epoch : Z).

(** [probe_epoch.elapsed().as_micros() as u64] *)
Definition probe_micros (now : Z) : Z := u64 (saturating_sub now probe_epoch / 1000).

Definition set_client (h : VideoHost) (addr : option Z) : VideoHost :=
  {| client_addr := addr; vh_sequence_number := vh_sequence_number h;
     vh_stream_packet_index := vh_stream_packet_index h; vh_frame_number := vh_frame_number h;
     last_ping := last_ping h; client_active := match addr with Some _ => true | None => false end;
     session_reset := session_reset h; vh_bitrate := vh_bitrate h |}.

Definition reset_counters (h : VideoHost) : VideoHost :=
  {| client_addr := client_addr h; vh_sequence_number := 0; vh_stream_packet_index := 0;
     vh_frame_number := 0; last_ping := last_ping h; client_active := client_active h;
     session_reset := session_reset h; vh_bitrate := vh_bitrate h |}.

Definition set_last_ping (h : VideoHost) (now : Z) : VideoHost :=
  {| client_addr := client_addr h; vh_sequence_number := vh_sequence_number h;
     vh_stream_packet_index := vh_stream_packet_index h; vh_frame_number := vh_frame_number h;
     last_ping := now; client_active := client_active h;
     session_reset := session_reset h; vh_bitrate := vh_bitrate h |}.

Definition set_bitrate (h : VideoHost) (c : BitrateController) : VideoHost :=
  {| client_addr := client_addr h; vh_sequence_number := vh_sequence_number h;
     vh_stream_packet_index := vh_stream_packet_index h; vh_frame_number := vh_frame_number h;
     last_ping := last_ping h; client_active := client_active h;
     session_reset := session_reset h; vh_bitrate := c |}.

Definition set_reset_flag (h : VideoHost) (b : bool) : VideoHost :=
  {| client_addr := client_addr h; vh_sequence_number := vh_sequence_number h;
     vh_stream_packet_index := vh_stream_packet_index h; vh_frame_number := vh_frame_number h;
     last_ping := last_ping h; client_active := client_active h;
     session_reset := b; vh_bitrate := vh_bitrate h |}.

(** The PING branch. *)
Definition on_ping (h : VideoHost) (addr now : Z) : VideoHost * list (Z * list Z) :=
  let owner_active := match client_addr h with
                      | Some a => negb (a =? addr) && (saturating_sub now (last_ping h) <? OWNER_TIMEOUT)
                      | None => false
                      end in
  if owner_active then (h, [])
  else
    let h := if bool_decide (client_addr h = Some addr) then h else reset_counters h in
    (set_last_ping (set_client h (Some addr)) now, [(addr, rtt_probe (probe_micros now))]).

(** The echoed-probe branch. *)
Definition on_echo (h : VideoHost) (sent_us now : Z) : VideoHost :=
  let rtt_us := saturating_sub (probe_micros now) sent_us in
  let rtt_ms := u32 (rtt_us / 1000) in
  if rtt_ms <=? MAX_SANE_RTT_MS then set_bitrate h (on_rtt (vh_bitrate h) now rtt_ms) else h.

Definition on_datagram (h : VideoHost) (addr : Z) (datagram : list Z) (now : Z)
  : VideoHost * list (Z * list Z) :=
  if bool_decide (datagram = PING_PAYLOAD) then on_ping h addr now
  else match parse_rtt_probe datagram with
       | Some sent_us => if bool_decide (client_addr h = Some addr) then (on_echo h sent_us now, []) else (h, [])
       | None => (h, [])
       end.

(** The frame branch: [None] when packetizing panics. *)
Definition on_frame (h : VideoHost) (frame : EncodedFrame) (newer : list EncodedFrame)
    (send_fails_at : option nat) (now : Z) : option (VideoHost * list (Z * list Z)) :=
  match client_addr h with
  | None => Some (h, [])
  | Some dst =>
      let h := if session_reset h then reset_counters (set_reset_flag h false) else h in
      let frame := List.last newer frame in
      let frame_number := u32 (vh_frame_number h + 1) in
      let fec_pct := Z.to_nat (poll_fec_percentage powf (vh_bitrate h) now) in
      r <-? packetize_frame (ef_data frame) (ef_is_key_frame frame) packet_size frame_number
              (vh_sequence_number h) (vh_stream_packet_index h) (ef_rtp_timestamp frame) fec_pct;
      let '(shards, seq, spi) := r in
      let attempted := match send_fails_at with Some k => take (S k) shards | None => shards end in
      Some ({| client_addr := client_addr h; vh_sequence_number := seq;
               vh_stream_packet_index := spi; vh_frame_number := frame_number;
               last_ping := last_ping h; client_active := client_active h;
               session_reset := session_reset h;
               vh_bitrate := (poll_target powf (vh_bitrate h) now).2 |},
            map (fun s => (dst, s)) attempted)
  end.

Definition host_step (h : VideoHost) (i : HostInput) : option (VideoHost * list (Z * list Z)) :=
  match i with
  | RecvFrom addr datagram now => Some (on_datagram h addr datagram now)
  | RecvError code =>
      if code =? WSAECONNRESET then
        Some (match client_addr h with Some _ => set_client h None | None => h end, [])
      else Some (h, [])
  | FrameReady frame newer fails now => on_frame h frame newer fails now
  | IdleTick now =>
      Some (match client_addr h with
            | Some _ => if IDLE_TIMEOUT <? saturating_sub now (last_ping h) then set_client h None else h
            | None => h
            end, [])
  | NewPlay => Some (set_reset_flag h true, [])
  end.

Definition host_initial (now : Z) (c : BitrateController) : VideoHost :=
  {| client_addr := None; vh_sequence_number := 0; vh_stream_packet_index := 0;
     vh_frame_number := 0; last_ping := now; client_active := false; session_reset := false;
     vh_bitrate := c |}.
End Loop.

(** ** The generator of dummy frames *)

(** Its [n]th tick. *)
Definition dummy_frame (n ts : Z) : EncodedFrame :=
  {| ef_data := [0; 0; 0; 1; 101] ++ replicate 2000 171; ef_is_key_frame := n mod 60 =? 1; ef_rtp_timestamp := ts |}.

Fixpoint dummy_frames (fps : Z) (ticks : nat) (n ts : Z) : list EncodedFrame :=
  match ticks with
  | O => []
  | S ticks => dummy_frame (n + 1) ts :: dummy_frames fps ticks (n + 1) (wrapping_add32 ts (90000 / Z.max fps 1))
  end.

(** The period in nanoseconds and what is sent in [ticks] ticks, until the
    receiver is gone; [None] where the task panics, dividing by zero or asking
    for a timer without a period. *)
Definition spawn_dummy_generator (fps : Z) (ticks : nat) : option (Z * list EncodedFrame) :=
  if fps =? 0 then None
  else
    let period := 1000000 / fps * 1000 in
    if period =? 0 then None else Some (period, dummy_frames fps ticks 0 0).

(** ** Invariant *)

Record host_ok (h : VideoHost) : Prop := {
  ho_active : client_active h = is_someb (client_addr h);
  ho_seq : is_u32 (vh_sequence_number h);
  ho_spi : is_u32 (vh_stream_packet_index h);
  ho_frame : is_u32 (vh_frame_number h);
  ho_bitrate : bitrate_ok (vh_bitrate h)
}.

Lemma poll_target_ok powf c now : bitrate_ok c -> bitrate_ok (poll_target powf c now).2.
Proof.
  unfold poll_target. intros [H|H]; [rewrite H; by left|]. rewrite configured_max by done.
  right. apply poll_locked_ok; [done|]. pose proof (co_min c H). pose proof (co_floor c H). lia.
Qed.

Lemma is_u32_0 : is_u32 0.
Proof. split; vm_compute; congruence. Qed.
#[export] Hint Resolve is_u32_0 : kmc.

Lemma reset_counters_ok h : host_ok h -> host_ok (reset_counters h).
Proof. intros []. split; simpl; auto with kmc. Qed.

Section HostProps.
Context {R : ReedSolomon} {RL : ReedSolomonLaws R} (powf : f64 -> f64 -> f64).
Context (packet_size : nat) (probe_epoch : Z).

Lemma on_datagram_ok h addr d now : host_ok h -> host_ok (on_datagram probe_epoch h addr d now).1.
Proof.
  intros H. unfold on_datagram. case_if.
  - unfold on_ping. case_if; [done|]. simpl.
    assert (H' : host_ok (if bool_decide (client_addr h = Some addr) then h else reset_counters h))
      by (case_if; [done|by apply reset_counters_ok]).
    destruct H'. by split.
  - destruct (parse_rtt_probe d); [|done]. case_if; [|done]. unfold on_echo. case_if; [|done].
    destruct H. split; try done. simpl. by apply on_rtt_ok.
Qed.

Lemma packetize_u32 data key req fn seq spi ts pct shards seq' spi' :
  is_u32 seq -> is_u32 spi ->
  packetize_frame data key req fn seq spi ts pct = Some (shards, seq', spi') ->
  is_u32 seq' /\ is_u32 spi' /\ (NV_VIDEO_PACKET_SIZE < req)%nat.
Proof.
  intros Hq Hs E. destruct (Nat.le_gt_cases req NV_VIDEO_PACKET_SIZE) as [Hle|Hgt].
  { unfold packetize_frame in E. by rewrite (proj2 (Nat.leb_le _ _)) in E. }
  destruct (packetize_frame_eq data key req fn seq spi ts pct) as [_ E2]; try done.
  rewrite E in E2. injection E2 as _ -> ->. auto with kmc.
Qed.

Lemma host_step_ok h i h' outs :
  host_ok h -> host_step powf packet_size probe_epoch h i = Some (h', outs) -> host_ok h'.
Proof.
  intros H. destruct i as [addr d now|code|fr newer fails now|now|]; unfold host_step.
  - intros [= E]. pose proof (on_datagram_ok h addr d now H) as X. by rewrite E in X.
  - case_if; intros [= <- <-]; [|done]. destruct (client_addr h); [|done]. destruct H. by split.
  - unfold on_frame. destruct (client_addr h) as [dst|]; [|by intros [= <- <-]].
    set (h0 := if session_reset h then _ else h).
    assert (H0 : host_ok h0).
    { subst h0. case_if; [|done]. apply reset_counters_ok. destruct H. by split. }
    destruct (packetize_frame _ _ _ _ _ _ _ _) as [[[shards q] p]|] eqn:E; [|done].
    intros [= <- <-]. destruct H0 as [A1 A2 A3 A4 A5].
    apply packetize_u32 in E as (? & ? & _); [|done..].
    split; simpl; auto using poll_target_ok with kmc.
  - intros [= <- <-]. destruct (client_addr h); [|done]. case_if; [|done]. destruct H. by split.
  - intros [= <- <-]. destruct H. by split.
Qed.

(** In every state the loop reaches, the encoder's go-ahead flag says
    exactly whether a client is registered, and the three wire counters and
    the rate controller stay well-formed. *)
Theorem host_invariant (inputs : list HostInput) (now : Z) (c : BitrateController) (h : VideoHost) :
  bitrate_ok c ->
  foldl (fun s i => s0 <-? s; r <-? host_step powf packet_size probe_epoch s0 i; Some r.1)
        (Some (host_initial now c)) inputs = Some h ->
  host_ok h.
Proof.
  intros Hc. revert h. induction inputs as [|i l IH] using rev_ind; intros h; simpl.
  - intros [= <-]. split; simpl; auto with kmc.
  - rewrite foldl_app. simpl. destruct (foldl _ _ l) as [s0|]; [|done].
    destruct (host_step powf packet_size probe_epoch s0 i) as [[h' outs]|] eqn:E; [|done].
    intros [= <-]. apply (host_step_ok s0 i h' outs); [by apply IH|done].
Qed.

(** C33: One viewer at a time: while the registered client has been heard
    within two seconds, no datagram from another address changes anything or
    is answered; after that a PING takes over, which restarts the frame,
    sequence and packet counters. *)
Theorem video_ownership (h : VideoHost) (a b : Z) (now : Z) :
  client_addr h = Some a -> a <> b ->
  (saturating_sub now (last_ping h) < OWNER_TIMEOUT ->
   forall d, on_datagram probe_epoch h b d now = (h, []))
  /\ (OWNER_TIMEOUT <= saturating_sub now (last_ping h) ->
      let r := on_datagram probe_epoch h b PING_PAYLOAD now in
      client_addr r.1 = Some b /\ client_active r.1 = true /\ last_ping r.1 = now
      /\ vh_frame_number r.1 = 0 /\ vh_sequence_number r.1 = 0 /\ vh_stream_packet_index r.1 = 0
      /\ r.2 = [(b, rtt_probe (probe_micros probe_epoch now))]).
Proof.
  intros Ea Hne.
  assert (Hb : bool_decide (client_addr h = Some b) = false)
    by (apply bool_decide_false; rewrite Ea; congruence).
  split.
  - intros Ht d. unfold on_datagram, on_ping. rewrite Hb, Ea.
    rewrite (proj2 (Z.eqb_neq _ _)), (proj2 (Z.ltb_lt _ _)) by done. simpl.
    case_if; [done|]. by destruct (parse_rtt_probe d).
  - intros Ht. unfold on_datagram, on_ping. rewrite bool_decide_true, Hb, Ea by done.
    rewrite (proj2 (Z.ltb_ge _ _)), andb_false_r by done. by simpl.
Qed.

Lemma poll_fec_range c now : (15 <= Z.to_nat (poll_fec_percentage powf c now) <= 25)%nat.
Proof.
  unfold poll_fec_percentage, FEC_MIN_PCT, FEC_MAX_PCT.
  pose proof (mul_ten_clamped _ (f64_div_fits (current_loss powf c now) FEC_SATURATION_LOSS)).
  case_if; [lia|]. change (25 - 15) with 10. lia.
Qed.

(** A frame goes only to the registered client; of the frames waiting
    the newest is sent, under the next frame number (1 right after a new
    session) and with a FEC percentage between 15 and 25; its datagrams are
    the packetizer's shards in order, and the loop never panics when the
    packet size exceeds 16. *)
Theorem host_frame_spec (h : VideoHost) (frame : EncodedFrame) (newer : list EncodedFrame)
    (fails : option nat) (now : Z) :
  host_ok h -> (NV_VIDEO_PACKET_SIZE < packet_size)%nat ->
  exists h' outs, on_frame powf packet_size h frame newer fails now = Some (h', outs)
    /\ client_addr h' = client_addr h
    /\ match client_addr h with
       | None => h' = h /\ outs = []
       | Some dst =>
           let seq0 := if session_reset h then 0 else vh_sequence_number h in
           let spi0 := if session_reset h then 0 else vh_stream_packet_index h in
           let f := List.last newer frame in
           session_reset h' = false
           /\ vh_frame_number h' = (if session_reset h then 1 else u32 (vh_frame_number h + 1))
           /\ exists pct shards,
                (15 <= pct <= 25)%nat
                /\ packetize_frame (ef_data f) (ef_is_key_frame f) packet_size (vh_frame_number h')
                     seq0 spi0 (ef_rtp_timestamp f) pct
                   = Some (shards, vh_sequence_number h', vh_stream_packet_index h')
                /\ outs = map (fun s => (dst, s))
                            (match fails with Some k => take (S k) shards | None => shards end)
       end.
Proof.
  intros H Hp. unfold on_frame. destruct (client_addr h) as [dst|] eqn:Ec; [|by exists h, []].
  set (h0 := if session_reset h then _ else h).
  assert (E0 : vh_sequence_number h0 = (if session_reset h then 0 else vh_sequence_number h)
    /\ vh_stream_packet_index h0 = (if session_reset h then 0 else vh_stream_packet_index h)
    /\ vh_frame_number h0 = (if session_reset h then 0 else vh_frame_number h)
    /\ session_reset h0 = false /\ client_addr h0 = Some dst
    /\ is_u32 (vh_sequence_number h0) /\ is_u32 (vh_stream_packet_index h0)).
  { destruct H. subst h0. destruct (session_reset h) eqn:E; simpl; auto 10 with kmc. }
  destruct E0 as (E1 & E2 & E3 & E4 & E5 & E6 & E7). clearbody h0.
  pose proof (poll_fec_range (vh_bitrate h0) now) as Hpct. set (pct := Z.to_nat _) in *.
  set (f := List.last newer frame).
  destruct (packetize_frame_eq (ef_data f) (ef_is_key_frame f) packet_size (u32 (vh_frame_number h0 + 1))
              (vh_sequence_number h0) (vh_stream_packet_index h0) (ef_rtp_timestamp f) pct Hp E6 E7) as [_ Epk].
  rewrite Epk. eexists _, _. split; [done|]. cbn [client_addr session_reset vh_frame_number
    vh_sequence_number vh_stream_packet_index]. split_and!; [done|done| |].
  - rewrite E3. by destruct (session_reset h).
  - exists pct. eexists. split; [done|]. rewrite <- E1, <- E2. split; [exact Epk|]. done.
Qed.

(** The RTT loop across both ends: the probe a PING is answered with is
    echoed untouched by the client, and the host turns the echo into an RTT
    sample of exactly the elapsed milliseconds. *)
Theorem rtt_measurement (h : VideoHost) (a t0 t1 : Z) (dp : Depacketizer) (sink : bool) (tc : Z) :
  client_addr h = Some a -> probe_epoch <= t0 <= t1 -> (t1 - probe_epoch) / 1000 < 2 ^ 64 ->
  ((t1 - probe_epoch) / 1000 - (t0 - probe_epoch) / 1000) / 1000 <= MAX_SANE_RTT_MS ->
  exists h1 probe,
    on_datagram probe_epoch h a PING_PAYLOAD t0 = (h1, [(a, probe)])
    /\ run_step sink dp (Recv true probe tc) = (true, dp, [SendToHost probe])
    /\ on_datagram probe_epoch h1 a probe t1
       = (set_bitrate h1 (on_rtt (vh_bitrate h1) t1
            (((t1 - probe_epoch) / 1000 - (t0 - probe_epoch) / 1000) / 1000)), []).
Proof.
  intros Ea Ht H64 Hsane.
  assert (Hm : forall t, probe_epoch <= t <= t1 -> probe_micros probe_epoch t = (t - probe_epoch) / 1000
                                                   /\ is_u64 ((t - probe_epoch) / 1000)).
  { intros t Hle. unfold probe_micros, saturating_sub. rewrite Z.max_r by lia.
    assert (0 <= (t - probe_epoch) / 1000 <= (t1 - probe_epoch) / 1000)
      by (split; [apply Z.div_pos; lia|apply Z.div_le_mono; lia]).
    assert (is_u64 ((t - probe_epoch) / 1000)) by (unfold is_u64; lia). split; [by apply u64_id|done]. }
  destruct (Hm t0) as [E0 U0]; [lia|]. destruct (Hm t1) as [E1 U1]; [lia|].
  eexists _, (rtt_probe ((t0 - probe_epoch) / 1000)). split_and!.
  - unfold on_datagram, on_ping. rewrite bool_decide_true by done. rewrite Ea, Z.eqb_refl. simpl.
    rewrite bool_decide_true, E0 by done. done.
  - unfold run_step. simpl negb. cbv iota. by rewrite parse_rtt_probe_probe.
  - unfold on_datagram. rewrite bool_decide_false by (intros E; by apply (f_equal length) in E).
    rewrite parse_rtt_probe_probe by done. simpl. rewrite bool_decide_true by done.
    unfold on_echo. rewrite E1. unfold saturating_sub.
    assert ((t0 - probe_epoch) / 1000 <= (t1 - probe_epoch) / 1000) by (apply Z.div_le_mono; lia).
    rewrite Z.max_r by lia.
    rewrite u32_id; [by rewrite (proj2 (Z.leb_le _ _))|].
    unfold is_u32, MAX_SANE_RTT_MS in *. split; [apply Z.div_pos; lia|lia].
Qed.
End HostProps.

(** ** Witnesses *)

Definition host_example : VideoHost :=
  (on_datagram 0 (host_initial 0 bitrate_example) 77 PING_PAYLOAD 1000000000).1.

Lemma host_invariant_witness :
  host_ok host_example.
Proof.
  apply (host_invariant (R := XorCodec) powf_half 1024 0
           [RecvFrom 77 PING_PAYLOAD 1000000000] 0 bitrate_example).
  - right. split; vm_compute; congruence.
  - reflexivity.
Defined.

Lemma video_ownership_witness :
  (saturating_sub 2000000000 (last_ping host_example) < OWNER_TIMEOUT ->
   forall d, on_datagram 0 host_example 78 d 2000000000 = (host_example, []))
  /\ (OWNER_TIMEOUT <= saturating_sub 2000000000 (last_ping host_example) ->
      let r := on_datagram 0 host_example 78 PING_PAYLOAD 2000000000 in
      client_addr r.1 = Some 78 /\ client_active r.1 = true /\ last_ping r.1 = 2000000000
      /\ vh_frame_number r.1 = 0 /\ vh_sequence_number r.1 = 0 /\ vh_stream_packet_index r.1 = 0
      /\ r.2 = [(78, rtt_probe (probe_micros 0 2000000000))]).
Proof. apply (video_ownership 0 host_example 77 78 2000000000); [reflexivity|lia]. Defined.

Lemma host_frame_spec_witness :
  let f := {| ef_data := [1; 2; 3]; ef_is_key_frame := true; ef_rtp_timestamp := 90 |} in
  exists h' outs,
    on_frame (R := XorCodec) powf_half 48 host_example f [] None 2000000000 = Some (h', outs)
    /\ client_addr h' = client_addr host_example
    /\ match client_addr host_example with
       | None => h' = host_example /\ outs = []
       | Some dst =>
           let seq0 := if session_reset host_example then 0 else vh_sequence_number host_example in
           let spi0 := if session_reset host_example then 0 else vh_stream_packet_index host_example in
           session_reset h' = false
           /\ vh_frame_number h' = (if session_reset host_example then 1
                                    else u32 (vh_frame_number host_example + 1))
           /\ exists pct shards,
                (15 <= pct <= 25)%nat
                /\ packetize_frame (R := XorCodec) (ef_data f) (ef_is_key_frame f) 48 (vh_frame_number h')
                     seq0 spi0 (ef_rtp_timestamp f) pct
                   = Some (shards, vh_sequence_number h', vh_stream_packet_index h')
                /\ outs = map (fun s => (dst, s)) shards
       end.
Proof.
  apply (host_frame_spec (R := XorCodec) powf_half 48 host_example
           {| ef_data := [1; 2; 3]; ef_is_key_frame := true; ef_rtp_timestamp := 90 |} [] None 2000000000).
  - split; [reflexivity|split; vm_compute; congruence..|]. right. split; vm_compute; congruence.
  - apply Nat.ltb_lt. reflexivity.
Defined.

Lemma rtt_measurement_witness :
  exists h1 probe,
    on_datagram 0 host_example 77 PING_PAYLOAD 1500000000 = (h1, [(77, probe)])
    /\ run_step (R := XorCodec) true depacketizer_new (Recv true probe 0)
       = (true, depacketizer_new, [SendToHost probe])
    /\ on_datagram 0 h1 77 probe 1520000000
       = (set_bitrate h1 (on_rtt (vh_bitrate h1) 1520000000
            (((1520000000 - 0) / 1000 - (1500000000 - 0) / 1000) / 1000)), []).
Proof.
  apply (rtt_measurement (R := XorCodec) 0 host_example 77 1500000000 1520000000 depacketizer_new true 0).
  - reflexivity.
  - lia.
  - vm_compute; reflexivity.
  - vm_compute; congruence.
Defined.

(** ** The dummy stream *)

Lemma dummy_frames_lookup fps ticks n ts k : is_u32 ts -> (k < ticks)%nat ->
  dummy_frames fps ticks n ts !! k = Some (dummy_frame (n + Z.of_nat k + 1) (u32 (ts + Z.of_nat k * (90000 / Z.max fps 1)))).
Proof.
  revert n ts k. induction ticks as [|ticks IH]; intros n ts k Hts Hk; [lia|]. cbn [dummy_frames]. destruct k as [|k].
  - cbn. do 2 f_equal; [lia|]. unfold u32. rewrite Z.mod_small; [lia|]. unfold is_u32 in Hts. lia.
  - cbn [lookup list_lookup]. rewrite IH; [|apply u32_range|lia]. do 2 f_equal; [lia|]. unfold wrapping_add32, u32.
    rewrite Zplus_mod_idemp_l. f_equal. lia.
Qed.

(** The dummy stream for a frame rate up to a million: frame [k] has the RTP
    time of its place at 90 kHz, one frame in sixty is a key frame, the first
    one too; the task panics for no and for higher rates. *)
Theorem dummy_stream_spec (fps : Z) (ticks : nat) : is_u32 fps ->
  match spawn_dummy_generator fps ticks with
  | None => fps = 0 \/ 1000000 < fps
  | Some (period, frames) =>
      0 < period /\ 0 < fps <= 1000000 /\
      forall k, (k < ticks)%nat -> exists f, frames !! k = Some f /\ length (ef_data f) = 2005%nat /\
        (ef_is_key_frame f = true <-> (k mod 60 = 0)%nat) /\ ef_rtp_timestamp f = u32 (Z.of_nat k * (90000 / fps))
  end.
Proof.
  intros Hf. unfold is_u32 in Hf. unfold spawn_dummy_generator. destruct (fps =? 0) eqn:E0; bool_prop; [by left|].
  destruct (1000000 / fps * 1000 =? 0) eqn:Ep; bool_prop.
  - right. destruct (Z.le_gt_cases fps 1000000) as [Hle|]; [exfalso|lia].
    pose proof (Z.div_le_mono fps 1000000 fps ltac:(lia) Hle) as H. rewrite Z.div_same in H by lia. lia.
  - pose proof (Z.div_pos 1000000 fps ltac:(lia) ltac:(lia)) as Hpos. split; [lia|]. split.
    + destruct (Z.le_gt_cases fps 1000000) as [|Hgt]; [lia|]. rewrite Z.div_small in Ep by lia. lia.
    + intros k Hk. eexists. split; [apply dummy_frames_lookup; [split; [done|reflexivity]|done]|]. cbn [ef_data ef_is_key_frame ef_rtp_timestamp dummy_frame].
      split_and!; [reflexivity| |by rewrite Z.max_l by lia]. rewrite Z.eqb_eq. zify. div_lia.
Qed.

Lemma dummy_stream_spec_witness : exists period frames, spawn_dummy_generator 60 61 = Some (period, frames) /\
  (ef_is_key_frame <$> frames !! 60%nat) = Some true.
Proof.
  pose proof (dummy_stream_spec 60 61 ltac:(split; [discriminate|reflexivity])) as H.
  destruct (spawn_dummy_generator 60 61) as [[period frames]|]; [|by destruct H].
  destruct H as (_ & _ & H). destruct (H 60%nat) as (f & Hf & _ & Hkey & _); [apply Nat.ltb_lt; reflexivity|].
  exists period, frames. split; [reflexivity|]. rewrite Hf. cbn. f_equal. by apply Hkey.
Defined.
