(* ===== verification/Aead.v ===== *)
(** * AES-128-GCM as the control channel uses it

    The [aes-gcm] crate is not part of the repository: its three entry points
    are a parameter ([Aead]) and the behaviour its documentation promises is a
    class of laws ([AeadLaws]).  A stream-cipher instance shows that the laws
    can hold. *)
From S2P Require Import Prelude.

Definition TAG_LEN : nat := 16.

(** [encrypt_in_place_detached] returns the ciphertext and the tag,
    [encrypt] and [decrypt] work on the ciphertext followed by the tag. *)
Class Aead := {
  encrypt_in_place_detached : list Z -> list Z -> list Z -> option (list Z * list Z);
  gcm_encrypt : list Z -> list Z -> list Z -> option (list Z);
  gcm_decrypt : list Z -> list Z -> list Z -> option (list Z)
}.

Class AeadLaws (A : Aead) := {
  (** Encryption fails only on plaintexts beyond 64 GiB. *)
  aead_total key iv pt :
    Z.of_nat (length pt) < 2 ^ 36 -> exists ct tag, encrypt_in_place_detached key iv pt = Some (ct, tag);
  (** The ciphertext is as long as the plaintext and the tag has 16 bytes. *)
  aead_lengths key iv pt ct tag :
    encrypt_in_place_detached key iv pt = Some (ct, tag) -> length ct = length pt /\ length tag = TAG_LEN;
  (** The combined form appends the tag. *)
  aead_combined key iv pt :
    gcm_encrypt key iv pt
    = option_map (fun r => r.1 ++ r.2) (encrypt_in_place_detached key iv pt);
  aead_decrypt_encrypt key iv pt ct tag :
    encrypt_in_place_detached key iv pt = Some (ct, tag) -> gcm_decrypt key iv (ct ++ tag) = Some pt
}.

(** ** A lawful instance *)

Module StreamCipher.

Definition pad (key iv : list Z) : Z := foldr Z.add 0 key + foldr Z.add 0 iv.
Definition xor_all (k : Z) (l : list Z) : list Z := map (fun b => Z.lxor b k) l.
Definition mac (k : Z) (l : list Z) : list Z := replicate TAG_LEN (u8 (k + foldr Z.add 0 l)).

Definition seal (key iv pt : list Z) : option (list Z * list Z) :=
  if Z.of_nat (length pt) <? 2 ^ 36 then
    let ct := xor_all (pad key iv) pt in Some (ct, mac (pad key iv) ct)
  else None.

Definition open (key iv sealed : list Z) : option (list Z) :=
  if (length sealed <? TAG_LEN)%nat then None
  else
    let ct := take (length sealed - TAG_LEN) sealed in
    if bool_decide (drop (length sealed - TAG_LEN) sealed = mac (pad key iv) ct)
    then Some (xor_all (pad key iv) ct) else None.
End StreamCipher.

#[export] Instance stream_aead : Aead := {|
  encrypt_in_place_detached := StreamCipher.seal;
  gcm_encrypt key iv pt := option_map (fun r => r.1 ++ r.2) (StreamCipher.seal key iv pt);
  gcm_decrypt := StreamCipher.open
|}.

Lemma xor_all_involutive k l : StreamCipher.xor_all k (StreamCipher.xor_all k l) = l.
Proof.
  unfold StreamCipher.xor_all. induction l as [|b l IH]; simpl; [done|].
  by rewrite Z.lxor_assoc, Z.lxor_nilpotent, Z.lxor_0_r, IH.
Qed.

#[export] Instance stream_aead_laws : AeadLaws stream_aead.
Proof.
  split; intros key iv pt; simpl.
  - intros H. unfold StreamCipher.seal. rewrite (proj2 (Z.ltb_lt _ _)) by done. eauto.
  - unfold StreamCipher.seal. intros ct tag. case_if; [|done]. intros [= <- <-].
    unfold StreamCipher.xor_all, StreamCipher.mac. by rewrite length_map, length_replicate.
  - done.
  - unfold StreamCipher.seal, StreamCipher.open. intros ct tag. case_if; [|done]. intros [= <- <-].
    set (ct := StreamCipher.xor_all _ pt). rewrite length_app.
    assert (length (StreamCipher.mac (StreamCipher.pad key iv) ct) = TAG_LEN) as -> by apply length_replicate.
    rewrite (proj2 (Nat.ltb_ge _ _)) by lia. rewrite Nat.add_sub.
    rewrite take_app_length, drop_app_length, bool_decide_true by done.
    subst ct. by rewrite xor_all_involutive.
Qed.
