(* ===== verification/Input.v ===== *)
(** * Input injection on the host ([kmc-streamhost/src/input.rs])

    [inject] parses one decrypted input payload and calls [SendInput] at most
    once; the model returns the list of calls.  The [windows] crate's flag
    constants stay symbolic. *)
From S2P Require Import Prelude.

Definition MAGIC_KEY_DOWN : Z := 0x3.
Definition MAGIC_KEY_UP : Z := 0x4.
Definition MAGIC_MOUSE_MOVE_ABS : Z := 0x5.
Definition MAGIC_MOUSE_MOVE_REL : Z := 0x6.
Definition MAGIC_MOUSE_MOVE_REL_GEN5 : Z := 0x7.
Definition MAGIC_MOUSE_BTN_DOWN_GEN5 : Z := 0x8.
Definition MAGIC_MOUSE_BTN_UP_GEN5 : Z := 0x9.
Definition MAGIC_SCROLL_GEN5 : Z := 0xA.
Definition MAGIC_HSCROLL : Z := 0x55000001.
Definition XBUTTON1 : Z := 1.
Definition XBUTTON2 : Z := 2.

Inductive MouseFlag :=
| MOUSEEVENTF_MOVE | MOUSEEVENTF_ABSOLUTE | MOUSEEVENTF_WHEEL | MOUSEEVENTF_HWHEEL
| MOUSEEVENTF_LEFTDOWN | MOUSEEVENTF_LEFTUP | MOUSEEVENTF_MIDDLEDOWN | MOUSEEVENTF_MIDDLEUP
| MOUSEEVENTF_RIGHTDOWN | MOUSEEVENTF_RIGHTUP | MOUSEEVENTF_XDOWN | MOUSEEVENTF_XUP.

Inductive KeyFlag := KEYEVENTF_EXTENDEDKEY | KEYEVENTF_KEYUP.

(** The [INPUT] handed to [SendInput]; the flags are the ones or-ed together. *)
Inductive INPUT :=
| MouseInput (dx dy mouseData : Z) (dwFlags : list MouseFlag)
| KeyboardInput (wVk : Z) (dwFlags : list KeyFlag).

Definition i16_from_be (a b : Z) : Z := i16 (be_val [a; b]).

Definition mouse_event (flags : list MouseFlag) (dx dy mouse_data : Z) : list INPUT :=
  [MouseInput dx dy (u32 mouse_data) flags].

Definition mouse_move_rel (dx dy : Z) : list INPUT := mouse_event [MOUSEEVENTF_MOVE] dx dy 0.

(** [(v as i64 * 65535 / extent as i64) as i32]: the division truncates. *)
Definition normalize (v extent : Z) : Z := i32 (Z.quot (v * 65535) extent).

Definition mouse_move_abs (x y w h : Z) : list INPUT :=
  if (w <=? 0) || (h <=? 0) then []
  else mouse_event [MOUSEEVENTF_MOVE; MOUSEEVENTF_ABSOLUTE] (normalize x w) (normalize y h) 0.

Definition mouse_button (button : Z) (down : bool) : list INPUT :=
  let r := match button with
           | 1 => Some (if down then MOUSEEVENTF_LEFTDOWN else MOUSEEVENTF_LEFTUP, 0)
           | 2 => Some (if down then MOUSEEVENTF_MIDDLEDOWN else MOUSEEVENTF_MIDDLEUP, 0)
           | 3 => Some (if down then MOUSEEVENTF_RIGHTDOWN else MOUSEEVENTF_RIGHTUP, 0)
           | 4 => Some (if down then MOUSEEVENTF_XDOWN else MOUSEEVENTF_XUP, XBUTTON1)
           | 5 => Some (if down then MOUSEEVENTF_XDOWN else MOUSEEVENTF_XUP, XBUTTON2)
           | _ => None
           end in
  match r with
  | Some (flag, data) => mouse_event [flag] 0 0 data
  | None => []
  end.

Definition scroll (amount : Z) (horizontal : bool) : list INPUT :=
  mouse_event [if horizontal then MOUSEEVENTF_HWHEEL else MOUSEEVENTF_WHEEL] 0 0 amount.

Definition is_extended (vk : Z) : bool :=
  ((0x21 <=? vk) && (vk <=? 0x28)) || (vk =? 0x2D) || (vk =? 0x2E) || (vk =? 0xA3) || (vk =? 0xA5)
  || (vk =? 0x5B) || (vk =? 0x5C) || (vk =? 0x6F) || (vk =? 0x90).

Definition key (vk : Z) (down : bool) : list INPUT :=
  [KeyboardInput vk ((if is_extended vk then [KEYEVENTF_EXTENDEDKEY] else [])
                     ++ (if down then [] else [KEYEVENTF_KEYUP]))].

Definition key_from_body (body : list Z) (down : bool) : list INPUT :=
  match body with
  | _ :: b1 :: b2 :: _ => key (le_val [b1; b2]) down
  | _ => []
  end.

Definition inject_body (magic : Z) (body : list Z) : list INPUT :=
  if (magic =? MAGIC_MOUSE_MOVE_REL) || (magic =? MAGIC_MOUSE_MOVE_REL_GEN5) then
    match body with
    | b0 :: b1 :: b2 :: b3 :: _ => mouse_move_rel (i16_from_be b0 b1) (i16_from_be b2 b3)
    | _ => []
    end
  else if magic =? MAGIC_MOUSE_MOVE_ABS then
    match body with
    | b0 :: b1 :: b2 :: b3 :: _ :: _ :: b6 :: b7 :: b8 :: b9 :: _ =>
        mouse_move_abs (i16_from_be b0 b1) (i16_from_be b2 b3) (i16_from_be b6 b7) (i16_from_be b8 b9)
    | _ => []
    end
  else if magic =? MAGIC_MOUSE_BTN_DOWN_GEN5 then
    match body with b :: _ => mouse_button b true | [] => [] end
  else if magic =? MAGIC_MOUSE_BTN_UP_GEN5 then
    match body with b :: _ => mouse_button b false | [] => [] end
  else if magic =? MAGIC_KEY_DOWN then key_from_body body true
  else if magic =? MAGIC_KEY_UP then key_from_body body false
  else if magic =? MAGIC_SCROLL_GEN5 then
    match body with b0 :: b1 :: _ => scroll (i16_from_be b0 b1) false | _ => [] end
  else if magic =? MAGIC_HSCROLL then
    match body with b0 :: b1 :: _ => scroll (i16_from_be b0 b1) true | _ => [] end
  else [].

Definition inject (payload : list Z) : list INPUT :=
  if (length payload <? 8)%nat then []
  else inject_body (le_val (slice 4 8 payload)) (drop 8 payload).

(** ** Coordinates *)

(** Inside the reference rectangle the normalised coordinate is the floor of
    the proportional position on the 0..65535 axis. *)
Lemma normalize_inside v extent :
  0 <= v <= extent -> 0 < extent -> normalize v extent = v * 65535 / extent /\ 0 <= normalize v extent <= 65535.
Proof.
  intros Hv He. unfold normalize. rewrite Z.quot_div_nonneg by lia.
  assert (0 <= v * 65535 / extent <= 65535).
  { split; [apply Z.div_pos; lia|]. apply Z.div_le_upper_bound; nia. }
  assert (i32 (v * 65535 / extent) = v * 65535 / extent) as ->.
  { unfold i32. rewrite u32_id by (unfold is_u32; lia). by rewrite (proj2 (Z.ltb_lt _ _)) by lia. }
  done.
Qed.

Lemma i16_from_be_bytes v : is_i16 v -> forall a b, be_bytes 2 (u16 v) = [a; b] -> i16_from_be a b = v.
Proof.
  intros Hv a b E. unfold i16_from_be. rewrite <- E, be_val_bytes.
  rewrite Z.mod_small by (pose proof (u16_range v); unfold is_u16 in *; lia). by apply i16_u16.
Qed.

(** Every injection is at most one [SendInput] call. *)
Lemma inject_at_most_one payload : (length (inject payload) <= 1)%nat.
Proof.
  unfold inject. case_if; [simpl; lia|]. unfold inject_body.
  repeat first
    [ progress (cbn [length key_from_body mouse_move_rel scroll]; unfold mouse_move_rel, scroll, mouse_event, key)
    | lia
    | case_if
    | match goal with |- context [match ?l with [] => _ | _ :: _ => _ end] => destruct l end
    | progress unfold key_from_body, mouse_move_abs, mouse_button, mouse_event
    | match goal with |- context [match ?o with Some _ => _ | None => _ end] => destruct o as [[]|] end ].
Qed.
