(* ===== verification/HostSession.v ===== *)
(** * The launch session shared by the web server, RTSP and the control
    channel ([kmc-streamhost/src/session.rs])

    A mutex around an optional [LaunchSession]; every operation is one locked
    step. *)
From S2P Require Import Prelude.

Record LaunchSession := mkLaunchSession {
  remote_input_key : list Z;
  remote_input_key_id : Z;
  ls_width : Z;
  ls_height : Z;
  refresh_rate : Z
}.

Definition SessionState : Type := option LaunchSession.

Definition session_new : SessionState := None.
Definition session_set (_ : SessionState) (s : LaunchSession) : SessionState := Some s.
Definition session_is_active (st : SessionState) : bool := match st with Some _ => true | None => false end.
Definition session_get (st : SessionState) : option LaunchSession := st.
Definition session_clear (_ : SessionState) : SessionState := None.
