(* ===== verification/Control.v ===== *)
(** * The encrypted control channel
    ([kmc-moonclient/src/control.rs], [kmc-streamhost/src/control.rs])

    Client: the fixed payload buffer, the message encoders, AES-GCM framing,
    the send queue and the task that drains it.  Host: framing, decryption
    and the dispatch of one packet to video start, IDR request, input
    injection and rate control.  ENet is not modelled beyond what the code
    asks of it: whether a packet was accepted, and which event [service]
    returned. *)
From Stdlib Require Import Floats.SpecFloat.
From S2P Require Import Prelude Wire Float Bitrate Aead Input HostSession.

(** ** Constants *)

Definition MSG_ENCRYPTED : Z := 0x0001.
Definition MSG_TERMINATION_EXT : Z := 0x0109.
Definition MSG_PING : Z := 0x0200.
Definition MSG_INPUT_DATA : Z := 0x0206.
Definition MSG_INVALIDATE_REF : Z := 0x0301.
Definition MSG_REQUEST_IDR : Z := 0x0302.
Definition MSG_START_B : Z := 0x0307.
Definition IN_MAGIC_KEY_DOWN : Z := 0x3.
Definition IN_MAGIC_KEY_UP : Z := 0x4.
Definition IN_MAGIC_MOUSE_MOVE_ABS : Z := 0x5.
Definition IN_MAGIC_MOUSE_BTN_DOWN : Z := 0x8.
Definition IN_MAGIC_MOUSE_BTN_UP : Z := 0x9.
Definition IN_MAGIC_SCROLL : Z := 0xA.
Definition PING_INTERVAL : Z := 100 * 1000000.
Definition MAX_PAYLOAD : nat := 24.

(** ** Payload buffer *)

Record PayloadBuf := mkPayloadBuf { pb_buf : list Z; pb_len : nat }.

Definition payload_new : PayloadBuf := {| pb_buf := replicate MAX_PAYLOAD 0; pb_len := 0 |}.
Definition as_slice (p : PayloadBuf) : list Z := take (pb_len p) (pb_buf p).

(** What does not fit is cut off. *)
Definition put (p : PayloadBuf) (s : list Z) : PayloadBuf :=
  let n := pb_len p in
  let e := Nat.min (n + length s) MAX_PAYLOAD in
  {| pb_buf := splice n (take (e - n) s) (pb_buf p); pb_len := e |}.

Definition put_byte (p : PayloadBuf) (v : Z) : PayloadBuf := put p [v].
Definition put_be16 (p : PayloadBuf) (v : Z) : PayloadBuf := put p (be_bytes 2 v).
Definition put_be32 (p : PayloadBuf) (v : Z) : PayloadBuf := put p (be_bytes 4 v).
Definition put_le16 (p : PayloadBuf) (v : Z) : PayloadBuf := put p (le_bytes 2 v).
Definition put_le32 (p : PayloadBuf) (v : Z) : PayloadBuf := put p (le_bytes 4 v).

Record payload_ok (p : PayloadBuf) : Prop := {
  po_buf : length (pb_buf p) = MAX_PAYLOAD;
  po_len : (pb_len p <= MAX_PAYLOAD)%nat
}.

(** ** Messages of the client *)

Inductive PacketMode := ReliableSequenced | Unsequenced.

Inductive InputEvent :=
| MousePosition (x y ref_w ref_h : Z)
| MouseButton (button : Z) (down : bool)
| Key (key_code : Z) (down : bool) (modifiers : Z)
| Scroll (amount : Z).

Record OutMsg := mkOutMsg { om_ty : Z; om_mode : PacketMode; om_payload : PayloadBuf }.

Inductive Cmd := Msg (m : OutMsg) | Shutdown.

Definition start_b_payload : PayloadBuf := put_byte payload_new 0.
Definition ping_payload : PayloadBuf := put_le16 (put_le32 (put_le16 payload_new 4) 0) 0.
Definition fec_status_payload (st : FrameFecStatus) : PayloadBuf := put payload_new (fec_status_to_bytes st).

Definition encode_input (ev : InputEvent) : PayloadBuf :=
  let p := payload_new in
  match ev with
  | MousePosition x y ref_w ref_h =>
      let p := put_be32 p 14 in
      let p := put_le32 p IN_MAGIC_MOUSE_MOVE_ABS in
      let p := put_be16 p (u16 x) in
      let p := put_be16 p (u16 y) in
      let p := put_be16 p 0 in
      let p := put_be16 p (u16 ref_w) in
      put_be16 p (u16 ref_h)
  | MouseButton button down =>
      let p := put_be32 p 5 in
      let p := put_le32 p (if down then IN_MAGIC_MOUSE_BTN_DOWN else IN_MAGIC_MOUSE_BTN_UP) in
      put_byte p button
  | Key key_code down modifiers =>
      let p := put_be32 p 10 in
      let p := put_le32 p (if down then IN_MAGIC_KEY_DOWN else IN_MAGIC_KEY_UP) in
      let p := put_byte p 0 in
      let p := put_le16 p (u16 key_code) in
      let p := put_byte p modifiers in
      put_le16 p 0
  | Scroll amount =>
      let p := put_be32 p 10 in
      let p := put_le32 p IN_MAGIC_SCROLL in
      let p := put_be16 p (u16 amount) in
      let p := put_be16 p (u16 amount) in
      put_be16 p 0
  end.

(** ** Framing *)

Definition CHAR_C : Z := 0x43.
Definition CHAR_H : Z := 0x48.

Definition client_iv (seq : Z) : list Z := le_bytes 4 seq ++ replicate 6 0 ++ [CHAR_C; CHAR_C].
Definition host_iv (seq : Z) : list Z := le_bytes 4 seq ++ replicate 6 0 ++ [CHAR_H; CHAR_C].

(** The length field is not enforced. *)
Definition parse_header (buf : list Z) : option (Z * list Z) :=
  if (length buf <? 4)%nat then None else Some (le_val (slice 0 2 buf), drop 4 buf).

(** The plaintext of a message: inner type, payload length, payload. *)
Definition inner_message (inner_type : Z) (payload : list Z) : list Z :=
  le_bytes 2 inner_type ++ le_bytes 2 (u16 (Z.of_nat (length payload))) ++ payload.

Definition encrypted_frame (seq : Z) (tag ct : list Z) : list Z :=
  le_bytes 2 MSG_ENCRYPTED ++ le_bytes 2 (u16 (Z.of_nat (4 + TAG_LEN + length ct)))
    ++ le_bytes 4 seq ++ tag ++ ct.

(** Sequence number, tag and the ciphertext the length field bounds. *)
Definition split_encrypted (buf : list Z) : option (Z * list Z * list Z) :=
  if (length buf <? 4 + 4 + TAG_LEN)%nat then None
  else
    let len := Z.to_nat (le_val (slice 2 4 buf)) in
    let ct_len := (len - (4 + TAG_LEN))%nat in
    let ct_start := (8 + TAG_LEN)%nat in
    let ct_end := Nat.min (ct_start + ct_len) (length buf) in
    Some (le_val (slice 4 8 buf), slice 8 (8 + TAG_LEN) buf, slice ct_start ct_end buf).

Section Channel.
Context {A : Aead}.

Definition encode_encrypted (cipher : list Z) (seq inner_type : Z) (payload : list Z) : option (list Z) :=
  r <-? encrypt_in_place_detached cipher (client_iv seq) (inner_message inner_type payload);
  let '(ct, tag) := r in
  Some (encrypted_frame seq tag ct).

Definition client_decrypt_message (buf : list Z) (cipher : list Z) : option (list Z) :=
  r <-? split_encrypted buf;
  let '(seq, tag, ct) := r in
  gcm_decrypt cipher (host_iv seq) (ct ++ tag).

(** [crypto::aes_gcm_decrypt] joins ciphertext and tag again. *)
Definition aes_gcm_decrypt (ct k iv tag : list Z) : option (list Z) := gcm_decrypt k iv (ct ++ tag).

(** [crypto::aes_gcm_encrypt] splits off the tag: ciphertext, tag. *)
Definition aes_gcm_encrypt (pt k iv : list Z) : option (list Z * list Z) :=
  ct <-? gcm_encrypt k iv pt;
  let split := (length ct - 16)%nat in
  Some (take split ct, drop split ct).

Definition host_decrypt_message (buf : list Z) (session : SessionState) : option (list Z) :=
  r <-? split_encrypted buf;
  let '(seq, tag, ct) := r in
  s <-? session_get session;
  if negb (length (remote_input_key s) =? 16)%nat then None
  else aes_gcm_decrypt ct (remote_input_key s) (client_iv seq) tag.

Definition encode_control_message (k : list Z) (seq : Z) (payload : list Z) : option (list Z) :=
  r <-? aes_gcm_encrypt payload k (host_iv seq);
  let '(ct, tag) := r in
  Some (encrypted_frame seq tag ct).

(** Both receivers: outer header, decryption when the type says so, inner
    header. *)
Definition open_message (decrypt : list Z -> option (list Z)) (buf : list Z) : option (Z * list Z) :=
  h <-? parse_header buf;
  let '(msg_type, body) := h in
  if msg_type =? MSG_ENCRYPTED then
    plain <-? decrypt buf;
    parse_header plain
  else Some (msg_type, body).

(** ** The client's shared flags and send queue *)

Record Shared := mkShared { alive : bool; term_set : bool; term_code : Z }.

Definition shared_new : Shared := {| alive := true; term_set := false; term_code := 0 |}.

Definition termination_code (payload : list Z) : Z :=
  match payload with
  | b0 :: b1 :: b2 :: b3 :: _ => i32 (be_val [b0; b1; b2; b3])
  | b0 :: b1 :: _ => le_val [b0; b1]
  | _ => 0
  end.

Definition handle_inbound (buf : list Z) (cipher : list Z) (sh : Shared) : Shared :=
  match open_message (fun b => client_decrypt_message b cipher) buf with
  | Some (t, payload) =>
      if t =? MSG_TERMINATION_EXT
      then {| alive := false; term_set := true; term_code := termination_code payload |}
      else sh
  | None => sh
  end.

(** The handle and the task it talks to. *)
Record ControlChannel := mkControlChannel {
  shared : Shared;
  queue : list Cmd;
  cc_seq : Z;
  next_ping : Z;
  stopping : bool;
  (** one entry per [queue_msg], oldest first: the packet with its delivery
      mode when ENet took it *)
  log : list (option (PacketMode * list Z))
}.

Definition enqueue (c : ControlChannel) (m : OutMsg) : ControlChannel :=
  if alive (shared c) then
    {| shared := shared c; queue := queue c ++ [Msg m]; cc_seq := cc_seq c;
       next_ping := next_ping c; stopping := stopping c; log := log c |}
  else c.

Definition request_idr (c : ControlChannel) : ControlChannel :=
  enqueue c {| om_ty := MSG_REQUEST_IDR; om_mode := ReliableSequenced; om_payload := put payload_new [0; 0] |}.
Definition send_input (c : ControlChannel) (ev : InputEvent) : ControlChannel :=
  enqueue c {| om_ty := MSG_INPUT_DATA; om_mode := ReliableSequenced; om_payload := encode_input ev |}.
Definition send_fec_status (c : ControlChannel) (st : FrameFecStatus) : ControlChannel :=
  enqueue c {| om_ty := MSG_FRAME_FEC_STATUS; om_mode := Unsequenced; om_payload := fec_status_payload st |}.

Definition termination (c : ControlChannel) : option Z :=
  if term_set (shared c) then Some (term_code (shared c)) else None.

Definition set_shared (c : ControlChannel) (sh : Shared) : ControlChannel :=
  {| shared := sh; queue := queue c; cc_seq := cc_seq c; next_ping := next_ping c;
     stopping := stopping c; log := log c |}.

Definition not_alive (sh : Shared) : Shared :=
  {| alive := false; term_set := term_set sh; term_code := term_code sh |}.

Definition shutdown (c : ControlChannel) : ControlChannel :=
  {| shared := not_alive (shared c); queue := queue c ++ [Shutdown];
     cc_seq := cc_seq c; next_ping := next_ping c; stopping := stopping c; log := log c |}.

(** [queue_msg]: the sequence number is consumed whether or not the packet
    goes out.  [enet_send] is whether the peer is connected and accepts the
    packet. *)
Definition queue_msg (enet_send : list Z -> bool) (cipher : list Z) (c : ControlChannel) (m : OutMsg)
  : ControlChannel * bool :=
  let this_seq := cc_seq c in
  let seq := wrapping_add32 this_seq 1 in
  let out ok entry := ({| shared := shared c; queue := queue c; cc_seq := seq; next_ping := next_ping c;
                        stopping := stopping c; log := log c ++ [entry] |}, ok) in
  match encode_encrypted cipher this_seq (om_ty m) (as_slice (om_payload m)) with
  | None => out false None
  | Some bytes =>
      if enet_send bytes then out true (Some (om_mode m, bytes)) else out false None
  end.

Definition set_queue (c : ControlChannel) (q : list Cmd) : ControlChannel :=
  {| shared := shared c; queue := q; cc_seq := cc_seq c; next_ping := next_ping c;
     stopping := stopping c; log := log c |}.
Definition set_stopping (c : ControlChannel) (b : bool) : ControlChannel :=
  {| shared := shared c; queue := queue c; cc_seq := cc_seq c; next_ping := next_ping c;
     stopping := b; log := log c |}.
Definition set_next_ping (c : ControlChannel) (t : Z) : ControlChannel :=
  {| shared := shared c; queue := queue c; cc_seq := cc_seq c; next_ping := t;
     stopping := stopping c; log := log c |}.

(** The packets on the wire. *)
Definition sent (c : ControlChannel) : list (PacketMode * list Z) := omap id (log c).

(** Draining the queue with [try_recv]; [dropped] is whether the handle is
    gone, seen once the queue is empty. *)
Fixpoint drain (enet_send : list Z -> bool) (cipher : list Z) (dropped : bool) (q : list Cmd)
    (c : ControlChannel) : ControlChannel :=
  match q with
  | [] => let c := set_queue c [] in if dropped then set_stopping c true else c
  | Msg m :: q => drain enet_send cipher dropped q (queue_msg enet_send cipher c m).1
  | Shutdown :: q => set_stopping (set_queue c q) true
  end.

(** What [Host::service] returned. *)
Inductive EnetEvent :=
| EvConnect | EvDisconnect | EvReceive (packet : list Z) | EvNone | EvError.

Definition ping_msg : OutMsg :=
  {| om_ty := MSG_PING; om_mode := ReliableSequenced; om_payload := ping_payload |}.

Definition send_ping (enet_send : list Z -> bool) (cipher : list Z) (now : Z) (c : ControlChannel) : ControlChannel :=
  if next_ping c <=? now
  then set_next_ping (queue_msg enet_send cipher c ping_msg).1 (now + PING_INTERVAL)
  else c.

Definition on_service (cipher : list Z) (ev : EnetEvent) (c : ControlChannel) : ControlChannel :=
  match ev with
  | EvReceive packet => set_shared c (handle_inbound packet cipher (shared c))
  | EvDisconnect => set_stopping c true
  | EvConnect | EvNone | EvError => c
  end.

(** One turn of the [while !stopping] loop. *)
Definition run_turn (enet_send : list Z -> bool) (cipher : list Z) (dropped : bool) (now : Z) (ev : EnetEvent)
    (c : ControlChannel) : ControlChannel :=
  let c := drain enet_send cipher dropped (queue c) c in
  if stopping c then c
  else
    let c := send_ping enet_send cipher now c in
    let c := on_service cipher ev c in
    if term_set (shared c) then set_stopping c true else c.

(** After the loop: [alive] goes down. *)
Definition run_exit (c : ControlChannel) : ControlChannel := set_shared c (not_alive (shared c)).

(** [connect] once the ENet handshake is done: StartB is sent before the
    task starts, and a failure to send it fails the connection. *)
Definition start_b_msg : OutMsg :=
  {| om_ty := MSG_START_B; om_mode := ReliableSequenced; om_payload := start_b_payload |}.

Definition connected (sh : Shared) (now : Z) : ControlChannel :=
  {| shared := sh; queue := []; cc_seq := 0; next_ping := now + PING_INTERVAL; stopping := false; log := [] |}.

Definition connect (enet_send : list Z -> bool) (cipher : list Z) (sh : Shared) (now : Z) : option ControlChannel :=
  let '(c, ok) := queue_msg enet_send cipher (connected sh now) start_b_msg in
  if ok then Some c else None.

(** ** The host's packet handler *)

Record ControlHost := mkControlHost {
  ch_session : SessionState;
  start_triggers : nat;
  idr_req : bool;
  injected : list INPUT;
  ch_bitrate : BitrateController
}.

(** [FrameFecStatus::loss_fraction] *)
Definition loss_fraction (s : FrameFecStatus) : option f32 :=
  match loss_counts s with
  | Some (lost, total) => Some (f32_lit lost total)
  | None => None
  end.

Section Host.
Context (powf : f64 -> f64 -> f64).

Definition dispatch (h : ControlHost) (now : Z) (effective_type : Z) (payload : list Z) : ControlHost :=
  if effective_type =? MSG_START_B then
    {| ch_session := ch_session h; start_triggers := S (start_triggers h); idr_req := idr_req h;
       injected := injected h; ch_bitrate := ch_bitrate h |}
  else if effective_type =? MSG_PING then h
  else if (effective_type =? MSG_REQUEST_IDR) || (effective_type =? MSG_INVALIDATE_REF) then
    {| ch_session := ch_session h; start_triggers := start_triggers h; idr_req := true;
       injected := injected h; ch_bitrate := ch_bitrate h |}
  else if effective_type =? MSG_INPUT_DATA then
    {| ch_session := ch_session h; start_triggers := start_triggers h; idr_req := idr_req h;
       injected := injected h ++ inject payload; ch_bitrate := ch_bitrate h |}
  else if effective_type =? MSG_FRAME_FEC_STATUS then
    match (s <-? fec_status_parse payload; loss_fraction s) with
    | Some frac =>
        {| ch_session := ch_session h; start_triggers := start_triggers h; idr_req := idr_req h;
           injected := injected h; ch_bitrate := on_loss powf (ch_bitrate h) now frac |}
    | None => h
    end
  else h.

Definition handle_packet (h : ControlHost) (now : Z) (buf : list Z) : ControlHost :=
  match open_message (fun b => host_decrypt_message b (ch_session h)) buf with
  | Some (t, payload) => dispatch h now t payload
  | None => h
  end.
End Host.

(** ** The host's event loop *)

Inductive HostEnetEvent :=
| PeerConnect (peer_id : nat) | PeerDisconnect (peer_id : nat)
| PeerReceive (packet : list Z) | PeerNone | PeerError.

(** The peers [disconnect_now] is called on: every other connected one. *)
Definition stale_peers (peers : list (nat * bool)) (peer_id : nat) : list nat :=
  map fst (filter (fun p => p.1 <> peer_id /\ p.2 = true) peers).

Definition run_loop_turn (powf : f64 -> f64 -> f64) (peers : list (nat * bool)) (now : Z) (ev : HostEnetEvent)
    (connected_peer : option nat) (h : ControlHost) : option nat * ControlHost * list nat :=
  match ev with
  | PeerConnect id => (Some id, h, stale_peers peers id)
  | PeerDisconnect id => ((if bool_decide (connected_peer = Some id) then None else connected_peer), h, [])
  | PeerReceive data => (connected_peer, handle_packet powf h now data, [])
  | PeerNone | PeerError => (connected_peer, h, [])
  end.
End Channel.

(** ** Payloads *)

Lemma payload_new_ok : payload_ok payload_new.
Proof. by split; [apply length_replicate|apply Nat.le_0_l]. Qed.

Lemma put_ok p s : payload_ok p -> payload_ok (put p s).
Proof.
  intros [Hb Hl]. unfold put. split; simpl; [|apply Nat.le_min_r].
  rewrite length_splice; [done|]. rewrite Hb, length_take. lia.
Qed.

Lemma as_slice_put p s :
  payload_ok p -> (pb_len p + length s <= MAX_PAYLOAD)%nat -> as_slice (put p s) = as_slice p ++ s.
Proof.
  intros [Hb Hl] H. unfold as_slice, put, splice. cbn [pb_len pb_buf].
  rewrite Nat.min_l by done. rewrite (take_ge s) by lia.
  rewrite app_assoc, take_app_le by (rewrite length_app, length_take; lia).
  rewrite take_ge; [done|]. rewrite length_app, length_take. lia.
Qed.

Lemma pb_len_put p s : (pb_len p + length s <= MAX_PAYLOAD)%nat -> pb_len (put p s) = (pb_len p + length s)%nat.
Proof. intros. simpl. lia. Qed.

Lemma as_slice_length p : payload_ok p -> (length (as_slice p) <= MAX_PAYLOAD)%nat.
Proof. intros [Hb Hl]. unfold as_slice. rewrite length_take. lia. Qed.

Definition puts (p : PayloadBuf) (l : list (list Z)) : PayloadBuf := foldl put p l.

Lemma puts_spec p l :
  payload_ok p -> (pb_len p + length (concat l) <= MAX_PAYLOAD)%nat ->
  payload_ok (puts p l) /\ as_slice (puts p l) = as_slice p ++ concat l.
Proof.
  revert p. induction l as [|s l IH]; intros p Hp H; simpl.
  - by rewrite app_nil_r.
  - simpl in H. rewrite length_app in H.
    destruct (IH (put p s)) as [Ho Es]; [by apply put_ok|rewrite pb_len_put; lia|].
    split; [done|]. rewrite Es, as_slice_put by (done || lia). by rewrite app_assoc.
Qed.

Lemma puts_new l :
  (length (concat l) <= MAX_PAYLOAD)%nat ->
  payload_ok (puts payload_new l) /\ as_slice (puts payload_new l) = concat l.
Proof. intros H. destruct (puts_spec payload_new l payload_new_ok) as [? E]; [done|]. by rewrite E. Qed.

(** The pieces an input event is written as. *)
Definition input_pieces (ev : InputEvent) : list (list Z) :=
  match ev with
  | MousePosition x y ref_w ref_h =>
      [be_bytes 4 14; le_bytes 4 IN_MAGIC_MOUSE_MOVE_ABS; be_bytes 2 (u16 x); be_bytes 2 (u16 y);
       be_bytes 2 0; be_bytes 2 (u16 ref_w); be_bytes 2 (u16 ref_h)]
  | MouseButton button down =>
      [be_bytes 4 5; le_bytes 4 (if down then IN_MAGIC_MOUSE_BTN_DOWN else IN_MAGIC_MOUSE_BTN_UP); [button]]
  | Key key_code down modifiers =>
      [be_bytes 4 10; le_bytes 4 (if down then IN_MAGIC_KEY_DOWN else IN_MAGIC_KEY_UP); [0];
       le_bytes 2 (u16 key_code); [modifiers]; le_bytes 2 0]
  | Scroll amount =>
      [be_bytes 4 10; le_bytes 4 IN_MAGIC_SCROLL; be_bytes 2 (u16 amount); be_bytes 2 (u16 amount); be_bytes 2 0]
  end.

Lemma encode_input_slice ev :
  payload_ok (encode_input ev) /\ as_slice (encode_input ev) = concat (input_pieces ev).
Proof.
  assert (encode_input ev = puts payload_new (input_pieces ev)) as -> by (by destruct ev).
  apply puts_new. apply Nat.leb_le. by destruct ev as [|? []|? []|].
Qed.

Lemma fec_status_slice st :
  payload_ok (fec_status_payload st) /\ as_slice (fec_status_payload st) = fec_status_to_bytes st.
Proof.
  assert (L : length (fec_status_to_bytes st) = FEC_STATUS_SIZE).
  { unfold fec_status_to_bytes, fec_status_write. rewrite length_replicate, Nat.ltb_irrefl. cbn [snd].
    rewrite length_splice; [by rewrite length_replicate|]. by rewrite fec_status_bytes_length, length_replicate. }
  unfold fec_status_payload. split; [apply put_ok, payload_new_ok|].
  rewrite as_slice_put; [done|apply payload_new_ok|]. rewrite L. simpl. unfold FEC_STATUS_SIZE, MAX_PAYLOAD. lia.
Qed.

(** ** Framing *)

Lemma le_bytes_2 z : le_bytes 2 z = [z mod 256; z / 256 mod 256].
Proof. done. Qed.

Lemma parse_header_inner ty payload :
  is_u16 ty -> parse_header (inner_message ty payload) = Some (ty, payload).
Proof.
  intros H. unfold parse_header, inner_message, slice. simpl.
  unfold is_u16 in H. repeat f_equal. div_lia.
Qed.

Lemma split_encrypted_frame seq tag ct :
  is_u32 seq -> length tag = TAG_LEN -> Z.of_nat (length ct) <= 65515 ->
  split_encrypted (encrypted_frame seq tag ct) = Some (seq, tag, ct).
Proof.
  intros Hs Ht Hc. unfold TAG_LEN in Ht.
  set (len := le_bytes 2 (u16 (Z.of_nat (4 + TAG_LEN + length ct)))).
  assert (Hlen : le_val len = Z.of_nat (20 + length ct)).
  { subst len. rewrite le_val_id; [apply u16_id|]; [unfold is_u16, TAG_LEN; lia|].
    pose proof (u16_range (Z.of_nat (4 + TAG_LEN + length ct))). unfold is_u16 in *. change (256 ^ Z.of_nat 2) with (2 ^ 16). lia. }
  assert (L2 : length len = 2%nat) by apply length_le_bytes.
  assert (Hseq : le_val (le_bytes 4 seq) = seq) by (rewrite le_val_id; [done|exact Hs]).
  assert (L4 : length (le_bytes 4 seq) = 4%nat) by apply length_le_bytes.
  unfold split_encrypted, encrypted_frame. fold len. clearbody len.
  revert Hseq L4. generalize (le_bytes 4 seq) as sq. intros sq Hseq L4.
  destruct len as [|l0 [|l1 [|]]]; try done. destruct sq as [|s0 [|s1 [|s2 [|s3 [|]]]]]; try done.
  cbn [le_bytes app length].
  rewrite !length_app, Ht. rewrite (proj2 (Nat.ltb_ge _ _)) by (unfold TAG_LEN; lia).
  unfold slice. cbn [Nat.sub take drop app TAG_LEN].
  rewrite take_0, drop_0, Hseq, Hlen, Nat2Z.id. unfold TAG_LEN.
  repeat f_equal.
  - change (8 + 16 - 8)%nat with 16%nat. by rewrite <- Ht, take_app_length.
  - change (drop (8 + 16) _) with (drop 16 (tag ++ ct)). rewrite <- Ht, drop_app_length, take_ge; [done|].
    lia.
Qed.

Lemma open_message_encrypted decrypt seq tag ct plain ty payload :
  decrypt (encrypted_frame seq tag ct) = Some plain -> plain = inner_message ty payload -> is_u16 ty ->
  open_message decrypt (encrypted_frame seq tag ct) = Some (ty, payload).
Proof.
  intros E -> Hty. unfold open_message.
  assert (exists body, parse_header (encrypted_frame seq tag ct) = Some (MSG_ENCRYPTED, body)) as [body ->]
    by (eexists; unfold parse_header, encrypted_frame; simpl; reflexivity).
  rewrite Z.eqb_refl, E. by apply parse_header_inner.
Qed.

Lemma inner_message_length ty payload : length (inner_message ty payload) = (4 + length payload)%nat.
Proof. unfold inner_message. by rewrite !length_app, !length_le_bytes. Qed.

Lemma client_iv_inj a b : is_u32 a -> is_u32 b -> client_iv a = client_iv b -> a = b.
Proof.
  intros Ha Hb E. apply (f_equal (take 4)) in E.
  assert (forall z, take 4 (client_iv z) = le_bytes 4 z) as X by done. rewrite !X in E.
  apply (f_equal le_val) in E. by rewrite !le_val_id in E.
Qed.

Lemma client_host_iv a b : client_iv a <> host_iv b.
Proof. intros E. apply (f_equal (fun l => l !! 10%nat)) in E. by vm_compute in E. Qed.

(** ** Input events as [SendInput] calls *)

Definition input_ok (ev : InputEvent) : Prop :=
  match ev with
  | MousePosition x y w h => is_i16 x /\ is_i16 y /\ is_i16 w /\ is_i16 h
  | MouseButton button _ => is_u8 button
  | Key key_code _ modifiers => is_i16 key_code /\ is_u8 modifiers
  | Scroll amount => is_i16 amount
  end.

(** What an event is meant to do on the host's desktop. *)
Definition input_effect (ev : InputEvent) : list INPUT :=
  match ev with
  | MousePosition x y w h =>
      if (0 <? w) && (0 <? h)
      then [MouseInput (Z.quot (x * 65535) w) (Z.quot (y * 65535) h) 0 [MOUSEEVENTF_MOVE; MOUSEEVENTF_ABSOLUTE]]
      else []
  | MouseButton button down => mouse_button button down
  | Key key_code down _ => key (u16 key_code) down
  | Scroll amount => [MouseInput 0 0 (u32 amount) [MOUSEEVENTF_WHEEL]]
  end.

Lemma normalize_i16 v w : is_i16 v -> 0 < w -> normalize v w = Z.quot (v * 65535) w.
Proof.
  unfold is_i16, normalize. intros Hv Hw.
  assert (- 2147450880 <= Z.quot (v * 65535) w <= 2147450880).
  { assert (Z.abs (Z.quot (v * 65535) w) <= Z.abs (v * 65535)); [|lia].
    rewrite <- Z.quot_abs by lia. rewrite Z.quot_div_nonneg by lia.
    apply Z.div_le_upper_bound; nia. }
  unfold i32, u32. case_if; bool_prop; div_lia.
Qed.

Lemma be_bytes_2 z : be_bytes 2 z = [z / 256 mod 256; z mod 256].
Proof. done. Qed.

Lemma le_val_2 z : is_u16 z -> le_val [z mod 256; z / 256 mod 256] = z.
Proof. intros H. rewrite <- le_bytes_2. by apply le_val_id. Qed.

Lemma inject_encoded ev : input_ok ev -> inject (as_slice (encode_input ev)) = input_effect ev.
Proof.
  intros H. rewrite (proj2 (encode_input_slice ev)).
  assert (I : forall v, is_i16 v -> i16_from_be (u16 v / 256 mod 256) (u16 v mod 256) = v)
    by (intros v Hv; by apply i16_from_be_bytes).
  destruct ev as [x y w h|b d|k d m|a]; cbn [input_pieces concat].
  - destruct H as (Hx & Hy & Hw & Hh).
    change (inject _) with (mouse_move_abs (i16_from_be (u16 x / 256 mod 256) (u16 x mod 256))
      (i16_from_be (u16 y / 256 mod 256) (u16 y mod 256))
      (i16_from_be (u16 w / 256 mod 256) (u16 w mod 256))
      (i16_from_be (u16 h / 256 mod 256) (u16 h mod 256))).
    rewrite !I by done. unfold mouse_move_abs, input_effect.
    destruct (0 <? w) eqn:Ew, (0 <? h) eqn:Eh; bool_prop; cbn [andb].
    2-4: by rewrite (proj2 (orb_true_iff _ _)) by (rewrite !Z.leb_le; lia).
    rewrite (proj2 (orb_false_iff _ _)) by (rewrite !Z.leb_gt; lia).
    by rewrite !normalize_i16.
  - by destruct d.
  - destruct d.
    + change (inject _) with (key (le_val [u16 k mod 256; u16 k / 256 mod 256]) true).
      rewrite le_val_2 by apply u16_range. done.
    + change (inject _) with (key (le_val [u16 k mod 256; u16 k / 256 mod 256]) false).
      rewrite le_val_2 by apply u16_range. done.
  - change (inject _) with (scroll (i16_from_be (u16 a / 256 mod 256) (u16 a mod 256)) false).
    by rewrite I.
Qed.

(** ** Delivery *)

Record msg_ok (m : OutMsg) : Prop := {
  mo_ty : is_u16 (om_ty m);
  mo_payload : payload_ok (om_payload m)
}.

(** The session the client launched with: its key is the channel's key. *)
Definition session_key (st : SessionState) (cipher : list Z) : Prop :=
  exists s, st = Some s /\ remote_input_key s = cipher.

Section Delivery.
Context {A : Aead} {AL : AeadLaws A} (powf : f64 -> f64 -> f64).
Context (cipher : list Z) (Hcipher : length cipher = 16%nat).

Lemma encode_encrypted_frame seq m :
  msg_ok m ->
  exists tag ct,
    encode_encrypted cipher seq (om_ty m) (as_slice (om_payload m)) = Some (encrypted_frame seq tag ct)
    /\ length tag = TAG_LEN /\ (length ct <= 4 + MAX_PAYLOAD)%nat
    /\ gcm_decrypt cipher (client_iv seq) (ct ++ tag) = Some (inner_message (om_ty m) (as_slice (om_payload m))).
Proof.
  intros [Hty Hp]. pose proof (as_slice_length _ Hp) as Hl.
  set (pt := inner_message (om_ty m) (as_slice (om_payload m))).
  assert (Lp : length pt = (4 + length (as_slice (om_payload m)))%nat) by apply inner_message_length.
  destruct (aead_total cipher (client_iv seq) pt) as (ct & tag & E).
  { rewrite Lp. unfold MAX_PAYLOAD in Hl. lia. }
  exists tag, ct. unfold encode_encrypted. fold pt. rewrite E.
  destruct (aead_lengths _ _ _ _ _ E) as [L1 L2]. repeat split; [done|lia|].
  by apply aead_decrypt_encrypt.
Qed.

Lemma handle_packet_encoded seq m :
  is_u32 seq -> msg_ok m ->
  exists bytes, encode_encrypted cipher seq (om_ty m) (as_slice (om_payload m)) = Some bytes
    /\ forall h now, session_key (ch_session h) cipher ->
       handle_packet powf h now bytes = dispatch powf h now (om_ty m) (as_slice (om_payload m)).
Proof using AL Hcipher.
  intros Hs Hm. destruct (encode_encrypted_frame seq m Hm) as (tag & ct & E & Lt & Lc & D).
  eexists. split; [exact E|]. intros h now (s & Es & Ek). unfold handle_packet.
  rewrite (open_message_encrypted _ _ _ _ (inner_message (om_ty m) (as_slice (om_payload m)))
             (om_ty m) (as_slice (om_payload m))); [done| |done|apply Hm].
  unfold host_decrypt_message. rewrite split_encrypted_frame by (done || unfold MAX_PAYLOAD in *; lia).
  rewrite Es. simpl. rewrite Ek, Hcipher. done.
Qed.

Lemma dispatch_session h now t p : ch_session (dispatch powf h now t p) = ch_session h.
Proof.
  unfold dispatch. repeat (case_if; [done|]). case_if; [|done].
  by destruct (fec_status_parse p) as [s|]; [destruct (loss_fraction s)|].
Qed.

Definition msgs (q : list Cmd) : list OutMsg :=
  omap (fun cmd => match cmd with Msg m => Some m | Shutdown => None end) q.

(** The messages before the first shutdown. *)
Fixpoint pending (q : list Cmd) : list OutMsg :=
  match q with
  | Msg m :: q => m :: pending q
  | _ => []
  end.

Definition accept_all (_ : list Z) : bool := true.

Definition host_receive (now : Z) (h : ControlHost) (packets : list (PacketMode * list Z)) : ControlHost :=
  foldl (fun h p => handle_packet powf h now p.2) h packets.
Definition host_dispatch (now : Z) (h : ControlHost) (l : list OutMsg) : ControlHost :=
  foldl (fun h m => dispatch powf h now (om_ty m) (as_slice (om_payload m))) h l.

Lemma queue_msg_accepted c m :
  is_u32 (cc_seq c) -> msg_ok m ->
  exists bytes, queue_msg accept_all cipher c m
      = ({| shared := shared c; queue := queue c; cc_seq := wrapping_add32 (cc_seq c) 1;
            next_ping := next_ping c; stopping := stopping c; log := log c ++ [Some (om_mode m, bytes)] |}, true)
    /\ forall h now, session_key (ch_session h) cipher ->
       handle_packet powf h now bytes = dispatch powf h now (om_ty m) (as_slice (om_payload m)).
Proof using AL Hcipher.
  intros Hs Hm. destruct (handle_packet_encoded (cc_seq c) m Hs Hm) as (bytes & E & D).
  exists bytes. split; [|done]. unfold queue_msg. by rewrite E.
Qed.

(** What sending leaves alone. *)
Lemma queue_msg_fields send c m :
  let c' := (queue_msg send cipher c m).1 in
  shared c' = shared c /\ queue c' = queue c /\ next_ping c' = next_ping c /\ stopping c' = stopping c
  /\ cc_seq c' = wrapping_add32 (cc_seq c) 1.
Proof. simpl. unfold queue_msg. destruct (encode_encrypted _ _ _ _); [case_if|]; done. Qed.

Lemma drain_fields send dropped q c :
  let c' := drain send cipher dropped q c in
  shared c' = shared c /\ next_ping c' = next_ping c
  /\ (stopping c' = stopping c \/ stopping c' = true)
  /\ (dropped = false -> (Shutdown ∉ q) -> stopping c' = stopping c /\ queue c' = []).
Proof.
  cbn zeta. revert c. induction q as [|[m|] q IH]; intros c; cbn [drain].
  - destruct dropped; simpl; repeat split; auto; intros; congruence.
  - destruct (IH (queue_msg send cipher c m).1) as (-> & -> & H3 & H4).
    destruct (queue_msg_fields send c m) as (-> & _ & -> & E & _). rewrite E in *.
    split; [done|]. split; [done|]. split; [done|]. intros Hd Hq. apply H4; [done|].
    intros Hin. apply Hq. by right.
  - split; [done|]. split; [done|]. split; [by right|]. intros _ Hn. exfalso. apply Hn. by left.
Qed.

Lemma drain_delivers dropped q c :
  is_u32 (cc_seq c) -> Forall msg_ok (pending q) ->
  exists packets,
    log (drain accept_all cipher dropped q c) = log c ++ map Some packets
    /\ map fst packets = map om_mode (pending q)
    /\ is_u32 (cc_seq (drain accept_all cipher dropped q c))
    /\ shared (drain accept_all cipher dropped q c) = shared c
    /\ (forall h now, session_key (ch_session h) cipher ->
        host_receive now h packets = host_dispatch now h (pending q)).
Proof using AL Hcipher.
  revert c. induction q as [|[m|] q IH]; intros c Hs Hq; cbn [drain pending] in *.
  - exists []. destruct dropped; simpl; by rewrite app_nil_r.
  - inversion_clear Hq as [|? ? Hm Hq']. destruct (queue_msg_accepted c m Hs Hm) as (bytes & E & D).
    set (c' := mkControlChannel _ _ _ _ _ _) in E. rewrite E. cbn [fst].
    destruct (IH c') as (ps & E1 & E2 & E3 & E4 & E5); [apply u32_range|done|].
    exists ((om_mode m, bytes) :: ps). rewrite E1. split; [subst c'; cbn [log map]; by rewrite <- app_assoc|].
    split; [simpl; by rewrite E2|]. split; [done|]. split; [done|].
    intros h now Hh. simpl. rewrite D by done. apply E5. by rewrite dispatch_session.
  - exists []. simpl. by rewrite app_nil_r.
Qed.

(** The calls the rest of the client makes on the handle. *)
Inductive Call := CallIdr | CallInput (ev : InputEvent) | CallFec (st : FrameFecStatus).

Definition call_ok (k : Call) : Prop :=
  match k with
  | CallIdr => True
  | CallInput ev => input_ok ev
  | CallFec st => fec_status_ok st
  end.

Definition apply_call (c : ControlChannel) (k : Call) : ControlChannel :=
  match k with
  | CallIdr => request_idr c
  | CallInput ev => send_input c ev
  | CallFec st => send_fec_status c st
  end.

(** What each call is for. *)
Definition call_effect (now : Z) (h : ControlHost) (k : Call) : ControlHost :=
  match k with
  | CallIdr =>
      {| ch_session := ch_session h; start_triggers := start_triggers h; idr_req := true;
         injected := injected h; ch_bitrate := ch_bitrate h |}
  | CallInput ev =>
      {| ch_session := ch_session h; start_triggers := start_triggers h; idr_req := idr_req h;
         injected := injected h ++ input_effect ev; ch_bitrate := ch_bitrate h |}
  | CallFec st =>
      match loss_fraction st with
      | Some frac =>
          {| ch_session := ch_session h; start_triggers := start_triggers h; idr_req := idr_req h;
             injected := injected h; ch_bitrate := on_loss powf (ch_bitrate h) now frac |}
      | None => h
      end
  end.

Definition call_msg (k : Call) : OutMsg :=
  match k with
  | CallIdr => {| om_ty := MSG_REQUEST_IDR; om_mode := ReliableSequenced; om_payload := put payload_new [0; 0] |}
  | CallInput ev => {| om_ty := MSG_INPUT_DATA; om_mode := ReliableSequenced; om_payload := encode_input ev |}
  | CallFec st => {| om_ty := MSG_FRAME_FEC_STATUS; om_mode := Unsequenced; om_payload := fec_status_payload st |}
  end.

Lemma call_msg_ok k : msg_ok (call_msg k).
Proof.
  destruct k; split; simpl; try (by split).
  - apply put_ok, payload_new_ok.
  - apply encode_input_slice.
  - apply fec_status_slice.
Qed.

Lemma dispatch_call now h k :
  call_ok k -> dispatch powf h now (om_ty (call_msg k)) (as_slice (om_payload (call_msg k))) = call_effect now h k.
Proof.
  destruct k as [|ev|st]; intros Hk; [done| |].
  - cbn [call_msg om_ty om_payload]. unfold dispatch. simpl. by rewrite inject_encoded.
  - cbn [call_msg om_ty om_payload]. rewrite (proj2 (fec_status_slice st)).
    unfold dispatch. simpl Z.eqb. cbn [orb].
    unfold fec_status_to_bytes, fec_status_write. rewrite length_replicate, Nat.ltb_irrefl. cbn [snd].
    rewrite splice_0, fec_status_bytes_length, drop_ge, app_nil_r by (by rewrite length_replicate).
    by rewrite fec_status_parse_bytes.
Qed.

Lemma queue_calls ks c :
  alive (shared c) = true ->
  foldl apply_call c ks = set_queue c (queue c ++ map (fun k => Msg (call_msg k)) ks).
Proof.
  revert c. induction ks as [|k ks IH]; intros c Hc; simpl.
  - rewrite app_nil_r. by destruct c.
  - rewrite IH.
    + destruct k; unfold apply_call, request_idr, send_input, send_fec_status, enqueue; rewrite Hc;
        unfold set_queue; simpl; by rewrite <- app_assoc.
    + destruct k; unfold apply_call, request_idr, send_input, send_fec_status, enqueue; rewrite Hc; done.
Qed.

Lemma pending_calls ks : pending (map (fun k => Msg (call_msg k)) ks) = map call_msg ks.
Proof. induction ks as [|k ks IH]; simpl; [done|by rewrite IH]. Qed.

Lemma host_dispatch_calls now h ks :
  Forall call_ok ks -> host_dispatch now h (map call_msg ks) = foldl (call_effect now) h ks.
Proof.
  intros H. revert h. induction H as [|k ks Hk Hks IH]; intros h; simpl; [done|].
  rewrite dispatch_call by done. apply IH.
Qed.

(** C4: Whatever the client asks of an idle live channel - IDR requests,
    input events, loss reports, in any number and order - one turn of the
    task puts on the wire, and a host that holds the session's key and
    receives those packets does exactly that, in that order: sets the IDR
    flag, injects the intended mouse, wheel and key events, and feeds the
    rate controller the reported loss. *)
Theorem control_delivery (c : ControlChannel) (ks : list Call) (now : Z) (h : ControlHost) :
  alive (shared c) = true -> queue c = [] -> stopping c = false -> is_u32 (cc_seq c) -> now < next_ping c ->
  Forall call_ok ks -> session_key (ch_session h) cipher ->
  exists packets,
    sent (run_turn accept_all cipher false now EvNone (foldl apply_call c ks)) = sent c ++ packets
    /\ map fst packets = map (fun k => om_mode (call_msg k)) ks
    /\ host_receive now h packets = foldl (call_effect now) h ks.
Proof using AL Hcipher.
  intros Ha Hq Hst Hs Hp Hks Hh. rewrite queue_calls, Hq by done. cbn [app].
  set (q := map (fun k => Msg (call_msg k)) ks). set (c1 := set_queue c q).
  destruct (drain_delivers false q c1) as (ps & E1 & E2 & E3 & E4 & E5).
  { done. }
  { subst q. rewrite pending_calls. apply Forall_map, Forall_true. intros k. apply call_msg_ok. }
  destruct (drain_fields accept_all false q c1) as (_ & Enp & _ & Hd).
  destruct Hd as [Est _]; [done|subst q; by intros [k [? _]]%list_elem_of_fmap|].
  exists ps. unfold run_turn. change (queue c1) with q.
  rewrite Est. change (stopping c1) with (stopping c). rewrite Hst.
  unfold send_ping. rewrite Enp. change (next_ping c1) with (next_ping c).
  rewrite (proj2 (Z.leb_gt _ _)) by done. cbn [on_service].
  assert (Esent : forall d, log d = log c ++ map Some ps -> sent d = sent c ++ ps).
  { intros d Ed. unfold sent. rewrite Ed, omap_app. f_equal. clear. induction ps; simpl; by f_equal. }
  split; [|split].
  - case_if; by apply Esent.
  - rewrite E2. subst q. rewrite pending_calls, map_map. done.
  - rewrite E5 by done. subst q. rewrite pending_calls. by apply host_dispatch_calls.
Qed.
End Delivery.

Definition control_channel_example : ControlChannel :=
  {| shared := shared_new; queue := []; cc_seq := 1; next_ping := PING_INTERVAL; stopping := false; log := [] |}.
Definition control_key_example : list Z := map Z.of_nat (seq 0 16).
Definition control_host_example : ControlHost :=
  {| ch_session := Some {| remote_input_key := control_key_example; remote_input_key_id := 1; ls_width := 1920;
                           ls_height := 1080; refresh_rate := 60 |};
     start_triggers := 0; idr_req := false; injected := []; ch_bitrate := bitrate_default 0 |}.
Definition control_calls_example : list Call :=
  [CallInput (MousePosition 960 540 1920 1080); CallIdr; CallInput (Key 0x41 true 0); CallInput (Scroll (-120));
   CallFec fec_status_example].

Lemma control_delivery_witness :
  exists packets,
    sent (run_turn accept_all control_key_example false 0 EvNone
            (foldl apply_call control_channel_example control_calls_example))
      = sent control_channel_example ++ packets
    /\ map fst packets = map (fun k => om_mode (call_msg k)) control_calls_example
    /\ host_receive (fun x _ => x) 0 control_host_example packets
       = foldl (call_effect (fun x _ => x) 0) control_host_example control_calls_example.
Proof.
  apply (control_delivery (fun x _ => x) control_key_example); try reflexivity.
  - by split; vm_compute.
  - repeat constructor; vm_compute; congruence.
  - by eexists.
Defined.

(** ** Nonces *)

(** Everything that can happen to a connected channel: the handle's calls
    from any thread, turns of the task with any ENet behaviour, its exit. *)
Inductive client_step {A : Aead} (cipher : list Z) : ControlChannel -> ControlChannel -> Prop :=
| cs_enqueue c m : client_step cipher c (enqueue c m)
| cs_shutdown c : client_step cipher c (shutdown c)
| cs_turn c send dropped now ev :
    stopping c = false -> client_step cipher c (run_turn send cipher dropped now ev c)
| cs_exit c : stopping c = true -> client_step cipher c (run_exit c).

Section Nonces.
Context {A : Aead} (cipher : list Z).

Record log_ok (c : ControlChannel) : Prop := {
  lo_seq : cc_seq c = u32 (Z.of_nat (length (log c)));
  lo_packets i mode b : log c !! i = Some (Some (mode, b)) ->
    exists ty payload, encode_encrypted cipher (u32 (Z.of_nat i)) ty payload = Some b
}.

Lemma queue_msg_log send c m : log_ok c -> log_ok (queue_msg send cipher c m).1.
Proof.
  intros [Hs Hp]. unfold queue_msg.
  destruct (encode_encrypted cipher (cc_seq c) (om_ty m) (as_slice (om_payload m))) as [bytes|] eqn:E;
    [destruct (send bytes)|]; (split; cbn [fst cc_seq log];
    [ rewrite Hs, length_app; unfold wrapping_add32, u32; cbn [length]; div_lia
    | intros i mode b; rewrite lookup_app_Some; intros [Hi|[Hi Hj]]; [by apply (Hp i mode)|]]);
    apply list_lookup_singleton_Some in Hj as [Hi0 Hj]; try done.
  injection Hj as <- <-. rewrite Hs in E. replace i with (length (log c)) by lia. eauto.
Qed.

Lemma drain_log send dropped q c : log_ok c -> log_ok (drain send cipher dropped q c).
Proof.
  revert c. induction q as [|[m|] q IH]; intros c H; cbn [drain].
  - destruct dropped; destruct H; by split.
  - by apply IH, queue_msg_log.
  - destruct H; by split.
Qed.

Lemma run_turn_log send dropped now ev c : log_ok c -> log_ok (run_turn send cipher dropped now ev c).
Proof.
  intros H. unfold run_turn.
  assert (H1 : log_ok (drain send cipher dropped (queue c) c)) by by apply drain_log.
  generalize dependent (drain send cipher dropped (queue c) c). intros c1 H1. case_if; [done|].
  assert (H2 : log_ok (send_ping send cipher now c1)).
  { unfold send_ping. case_if; [|done]. destruct (queue_msg_log send c1 ping_msg H1). by split. }
  generalize dependent (send_ping send cipher now c1). intros c2 H2.
  assert (H3 : log_ok (on_service cipher ev c2)) by (destruct ev; try done; destruct H2; by split).
  case_if; [|done]. destruct H3. by split.
Qed.

Lemma reachable_log send sh now c0 c :
  connect send cipher sh now = Some c0 -> steps (client_step cipher) c0 c -> log_ok c.
Proof.
  intros H0. apply steps_invariant.
  - unfold connect in H0.
    assert (L0 : log_ok (connected sh now)) by (by split).
    pose proof (queue_msg_log send _ start_b_msg L0) as L.
    destruct (queue_msg _ _ _ _) as [c1 []]; [|done]. by injection H0 as <-.
  - intros c1 c2 H1. destruct 1 as [c1 m|c1|c1 snd d nw ev Hst|c1 Hst].
    + unfold enqueue. case_if; [|done]. destruct H1. by split.
    + destruct H1. by split.
    + by apply run_turn_log.
    + destruct H1. by split.
Qed.

(** C24: Every packet a connected client ever sends is sealed under the nonce
    of its own sequence number.  Until 2^32 messages have been numbered no
    two of them share a nonce, whatever ENet drops, and none is a nonce the
    host uses under the same key. *)
Theorem control_nonces_unique (send : list Z -> bool) (sh : Shared) (now : Z) (c0 c : ControlChannel) :
  connect send cipher sh now = Some c0 -> steps (client_step cipher) c0 c ->
  Z.of_nat (length (log c)) <= 2 ^ 32 ->
  exists nonce : nat -> list Z,
    (forall i mode b, log c !! i = Some (Some (mode, b)) ->
       exists seq ty payload ct tag,
         encrypt_in_place_detached cipher (nonce i) (inner_message ty payload) = Some (ct, tag)
         /\ b = encrypted_frame seq tag ct /\ nonce i = client_iv seq)
    /\ (forall i j, (i < length (log c))%nat -> (j < length (log c))%nat -> nonce i = nonce j -> i = j)
    /\ (forall i s, nonce i <> host_iv s).
Proof.
  intros H0 Hst Hl. destruct (reachable_log _ _ _ _ _ H0 Hst) as [_ Hp].
  exists (fun i => client_iv (u32 (Z.of_nat i))). split; [|split].
  - intros i mode b Hi. destruct (Hp i mode b Hi) as (ty & pl & E). unfold encode_encrypted in E.
    destruct (encrypt_in_place_detached _ _ _) as [[ct tag]|] eqn:D; [|done].
    injection E as <-. by exists (u32 (Z.of_nat i)), ty, pl, ct, tag.
  - intros i j Hi Hj E. apply client_iv_inj in E; [|apply u32_range..].
    rewrite !u32_id in E by (unfold is_u32; lia). lia.
  - intros i s. apply client_host_iv.
Qed.
End Nonces.

Lemma control_nonces_unique_witness :
  let c0 := connected shared_new 0 in
  let c1 := (queue_msg accept_all control_key_example c0 start_b_msg).1 in
  let c := send_input c1 (Scroll 120) in
  let c' := run_turn (fun _ => false) control_key_example false 0 EvNone c in
  exists nonce : nat -> list Z,
    (forall i mode b, log c' !! i = Some (Some (mode, b)) ->
       exists seq ty payload ct tag,
         encrypt_in_place_detached control_key_example (nonce i) (inner_message ty payload) = Some (ct, tag)
         /\ b = encrypted_frame seq tag ct /\ nonce i = client_iv seq)
    /\ (forall i j, (i < length (log c'))%nat -> (j < length (log c'))%nat -> nonce i = nonce j -> i = j)
    /\ (forall i s, nonce i <> host_iv s).
Proof.
  apply (control_nonces_unique control_key_example accept_all shared_new 0
           (queue_msg accept_all control_key_example (connected shared_new 0) start_b_msg).1).
  - reflexivity.
  - eapply steps_next; [eapply steps_next; [apply steps_refl|apply cs_enqueue]|].
    apply cs_turn. reflexivity.
  - vm_compute. discriminate.
Defined.

(** ** Termination *)

Section Termination.
Context {A : Aead} {AL : AeadLaws A} (cipher : list Z).

Lemma encode_control_frame seq ty payload :
  is_u16 ty -> is_u32 seq -> Z.of_nat (length payload) <= 65000 ->
  exists bytes, encode_control_message cipher seq (inner_message ty payload) = Some bytes
    /\ open_message (fun b => client_decrypt_message b cipher) bytes = Some (ty, payload).
Proof using AL.
  intros Hty Hs Hp. set (pt := inner_message ty payload).
  assert (Lp : length pt = (4 + length payload)%nat) by apply inner_message_length.
  destruct (aead_total cipher (host_iv seq) pt) as (ct & tag & E); [lia|].
  destruct (aead_lengths _ _ _ _ _ E) as [L1 L2].
  exists (encrypted_frame seq tag ct). unfold encode_control_message, aes_gcm_encrypt.
  rewrite aead_combined, E. cbn [option_map fst snd]. rewrite length_app, L2. unfold TAG_LEN.
  rewrite Nat.add_sub, take_app_length, drop_app_length. split; [done|].
  apply (open_message_encrypted _ _ _ _ pt); [|done|done].
  unfold client_decrypt_message. rewrite split_encrypted_frame by (done || lia).
  by apply aead_decrypt_encrypt.
Qed.

Definition closed_with (code : Z) (c : ControlChannel) : Prop :=
  termination c = Some code /\ alive (shared c) = false /\ stopping c = true.

Lemma closed_with_step code c c' :
  closed_with code c -> client_step cipher c c' -> closed_with code c' /\ msgs (queue c') = msgs (queue c) /\ log c' = log c.
Proof.
  intros (Ht & Ha & Hs). destruct 1 as [c m|c|c snd d now ev Hst|c Hst].
  - unfold enqueue. rewrite Ha. by repeat split.
  - repeat split; [done..|]. simpl. unfold msgs. by rewrite omap_app, app_nil_r.
  - congruence.
  - by repeat split.
Qed.

(** A termination notice the host seals with its code - extended form -
    reaches the client: in the turn that receives it the client records
    exactly that code and stops, and from then on, whatever is called, the
    code stays, no message is queued and no packet is sent. *)
Theorem termination_delivery (c : ControlChannel) (send : list Z -> bool) (dropped : bool)
    (now seq code : Z) (c' : ControlChannel) :
  stopping c = false -> (Shutdown ∉ queue c) -> dropped = false -> is_u32 seq -> - 2 ^ 31 <= code < 2 ^ 31 ->
  exists bytes,
    encode_control_message cipher seq (inner_message MSG_TERMINATION_EXT (be_bytes 4 (u32 code))) = Some bytes
    /\ let c1 := run_turn send cipher dropped now (EvReceive bytes) c in
       closed_with code c1
       /\ (steps (client_step cipher) c1 c' ->
           closed_with code c' /\ msgs (queue c') = msgs (queue c1) /\ log c' = log c1).
Proof using AL.
  intros Hst Hq -> Hs Hc.
  destruct (encode_control_frame seq MSG_TERMINATION_EXT (be_bytes 4 (u32 code))) as (bytes & E & O);
    [by split|done|by rewrite length_be_bytes|].
  exists bytes. split; [done|]. cbn zeta.
  set (c1 := run_turn send cipher false now (EvReceive bytes) c).
  assert (H1 : closed_with code c1).
  { subst c1. unfold run_turn. destruct (drain_fields cipher send false (queue c) c) as (_ & _ & _ & Hd).
    destruct Hd as [Est _]; [done..|]. rewrite Est, Hst. cbn [on_service].
    unfold handle_inbound. rewrite O, Z.eqb_refl. cbn [set_shared shared term_set].
    split; [|done]. unfold termination. cbn [set_stopping set_shared shared term_set term_code]. f_equal.
    change (be_bytes 4 (u32 code)) with
      [u32 code / 256 / 256 / 256 mod 256; u32 code / 256 / 256 mod 256; u32 code / 256 mod 256; u32 code mod 256].
    cbn [termination_code].
    change (i32 (be_val (be_bytes 4 (u32 code))) = code). rewrite be_val_id by apply u32_range.
    unfold i32, u32. case_if; bool_prop; div_lia. }
  split; [done|]. intros Hsteps.
  revert Hsteps. apply (steps_invariant (client_step cipher)
    (fun x => closed_with code x /\ msgs (queue x) = msgs (queue c1) /\ log x = log c1)); [done|].
  intros x y (Hx & Ex & Lx) Hxy. destruct (closed_with_step code x y Hx Hxy) as (Hy & Ey & Ly).
  split; [done|]. split; congruence.
Qed.
End Termination.

Lemma termination_delivery_witness :
  exists bytes,
    encode_control_message control_key_example 7
      (inner_message MSG_TERMINATION_EXT (be_bytes 4 (u32 (-2147418109)))) = Some bytes
    /\ let c1 := run_turn accept_all control_key_example false 0 (EvReceive bytes) control_channel_example in
       closed_with (-2147418109) c1
       /\ (steps (client_step control_key_example) c1 (request_idr c1) ->
           closed_with (-2147418109) (request_idr c1)
           /\ msgs (queue (request_idr c1)) = msgs (queue c1) /\ log (request_idr c1) = log c1).
Proof.
  destruct (termination_delivery control_key_example control_channel_example accept_all false 0 7 (-2147418109)
              control_channel_example) as (bytes & E & _);
    [reflexivity|by intros H%elem_of_nil|reflexivity|by split; vm_compute|by split; vm_compute|].
  exists bytes. split; [exact E|].
  destruct (termination_delivery control_key_example control_channel_example accept_all false 0 7 (-2147418109)
    (request_idr (run_turn accept_all control_key_example false 0 (EvReceive bytes) control_channel_example)))
    as (bytes' & E' & H);
    [reflexivity|by intros X%elem_of_nil|reflexivity|by split; vm_compute|by split; vm_compute|].
  rewrite E in E'. injection E' as <-. exact H.
Defined.

(** ** Unencrypted packets *)

(** The host's handler also takes packets that are not encrypted: a
    plain input message is injected whoever sent it and whatever key the
    session has, even with no session at all. *)
Theorem plaintext_input_injected {A : Aead} (powf : f64 -> f64 -> f64) (h : ControlHost) (now : Z) (ev : InputEvent) :
  input_ok ev ->
  injected (handle_packet powf h now (inner_message MSG_INPUT_DATA (as_slice (encode_input ev))))
  = injected h ++ input_effect ev.
Proof.
  intros Hev. unfold handle_packet, open_message. rewrite parse_header_inner by (by split).
  unfold dispatch. simpl. by rewrite inject_encoded.
Qed.

Lemma plaintext_input_injected_witness :
  injected (handle_packet (fun x _ => x)
    {| ch_session := None; start_triggers := 0; idr_req := false; injected := []; ch_bitrate := bitrate_default 0 |}
    0 (inner_message MSG_INPUT_DATA (as_slice (encode_input (Key 0x5B true 0)))))
  = [KeyboardInput 0x5B [KEYEVENTF_EXTENDEDKEY]].
Proof.
  apply (plaintext_input_injected (fun x _ => x)
    {| ch_session := None; start_triggers := 0; idr_req := false; injected := []; ch_bitrate := bitrate_default 0 |}
    0 (Key 0x5B true 0)). by repeat split; vm_compute.
Defined.
