(* ===== verification/Audio.v ===== *)
(** * Audio: capture framing, RTP transport and loss accounting
    ([kmc-streamhost/src/audio.rs], [kmc-moonclient/src/audio.rs])

    Host: cutting the captured PCM into 5 ms Opus frames and the socket loop
    that numbers and sends them.  Client: RTP parsing, the 16-bit sequence
    tracker and the depacketizer that forwards every frame.  The Opus
    encoder and WASAPI are parameters. *)
From S2P Require Import Prelude Wire.

Definition SAMPLE_RATE : Z := 48000.
Definition CHANNELS : nat := 2.
Definition FRAME_MS : Z := 5.
Definition SAMPLES_PER_FRAME : nat := Z.to_nat (SAMPLE_RATE / 1000 * FRAME_MS).
Definition RTP_HEADER_LEN : nat := 12.
Definition AUDIO_PAYLOAD_TYPE : Z := 97.
Definition AUDIO_OWNER_TIMEOUT : Z := 2 * 1000000000.
Definition RESYNC_THRESHOLD : Z := 1024.

(** ** Host: PCM framing *)

Definition block_align : nat := (CHANNELS * 2)%nat.
Definition frame_bytes : nat := (SAMPLES_PER_FRAME * block_align)%nat.

(** Pairs of bytes become little-endian [i16] samples. *)
Fixpoint pcm_of_bytes (l : list Z) : list Z :=
  match l with
  | lo :: hi :: l => i16 (le_val [lo; hi]) :: pcm_of_bytes l
  | _ => []
  end.

Section Capture.
Context (encode : list Z -> option (list Z)).

(** The [while queue.len() >= frame_bytes] loop: frames sent, bytes left.
    Every round removes [frame_bytes] bytes, so the length is enough fuel. *)
Fixpoint encode_ready (fuel : nat) (queue : list Z) : list (list Z) * list Z :=
  match fuel with
  | O => ([], queue)
  | S fuel =>
      if (length queue <? frame_bytes)%nat then ([], queue)
      else
        let pcm := pcm_of_bytes (take frame_bytes queue) in
        let '(frames, rest) := encode_ready fuel (drop frame_bytes queue) in
        (match encode pcm with Some f => f :: frames | None => frames end, rest)
  end.

(** One round of the capture loop: what was read is appended, whole frames
    are encoded. *)
Definition capture_round (queue captured : list Z) : list (list Z) * list Z :=
  encode_ready (length (queue ++ captured)) (queue ++ captured).
End Capture.

(** ** Host: socket loop *)

Record AudioHost := mkAudioHost {
  ah_client : option Z;
  ah_seq : Z;
  ah_timestamp : Z;
  ah_last_ping : Z
}.

Inductive AudioHostInput :=
| AudioRecv (addr : Z) (datagram : list Z) (now : Z)
| AudioRecvError (code : Z)
| AudioFrame (frame : list Z).

Definition audio_ssrc : Z := 0.

Definition audio_packet (seq timestamp : Z) (frame : list Z) : list Z :=
  [0x80; AUDIO_PAYLOAD_TYPE] ++ be_bytes 2 seq ++ be_bytes 4 timestamp ++ be_bytes 4 audio_ssrc ++ frame.

Definition audio_host_step (h : AudioHost) (i : AudioHostInput) : AudioHost * list (Z * list Z) :=
  match i with
  | AudioRecv addr datagram now =>
      if bool_decide (datagram = PING_PAYLOAD) then
        let owner_active := match ah_client h with
                            | Some a => negb (a =? addr) && (saturating_sub now (ah_last_ping h) <? AUDIO_OWNER_TIMEOUT)
                            | None => false
                            end in
        if owner_active then (h, [])
        else
          let fresh := negb (bool_decide (ah_client h = Some addr)) in
          ({| ah_client := Some addr;
              ah_seq := if fresh then 0 else ah_seq h;
              ah_timestamp := if fresh then 0 else ah_timestamp h;
              ah_last_ping := now |}, [])
      else (h, [])
  | AudioRecvError code =>
      if (code =? 10054) && match ah_client h with Some _ => true | None => false end
      then ({| ah_client := None; ah_seq := ah_seq h; ah_timestamp := ah_timestamp h;
               ah_last_ping := ah_last_ping h |}, [])
      else (h, [])
  | AudioFrame frame =>
      let ts := wrapping_add32 (ah_timestamp h) (Z.of_nat SAMPLES_PER_FRAME) in
      match ah_client h with
      | None => ({| ah_client := None; ah_seq := ah_seq h; ah_timestamp := ts; ah_last_ping := ah_last_ping h |}, [])
      | Some dst =>
          ({| ah_client := Some dst; ah_seq := wrapping_add16 (ah_seq h) 1; ah_timestamp := ts;
              ah_last_ping := ah_last_ping h |}, [(dst, audio_packet (ah_seq h) ts frame)])
      end
  end.

Fixpoint audio_host_run (h : AudioHost) (l : list AudioHostInput) : AudioHost * list (Z * list Z) :=
  match l with
  | [] => (h, [])
  | i :: l => let '(h, o1) := audio_host_step h i in
              let '(h, o2) := audio_host_run h l in (h, o1 ++ o2)
  end.

(** ** Client: parsing *)

Inductive AudioParseError :=
| TooShort (n : nat) | BadVersion (b : Z) | UnsupportedHeader (b : Z) | WrongPayloadType (t : Z) | EmptyPayload.

Record AudioRtpHeader := mkAudioRtpHeader { ar_sequence : Z; ar_timestamp : Z; ar_ssrc : Z }.

Definition parse_rtp_audio (datagram : list Z) : AudioParseError + AudioRtpHeader * list Z :=
  if (length datagram <? RTP_HEADER_LEN)%nat then inl (TooShort (length datagram))
  else
    let b0 := datagram !!! 0%nat in
    if negb (Z.shiftr b0 6 =? 2) then inl (BadVersion b0)
    else if negb (Z.land b0 0x1F =? 0) then inl (UnsupportedHeader b0)
    else
      let payload_type := Z.land (datagram !!! 1%nat) 0x7F in
      if negb (payload_type =? AUDIO_PAYLOAD_TYPE) then inl (WrongPayloadType payload_type)
      else
        match drop RTP_HEADER_LEN datagram with
        | [] => inl EmptyPayload
        | payload => inr ({| ar_sequence := be_val (slice 2 4 datagram);
                             ar_timestamp := be_val (slice 4 8 datagram);
                             ar_ssrc := be_val (slice 8 12 datagram) |}, payload)
        end.

(** ** Client: sequence tracking and statistics *)

Record LossStats := mkLossStats { ls_received : Z; ls_expected : Z; ls_rejected : Z }.

Definition lost (s : LossStats) : Z := saturating_sub (ls_expected s) (ls_received s).

Inductive SeqStep := Resync | Forward (gap : Z) | Stale.

Definition seq_advance (last : option Z) (seq : Z) : option Z * SeqStep :=
  match last with
  | None => (Some seq, Resync)
  | Some l =>
      let diff := i16 (wrapping_sub16 seq l) in
      if 0 <? diff then (Some seq, Forward (u16 diff - 1))
      else if diff <=? - RESYNC_THRESHOLD then (Some seq, Resync)
      else (Some l, Stale)
  end.

Record AudioDepacketizer := mkAudioDepacketizer {
  ad_sink : list (list Z);
  ad_sink_open : bool;
  ad_stats : LossStats;
  ad_tracker : option Z
}.

Definition audio_depacketizer_new : AudioDepacketizer :=
  {| ad_sink := []; ad_sink_open := true;
     ad_stats := {| ls_received := 0; ls_expected := 0; ls_rejected := 0 |}; ad_tracker := None |}.

Definition step_slots (st : SeqStep) : Z :=
  match st with Resync => 1 | Forward gap => gap + 1 | Stale => 0 end.

(** [ingest]: the result tells whether the sink took the frame. *)
Definition ingest (d : AudioDepacketizer) (datagram : list Z) : AudioDepacketizer * (AudioParseError + bool) :=
  match parse_rtp_audio datagram with
  | inl e =>
      ({| ad_sink := ad_sink d; ad_sink_open := ad_sink_open d;
          ad_stats := {| ls_received := ls_received (ad_stats d); ls_expected := ls_expected (ad_stats d);
                         ls_rejected := u64 (ls_rejected (ad_stats d) + 1) |};
          ad_tracker := ad_tracker d |}, inl e)
  | inr (header, payload) =>
      let '(last, st) := seq_advance (ad_tracker d) (ar_sequence header) in
      ({| ad_sink := if ad_sink_open d then ad_sink d ++ [payload] else ad_sink d;
          ad_sink_open := ad_sink_open d;
          ad_stats := {| ls_received := u64 (ls_received (ad_stats d) + 1);
                         ls_expected := u64 (ls_expected (ad_stats d) + step_slots st);
                         ls_rejected := ls_rejected (ad_stats d) |};
          ad_tracker := last |}, inr (ad_sink_open d))
  end.

(** The receive branch of [AudioReceiver::run]: whether the loop goes on. *)
Definition audio_receive (d : AudioDepacketizer) (datagram : list Z) : AudioDepacketizer * bool :=
  let '(d, r) := ingest d datagram in
  (d, match r with inr false => false | _ => true end).

(** ** Framing is independent of how the device chunks the samples *)

Section CaptureProps.
Context (encode : list Z -> option (list Z)).

(** [blocks] of one frame each and a rest shorter than a frame. *)
Definition framed (stream : list Z) (frames : list (list Z)) (rest : list Z) : Prop :=
  exists blocks, stream = concat blocks ++ rest
    /\ Forall (fun b => length b = frame_bytes) blocks
    /\ (length rest < frame_bytes)%nat
    /\ frames = omap (fun b => encode (pcm_of_bytes b)) blocks.

Lemma frame_bytes_value : frame_bytes = 960%nat.
Proof. reflexivity. Qed.

Lemma encode_ready_framed fuel queue :
  (length queue <= fuel)%nat -> framed queue (encode_ready encode fuel queue).1 (encode_ready encode fuel queue).2.
Proof.
  revert queue. induction fuel as [|fuel IH]; intros queue H; cbn [encode_ready].
  - exists []. rewrite frame_bytes_value. destruct queue; simpl in *; [|lia]. repeat split; [constructor|lia].
  - destruct (length queue <? frame_bytes)%nat eqn:E.
    + apply Nat.ltb_lt in E. by exists [].
    + apply Nat.ltb_ge in E. rewrite frame_bytes_value in E.
      destruct (IH (drop frame_bytes queue)) as (bs & E1 & E2 & E3 & E4).
      { rewrite length_drop, frame_bytes_value. lia. }
      destruct (encode_ready encode fuel (drop frame_bytes queue)) as [fs rest]. cbn [fst snd] in *.
      exists (take frame_bytes queue :: bs). split.
      { cbn [concat]. rewrite <- app_assoc, <- E1. by rewrite take_drop. }
      split; [constructor; [rewrite length_take, frame_bytes_value; lia|done]|]. split; [done|].
      cbn [omap list_omap]. destruct (encode (pcm_of_bytes (take frame_bytes queue))); by rewrite E4.
Qed.

Definition capture_loop (chunks : list (list Z)) : list (list Z) * list Z :=
  foldl (fun st chunk => let '(frames, rest) := capture_round encode st.2 chunk in (st.1 ++ frames, rest))
        ([], []) chunks.

(** However the sound device cuts the PCM stream into chunks, the frames
    handed to the encoder are its consecutive 960-byte blocks, in order; what
    is left over is shorter than one frame. *)
Theorem capture_framing (chunks : list (list Z)) :
  framed (concat chunks) (capture_loop chunks).1 (capture_loop chunks).2.
Proof.
  unfold capture_loop. induction chunks as [|chunk chunks IH] using rev_ind.
  - exists []. rewrite frame_bytes_value. repeat split; [constructor|simpl; lia].
  - rewrite foldl_app, concat_app. cbn [foldl concat]. rewrite app_nil_r.
    destruct (foldl _ _ chunks) as [frames rest]. cbn [fst snd] in *.
    destruct IH as (bs & E1 & E2 & E3 & E4). unfold capture_round.
    destruct (encode_ready_framed (length (rest ++ chunk)) (rest ++ chunk) (le_n _)) as (bs' & F1 & F2 & F3 & F4).
    destruct (encode_ready _ _ _) as [frames' rest']. cbn [fst snd] in *.
    exists (bs ++ bs'). rewrite E1, <- app_assoc, F1, concat_app, <- app_assoc.
    split; [done|]. split; [by apply Forall_app|]. split; [done|]. by rewrite omap_app, E4, F4.
Qed.
End CaptureProps.

(** ** Parsing what the host sends *)

Lemma parse_audio_packet seq ts frame :
  is_u16 seq -> is_u32 ts -> frame <> [] ->
  parse_rtp_audio (audio_packet seq ts frame)
  = inr ({| ar_sequence := seq; ar_timestamp := ts; ar_ssrc := 0 |}, frame).
Proof.
  intros Hs Ht Hf. unfold parse_rtp_audio, audio_packet.
  assert (B2 : be_val (be_bytes 2 seq) = seq) by (by apply be_val_id).
  assert (B4 : be_val (be_bytes 4 ts) = ts) by (by apply be_val_id).
  revert B2 B4. change (be_bytes 2 seq) with [seq / 256 mod 256; seq mod 256].
  change (be_bytes 4 ts) with [ts / 256 / 256 / 256 mod 256; ts / 256 / 256 mod 256; ts / 256 mod 256; ts mod 256].
  intros B2 B4. cbn [app length]. 
  change (be_bytes 4 audio_ssrc) with [0; 0; 0; 0]. cbn [app length].
  rewrite (proj2 (Nat.ltb_ge _ _)) by (unfold RTP_HEADER_LEN; lia).
  cbn [lookup_total list_lookup_total]. cbn [Z.shiftr Z.shiftl Z.land]. simpl (negb _).
  unfold slice, RTP_HEADER_LEN. cbn [Nat.sub drop take]. rewrite take_0, drop_0.
  destruct frame as [|b frame]; [done|]. by rewrite B2, B4.
Qed.

Lemma seq_advance_forward n m :
  0 < m - n <= 32767 -> seq_advance (Some (u16 n)) (u16 m) = (Some (u16 m), Forward (m - n - 1)).
Proof.
  intros H. unfold seq_advance, wrapping_sub16.
  assert (i16 (u16 (u16 m - u16 n)) = m - n) as ->.
  { unfold i16, u16. case_if; bool_prop; div_lia. }
  rewrite (proj2 (Z.ltb_lt _ _)) by lia. by rewrite (u16_id (m - n)) by (unfold is_u16; lia).
Qed.

(** ** End to end *)

(** The datagrams a registered client is sent for a run of frames. *)
Lemma audio_host_frames dst seq ts ping frames :
  is_u16 seq ->
  (audio_host_run {| ah_client := Some dst; ah_seq := seq; ah_timestamp := ts; ah_last_ping := ping |}
                  (map AudioFrame frames)).2
  = imap (fun i f => (dst, audio_packet (u16 (seq + Z.of_nat i)) (u32 (ts + 240 * (Z.of_nat i + 1))) f)) frames.
Proof.
  revert seq ts. induction frames as [|f frames IH]; intros seq ts Hs; [done|].
  cbn [map audio_host_run audio_host_step ah_client ah_seq ah_timestamp ah_last_ping].
  specialize (IH (wrapping_add16 seq 1) (wrapping_add32 ts (Z.of_nat SAMPLES_PER_FRAME)) (u16_range _)).
  destruct (audio_host_run _ (map AudioFrame frames)) as [h o]. cbn [fst snd] in *. subst o.
  rewrite imap_cons. cbn [app]. f_equal.
  - rewrite Z.add_0_r, (u16_id seq) by done. done.
  - apply imap_ext. intros i g _. unfold wrapping_add16, wrapping_add32. simpl compose.
    change (Z.of_nat SAMPLES_PER_FRAME) with 240.
    assert (u16 (u16 (seq + 1) + Z.of_nat i) = u16 (seq + Z.of_nat (S i))) as ->
      by (unfold u16; rewrite Zplus_mod_idemp_l; f_equal; lia).
    assert (u32 (u32 (ts + 240) + 240 * (Z.of_nat i + 1)) = u32 (ts + 240 * (Z.of_nat (S i) + 1))) as ->
      by (unfold u32; rewrite Zplus_mod_idemp_l; f_equal; lia).
    done.
Qed.

Definition host_packet (frames : list (list Z)) (i : nat) : list Z :=
  audio_packet (u16 (Z.of_nat i)) (u32 (240 * (Z.of_nat i + 1))) (frames !!! i).

Fixpoint gaps_ok (n : nat) (idx : list nat) : Prop :=
  match idx with
  | [] => True
  | i :: idx => (n < i)%nat /\ Z.of_nat i - Z.of_nat n <= 32767 /\ gaps_ok i idx
  end.

(** The last of the indices from [n] on. *)
Fixpoint last_index (n : nat) (idx : list nat) : nat :=
  match idx with
  | [] => n
  | i :: idx => last_index i idx
  end.

Definition ingest_all (d : AudioDepacketizer) (packets : list (list Z)) : AudioDepacketizer :=
  foldl (fun d p => (ingest d p).1) d packets.

Section Lossy.
Context (frames : list (list Z)) (Hne : Forall (fun f => f <> []) frames).

Lemma frame_nonempty i : (i < length frames)%nat -> frames !!! i <> [].
Proof using Hne.
  intros Hi. rewrite Forall_lookup in Hne. apply (Hne i). by apply list_lookup_lookup_total_lt.
Qed.

Lemma ingest_indices idx n d :
  ad_sink_open d = true -> ad_tracker d = Some (u16 (Z.of_nat n)) -> gaps_ok n idx ->
  Forall (fun i => (i < length frames)%nat) idx ->
  let d' := ingest_all d (map (host_packet frames) idx) in
  ad_sink d' = ad_sink d ++ map (fun i => frames !!! i) idx
  /\ u64 (ls_received (ad_stats d')) = u64 (ls_received (ad_stats d) + Z.of_nat (length idx))
  /\ u64 (ls_expected (ad_stats d')) = u64 (ls_expected (ad_stats d) + (Z.of_nat (last_index n idx) - Z.of_nat n))
  /\ ls_rejected (ad_stats d') = ls_rejected (ad_stats d) /\ ad_sink_open d' = true.
Proof using Hne.
  cbn zeta. revert n d. induction idx as [|i idx IH]; intros n d Ho Ht Hg Hl; cbn [map ingest_all foldl length].
  - cbn [last_index]. rewrite app_nil_r, Z.sub_diag, !Z.add_0_r. done.
  - destruct Hg as (H1 & H2 & Hg). inversion_clear Hl as [|? ? Hi Hl'].
    assert (E : (ingest d (host_packet frames i)).1 =
      {| ad_sink := ad_sink d ++ [frames !!! i]; ad_sink_open := true;
         ad_stats := {| ls_received := u64 (ls_received (ad_stats d) + 1);
                        ls_expected := u64 (ls_expected (ad_stats d) + (Z.of_nat i - Z.of_nat n));
                        ls_rejected := ls_rejected (ad_stats d) |};
         ad_tracker := Some (u16 (Z.of_nat i)) |}).
    { unfold ingest, host_packet. rewrite parse_audio_packet; [|auto with kmc..|by apply frame_nonempty].
      cbn [ar_sequence]. rewrite Ht, seq_advance_forward, Ho by lia. cbn [fst step_slots].
      repeat f_equal; lia. }
    set (d1 := mkAudioDepacketizer _ _ _ _) in E. rewrite E.
    destruct (IH i d1 eq_refl eq_refl Hg Hl') as (A1 & A2 & A3 & A4 & A5).
    unfold ingest_all in *. subst d1. cbn [ad_sink ad_stats ls_received ls_expected ls_rejected] in *.
    rewrite A1, A2, A3, A4, A5. rewrite <- app_assoc. split; [done|].
    assert (W : forall a b, u64 (u64 a + b) = u64 (a + b)) by (intros; unfold u64; by rewrite Zplus_mod_idemp_l).
    rewrite !W. repeat split; f_equal; try lia.
    cbn [last_index]. lia.
Qed.
End Lossy.

Lemma last_index_bounds n idx k :
  gaps_ok n idx -> (n < k)%nat -> Forall (fun i => (i < k)%nat) idx ->
  (n + length idx <= last_index n idx)%nat /\ (last_index n idx < k)%nat.
Proof.
  revert n. induction idx as [|i idx IH]; intros n; simpl; [lia|].
  intros (H1 & _ & Hg) Hn Hl. inversion_clear Hl. destruct (IH i); [done..|]. lia.
Qed.

(** C25: Audio from the client's registration on: the host numbers the frames
    from zero, and if the network then loses any of the datagrams (at most
    32766 in a row), the client hands on exactly the Opus frames that arrived,
    unmodified and in order, across the wrap of the 16-bit sequence numbers,
    and counts as lost exactly the frames missing between the first and the
    last one received. *)
Theorem audio_delivery (h : AudioHost) (addr now : Z) (frames : list (list Z)) (first : nat) (idx : list nat) :
  ah_client h = None -> Forall (fun f => f <> []) frames -> Z.of_nat (length frames) < 2 ^ 64 ->
  gaps_ok first idx -> Forall (fun i => (i < length frames)%nat) (first :: idx) ->
  let registered := (audio_host_step h (AudioRecv addr PING_PAYLOAD now)).1 in
  let out := (audio_host_run registered (map AudioFrame frames)).2 in
  let d := ingest_all audio_depacketizer_new (map (fun i => (out !!! i).2) (first :: idx)) in
  Forall (fun p => p.1 = addr) out
  /\ ad_sink d = map (fun i => frames !!! i) (first :: idx)
  /\ u64 (ls_received (ad_stats d)) = Z.of_nat (S (length idx))
  /\ u64 (ls_expected (ad_stats d)) = Z.of_nat (last_index first idx) - Z.of_nat first + 1
  /\ ls_rejected (ad_stats d) = 0.
Proof.
  intros Hc Hne Hlen Hg Hl registered out d.
  assert (Eo : out = imap (fun i f => (addr, audio_packet (u16 (Z.of_nat i)) (u32 (240 * (Z.of_nat i + 1))) f)) frames).
  { subst out registered. unfold audio_host_step. rewrite bool_decide_true, Hc by done.
    rewrite (bool_decide_false (None = Some addr)) by done. cbn [fst negb].
    rewrite audio_host_frames by (by split). by apply imap_ext. }
  assert (Ep : forall i, (i < length frames)%nat -> (out !!! i).2 = host_packet frames i).
  { intros i Hi. rewrite Eo. unfold host_packet.
    rewrite (list_lookup_total_correct _ i (addr, host_packet frames i)); [done|].
    rewrite list_lookup_imap, (list_lookup_lookup_total_lt frames i) by done. done. }
  split.
  { rewrite Eo, Forall_lookup. intros i p Hp. rewrite list_lookup_imap in Hp.
    destruct (frames !! i); [|done]. by injection Hp as <-. }
  subst d. rewrite (map_ext_in _ (host_packet frames)).
  2:{ intros i Hi. apply Ep. rewrite Forall_forall in Hl. by apply Hl, list_elem_of_In. }
  cbn [map ingest_all foldl]. inversion_clear Hl as [|? ? H0 Hl'].
  destruct (last_index_bounds first idx (length frames) Hg H0 Hl') as [B1 B2].
  assert (E0 : (ingest audio_depacketizer_new (host_packet frames first)).1 =
    {| ad_sink := [frames !!! first]; ad_sink_open := true;
       ad_stats := {| ls_received := 1; ls_expected := 1; ls_rejected := 0 |};
       ad_tracker := Some (u16 (Z.of_nat first)) |}).
  { unfold ingest, host_packet. rewrite parse_audio_packet; [done|auto with kmc..|by apply frame_nonempty]. }
  rewrite E0. set (d0 := mkAudioDepacketizer _ _ _ _).
  destruct (ingest_indices frames Hne idx first d0 eq_refl eq_refl Hg Hl') as (A1 & A2 & A3 & A4 & _).
  unfold ingest_all in *. rewrite A1, A2, A3, A4. subst d0. cbn [ad_sink ad_stats ls_received ls_expected ls_rejected].
  rewrite !u64_id by (unfold is_u64; lia). repeat split; lia.
Qed.

Lemma audio_delivery_witness :
  let h := {| ah_client := None; ah_seq := 5; ah_timestamp := 1200; ah_last_ping := 0 |} in
  let frames := [[1]; [2; 2]; [3]; [4]; [5]] in
  let out := (audio_host_run (audio_host_step h (AudioRecv 9 PING_PAYLOAD 1)).1 (map AudioFrame frames)).2 in
  let d := ingest_all audio_depacketizer_new (map (fun i => (out !!! i).2) [1%nat; 2%nat; 4%nat]) in
  ad_sink d = [[2; 2]; [3]; [5]] /\ lost (ad_stats d) = 1.
Proof.
  cbn zeta.
  destruct (audio_delivery {| ah_client := None; ah_seq := 5; ah_timestamp := 1200; ah_last_ping := 0 |} 9 1
              [[1]; [2; 2]; [3]; [4]; [5]] 1 [2; 4]%nat) as (_ & E & _).
  - reflexivity.
  - repeat constructor; discriminate.
  - reflexivity.
  - cbn [gaps_ok]. lia.
  - repeat constructor; cbn [length]; lia.
  - split; [exact E|vm_compute; reflexivity].
Defined.

(** A frame that arrives late or twice is handed on too, and [ingest]
    reports it as sent: [Ok(false)] only says that the sink is closed. *)
Lemma audio_stale_delivered (d : AudioDepacketizer) (last seq ts : Z) (frame : list Z) :
  ad_sink_open d = true -> ad_tracker d = Some last -> is_u16 seq -> is_u32 ts -> frame <> [] ->
  (seq_advance (Some last) seq).2 = Stale ->
  (ingest d (audio_packet seq ts frame)).2 = inr true
  /\ ad_sink (ingest d (audio_packet seq ts frame)).1 = ad_sink d ++ [frame].
Proof.
  intros Ho Ht Hs Hts Hf E. unfold ingest. rewrite parse_audio_packet by done. cbn [ar_sequence].
  rewrite Ht. destruct (seq_advance (Some last) seq) as [l st]. cbn [snd] in E. subst st. by rewrite Ho.
Qed.
