(* ===== verification/Links.v ===== *)
(** * The client's links to the host ([kmc-moonclient/src/control.rs] and
    [audio.rs], the loops)

    Opening the control channel, its task from the first turn to the end of
    its shutdown, and the receive loop of the audio stream.  One turn of the
    control task is [run_turn] of Control.v, one datagram is [ingest] of
    Audio.v; the clock and what the network does next are arguments. *)
From S2P Require Import Prelude Aead Wire Float Bitrate HostSession Input Control Audio.

(** ** Opening the control channel *)

Definition CONNECT_TIMEOUT : Z := 10 * 1000000000.
Definition SHUTDOWN_GRACE : Z := 500 * 1000000.
Definition CTRL_CHANNEL_COUNT : nat := 1.

(** What [Host::service] returns while the handshake runs. *)
Inductive HandshakeEvent :=
| HsConnect (peer_id : nat) | HsDisconnect | HsReceive (packet : list Z) | HsNone | HsError.

Inductive ConnectError :=
| ResolveFailed | HostFailed | PeerFailed | ConnectTimeout | ConnectRefused | ServiceFailed | StartBFailed | FlushFailed.

(** An IP literal is used as it is, any other name by its first address. *)
Definition resolve (ip_literal : string -> option string) (lookup_host : string -> option (list string))
    (host_ip : string) (port : Z) : option (string * Z) :=
  match ip_literal host_ip with
  | Some ip => Some (ip, port)
  | None =>
      match lookup_host host_ip with
      | Some (ip :: _) => Some (ip, port)
      | _ => None
      end
  end.

Section Connect.
Context {A : Aead} (cipher : list Z).

(** The wait for the handshake: each turn is the clock at its test and the
    answer of the service call; [None] is a wait that goes on. *)
Fixpoint enet_handshake (deadline : Z) (peer_id : nat) (turns : list (Z * HandshakeEvent)) (sh : Shared)
  : option (ConnectError + Shared) :=
  match turns with
  | [] => None
  | (now, ev) :: turns =>
      if deadline <=? now then Some (inl ConnectTimeout)
      else
        match ev with
        | HsConnect id => if (id =? peer_id)%nat then Some (inr sh) else enet_handshake deadline peer_id turns sh
        | HsDisconnect => Some (inl ConnectRefused)
        | HsReceive packet => enet_handshake deadline peer_id turns (handle_inbound packet cipher sh)
        | HsNone => enet_handshake deadline peer_id turns sh
        | HsError => Some (inl ServiceFailed)
        end
  end.

(** [ControlChannel::connect] from the instant [now]; [peer] is the peer the
    new ENet host made for the address, [task] the instant the task starts. *)
Definition connect_channel (addr : option (string * Z)) (host_ok : bool) (peer : option nat) (now : Z)
    (turns : list (Z * HandshakeEvent)) (enet_send : list Z -> bool) (flush_ok : bool) (task : Z)
  : option (ConnectError + ControlChannel) :=
  match addr with
  | None => Some (inl ResolveFailed)
  | Some _ =>
      if negb host_ok then Some (inl HostFailed)
      else
        match peer with
        | None => Some (inl PeerFailed)
        | Some peer_id =>
            match enet_handshake (now + CONNECT_TIMEOUT) peer_id turns shared_new with
            | None => None
            | Some (inl e) => Some (inl e)
            | Some (inr sh) =>
                match connect enet_send cipher sh task with
                | None => Some (inl StartBFailed)
                | Some c => if flush_ok then Some (inr c) else Some (inl FlushFailed)
                end
            end
        end
  end.

(** ** The task *)

Inductive ClientOp := OpCall (k : Call) | OpShutdown.

Definition apply_op (c : ControlChannel) (o : ClientOp) : ControlChannel :=
  match o with OpCall k => apply_call c k | OpShutdown => shutdown c end.

(** A turn of the task: the calls on the handle before it, whether the
    handle is gone, the clock and what the network does. *)
Record TaskTurn := mkTaskTurn {
  tt_ops : list ClientOp; tt_dropped : bool; tt_send : list Z -> bool; tt_now : Z; tt_event : EnetEvent
}.

(** The [while !stopping] loop, with how many of the entries of the log ENet
    has had a service call for; what it has done so far when the turns run
    out.  A turn that ends while it drains makes no service call. *)
Fixpoint run_loop (turns : list TaskTurn) (c : ControlChannel) (serviced : nat) : ControlChannel * nat :=
  match turns with
  | [] => (c, serviced)
  | t :: turns =>
      if stopping c then (c, serviced)
      else
        let c := foldl apply_op c (tt_ops t) in
        let drained := drain (tt_send t) cipher (tt_dropped t) (queue c) c in
        let c := run_turn (tt_send t) cipher (tt_dropped t) (tt_now t) (tt_event t) c in
        run_loop turns c (if stopping drained then serviced else length (log c))
  end.

(** The wait for the acknowledgement of the disconnection; whether it is
    over. *)
Fixpoint grace (deadline : Z) (turns : list (Z * EnetEvent)) : bool :=
  match turns with
  | [] => false
  | (now, ev) :: turns =>
      if deadline <=? now then true
      else match ev with EvDisconnect | EvError => true | _ => grace deadline turns end
  end.

(** The end of a task: its channel, whether the peer was asked to
    disconnect, and the entries of the log with a service call between them
    and that. *)
Definition control_task (turns : list TaskTurn) (peer_connected : bool) (now : Z) (after : list (Z * EnetEvent)) (c : ControlChannel)
  : option (ControlChannel * bool * nat) :=
  let '(c, serviced) := run_loop turns c (length (log c)) in
  if stopping c then
    if grace (now + SHUTDOWN_GRACE) after then Some (run_exit c, peer_connected, serviced) else None
  else None.
End Connect.

(** ** The audio receiver *)

Definition AUDIO_PING_INTERVAL : Z := 500 * 1000000.
Definition MAX_AUDIO_DATAGRAM : nat := (RTP_HEADER_LEN + 4000)%nat.

(** [UdpSocket::recv_from] into a buffer: where the client runs, a datagram
    that does not fit is the error [WSAEMSGSIZE] and not a short read. *)
Definition WSAEMSGSIZE : Z := 10040.
Definition AUDIO_CONNRESET : Z := 10054.

Definition recv_from (windows : bool) (buf_len : nat) (datagram : list Z) : Z + list Z :=
  if (length datagram <=? buf_len)%nat then inr datagram
  else if windows then inl WSAEMSGSIZE else inr (take buf_len datagram).

Inductive AudioEvent :=
| PingTick (sent_ok : bool)
| Arrives (datagram : list Z)
| RecvFails (code : Z).

Record AudioReceiver := mkAudioReceiver { arv_pings : nat; arv_depacketizer : AudioDepacketizer }.

(** [bind]: any port of the address family of the host. *)
Definition bind_local (is_ipv4 : bool) : string := if is_ipv4 then "0.0.0.0:0" else "[::]:0".
Definition audio_bind : AudioReceiver := {| arv_pings := 0; arv_depacketizer := audio_depacketizer_new |}.

Inductive AudioEnd := SinkClosed | RecvError (code : Z).

Definition on_recv (r : AudioReceiver) (x : Z + list Z) : AudioReceiver * option AudioEnd :=
  match x with
  | inr datagram =>
      let '(d, go_on) := audio_receive (arv_depacketizer r) datagram in
      ({| arv_pings := arv_pings r; arv_depacketizer := d |}, if go_on then None else Some SinkClosed)
  | inl code => (r, if code =? AUDIO_CONNRESET then None else Some (RecvError code))
  end.

Definition audio_turn (windows : bool) (r : AudioReceiver) (e : AudioEvent) : AudioReceiver * option AudioEnd :=
  match e with
  | PingTick ok =>
      ({| arv_pings := if ok then S (arv_pings r) else arv_pings r; arv_depacketizer := arv_depacketizer r |}, None)
  | Arrives datagram => on_recv r (recv_from windows MAX_AUDIO_DATAGRAM datagram)
  | RecvFails code => on_recv r (inl code)
  end.

(** [AudioReceiver::run]; [None] is a loop that goes on. *)
Fixpoint audio_run (windows : bool) (r : AudioReceiver) (es : list AudioEvent) : AudioReceiver * option AudioEnd :=
  match es with
  | [] => (r, None)
  | e :: es =>
      match audio_turn windows r e with
      | (r, None) => audio_run windows r es
      | ended => ended
      end
  end.

Definition loss_ratio (s : LossStats) : f64 :=
  if ls_expected s =? 0 then f64_zero else f64_div (f64_of_Z (lost s)) (f64_of_Z (ls_expected s)).

(** The datagrams of a run, and its answered pings. *)
Definition arrivals (es : list AudioEvent) : list (list Z) :=
  omap (fun e => match e with Arrives d => Some d | _ => None end) es.
Definition pings_ok (es : list AudioEvent) : nat :=
  length (omap (fun e => match e with PingTick true => Some tt | _ => None end) es).

(** ** Opening *)

Section ConnectProps.
Context {A : Aead} {AL : AeadLaws A} (powf : f64 -> f64 -> f64).
Context (cipher : list Z) (Hcipher : length cipher = 16%nat).

Lemma handshake_ends deadline peer_id turns sh :
  Exists (fun t => deadline <= t.1) turns -> is_Some (enet_handshake cipher deadline peer_id turns sh).
Proof.
  revert sh. induction turns as [|[now ev] turns IH]; intros sh H; [by inversion H|].
  cbn [enet_handshake]. case_match eqn:E; [done|]. apply Z.leb_gt in E.
  apply Exists_cons in H as [H|H]; [cbn in H; lia|]. destruct ev; eauto. case_match; eauto.
Qed.

(** The wait succeeds exactly on the connection of the own peer before the
    deadline, with nothing that ends it before. *)
Lemma handshake_ok deadline peer_id turns sh sh' :
  enet_handshake cipher deadline peer_id turns sh = Some (inr sh') ->
  exists now before after, turns = before ++ (now, HsConnect peer_id) :: after /\ now < deadline /\
    Forall (fun t => t.1 < deadline /\ t.2 <> HsDisconnect /\ t.2 <> HsError) before.
Proof.
  revert sh. induction turns as [|[now ev] turns IH]; intros sh H; cbn [enet_handshake] in H; [done|].
  case_match eqn:E; [done|]. apply Z.leb_gt in E.
  assert (forall sh, ev <> HsDisconnect -> ev <> HsError -> enet_handshake cipher deadline peer_id turns sh = Some (inr sh') ->
    exists t before after, (now, ev) :: turns = before ++ (t, HsConnect peer_id) :: after /\ t < deadline /\
      Forall (fun t => t.1 < deadline /\ t.2 <> HsDisconnect /\ t.2 <> HsError) before) as Hgo.
  { intros sh2 H1 H2 (t & before & after & -> & Ht & Hb)%IH. exists t, ((now, ev) :: before), after.
    split; [done|]. split; [done|]. by constructor. }
  destruct ev as [id| |packet| |]; try done; [|by eapply Hgo..].
  case_match eqn:E2; [|by eapply Hgo]. apply Nat.eqb_eq in E2 as ->. exists now, [], turns. done.
Qed.

Lemma start_b_ok : msg_ok start_b_msg.
Proof. split; [done|]. apply (put_ok payload_new [0]), payload_new_ok. Qed.

(** C21: A connection that is opened has put exactly one packet on the wire,
    StartB, and a host that holds the key of the session is told by it to
    start: its trigger goes up and nothing else of it changes.  It was opened
    by the host's acknowledgement before the time-out; and a wait whose clock
    reaches the deadline is over. *)
Theorem connect_starts_stream addr host_ok peer now turns flush_ok task :
  (forall c, connect_channel cipher addr host_ok peer now turns accept_all flush_ok task = Some (inr c) ->
     exists bytes p t before after,
       log c = [Some (ReliableSequenced, bytes)] /\ queue c = [] /\ cc_seq c = 1 /\
       (forall h t, session_key (ch_session h) cipher ->
          handle_packet powf h t bytes =
          {| ch_session := ch_session h; start_triggers := S (start_triggers h); idr_req := idr_req h;
             injected := injected h; ch_bitrate := ch_bitrate h |}) /\
       peer = Some p /\ turns = before ++ (t, HsConnect p) :: after /\ t < now + CONNECT_TIMEOUT /\
       Forall (fun t => t.2 <> HsDisconnect /\ t.2 <> HsError) before) /\
  (Exists (fun t => now + CONNECT_TIMEOUT <= t.1) turns ->
     is_Some (connect_channel cipher addr host_ok peer now turns accept_all flush_ok task)).
Proof using AL Hcipher.
  unfold connect_channel. split.
  - intros c. destruct addr as [a|]; [|done]. destruct host_ok; cbn [negb]; [|done]. destruct peer as [p|]; [|done].
    destruct (enet_handshake _ _ _ _ _) as [[e|sh]|] eqn:Hs; [done| |done].
    destruct (connect _ _ _ _) as [c'|] eqn:Hc; [|done]. destruct flush_ok; [|done]. intros [= <-].
    apply handshake_ok in Hs as (t & before & after & -> & Ht & Hb).
    unfold connect in Hc.
    destruct (queue_msg_accepted powf cipher Hcipher (connected sh task) start_b_msg) as (bytes & E & D);
      [done|apply start_b_ok|]. rewrite E in Hc. injection Hc as <-.
    exists bytes, p, t, before, after. split; [done|]. split; [done|]. split; [done|].
    split; [intros h t' Hh; by rewrite D|]. repeat split; [done|].
    eapply Forall_impl; [exact Hb|]. by intros ? (_ & ? & ?).
  - intros Hex. destruct addr as [a|]; [|done]. destruct host_ok; cbn [negb]; [|done]. destruct peer as [p|]; [|done].
    destruct (handshake_ends _ p turns shared_new Hex) as [[e|sh] ->]; [done|].
    destruct (connect _ _ _ _); [|done]. by destruct flush_ok.
Qed.

(** ** Shutting down *)

Lemma drain_stops send dropped q c : Shutdown ∈ q -> stopping (drain send cipher dropped q c) = true.
Proof.
  revert c. induction q as [|[m|] q IH]; intros c; cbn [drain]; [by intros ?%elem_of_nil| |done].
  intros [?|?]%elem_of_cons; [done|by apply IH].
Qed.

Lemma pending_until_shutdown ks q :
  pending (map (fun k => Msg (call_msg k)) ks ++ Shutdown :: q) = map call_msg ks.
Proof. induction ks as [|k ks IH]; cbn; [done|by rewrite IH]. Qed.

Lemma fold_ops_calls ks c : foldl apply_op c (map OpCall ks) = foldl apply_call c ks.
Proof. revert c. induction ks as [|k ks IH]; intros c; cbn; [done|]. apply IH. Qed.

(** C22: What is asked of a live channel before its shutdown is still handed to
    ENet, in order, in the turn that sees the shutdown - a host that receives
    it does exactly that - and nothing after it: no ping, none of the calls
    made after the shutdown; the peer is asked to disconnect if it is
    connected and the task is over when the grace period is.  But between the
    last of these packets and the disconnection ENet gets no service call that
    could send them. *)
Theorem shutdown_hands_over (c : ControlChannel) ks late t turns peer_connected now after (h : ControlHost) :
  alive (shared c) = true -> queue c = [] -> stopping c = false -> is_u32 (cc_seq c) ->
  Forall call_ok ks -> session_key (ch_session h) cipher ->
  tt_ops t = map OpCall ks ++ OpShutdown :: map OpCall late -> tt_send t = accept_all ->
  Exists (fun t => now + SHUTDOWN_GRACE <= t.1) after ->
  exists packets c' serviced,
    control_task cipher (t :: turns) peer_connected now after c = Some (c', peer_connected, serviced)
    /\ log c' = log c ++ map Some packets /\ alive (shared c') = false
    /\ map fst packets = map (fun k => om_mode (call_msg k)) ks
    /\ host_receive powf (tt_now t) h packets = foldl (call_effect powf (tt_now t)) h ks
    /\ drop serviced (log c') = map Some packets.
Proof using AL Hcipher.
  intros Ha Hq Hst Hs Hks Hh Hops Hsend Hafter. unfold control_task. cbn [run_loop]. rewrite Hst, Hops, foldl_app, fold_ops_calls.
  rewrite queue_calls, Hq by done. cbn [app foldl apply_op]. cbn zeta.
  set (c1 := shutdown _). set (q := map (fun k => Msg (call_msg k)) ks).
  assert (foldl apply_op c1 (map OpCall late) = c1) as ->.
  { rewrite fold_ops_calls. clear. induction late as [|k late IH]; [done|]. cbn [foldl].
    assert (apply_call c1 k = c1) as -> by (destruct k; done). done. }
  assert (queue c1 = q ++ [Shutdown]) as Eq by done.
  destruct (drain_delivers powf cipher Hcipher (tt_dropped t) (q ++ [Shutdown]) c1) as (ps & E1 & E2 & E3 & E4 & E5).
  { done. }
  { subst q. rewrite pending_until_shutdown. apply Forall_map, Forall_true. intros k. apply call_msg_ok. }
  set (c2 := drain accept_all cipher (tt_dropped t) (q ++ [Shutdown]) c1) in *.
  assert (stopping c2 = true) as Estop by (apply drain_stops, elem_of_app; right; by left).
  assert (run_turn (tt_send t) cipher (tt_dropped t) (tt_now t) (tt_event t) c1 = c2) as ->.
  { unfold run_turn. rewrite Hsend, Eq. fold c2. by rewrite Estop. }
  rewrite Hsend, Eq. fold c2. rewrite Estop.
  assert (run_loop cipher turns c2 (length (log c)) = (c2, length (log c))) as ->
    by (destruct turns; cbn [run_loop]; by rewrite ?Estop).
  rewrite Estop. exists ps, (run_exit c2), (length (log c)).
  assert (grace (now + SHUTDOWN_GRACE) after = true) as ->.
  { clear -Hafter. induction after as [|[t ev] after IH]; [by inversion Hafter|]. cbn [grace].
    case_match eqn:E; [done|]. apply Z.leb_gt in E. apply Exists_cons in Hafter as [H|H]; [cbn in H; lia|].
    destruct ev; auto. }
  split; [done|]. split; [exact E1|]. split; [done|]. split; [|split].
  - rewrite E2. subst q. rewrite pending_until_shutdown, map_map. done.
  - rewrite E5 by done. subst q. rewrite pending_until_shutdown. by apply host_dispatch_calls.
  - change (log (run_exit c2)) with (log c2). rewrite E1. apply drop_app_length.
Qed.
End ConnectProps.

(** ** The audio loop *)

(** What does not end the loop: pings, answered or not, datagrams that fit,
    and the notice that nobody listens. *)
Definition harmless (e : AudioEvent) : Prop :=
  match e with
  | PingTick _ => True
  | Arrives d => (length d <= MAX_AUDIO_DATAGRAM)%nat
  | RecvFails code => code = AUDIO_CONNRESET
  end.

Lemma ingest_sink_open d p : ad_sink_open (ingest d p).1 = ad_sink_open d.
Proof. unfold ingest. destruct (parse_rtp_audio p) as [e|[hd payload]]; [done|]. by destruct (seq_advance _ _). Qed.

Lemma audio_receive_open d p : ad_sink_open d = true -> audio_receive d p = ((ingest d p).1, true).
Proof.
  intros H. unfold audio_receive. destruct (ingest d p) as [d' r] eqn:E. cbn [fst]. f_equal.
  unfold ingest in E. destruct (parse_rtp_audio p) as [e|[hd payload]]; [by simplify_eq|].
  destruct (seq_advance _ _). rewrite H in E. by simplify_eq.
Qed.

Lemma harmless_turn windows r e : ad_sink_open (arv_depacketizer r) = true -> harmless e ->
  audio_turn windows r e =
  ({| arv_pings := (arv_pings r + pings_ok [e])%nat;
      arv_depacketizer := ingest_all (arv_depacketizer r) (arrivals [e]) |}, None).
Proof.
  intros Ho He. destruct r as [n d]. destruct e as [[]|p|code]; cbn [harmless] in He; cbn in *.
  - by rewrite Nat.add_1_r.
  - by rewrite Nat.add_0_r.
  - unfold recv_from. apply Nat.leb_le in He. rewrite He. cbn. rewrite audio_receive_open by done. by rewrite Nat.add_0_r.
  - subst code. by rewrite Nat.add_0_r.
Qed.

Lemma arrivals_cons e es : arrivals (e :: es) = arrivals [e] ++ arrivals es.
Proof. by destruct e. Qed.
Lemma pings_cons e es : pings_ok (e :: es) = (pings_ok [e] + pings_ok es)%nat.
Proof. by destruct e as [[]| |]. Qed.

Lemma harmless_run windows es : forall r rest, ad_sink_open (arv_depacketizer r) = true -> Forall harmless es ->
  let r' := {| arv_pings := (arv_pings r + pings_ok es)%nat;
               arv_depacketizer := ingest_all (arv_depacketizer r) (arrivals es) |} in
  ad_sink_open (arv_depacketizer r') = true /\ audio_run windows r (es ++ rest) = audio_run windows r' rest.
Proof.
  induction es as [|e es IH]; intros r rest Ho He; cbn zeta.
  - destruct r as [n d]. cbn. by rewrite Nat.add_0_r.
  - inversion_clear He as [|? ? H1 H2]. cbn [app audio_run]. rewrite (harmless_turn windows r e) by done.
    destruct (IH {| arv_pings := (arv_pings r + pings_ok [e])%nat;
                    arv_depacketizer := ingest_all (arv_depacketizer r) (arrivals [e]) |} rest) as [A1 A2]; [|done|].
    { cbn [arv_depacketizer]. destruct e as [b|p|c]; cbn; [done| |done]. by rewrite ingest_sink_open. }
    rewrite A2. cbn [arv_depacketizer arv_pings] in *. unfold ingest_all in *. rewrite (arrivals_cons e es), (pings_cons e es), foldl_app.
    rewrite Nat.add_assoc. split; [exact A1|done].
Qed.

(** C40: The loop outlives everything harmless, in any number and order: it has
    then ingested exactly the datagrams, in order, and counted its pings.  But
    where it runs under Windows one datagram above 4012 bytes, from whatever
    sender, ends it for good: nothing after it is received, no ping is sent. *)
Theorem audio_run_survives windows (r : AudioReceiver) es :
  ad_sink_open (arv_depacketizer r) = true -> Forall harmless es ->
  let r' := {| arv_pings := (arv_pings r + pings_ok es)%nat;
               arv_depacketizer := ingest_all (arv_depacketizer r) (arrivals es) |} in
  audio_run windows r es = (r', None) /\
  forall big after, (MAX_AUDIO_DATAGRAM < length big)%nat ->
    audio_run true r (es ++ Arrives big :: after) = (r', Some (RecvError WSAEMSGSIZE)).
Proof.
  intros Ho He. cbn zeta. split.
  - destruct (harmless_run windows es r [] Ho He) as [_ H]. rewrite app_nil_r in H. by rewrite H.
  - intros big after Hb. destruct (harmless_run true es r (Arrives big :: after) Ho He) as [_ ->].
    cbn [audio_run audio_turn]. unfold recv_from. apply Nat.leb_gt in Hb. by rewrite Hb.
Qed.

(** ** A host that starts over *)

(** The slots a tracker at [last] counts for a packet with number 0. *)
Definition restart_slots (last : Z) : Z :=
  if last <? 1024 then 0 else if last <=? 32768 then 1 else 65536 - last.

Lemma seq_advance_restart last : is_u16 last ->
  step_slots (seq_advance (Some last) 0).2 = restart_slots last.
Proof.
  intros [H0 H1]. unfold seq_advance, restart_slots, wrapping_sub16, i16, u16, RESYNC_THRESHOLD.
  assert (last = 0 \/ 0 < last) as [->|Hp] by lia; [done|].
  assert ((0 - last) mod 2 ^ 16 = 65536 - last) as -> by (symmetry; apply (Z.mod_unique_pos _ _ (-1)); lia).
  rewrite (Z.mod_small (65536 - last)) by lia.
  destruct (Z.ltb_spec (65536 - last) (2 ^ 15)) as [Hlt|Hge].
  - rewrite (proj2 (Z.ltb_lt 0 _)) by lia. cbn [snd step_slots]. rewrite Z.mod_small by lia.
    rewrite (proj2 (Z.ltb_ge last 1024)), (proj2 (Z.leb_gt last 32768)) by lia. lia.
  - rewrite (proj2 (Z.ltb_ge 0 _)) by lia. destruct (Z.ltb_spec last 1024).
    + rewrite (proj2 (Z.leb_gt _ (- 1024))) by lia. done.
    + rewrite (proj2 (Z.leb_le _ (- 1024))) by lia. rewrite (proj2 (Z.leb_le last 32768)) by lia. done.
Qed.

(** A host that lost its client and is pinged again numbers from zero, and the
    client hands on its first frame whatever it had seen.  But only from a
    last number between 1024 and 32768 is the new start counted as one frame:
    below it is counted as none, and above every number up to the wrap is
    counted as a lost frame. *)
Theorem audio_restart_counts (h : AudioHost) (client now : Z) (frame : list Z) (d : AudioDepacketizer) (last : Z) :
  ah_client h = Some client -> frame <> [] -> ad_sink_open d = true -> ad_tracker d = Some last -> is_u16 last ->
  exists packet,
    (audio_host_run h [AudioRecvError AUDIO_CONNRESET; AudioRecv client PING_PAYLOAD now; AudioFrame frame]).2
      = [(client, packet)] /\
    let d' := (ingest d packet).1 in
    ad_sink d' = ad_sink d ++ [frame] /\
    ad_stats d' = {| ls_received := u64 (ls_received (ad_stats d) + 1);
                     ls_expected := u64 (ls_expected (ad_stats d) + restart_slots last);
                     ls_rejected := ls_rejected (ad_stats d) |}.
Proof.
  intros Hc Hf Ho Ht Hl. exists (audio_packet 0 (wrapping_add32 0 (Z.of_nat SAMPLES_PER_FRAME)) frame). split.
  - cbn [audio_host_run audio_host_step]. rewrite Hc. cbn [Z.eqb andb AUDIO_CONNRESET Pos.eqb].
    rewrite bool_decide_true by done. cbn [ah_client negb]. rewrite bool_decide_false by done.
    done.
  - cbn zeta. unfold ingest. rewrite parse_audio_packet; [|split; lia|apply u32_range|done]. cbn [ar_sequence].
    rewrite Ht. pose proof (seq_advance_restart last Hl) as Hs. destruct (seq_advance (Some last) 0) as [l' st].
    cbn [snd] in Hs. cbn [fst ad_sink ad_stats]. rewrite Ho, Hs. done.
Qed.

(** ** Witnesses *)

Lemma connect_starts_stream_witness : exists c bytes,
  connect_channel control_key_example (Some ("10.0.0.2", 47999)) true (Some 0%nat) 0
    [(1, HsNone); (2, HsConnect 0)] accept_all true 3 = Some (inr c) /\
  log c = [Some (ReliableSequenced, bytes)].
Proof.
  destruct (connect_starts_stream (fun x _ => x) control_key_example eq_refl (Some ("10.0.0.2", 47999)) true (Some 0%nat) 0
    [(1, HsNone); (2, HsConnect 0)] true 3) as [H _].
  eexists. edestruct H as (bytes & p & t & before & after & Hlog & _); [vm_compute; reflexivity|].
  exists bytes. split; [vm_compute; reflexivity|exact Hlog].
Defined.

Lemma shutdown_hands_over_witness : exists packets c' serviced,
  control_task control_key_example
    [{| tt_ops := map OpCall control_calls_example ++ [OpShutdown]; tt_dropped := false; tt_send := accept_all; tt_now := 5;
        tt_event := EvNone |}] true 6 [(7, EvNone); (1000000000, EvNone)] control_channel_example = Some (c', true, serviced)
  /\ log c' = map Some packets /\ drop serviced (log c') = map Some packets.
Proof.
  destruct (shutdown_hands_over (fun x _ => x) control_key_example eq_refl control_channel_example control_calls_example []
    {| tt_ops := map OpCall control_calls_example ++ [OpShutdown]; tt_dropped := false; tt_send := accept_all; tt_now := 5;
       tt_event := EvNone |} [] true 6 [(7, EvNone); (1000000000, EvNone)] control_host_example)
    as (packets & c' & serviced & Hrun & Hlog & _ & _ & _ & Hdrop).
  - reflexivity.
  - reflexivity.
  - reflexivity.
  - by split; vm_compute.
  - repeat constructor; vm_compute; congruence.
  - by eexists.
  - reflexivity.
  - reflexivity.
  - right. left. vm_compute. congruence.
  - exists packets, c', serviced. split; [exact Hrun|]. split; [exact Hlog|exact Hdrop].
Defined.

Lemma audio_run_survives_witness :
  audio_run true audio_bind [PingTick true; RecvFails AUDIO_CONNRESET; Arrives (replicate 4013 0); PingTick true]
  = ({| arv_pings := 1; arv_depacketizer := audio_depacketizer_new |}, Some (RecvError WSAEMSGSIZE)).
Proof.
  destruct (audio_run_survives true audio_bind [PingTick true; RecvFails AUDIO_CONNRESET]) as [_ H]; [done|repeat constructor|].
  apply (H (replicate 4013 0) [PingTick true]). rewrite length_replicate. unfold MAX_AUDIO_DATAGRAM, RTP_HEADER_LEN. lia.
Defined.

(** 25535 frames counted as lost, and none was. *)
Lemma audio_restart_counts_witness : exists packet,
  (audio_host_run {| ah_client := Some 9; ah_seq := 40001; ah_timestamp := 7; ah_last_ping := 0 |}
     [AudioRecvError AUDIO_CONNRESET; AudioRecv 9 PING_PAYLOAD 10; AudioFrame [1; 2]]).2 = [(9, packet)] /\
  ad_stats (ingest {| ad_sink := []; ad_sink_open := true;
                      ad_stats := {| ls_received := 40001; ls_expected := 40001; ls_rejected := 0 |};
                      ad_tracker := Some 40000 |} packet).1
  = {| ls_received := 40002; ls_expected := 65537; ls_rejected := 0 |}.
Proof.
  destruct (audio_restart_counts {| ah_client := Some 9; ah_seq := 40001; ah_timestamp := 7; ah_last_ping := 0 |} 9 10 [1; 2]
    {| ad_sink := []; ad_sink_open := true;
       ad_stats := {| ls_received := 40001; ls_expected := 40001; ls_rejected := 0 |}; ad_tracker := Some 40000 |} 40000)
    as (packet & Hp & _ & Hs); [reflexivity|discriminate|reflexivity|reflexivity|by split; vm_compute|].
  exists packet. split; [exact Hp|]. rewrite Hs. reflexivity.
Defined.
