(* ===== verification/StreamPath.v ===== *)
(** * A whole video stream, from the host's loop to the client's
    ([kmc-streamhost/src/video/mod.rs], [run] of [kmc-moonclient/src/video.rs])

    The client's receive task from its socket to its end, and the two loops
    composed: the host serves one viewer, frame after frame, with PINGs and
    round-trip probes in between; the network loses, repeats and reorders the
    datagrams of a frame.  [stream_delivery]: what the client hands on is the
    sequence of frames of which enough arrived. *)
From S2P Require Import Prelude BTree Wire Fec Packetizer Depacketizer VideoPath Float Bitrate VideoHost Links.

Definition MAX_DATAGRAM : nat := 2048.

(** ** The client's task *)

(** What the [select!] of [run] wakes up with. *)
Inductive VideoWake :=
| WakeRecv (from_host : bool) (datagram : list Z) (now : Z)
| WakeFails (code : Z)
| WakePing (now : Z).

Inductive VideoEnd :=
| EndBind
| EndFirstPing
| EndRecv (code : Z)
| EndSinkClosed
| EndShutdown.

(** A turn of the loop: whether the shutdown flag is up when it is tested, and
    whether somebody receives the access units. *)
Record VideoTurn := mkVideoTurn { vt_shutdown : bool; vt_sink_open : bool; vt_wake : VideoWake }.

Section Task.
Context `{R : ReedSolomon} (windows : bool).

(** One turn, [None] when the loop goes on. *)
Definition video_turn (dp : Depacketizer) (t : VideoTurn) : Depacketizer * list VideoOutput * option VideoEnd :=
  let on_input i :=
    let '(go_on, dp, outs) := run_step (vt_sink_open t) dp i in
    (dp, outs, if go_on then None else Some EndSinkClosed) in
  if vt_shutdown t then (dp, [], Some EndShutdown)
  else match vt_wake t with
  | WakeRecv from_host datagram now =>
      match Links.recv_from windows MAX_DATAGRAM datagram with
      | inr datagram => on_input (Recv from_host datagram now)
      | inl code => (dp, [], if code =? WSAECONNRESET then None else Some (EndRecv code))
      end
  | WakeFails code => (dp, [], if code =? WSAECONNRESET then None else Some (EndRecv code))
  | WakePing now => on_input (Depacketizer.PingTick now)
  end.

Fixpoint video_loop (dp : Depacketizer) (turns : list VideoTurn) : Depacketizer * list VideoOutput * option VideoEnd :=
  match turns with
  | [] => (dp, [], None)
  | t :: turns =>
      match video_turn dp t with
      | (dp, outs, None) => let '(dp, outs', e) := video_loop dp turns in (dp, outs ++ outs', e)
      | ended => ended
      end
  end.

(** [run]: [binds] and [pinged] say whether the socket could be bound and the
    first PING sent. *)
Definition video_run (binds pinged : bool) (turns : list VideoTurn) : list VideoOutput * option VideoEnd :=
  if negb binds then ([], Some EndBind)
  else if negb pinged then ([], Some EndFirstPing)
  else let '(_, outs, e) := video_loop depacketizer_new turns in (SendToHost PING_PAYLOAD :: outs, e).
End Task.

(** The access units handed on. *)
Definition handed_on (outs : list VideoOutput) : list AuFrame :=
  omap (fun o => match o with SendAu a => Some a | _ => None end) outs.

Lemma handed_on_app l l' : handed_on (l ++ l') = handed_on l ++ handed_on l'.
Proof. apply omap_app. Qed.

Lemma handed_on_events es : handed_on (map output_of es) = delivered es.
Proof. induction es as [|[] es IH]; [done|exact (f_equal (cons au) IH)|exact IH|exact IH]. Qed.

(** ** What the depacketizer does does not depend on what it has queued *)

Section Prefix.
Context `{R : ReedSolomon}.

Definition queue_after (es : list VideoEvent) (dp : Depacketizer) : Depacketizer :=
  mkDepacketizer (frames dp) (last_retired dp) (es ++ events dp).

Lemma retire_queue es dp f : retire (queue_after es dp) f = queue_after es (retire dp f).
Proof. unfold queue_after. rewrite !retire_eq. cbn. by rewrite app_assoc. Qed.

Lemma retire_all_queue es m : forall dp, retire_all (queue_after es dp) m = queue_after es (retire_all dp m).
Proof.
  induction m as [|e m IH]; intros dp; [done|]. cbn [retire_all foldl]. unfold retire_all in IH. rewrite <- IH. f_equal.
  apply (retire_queue es (set_frames dp _)).
Qed.

Lemma emit_queue es dp n : emit_completed (queue_after es dp) n = queue_after es (emit_completed dp n).
Proof.
  unfold emit_completed. change (frames (queue_after es dp)) with (frames dp). rewrite retire_all_queue.
  change (frames (queue_after es ?x)) with (frames x). destruct (bt_get n _) as [f|]; [|done].
  destruct (assemble f); unfold queue_after, push_event, set_frames; cbn; by rewrite <- app_assoc.
Qed.

Lemma push_queue es dp d now : push (queue_after es dp) d now = queue_after es (push dp d now).
Proof.
  unfold push. destruct (parse_shard d) as [[[plen rtp] nv]|]; [|done].
  change (last_retired (queue_after es dp)) with (last_retired dp). case_if; [done|].
  assert (admit_frame (queue_after es dp) (nv_frame_index nv) (block_count nv) plen now
          = queue_after es <$> admit_frame dp (nv_frame_index nv) (block_count nv) plen now) as ->.
  { unfold admit_frame. change (frames (queue_after es dp)) with (frames dp). case_if; [done|].
    case_if; [|done]. destruct (frames dp) as [|[o f] m] eqn:Ef; [cbn; by rewrite Ef|]. case_if; [done|].
    change (set_frames (queue_after es dp) ?x) with (queue_after es (set_frames dp x)). by rewrite retire_queue. }
  destruct (admit_frame dp _ _ _ _) as [dp1|]; [|done]. cbn [fmap option_fmap option_map].
  change (frames (queue_after es dp1)) with (frames dp1). destruct (bt_get _ _) as [f|]; [|done].
  unfold push_to_frame. change (frames (queue_after es dp1)) with (frames dp1).
  repeat (case_if; [done|]). case_if; [|done].
  change (set_frames (queue_after es dp1) ?x) with (queue_after es (set_frames dp1 x)). apply emit_queue.
Qed.

(** A burst of shards through the loop is the same burst through [push]. *)
Definition drained (dp : Depacketizer) : Depacketizer := mkDepacketizer (frames dp) (last_retired dp) [].

Definition open_turn (w : VideoWake) : VideoTurn := mkVideoTurn false true w.
Definition arrive (a : list Z * Z) : VideoTurn := open_turn (WakeRecv true a.1 a.2).

(** What the loop takes for a shard: not a probe, and within the buffer. *)
Definition plain_shard (d : list Z) : Prop := parse_rtt_probe d = None /\ (length d <= MAX_DATAGRAM)%nat.

Lemma recv_fits windows d : (length d <= MAX_DATAGRAM)%nat -> Links.recv_from windows MAX_DATAGRAM d = inr d.
Proof. intros H. unfold Links.recv_from. by rewrite (proj2 (Nat.leb_le _ _)). Qed.

Lemma video_loop_app windows dp ts ts' dp1 outs : video_loop windows dp ts = (dp1, outs, None) ->
  video_loop windows dp (ts ++ ts') = let '(dp2, outs', e) := video_loop windows dp1 ts' in (dp2, outs ++ outs', e).
Proof.
  revert dp dp1 outs. induction ts as [|t ts IH]; intros dp dp1 outs; cbn [video_loop app].
  - intros [= -> <-]. by destruct (video_loop windows dp1 ts') as [[? ?] ?].
  - destruct (video_turn windows dp t) as [[dp0 o0] [e0|]]; [done|].
    destruct (video_loop windows dp0 ts) as [[dp2 o2] e2] eqn:E. intros [= -> <- ->]. rewrite (IH _ _ _ E).
    destruct (video_loop windows dp1 ts') as [[? ?] ?]. by rewrite app_assoc.
Qed.

Lemma burst_run windows arr : forall dp, events dp = [] -> Forall (fun a => plain_shard a.1) arr ->
  video_loop windows dp (map arrive arr)
  = (drained (receive dp arr), map output_of (events (receive dp arr)), None).
Proof.
  induction arr as [|[d now] arr IH]; intros dp He H; cbn [map video_loop receive foldl].
  - rewrite He. by destruct dp; cbn in *; subst.
  - apply Forall_cons in H as [[Hp Hl] H]. unfold video_turn, arrive, open_turn. cbn [vt_shutdown vt_sink_open vt_wake fst snd].
    rewrite recv_fits by done. cbn [run_step negb]. cbn [fst] in Hp. rewrite Hp, drain_events_open. cbn [fst snd app].
    fold (drained (push dp d now)). rewrite IH by done. fold (receive (push dp d now) arr).
    assert (push dp d now = queue_after (events (push dp d now)) (drained (push dp d now))) as E
      by (destruct (push dp d now); unfold queue_after; cbn; by rewrite app_nil_r).
    assert (forall dp es, receive (queue_after es dp) arr = queue_after es (receive dp arr)) as Hq.
    { clear. induction arr as [|a arr IH]; intros dp es; [done|]. cbn [receive foldl]. rewrite push_queue. apply IH. }
    assert (receive (push dp d now) arr = queue_after (events (push dp d now)) (receive (drained (push dp d now)) arr)) as ->
      by (by rewrite <- Hq, <- E).
    unfold queue_after, drained. cbn [events frames last_retired]. by rewrite map_app.
Qed.
End Prefix.

(** ** A transmission *)

Section Stream.
Context {R : ReedSolomon} {RL : ReedSolomonLaws R} (powf : f64 -> f64 -> f64).
Context (packet_size : nat) (probe_epoch : Z) (viewer : Z) (windows : bool).
Local Abbreviation step := (host_step powf packet_size probe_epoch).

Definition is_frame_input (i : HostInput) : bool := match i with FrameReady _ _ _ _ => true | _ => false end.

(** The datagrams [arr], with their times, are among those sent to the
    viewer: any of them, any number of times, in any order. *)
Definition from_batch (outs : list (Z * list Z)) (arr : list (list Z * Z)) : Prop :=
  Forall (fun a => (viewer, a.1) ∈ outs) arr.

(** The shards the host makes of a frame in state [h]. *)
Definition frame_shards (h : VideoHost) (f : EncodedFrame) (now : Z) : option (list (list Z)) :=
  let pct := Z.to_nat (poll_fec_percentage powf (vh_bitrate h) now) in
  r <-? packetize_frame (ef_data f) (ef_is_key_frame f) packet_size (u32 (vh_frame_number h + 1))
          (vh_sequence_number h) (vh_stream_packet_index h) (ef_rtp_timestamp f) pct;
  Some r.1.1.

Definition au_frame (f : EncodedFrame) : AuFrame :=
  {| au_keyframe := ef_is_key_frame f; au_data := (if ef_is_key_frame f then 1 else 0) :: ef_data f |}.

(** The largest frame every loss percentage leaves room for. *)
Definition frame_room : nat := (867 * (packet_size - NV_VIDEO_PACKET_SIZE) - VIDEO_FRAME_HEADER_SIZE)%nat.

Definition good_frame (f : EncodedFrame) : Prop :=
  ef_data f <> [] /\ (length (ef_data f) <= frame_room)%nat /\ is_u32 (ef_rtp_timestamp f).

(** [transmission h turns aus h']: the host goes from [h] to [h'] without
    losing its viewer, the viewer's task sees [turns], and [aus] are the frames
    of which every FEC block arrived in sufficient part.  Datagrams of one
    frame are not mixed with those of another. *)
Inductive transmission : VideoHost -> list VideoTurn -> list AuFrame -> VideoHost -> Prop :=
| tm_end h : transmission h [] [] h
| tm_ping h now ts aus h' :
    transmission h ts aus h' -> transmission h (open_turn (WakePing now) :: ts) aus h'
| tm_refused h ts aus h' :
    transmission h ts aus h' -> transmission h (open_turn (WakeFails WSAECONNRESET) :: ts) aus h'
| tm_stranger h d now ts aus h' :
    (length d <= MAX_DATAGRAM)%nat ->
    transmission h ts aus h' -> transmission h (open_turn (WakeRecv false d now) :: ts) aus h'
| tm_host h i h1 outs arr ts aus h' :
    is_frame_input i = false -> step h i = Some (h1, outs) ->
    client_addr h1 = Some viewer -> session_reset h1 = false -> from_batch outs arr ->
    transmission h1 ts aus h' -> transmission h (map arrive arr ++ ts) aus h'
| tm_frame h frame newer fails now h1 outs shards arr ts aus h' :
    let f := List.last newer frame in
    step h (FrameReady frame newer fails now) = Some (h1, outs) ->
    good_frame f -> vh_frame_number h < 2 ^ 32 - 1 ->
    frame_shards h f now = Some shards -> codec_supports shards -> from_batch outs arr ->
    transmission h1 ts aus h' ->
    transmission h (map arrive arr ++ ts)
      ((if decide (deliverable shards (map fst arr)) then [au_frame f] else []) ++ aus) h'.

Record on_air (h : VideoHost) : Prop := {
  oa_ok : host_ok h;
  oa_viewer : client_addr h = Some viewer;
  oa_session : session_reset h = false
}.

(** What the host sends besides frames are probes, and its counters stay. *)
Lemma other_step h i h1 outs : on_air h -> is_frame_input i = false -> step h i = Some (h1, outs) ->
  client_addr h1 = Some viewer -> session_reset h1 = false ->
  vh_frame_number h1 = vh_frame_number h /\
  Forall (fun o => is_Some (parse_rtt_probe o.2) /\ (length o.2 <= MAX_DATAGRAM)%nat) outs.
Proof.
  intros [_ Hv Hs] Hi Hstep Hv1 Hs1. destruct i as [addr d now|code|fr newer fails now|now|]; try done; cbn [host_step] in Hstep.
  - unfold on_datagram in Hstep. destruct (bool_decide (d = PING_PAYLOAD)).
    + unfold on_ping in Hstep. rewrite Hv in Hstep.
      destruct (negb (viewer =? addr) && _); [by simplify_eq|]. injection Hstep as <- <-.
      cbn [client_addr set_last_ping set_client] in Hv1. injection Hv1 as ->. rewrite bool_decide_true by done.
      split; [done|]. constructor; [|done]. cbn [snd]. split; [|rewrite rtt_probe_length; vm_compute; lia].
      rewrite parse_rtt_probe_probe; [by eexists|]. apply u64_range.
    + destruct (parse_rtt_probe d); [destruct (bool_decide _)|]; simplify_eq; (split; [|done]); [|done..].
      unfold on_echo. by case_if.
  - destruct (code =? WSAECONNRESET); simplify_eq; [|done]. by rewrite Hv.
  - rewrite Hv in Hstep. destruct (_ <? _); by simplify_eq.
  - by simplify_eq.
Qed.

Lemma good_frame_fits f pct : (NV_VIDEO_PACKET_SIZE < packet_size)%nat -> good_frame f -> (15 <= pct <= 25)%nat ->
  frame_fits (length (ef_data f)) (packet_size - NV_VIDEO_PACKET_SIZE) (fec_clamp pct).
Proof.
  intros Hp (_ & Hl & _) Hpct. unfold frame_fits, frame_room in *. set (psz := (packet_size - NV_VIDEO_PACKET_SIZE)%nat) in *.
  assert (204 <= nr_data_per_block (fec_clamp pct))%nat as Hn.
  { unfold fec_clamp. assert (exists k, (k <= 10 /\ pct = 15 + k)%nat) as (k & Hk & ->) by (exists (pct - 15)%nat; lia).
    do 11 (destruct k as [|k]; [vm_compute; lia|]). lia. }
  assert (0 < psz)%nat as Hpsz by (unfold psz; lia).
  pose proof (div_ceil_spec (VIDEO_FRAME_HEADER_SIZE + length (ef_data f)) psz Hpsz) as [_ Hc].
  unfold total_data_shards_of. unfold VIDEO_FRAME_HEADER_SIZE, MAX_SHARDS in *.
  apply Nat.max_lub; [|lia]. apply Nat.lt_succ_r. nia.
Qed.

(** A frame's turn of the host, as [frame_received] takes it. *)
Lemma frame_step h frame newer fails now h1 outs shards :
  let f := List.last newer frame in
  on_air h -> (NV_VIDEO_PACKET_SIZE < packet_size)%nat -> vh_frame_number h < 2 ^ 32 - 1 ->
  step h (FrameReady frame newer fails now) = Some (h1, outs) -> frame_shards h f now = Some shards ->
  on_air h1 /\ vh_frame_number h1 = vh_frame_number h + 1 /\ (forall a, (viewer, a) ∈ outs -> a ∈ shards) /\
  exists pct seq' spi', (15 <= pct <= 25)%nat /\
    packetize_frame (ef_data f) (ef_is_key_frame f) packet_size (vh_frame_number h + 1) (vh_sequence_number h)
      (vh_stream_packet_index h) (ef_rtp_timestamp f) pct = Some (shards, seq', spi').
Proof.
  cbn zeta. intros Hair Hp Hn Hstep Hsh. pose proof Hair as [Hok Hv Hs].
  assert (u32 (vh_frame_number h + 1) = vh_frame_number h + 1) as Hu.
  { destruct Hok as [_ _ _ [? ?] _]. apply u32_id. unfold is_u32. lia. }
  pose proof (host_step_ok powf packet_size probe_epoch _ _ _ _ Hok Hstep) as Hok1.
  cbn [host_step] in Hstep. unfold on_frame in Hstep. unfold frame_shards in Hsh. rewrite Hv, Hs in Hstep.
  pose proof (poll_fec_range powf (vh_bitrate h) now) as Hpct. rewrite Hu in Hstep, Hsh.
  destruct (packetize_frame _ _ _ _ _ _ _ _) as [[[ss q] p]|] eqn:E; [|done]. cbn in Hsh. injection Hsh as ->.
  injection Hstep as <- <-. split_and!; [split; [done|done|exact Hs]|done| |].
  - intros a (s & [= ->] & Hin)%list_elem_of_fmap. destruct fails as [k|]; [|done].
    apply elem_of_take in Hin as (i & Hi & _). by eapply list_elem_of_lookup_2.
  - exists (Z.to_nat (poll_fec_percentage powf (vh_bitrate h) now)), q, p. by split.
Qed.

Lemma expire_settled n dp now : settled_below n dp ->
  settled_below n (expire dp now) /\ (events dp = [] -> delivered (events (expire dp now)) = []).
Proof.
  intros [S1 S2 S3 S4]. unfold expire. rewrite retire_all_spec by done. split.
  - split; cbn [frames last_retired].
    + apply bt_filter_sorted, S1.
    + by apply bt_filter_Forall.
    + etransitivity; [apply length_filter|done].
    + apply raise_all_below; [done|]. by apply bt_filter_Forall.
  - cbn [events]. intros ->. apply retire_all_quiet.
Qed.

Lemma drained_settled n dp : settled_below n dp -> settled_below n (drained dp).
Proof. intros []. by split. Qed.

(** A burst of datagrams that is no shard of a frame. *)
Lemma probes_run arr : forall dp, Forall (fun a => is_Some (parse_rtt_probe a.1) /\ (length a.1 <= MAX_DATAGRAM)%nat) arr ->
  exists outs, video_loop windows dp (map arrive arr) = (dp, outs, None) /\ handed_on outs = [].
Proof.
  induction arr as [|[d now] arr IH]; intros dp H; [by exists []|]. apply Forall_cons in H as [[[t Ht] Hl] H]. cbn [fst] in *.
  cbn [map video_loop]. unfold video_turn, arrive, open_turn. cbn [vt_shutdown vt_sink_open vt_wake fst snd].
  rewrite recv_fits by done. cbn [run_step negb]. rewrite Ht.
  destruct (IH dp H) as (outs & Hrun & Ho). unfold arrive, open_turn in Hrun. rewrite Hrun. by eexists.
Qed.

Context (Hsize : (NV_VIDEO_PACKET_SIZE + VIDEO_FRAME_HEADER_SIZE <= packet_size)%nat)
        (Hbuf : (PAYLOAD_OFFSET + packet_size <= NV_VIDEO_PACKET_SIZE + MAX_DATAGRAM)%nat).

Lemma shard_plain d rtp nv : parse_shard d = Some ((packet_size - NV_VIDEO_PACKET_SIZE)%nat, rtp, nv) -> plain_shard d.
Proof.
  intros Hp. unfold parse_shard in Hp. destruct (shard_payload_len (length d)) as [n|] eqn:E; [|done].
  assert (n = packet_size - NV_VIDEO_PACKET_SIZE)%nat as ->.
  { destruct (negb _); [done|]. destruct (rtp_header_read d); [|done]. destruct (read_from_shard d); [|done].
    cbn in Hp. destruct (_ || _); [done|]. by injection Hp. }
  apply shard_payload_len_spec in E as [E Hn]. split; [|lia].
  destruct (parse_rtt_probe d) eqn:P; [|done]. apply parse_rtt_probe_length in P. rewrite E in P.
  unfold RTT_PROBE_SIZE, PAYLOAD_OFFSET, NV_PACKET_OFFSET, NV_VIDEO_PACKET_SIZE in P. lia.
Qed.

(** A frame the host sends, and the burst of it that arrives. *)
Lemma frame_leg h frame newer fails now h1 outs shards arr dp :
  let f := List.last newer frame in
  on_air h -> settled_below (vh_frame_number h + 1) dp -> events dp = [] ->
  step h (FrameReady frame newer fails now) = Some (h1, outs) ->
  good_frame f -> vh_frame_number h < 2 ^ 32 - 1 ->
  frame_shards h f now = Some shards -> codec_supports shards -> from_batch outs arr ->
  on_air h1 /\ settled_below (vh_frame_number h1 + 1) (drained (receive dp arr)) /\
  video_loop windows dp (map arrive arr) = (drained (receive dp arr), map output_of (events (receive dp arr)), None) /\
  handed_on (map output_of (events (receive dp arr))) = if decide (deliverable shards (map fst arr)) then [au_frame f] else [].
Proof.
  intros f Hair Hset He Hstep Hgood Hn Hsh Hcodec Hb.
  assert (NV_VIDEO_PACKET_SIZE < packet_size)%nat as Hp by (unfold VIDEO_FRAME_HEADER_SIZE in Hsize; lia).
  destruct (frame_step h frame newer fails now h1 outs shards Hair Hp Hn Hstep Hsh)
    as (Hair1 & Hfn & Hin & pct & seq' & spi' & Hpct & Hpk). fold f in Hpk.
  pose proof (oa_ok _ Hair) as [_ Hq Hspi [Hf0 Hf1] _].
  destruct (frame_received (ef_data f) (ef_is_key_frame f) packet_size (vh_frame_number h + 1) (vh_sequence_number h)
    (vh_stream_packet_index h) (ef_rtp_timestamp f) pct shards seq' spi' dp arr)
    as (extra & Hquiet & _ & Hev & Hset1 & Hplain); try done.
  { split; lia. } { apply Hgood. } { apply Hgood. } { split; [lia|]. unfold MAX_DATAGRAM, NV_VIDEO_PACKET_SIZE in *. lia. }
  { by apply good_frame_fits. }
  { eapply Forall_impl; [exact Hb|]. intros a Ha. by apply Hin. }
  assert (Forall (fun a => plain_shard a.1) arr) as Hshard.
  { eapply Forall_impl; [exact Hplain|]. intros a (rtp & nv & Ha). by eapply shard_plain. }
  rewrite <- Hfn in Hset1. split_and!; [exact Hair1|by apply drained_settled|by apply burst_run|].
  rewrite handed_on_events, Hev, He, !delivered_app, Hquiet. cbn [app]. by case_decide.
Qed.


Lemma transmission_run h turns aus h' : transmission h turns aus h' -> on_air h ->
  forall dp, settled_below (vh_frame_number h + 1) dp -> events dp = [] ->
  exists dp' outs, video_loop windows dp turns = (dp', outs, None) /\ handed_on outs = aus /\ on_air h' /\
    settled_below (vh_frame_number h' + 1) dp' /\ events dp' = [].
Proof.
  induction 1 as [h|h now ts aus h' _ IH|h ts aus h' _ IH|h d now ts aus h' Hd _ IH
    |h i h1 outs arr ts aus h' Hi Hstep Hv1 Hs1 Hb _ IH|h frame newer fails now h1 outs shards arr ts aus h' f Hstep Hgood Hn Hsh Hcodec Hb _ IH];
    intros Hair dp Hset He.
  - by exists dp, [].
  - destruct (expire_settled _ _ now Hset) as [Hset' Hq]. specialize (Hq He).
    destruct (IH Hair (drained (expire dp now)) (drained_settled _ _ Hset') eq_refl) as (dp' & o & Hrun & Ho & Hrest).
    exists dp', ((SendToHost PING_PAYLOAD :: map output_of (events (expire dp now))) ++ o).
    split; [|split; [|exact Hrest]].
    + cbn [video_loop]. unfold video_turn, open_turn. cbn [vt_shutdown vt_sink_open vt_wake run_step].
      rewrite drain_events_open. cbn [fst snd app]. fold (drained (expire dp now)). by rewrite Hrun.
    + rewrite handed_on_app, Ho. change (handed_on (map output_of (events (expire dp now))) ++ aus = aus).
      by rewrite handed_on_events, Hq.
  - destruct (IH Hair dp Hset He) as (dp' & o & Hrun & Hrest). exists dp', o. split; [|done].
    cbn [video_loop]. unfold video_turn, open_turn. cbn [vt_shutdown vt_sink_open vt_wake]. by rewrite Hrun.
  - destruct (IH Hair dp Hset He) as (dp' & o & Hrun & Hrest). exists dp', o. split; [|done].
    cbn [video_loop]. unfold video_turn, open_turn. cbn [vt_shutdown vt_sink_open vt_wake].
    rewrite recv_fits by done. cbn [run_step negb]. by rewrite Hrun.
  - destruct (other_step _ _ _ _ Hair Hi Hstep Hv1 Hs1) as [Hfn Hprobe].
    destruct (probes_run arr dp) as (o1 & Hrun1 & Ho1).
    { apply Forall_forall. intros a Ha. unfold from_batch in Hb. rewrite Forall_forall in Hb. rewrite Forall_forall in Hprobe. by apply (Hprobe (viewer, a.1)), Hb. }
    assert (on_air h1) as Hair1.
    { split; [|done..]. eapply host_step_ok; [apply Hair|exact Hstep]. }
    rewrite <- Hfn in Hset. destruct (IH Hair1 dp Hset He) as (dp' & o & Hrun & Ho & Hrest). exists dp', (o1 ++ o).
    split; [|split; [|exact Hrest]]; [|by rewrite handed_on_app, Ho1, Ho].
    erewrite video_loop_app by exact Hrun1. by rewrite Hrun.
  - destruct (frame_leg h frame newer fails now h1 outs shards arr dp Hair Hset He Hstep Hgood Hn Hsh Hcodec Hb)
      as (Hair1 & Hset1 & Hrun1 & Ho1).
    destruct (IH Hair1 _ Hset1 eq_refl) as (dp' & o & Hrun & Ho & Hrest).
    exists dp', (map output_of (events (receive dp arr)) ++ o). split; [|split; [|exact Hrest]].
    + erewrite video_loop_app by exact Hrun1. by rewrite Hrun.
    + rewrite handed_on_app, Ho. f_equal. exact Ho1.
Qed.
End Stream.

(** C12: A whole stream: whatever the network loses, repeats and reorders of each
    frame, and whatever PINGs, probes, refusals and strangers come in between,
    the viewer's task goes on and hands on exactly the frames of which every
    FEC block arrived in sufficient part, in the order they were captured and
    byte for byte; and host and viewer agree on where the stream stands. *)
Theorem stream_delivery {R : ReedSolomon} {RL : ReedSolomonLaws R} (powf : f64 -> f64 -> f64)
    (packet_size : nat) (probe_epoch viewer : Z) (windows : bool) (h h' : VideoHost) (turns : list VideoTurn) (aus : list AuFrame)
    (Hsize : (NV_VIDEO_PACKET_SIZE + VIDEO_FRAME_HEADER_SIZE <= packet_size)%nat)
    (Hbuf : (PAYLOAD_OFFSET + packet_size <= NV_VIDEO_PACKET_SIZE + MAX_DATAGRAM)%nat)
    (Hair : on_air viewer h) (Htm : transmission powf packet_size probe_epoch viewer h turns aus h') :
  on_air viewer h' /\
  exists outs, video_run windows true true turns = (SendToHost PING_PAYLOAD :: outs, None) /\ handed_on outs = aus.
Proof.
  destruct (transmission_run powf packet_size probe_epoch viewer windows Hsize Hbuf h turns aus h' Htm Hair
    depacketizer_new (settled_new _) eq_refl) as (dp' & outs & Hrun & Ho & Hair' & _).
  split; [done|]. exists outs. split; [|done]. unfold video_run. cbn [negb]. by rewrite Hrun.
Qed.

(** One datagram above the buffer, from whatever sender, ends the task where
    it runs under Windows: nothing that arrives after it is handed on. *)
Theorem oversize_ends_video {R : ReedSolomon} (turns later : list VideoTurn) (from_host : bool) (big : list Z) (now : Z)
    (outs : list VideoOutput) :
  video_run true true true turns = (outs, None) -> (MAX_DATAGRAM < length big)%nat ->
  video_run true true true (turns ++ open_turn (WakeRecv from_host big now) :: later) = (outs, Some (EndRecv WSAEMSGSIZE)).
Proof.
  unfold video_run. cbn [negb]. destruct (video_loop true depacketizer_new turns) as [[dp o] e] eqn:E. intros [= <- ->] Hb.
  erewrite video_loop_app by exact E. cbn [video_loop]. unfold video_turn, open_turn. cbn [vt_shutdown vt_wake].
  unfold Links.recv_from. rewrite (proj2 (Nat.leb_gt _ _)) by done. cbn. by rewrite app_nil_r.
Qed.

(** ** Witnesses *)

Definition key_frame_example : EncodedFrame := {| ef_data := [1; 2; 3]; ef_is_key_frame := true; ef_rtp_timestamp := 90 |}.
Definition delta_frame_example : EncodedFrame :=
  {| ef_data := replicate 40 7; ef_is_key_frame := false; ef_rtp_timestamp := 180 |}.

Definition after (h : VideoHost) (i : HostInput) : VideoHost :=
  match host_step (R := XorCodec) powf_half 48 0 h i with Some (h', _) => h' | None => h end.
Definition sent_by (h : VideoHost) (i : HostInput) : list (list Z) :=
  match host_step (R := XorCodec) powf_half 48 0 h i with Some (_, outs) => map snd outs | None => [] end.

Definition frame_input (f : EncodedFrame) : HostInput := FrameReady f [] None 2000000000.
Definition stream_1 : VideoHost := after host_example (frame_input key_frame_example).
Definition ping_input : HostInput := RecvFrom 77 PING_PAYLOAD 2100000000.
Definition stream_2 : VideoHost := after stream_1 ping_input.
Definition stream_3 : VideoHost := after stream_2 (frame_input delta_frame_example).

(** The parity shard alone of the first frame, twice; the probe; and the
    shards of the second but the first, backwards. *)
Definition key_shards : list (list Z) := sent_by host_example (frame_input key_frame_example).
Definition delta_shards : list (list Z) := sent_by stream_2 (frame_input delta_frame_example).
Definition key_arrivals : list (list Z * Z) := let p := List.last key_shards [] in [(p, 1); (p, 1)].
Definition probe_arrivals : list (list Z * Z) := map (fun d => (d, 3)) (sent_by stream_1 ping_input).
Definition delta_arrivals : list (list Z * Z) := map (fun d => (d, 5)) (rev (drop 1 delta_shards)).

Definition stream_turns_example : list VideoTurn :=
  map arrive key_arrivals ++ open_turn (WakeRecv false [9; 9] 2)
  :: map arrive probe_arrivals ++ open_turn (WakePing 4) :: map arrive delta_arrivals ++ [].

Lemma batch_witness viewer outs arr :
  forallb (fun a => bool_decide ((viewer, a.1) ∈ outs)) arr = true -> from_batch viewer outs arr.
Proof.
  rewrite forallb_forall. intros H. apply Forall_forall. intros a Ha%list_elem_of_In. by apply (bool_decide_eq_true_1 _ (H a Ha)).
Qed.

Lemma supports_witness `{ReedSolomon} shards :
  forallb (fun s => match shard_nv s with
                    | Some nv => (parity_shards nv =? 0)%nat || rs_new (data_shards nv) (parity_shards nv)
                    | None => true
                    end) shards = true -> codec_supports shards.
Proof.
  unfold codec_supports. rewrite forallb_forall, Forall_forall. intros Hs s Hin%list_elem_of_In. specialize (Hs s Hin).
  destruct (shard_nv s) as [nv|]; [|done]. intros Hp. apply orb_prop in Hs as [Hs|Hs]; [|done]. bool_prop. lia.
Qed.

Lemma host_example_on_air : on_air 77 host_example.
Proof. split; [|reflexivity..]. split; [reflexivity|split; vm_compute; congruence..|]. right. split; vm_compute; congruence. Qed.

Lemma stream_example_runs : transmission (R := XorCodec) powf_half 48 0 77 host_example stream_turns_example
  [au_frame key_frame_example; au_frame delta_frame_example] stream_3.
Proof.
  replace [au_frame key_frame_example; au_frame delta_frame_example]
    with ((if decide (deliverable key_shards (map fst key_arrivals)) then [au_frame (List.last [] key_frame_example)] else [])
          ++ (if decide (deliverable delta_shards (map fst delta_arrivals)) then [au_frame (List.last [] delta_frame_example)] else []) ++ [])
    by (vm_compute; reflexivity).
  apply (tm_frame (R := XorCodec) powf_half 48 0 77 host_example key_frame_example [] None 2000000000 stream_1
    (map (pair 77) key_shards) key_shards key_arrivals); [vm_compute; reflexivity| |vm_compute; reflexivity..| | |].
  1: split; [done|split; [by apply Nat.leb_le; vm_compute|split; vm_compute; congruence]].
  1: apply supports_witness; vm_compute; reflexivity.
  1: apply batch_witness; vm_compute; reflexivity.
  apply tm_stranger; [by apply Nat.leb_le|].
  apply (tm_host (R := XorCodec) powf_half 48 0 77 stream_1 ping_input stream_2
    (map (pair 77) (sent_by stream_1 ping_input)) probe_arrivals); [vm_compute; reflexivity..| |].
  1: apply batch_witness; vm_compute; reflexivity.
  apply tm_ping.
  apply (tm_frame (R := XorCodec) powf_half 48 0 77 stream_2 delta_frame_example [] None 2000000000 stream_3
    (map (pair 77) delta_shards) delta_shards delta_arrivals); [vm_compute; reflexivity| |vm_compute; reflexivity..| | |apply tm_end].
  1: split; [done|split; [by apply Nat.leb_le; vm_compute|split; vm_compute; congruence]].
  1: apply supports_witness; vm_compute; reflexivity.
  1: apply batch_witness; vm_compute; reflexivity.
Qed.

Lemma stream_delivery_witness : exists outs,
  video_run (R := XorCodec) true true true stream_turns_example = (SendToHost PING_PAYLOAD :: outs, None) /\
  handed_on outs = [au_frame key_frame_example; au_frame delta_frame_example].
Proof.
  destruct (stream_delivery (R := XorCodec) powf_half 48 0 77 true host_example stream_3 stream_turns_example
    [au_frame key_frame_example; au_frame delta_frame_example]) as [_ H];
    [by apply Nat.leb_le|by apply Nat.leb_le|exact host_example_on_air|exact stream_example_runs|exact H].
Defined.

Lemma oversize_ends_video_witness : exists outs,
  video_run (R := XorCodec) true true true stream_turns_example = (outs, None) /\
  video_run (R := XorCodec) true true true (stream_turns_example ++ open_turn (WakeRecv false (replicate 2049 0) 6) :: stream_turns_example)
  = (outs, Some (EndRecv WSAEMSGSIZE)).
Proof.
  eexists. split; [vm_compute; reflexivity|].
  apply (oversize_ends_video (R := XorCodec) stream_turns_example stream_turns_example false (replicate 2049 0) 6);
    [vm_compute; reflexivity|]. rewrite length_replicate. unfold MAX_DATAGRAM. lia.
Defined.
