(* ===== verification/Recorder.v ===== *)
(** * The sound thread and the recorder of the host
    ([kmc-streamhost/src/audio.rs], the capture thread;
    [kmc-streamhost/src/lib.rs])

    The thread that opens the sound device again and again, over the framing
    of Audio.v, and the recorder that writes the first seconds of the screen to
    a file.  The device, the clock and the file encoder are arguments; times
    of the sound thread are in milliseconds. *)
From S2P Require Import Prelude Audio.

(** ** The sound thread *)

(** A round of the loop: what reading the device gave ([None] is an error),
    whether the receiver of the frames is gone, after how long the device
    signals ([None]: it never does). *)
Record Round := mkRound { rd_read : option (list Z); rd_gone : bool; rd_signal : option Z }.

Definition EVENT_WAIT_MS : Z := 1000000.
Definition RESTART_MS : Z := 1000.

Inductive LoopEnd := ReceiverGone | LoopFailed.

Section Sound.
Context (encode : list Z -> option (list Z)).

(** [capture_encode_loop] from the bytes already queued: the frames sent, the
    clock, the end if there is one. *)
Fixpoint rounds_loop (rounds : list Round) (queue : list Z) (now : Z) : list (list Z) * Z * option LoopEnd :=
  match rounds with
  | [] => ([], now, None)
  | r :: rounds =>
      let '(frames, queue) := capture_round encode queue (default [] (rd_read r)) in
      if rd_gone r && negb (bool_decide (frames = [])) then ([], now, Some ReceiverGone)
      else
        match rd_signal r with
        | Some d =>
            if d <=? EVENT_WAIT_MS then
              let '(more, now, e) := rounds_loop rounds queue (now + d) in (frames ++ more, now, e)
            else (frames, now + EVENT_WAIT_MS, Some LoopFailed)
        | None => (frames, now + EVENT_WAIT_MS, Some LoopFailed)
        end
  end.

Definition capture_encode_loop (device_ok : bool) (rounds : list Round) (now : Z) : list (list Z) * Z * option LoopEnd :=
  if device_ok then rounds_loop rounds [] now else ([], now, Some LoopFailed).

(** A run of the loop: whether the device opens, its rounds, whether the
    channel is closed when it has failed. *)
Record SoundRun := mkSoundRun { run_device : bool; run_rounds : list Round; run_closed : bool }.

(** The thread [start] spawns; the flag tells whether it has ended. *)
Fixpoint capture_thread (runs : list SoundRun) (now : Z) : list (list Z) * Z * bool :=
  match runs with
  | [] => ([], now, false)
  | r :: runs =>
      match capture_encode_loop (run_device r) (run_rounds r) now with
      | (frames, now, None) => (frames, now, false)
      | (frames, now, Some ReceiverGone) => (frames, now, true)
      | (frames, now, Some LoopFailed) =>
          if run_closed r then (frames, now, true)
          else let '(more, now, ended) := capture_thread runs (now + RESTART_MS) in (frames ++ more, now, ended)
      end
  end.

(** The bytes a run reads while its device signals in time. *)
Fixpoint run_bytes (rounds : list Round) : list (list Z) :=
  match rounds with
  | [] => []
  | r :: rounds =>
      default [] (rd_read r) ::
      match rd_signal r with
      | Some d => if d <=? EVENT_WAIT_MS then run_bytes rounds else []
      | None => []
      end
  end.
End Sound.

(** ** The recorder *)

Section Recording.
(** The file encoder of the capture library. *)
Context {Enc Frame File : Type}.
Context (enc_new : Z -> Z -> option Enc) (enc_send : Enc -> Frame -> option Enc) (enc_finish : Enc -> option File).

Record FileRecorder := mkFileRecorder { fr_encoder : option Enc; fr_duration : Z; fr_frames : Z }.

Definition recorder_new (width height duration_secs : Z) : option FileRecorder :=
  match enc_new width height with
  | Some e => Some {| fr_encoder := Some e; fr_duration := duration_secs; fr_frames := 0 |}
  | None => None
  end.

Inductive Arrived := Goes (r : FileRecorder) | Stops (file : option File) | Fails.

(** [on_frame_arrived], [elapsed] whole seconds after the start; [Stops] is
    the capture told to stop, with the file if the encoder was still there. *)
Definition recorder_frame (r : FileRecorder) (elapsed : Z) (frame : Frame) : Arrived :=
  let sent := match fr_encoder r with Some e => option_map Some (enc_send e frame) | None => Some None end in
  match sent with
  | None => Fails
  | Some enc =>
      if fr_duration r <=? elapsed then
        match enc with
        | Some e => match enc_finish e with Some f => Stops (Some f) | None => Fails end
        | None => Stops None
        end
      else Goes {| fr_encoder := enc; fr_duration := fr_duration r; fr_frames := u64 (fr_frames r + 1) |}
  end.

(** The capture delivers frames until it is told to stop; [None] is a capture
    that goes on. *)
Fixpoint record_frames (r : FileRecorder) (frames : list (Z * Frame)) : option (option File) :=
  match frames with
  | [] => None
  | (elapsed, frame) :: frames =>
      match recorder_frame r elapsed frame with
      | Goes r => record_frames r frames
      | Stops f => Some f
      | Fails => Some None
      end
  end.

(** [monitor_resolution]: even dimensions. *)
Definition monitor_resolution (monitor : option (Z * Z)) : option (Z * Z) :=
  match monitor with
  | Some (w, h) => Some (Z.land w 0xFFFFFFFE, Z.land h 0xFFFFFFFE)
  | None => None
  end.

Definition record_primary_monitor (monitor : option (Z * Z)) (duration_secs : Z) (frames : list (Z * Frame))
  : option (option File) :=
  match monitor_resolution monitor with
  | None => Some None
  | Some (w, h) =>
      match recorder_new w h duration_secs with
      | None => Some None
      | Some r => record_frames r frames
      end
  end.

Fixpoint send_all (e : Enc) (frames : list (Z * Frame)) : option Enc :=
  match frames with
  | [] => Some e
  | f :: frames => match enc_send e f.2 with Some e => send_all e frames | None => None end
  end.

Lemma record_frames_spec duration frame elapsed after file e' : forall before e n,
  Forall (fun f => f.1 < duration) before -> send_all e (before ++ [(elapsed, frame)]) = Some e' ->
  enc_finish e' = Some file -> duration <= elapsed ->
  let r := {| fr_encoder := Some e; fr_duration := duration; fr_frames := n |} in
  record_frames r (before ++ (elapsed, frame) :: after) = Some (Some file) /\ record_frames r before = None.
Proof.
  intros before e n Hb. revert e n. induction Hb as [|[t f] before Ht Hb IH]; intros e n Hs Hf Hd; cbn zeta.
  - cbn [app send_all snd] in Hs. cbn [app record_frames]. unfold recorder_frame. cbn [fr_encoder fr_duration].
    destruct (enc_send e frame) as [e1|]; [|done]. cbn [option_map]. injection Hs as ->.
    by rewrite (proj2 (Z.leb_le _ _)), Hf by lia.
  - cbn [app send_all record_frames snd] in *. unfold recorder_frame. cbn [fr_encoder fr_duration fr_frames].
    destruct (enc_send e f) as [e1|] eqn:E1; [|done]. cbn [option_map].
    rewrite (proj2 (Z.leb_gt _ _)) by (cbn in Ht; lia). by apply IH.
Qed.

(** A recording is the encoder fed with exactly the frames up to the first one
    at or past the duration, and finished once, whatever comes after; and it
    does not end without such a frame. *)
Theorem recording_spec monitor ew eh duration before elapsed frame after e e' file :
  monitor_resolution monitor = Some (ew, eh) -> enc_new ew eh = Some e ->
  Forall (fun f => f.1 < duration) before -> send_all e (before ++ [(elapsed, frame)]) = Some e' ->
  enc_finish e' = Some file -> duration <= elapsed ->
  record_primary_monitor monitor duration (before ++ (elapsed, frame) :: after) = Some (Some file) /\
  record_primary_monitor monitor duration before = None.
Proof.
  intros Hm He Hb Hs Hf Hd. unfold record_primary_monitor, recorder_new. rewrite Hm, He. by eapply record_frames_spec.
Qed.
End Recording.

(** ** The sound thread, over its runs *)

Section SoundProps.
Context (encode : list Z -> option (list Z)).

Definition capture_from (st : list (list Z) * list Z) (chunks : list (list Z)) : list (list Z) * list Z :=
  foldl (fun st chunk => let '(frames, rest) := capture_round encode st.2 chunk in (st.1 ++ frames, rest)) st chunks.

Lemma capture_from_prefix fs q chunks : (capture_from (fs, q) chunks).1 = fs ++ (capture_from ([], q) chunks).1.
Proof.
  unfold capture_from. revert fs q. induction chunks as [|c chunks IH]; intros fs q; cbn [foldl fst snd]; [by rewrite app_nil_r|].
  destruct (capture_round encode q c) as [f1 q1]. cbn [app]. rewrite IH, (IH f1). by rewrite app_assoc.
Qed.

(** Nobody drops the frames, and a signal does not come before the wait. *)
Definition round_ok (r : Round) : Prop := rd_gone r = false /\ match rd_signal r with Some d => 0 <= d | None => True end.

Definition failed (e : option LoopEnd) : bool := match e with Some LoopFailed => true | _ => false end.

(** The frames of a run are those of its bytes; a failure is at least one
    whole wait after the start. *)
Lemma rounds_loop_spec rounds : forall queue now frames now' e,
  Forall round_ok rounds -> rounds_loop encode rounds queue now = (frames, now', e) ->
  frames = (capture_from ([], queue) (run_bytes rounds)).1 /\ e <> Some ReceiverGone /\
  now + (if failed e then EVENT_WAIT_MS else 0) <= now'.
Proof.
  induction rounds as [|r rounds IH]; intros queue now frames now' e Hg H; cbn [rounds_loop run_bytes] in *.
  - simplify_eq. cbn. repeat split; [done|lia].
  - inversion_clear Hg as [|? ? [H1 Hd] H2]. unfold capture_from. cbn [foldl fst snd]. fold (capture_from).
    destruct (capture_round encode queue (default [] (rd_read r))) as [f1 q1]. rewrite H1 in H. cbn [andb app] in *.
    assert (Hend : (f1, now + EVENT_WAIT_MS, Some LoopFailed) = (frames, now', e) ->
      frames = f1 /\ e <> Some ReceiverGone /\ now + (if failed e then EVENT_WAIT_MS else 0) <= now')
      by (intros [= <- <- <-]; cbn; repeat split; [done|lia]).
    destruct (rd_signal r) as [d|]; [|by apply Hend]. destruct (d <=? EVENT_WAIT_MS); [|by apply Hend].
    destruct (rounds_loop encode rounds q1 (now + d)) as [[more nw] e1] eqn:E. simplify_eq.
    apply IH in E as (-> & He & Ht); [|done]. change (foldl _ (f1, q1) (run_bytes rounds)) with (capture_from (f1, q1) (run_bytes rounds)).
    rewrite (capture_from_prefix f1 q1). split; [done|]. split; [exact He|]. lia.
Qed.

(** When the end comes does not depend on when the run starts. *)
Lemma rounds_loop_end rounds : forall queue now now2,
  (rounds_loop encode rounds queue now).2 = (rounds_loop encode rounds queue now2).2.
Proof.
  induction rounds as [|r rounds IH]; intros queue now now2; cbn [rounds_loop]; [done|].
  destruct (capture_round encode queue (default [] (rd_read r))) as [f1 q1]. case_match; [done|].
  destruct (rd_signal r) as [d|]; [|done]. case_match; [|done].
  pose proof (IH q1 (now + d) (now2 + d)) as E.
  by destruct (rounds_loop encode rounds q1 (now + d)) as [[? ?] ?], (rounds_loop encode rounds q1 (now2 + d)) as [[? ?] ?].
Qed.

(** A run that fails while its frames are taken and the thread is wanted. *)
Definition failed_run (r : SoundRun) : Prop :=
  run_closed r = false /\ Forall round_ok (run_rounds r) /\
  (capture_encode_loop encode (run_device r) (run_rounds r) 0).2 = Some LoopFailed.

Definition run_frames (r : SoundRun) : list (list Z) :=
  if run_device r then (capture_loop encode (run_bytes (run_rounds r))).1 else [].

Definition opened (runs : list SoundRun) : nat := length (filter (fun r => run_device r = true) runs).

(** A failing device costs less than one frame of what was read, and the
    thread opens the next one: it has then sent the frames of each run, run by
    run, and is not over.  But a device that no longer signals - even one that
    could not be read - is noticed only after 1000 s, and the next is tried
    1 s after that. *)
Theorem sound_survives_devices runs now :
  Forall failed_run runs ->
  let '(frames, now', ended) := capture_thread encode runs now in
  frames = concat (map run_frames runs) /\ ended = false /\
  now + Z.of_nat (length runs) * RESTART_MS + Z.of_nat (opened runs) * EVENT_WAIT_MS <= now'.
Proof.
  intros H. revert now. induction H as [|r runs (Hc & Hr & He) H IH]; intros now.
  - cbn. repeat split. lia.
  - cbn [capture_thread map concat]. unfold run_frames at 1. unfold capture_encode_loop in *.
    unfold opened in *. rewrite filter_cons. destruct (run_device r).
    + rewrite decide_True by done. rewrite (rounds_loop_end _ _ 0 now) in He.
      destruct (rounds_loop encode (run_rounds r) [] now) as [[fs nw] e] eqn:E. cbn [snd] in He. subst e.
      apply rounds_loop_spec in E as (-> & _ & Ht); [|done]. rewrite Hc.
      specialize (IH (nw + RESTART_MS)). destruct (capture_thread encode runs (nw + RESTART_MS)) as [[more n2] en].
      destruct IH as (-> & -> & IH). cbn [failed] in Ht. cbn [length]. repeat split. lia.
    + rewrite decide_False by done. rewrite Hc. specialize (IH (now + RESTART_MS)).
      destruct (capture_thread encode runs (now + RESTART_MS)) as [[more n2] en].
      destruct IH as (-> & -> & IH). cbn [length]. repeat split. lia.
Qed.
End SoundProps.

(** ** Witnesses *)

(** Two seconds: the third frame arrives at the end and is still taken. *)
Lemma recording_spec_witness :
  record_primary_monitor (fun w h => Some ([] : list Z)) (fun e (f : Z) => Some (e ++ [f])) (fun e => Some e)
    (Some (1921, 1080)) 2 [(0, 10); (1, 11); (2, 12); (3, 13)] = Some (Some [10; 11; 12]).
Proof.
  apply (recording_spec (fun w h => Some ([] : list Z)) (fun e (f : Z) => Some (e ++ [f])) (fun e => Some e)
    (Some (1921, 1080)) 1920 1080 2 [(0, 10); (1, 11)] 2 12 [(3, 13)] [] [10; 11; 12]); try reflexivity; try lia.
  repeat constructor; cbn; lia.
Defined.

(** One read fails and the device is silent; the next gives two frames. *)
Definition sound_runs_example : list SoundRun :=
  [mkSoundRun true [mkRound (Some (replicate 1000 0)) false (Some 5); mkRound None false None] false;
   mkSoundRun false [] false;
   mkSoundRun true [mkRound (Some (replicate 960 1)) false None] false].

Lemma sound_survives_devices_witness :
  let '(frames, now', ended) := capture_thread (fun pcm => Some (take 1 pcm)) sound_runs_example 0 in
  frames = [[0]; [257]] /\ ended = false /\ 2003000 <= now'.
Proof.
  pose proof (sound_survives_devices (fun pcm => Some (take 1 pcm)) sound_runs_example 0) as H.
  destruct (capture_thread _ _ _) as [[frames now'] ended]. destruct H as (-> & -> & H).
  - apply Forall_cons. split; [|apply Forall_cons; split; [|apply Forall_cons; split; [|constructor]]];
      (split; [done|]; split; [repeat (constructor; [split; [done|cbn; first [done|lia]]|]); constructor|vm_compute; reflexivity]).
  - split; [vm_compute; reflexivity|]. split; [done|]. exact H.
Defined.
