(* ===== verification/HubState.v ===== *)
(** * Protocol types, database and shared state of the hub
    ([kmc-proto/src/lib.rs], [kmc-hub/src/db.rs], [kmc-hub/src/state.rs])

    [HashMap]s behind mutexes are [gmap]s; a [Uuid] is an integer.  The two
    SQLite tables are lists of rows in insertion order, with their UNIQUE
    constraints checked on insert.  Argon2 verification is a parameter. *)
From Stdlib Require Import Floats.SpecFloat.
From S2P Require Import Prelude Float.

Abbreviation Uuid := Z.

(** ** Protocol *)

Record ProcessInfo := mkProcessInfo { pi_pid : Z; pi_name : string; pi_cpu : f32; pi_mem_bytes : Z }.

Record StatusReport := mkStatusReport {
  battery_percent : option f32;
  battery_charging : option bool;
  disk_free_bytes : Z;
  disk_total_bytes : Z;
  processes : list ProcessInfo;
  reported_at : Z;
  encoder_ok : option bool
}.

Definition LOW_BATTERY_THRESHOLD : f32 := f32_lit 20 1.

Inductive CommandKind :=
| PowerShell (script : string)
| Gui (tool args : string).

Record CommandRequest := mkCommandRequest { cr_id : Uuid; cr_kind : CommandKind; cr_destructive : bool }.

Record CommandResult := mkCommandResult {
  res_id : Uuid;
  exit_code : option Z;
  res_stdout : string;
  res_stderr : string;
  res_error : option string
}.

Inductive AgentToHub :=
| Hello (agent_id : Uuid) (name provision_token : string) (stream_addr : option string)
| Status (report : StatusReport)
| CommandResultMsg (result : CommandResult).

Inductive HubToAgent := HelloOk | RunCommand (cmd : CommandRequest).

Record AgentView := mkAgentView {
  av_agent_id : Uuid;
  av_name : string;
  av_online : bool;
  av_status : option StatusReport;
  av_controlled_by : option string;
  av_tailscale_addr : option string
}.

Inductive AlertLevel := LevelInfo | LevelWarning | LevelCritical.

(** The text of an alert is kept as its ingredients. *)
Inductive HubToAdmin :=
| Snapshot (agents : list AgentView)
| AgentUpdated (agent : AgentView)
| Alert (agent_id : Uuid) (level : AlertLevel) (name : string) (percent : option f32).

(** ** Database *)

Record Laptop := mkLaptop { lp_agent_id : Uuid; lp_mac : string; lp_name : string; lp_token : string }.
Record AdminRow := mkAdminRow { ad_id : Z; ad_username : string; ad_hash : string }.
Record Db := mkDb { laptops : list Laptop; admins : list AdminRow; next_admin_id : Z }.

Definition db_empty : Db := {| laptops := []; admins := []; next_admin_id := 1 |}.

(** [format!("student-{:02}", n)] *)
Fixpoint digits (fuel : nat) (n : nat) (acc : string) : string :=
  match fuel with
  | O => acc
  | S fuel =>
      let acc := String (Ascii.ascii_of_nat (48 + n mod 10)) acc in
      if (n <? 10)%nat then acc else digits fuel (n / 10) acc
  end.
Definition format_02 (n : nat) : string :=
  if (n <? 10)%nat then String (Ascii.ascii_of_nat 48) (digits 1 n EmptyString) else digits n n EmptyString.
Definition student_name (n : nat) : string := ("student-" ++ format_02 n)%string.

(** An existing MAC returns its row; otherwise a row is inserted, unless the
    fresh identifier violates the primary key. *)
Definition get_or_create_laptop (db : Db) (mac : string) (new_id : Uuid) (new_token : string)
  : option (Laptop * Db) :=
  match list_find (fun l => lp_mac l = mac) (laptops db) with
  | Some (_, l) => Some (l, db)
  | None =>
      if bool_decide (Exists (fun l => lp_agent_id l = new_id) (laptops db)) then None
      else
        let l := {| lp_agent_id := new_id; lp_mac := mac; lp_name := student_name (length (laptops db) + 1);
                    lp_token := new_token |} in
        Some (l, {| laptops := laptops db ++ [l]; admins := admins db; next_admin_id := next_admin_id db |})
  end.

Definition verify_agent (db : Db) (agent_id : Uuid) (provision_token : string) : option string :=
  match list_find (fun l => lp_agent_id l = agent_id /\ lp_token l = provision_token) (laptops db) with
  | Some (_, l) => Some (lp_name l)
  | None => None
  end.

Definition laptop_name (db : Db) (agent_id : Uuid) : option string :=
  match list_find (fun l => lp_agent_id l = agent_id) (laptops db) with
  | Some (_, l) => Some (lp_name l)
  | None => None
  end.

Section Admins.
Context (verify_password : string -> string -> bool) (hash_password : string -> string).

Definition verify_admin (db : Db) (username password : string) : option Z :=
  match list_find (fun a => ad_username a = username) (admins db) with
  | Some (_, a) => if verify_password password (ad_hash a) then Some (ad_id a) else None
  | None => None
  end.

(** [None]: the user name is taken. *)
Definition add_admin (db : Db) (username password : string) : option Db :=
  if bool_decide (Exists (fun a => ad_username a = username) (admins db)) then None
  else Some {| laptops := laptops db;
               admins := admins db ++ [{| ad_id := next_admin_id db; ad_username := username;
                                          ad_hash := hash_password password |}];
               next_admin_id := next_admin_id db + 1 |}.
End Admins.

(** ** Shared state *)

Record AgentConn := mkAgentConn {
  ac_name : string;
  last_status : option StatusReport;
  (** also names the channel [tx] of the connection *)
  conn_id : Z
}.

Record ControlSession := mkControlSession { admin_username : string; session_token : string }.

Record Hub := mkHub {
  hub_db : Db;
  admin_tokens : gmap string Z;
  admin_names : gmap string string;
  online : gmap Z AgentConn;
  agent_addr : gmap Z string;
  sessions : gmap Z ControlSession;
  (** command id to the request waiting for it *)
  pending_cmds : gmap Z nat;
  next_conn_id : Z;
  (** channels whose send task still runs, and what was put into them *)
  open_channels : gset Z;
  outbox : list (Z * HubToAgent);
  (** results handed to waiting requests *)
  answers : list (nat * CommandResult);
  broadcasts : list HubToAdmin
}.

Definition hub_new (db : Db) : Hub :=
  {| hub_db := db; admin_tokens := ∅; admin_names := ∅; online := ∅; agent_addr := ∅; sessions := ∅;
     pending_cmds := ∅; next_conn_id := 1; open_channels := ∅; outbox := []; answers := []; broadcasts := [] |}.

Definition admin_from_token (h : Hub) (token : string) : option string := admin_names h !! token.

Definition build_agent_view (h : Hub) (agent_id : Uuid) : option AgentView :=
  name <-? laptop_name (hub_db h) agent_id;
  Some {| av_agent_id := agent_id; av_name := name;
          av_online := match online h !! agent_id with Some _ => true | None => false end;
          av_status := match online h !! agent_id with Some c => last_status c | None => None end;
          av_controlled_by := match sessions h !! agent_id with Some s => Some (admin_username s) | None => None end;
          av_tailscale_addr := None |}.

(** Rows ordered by name in the query; the order is left to the database. *)
Definition snapshot (h : Hub) (order : list Laptop -> list Laptop) : list AgentView :=
  omap (fun l => build_agent_view h (lp_agent_id l)) (order (laptops (hub_db h))).

(** ** Field updates *)

Definition set_hub_db (h : Hub) (v : Db) : Hub :=
  {| hub_db := v; admin_tokens := admin_tokens h; admin_names := admin_names h; online := online h; agent_addr
     := agent_addr h; sessions := sessions h; pending_cmds := pending_cmds h; next_conn_id := next_conn_id h;
     open_channels := open_channels h; outbox := outbox h; answers := answers h; broadcasts := broadcasts h
     |}.
Definition set_admin_tokens (h : Hub) (v : gmap string Z) : Hub :=
  {| hub_db := hub_db h; admin_tokens := v; admin_names := admin_names h; online := online h; agent_addr :=
     agent_addr h; sessions := sessions h; pending_cmds := pending_cmds h; next_conn_id := next_conn_id h;
     open_channels := open_channels h; outbox := outbox h; answers := answers h; broadcasts := broadcasts h
     |}.
Definition set_admin_names (h : Hub) (v : gmap string string) : Hub :=
  {| hub_db := hub_db h; admin_tokens := admin_tokens h; admin_names := v; online := online h; agent_addr :=
     agent_addr h; sessions := sessions h; pending_cmds := pending_cmds h; next_conn_id := next_conn_id h;
     open_channels := open_channels h; outbox := outbox h; answers := answers h; broadcasts := broadcasts h
     |}.
Definition set_online (h : Hub) (v : gmap Z AgentConn) : Hub :=
  {| hub_db := hub_db h; admin_tokens := admin_tokens h; admin_names := admin_names h; online := v; agent_addr
     := agent_addr h; sessions := sessions h; pending_cmds := pending_cmds h; next_conn_id := next_conn_id h;
     open_channels := open_channels h; outbox := outbox h; answers := answers h; broadcasts := broadcasts h
     |}.
Definition set_agent_addr (h : Hub) (v : gmap Z string) : Hub :=
  {| hub_db := hub_db h; admin_tokens := admin_tokens h; admin_names := admin_names h; online := online h;
     agent_addr := v; sessions := sessions h; pending_cmds := pending_cmds h; next_conn_id := next_conn_id h;
     open_channels := open_channels h; outbox := outbox h; answers := answers h; broadcasts := broadcasts h
     |}.
Definition set_sessions (h : Hub) (v : gmap Z ControlSession) : Hub :=
  {| hub_db := hub_db h; admin_tokens := admin_tokens h; admin_names := admin_names h; online := online h;
     agent_addr := agent_addr h; sessions := v; pending_cmds := pending_cmds h; next_conn_id := next_conn_id
     h; open_channels := open_channels h; outbox := outbox h; answers := answers h; broadcasts := broadcasts h
     |}.
Definition set_pending_cmds (h : Hub) (v : gmap Z nat) : Hub :=
  {| hub_db := hub_db h; admin_tokens := admin_tokens h; admin_names := admin_names h; online := online h;
     agent_addr := agent_addr h; sessions := sessions h; pending_cmds := v; next_conn_id := next_conn_id h;
     open_channels := open_channels h; outbox := outbox h; answers := answers h; broadcasts := broadcasts h
     |}.
Definition set_next_conn_id (h : Hub) (v : Z) : Hub :=
  {| hub_db := hub_db h; admin_tokens := admin_tokens h; admin_names := admin_names h; online := online h;
     agent_addr := agent_addr h; sessions := sessions h; pending_cmds := pending_cmds h; next_conn_id := v;
     open_channels := open_channels h; outbox := outbox h; answers := answers h; broadcasts := broadcasts h
     |}.
Definition set_open_channels (h : Hub) (v : gset Z) : Hub :=
  {| hub_db := hub_db h; admin_tokens := admin_tokens h; admin_names := admin_names h; online := online h;
     agent_addr := agent_addr h; sessions := sessions h; pending_cmds := pending_cmds h; next_conn_id :=
     next_conn_id h; open_channels := v; outbox := outbox h; answers := answers h; broadcasts := broadcasts h
     |}.
Definition set_outbox (h : Hub) (v : list (Z * HubToAgent)) : Hub :=
  {| hub_db := hub_db h; admin_tokens := admin_tokens h; admin_names := admin_names h; online := online h;
     agent_addr := agent_addr h; sessions := sessions h; pending_cmds := pending_cmds h; next_conn_id :=
     next_conn_id h; open_channels := open_channels h; outbox := v; answers := answers h; broadcasts :=
     broadcasts h |}.
Definition set_answers (h : Hub) (v : list (nat * CommandResult)) : Hub :=
  {| hub_db := hub_db h; admin_tokens := admin_tokens h; admin_names := admin_names h; online := online h;
     agent_addr := agent_addr h; sessions := sessions h; pending_cmds := pending_cmds h; next_conn_id :=
     next_conn_id h; open_channels := open_channels h; outbox := outbox h; answers := v; broadcasts :=
     broadcasts h |}.
Definition set_broadcasts (h : Hub) (v : list HubToAdmin) : Hub :=
  {| hub_db := hub_db h; admin_tokens := admin_tokens h; admin_names := admin_names h; online := online h;
     agent_addr := agent_addr h; sessions := sessions h; pending_cmds := pending_cmds h; next_conn_id :=
     next_conn_id h; open_channels := open_channels h; outbox := outbox h; answers := answers h; broadcasts :=
     v |}.

(** [broadcast] *)
Definition broadcast (h : Hub) (msg : HubToAdmin) : Hub := set_broadcasts h (broadcasts h ++ [msg]).

(** ** Provisioning *)

Definition digits_val (s : string) (v : nat) : nat :=
  foldl (fun v c => (10 * v + (Ascii.nat_of_ascii c - 48))%nat) v (String.list_ascii_of_string s).

Lemma digit_value d : (d < 10)%nat -> (Ascii.nat_of_ascii (Ascii.ascii_of_nat (48 + d)) - 48)%nat = d.
Proof. intros H. rewrite Ascii.nat_ascii_embedding by lia. lia. Qed.

Lemma digits_val_digits fuel n acc :
  (n < 10 ^ fuel)%nat -> digits_val (digits fuel n acc) 0 = digits_val acc n.
Proof.
  revert n acc. induction fuel as [|fuel IH]; intros n acc H.
  - simpl in H. assert (n = 0)%nat as -> by lia. done.
  - cbn [digits].
    assert (E : forall v, digits_val (String (Ascii.ascii_of_nat (48 + n mod 10)) acc) v = digits_val acc (10 * v + n mod 10)).
    { intros v. unfold digits_val. cbn [String.list_ascii_of_string foldl].
      rewrite digit_value; [done|]. apply Nat.mod_upper_bound. lia. }
    destruct (n <? 10)%nat eqn:Hn.
    + apply Nat.ltb_lt in Hn. rewrite E, Nat.mod_small by lia. done.
    + rewrite IH.
      * rewrite E. f_equal. pose proof (Nat.div_mod n 10). lia.
      * apply Nat.Div0.div_lt_upper_bound. cbn [Nat.pow] in H. lia.
Qed.

Lemma format_02_val n : digits_val (format_02 n) 0 = n.
Proof.
  unfold format_02. destruct (n <? 10)%nat eqn:Hn.
  - apply Nat.ltb_lt in Hn. unfold digits_val. cbn [String.list_ascii_of_string foldl].
    fold (digits_val (digits 1 n "") (10 * 0 + (Ascii.nat_of_ascii (Ascii.ascii_of_nat 48) - 48))).
    assert ((10 * 0 + (Ascii.nat_of_ascii (Ascii.ascii_of_nat 48) - 48))%nat = 0%nat) as -> by done.
    rewrite digits_val_digits by (simpl; lia). done.
  - rewrite digits_val_digits; [done|]. apply Nat.pow_gt_lin_r. lia.
Qed.

Lemma student_name_inj n m : student_name n = student_name m -> n = m.
Proof.
  intros E. unfold student_name in E. cbn [String.append] in E. injection E as E.
  change (format_02 n = format_02 m) in E. apply (f_equal (fun s => digits_val s 0)) in E. by rewrite !format_02_val in E.
Qed.

Record db_ok (db : Db) : Prop := {
  dk_mac : NoDup (map lp_mac (laptops db));
  dk_id : NoDup (map lp_agent_id (laptops db));
  dk_name i l : laptops db !! i = Some l -> lp_name l = student_name (i + 1)
}.

(** A provisioning request with the identifiers drawn for it. *)
Definition provision_all (db : Db) (reqs : list (string * Uuid * string)) : Db :=
  foldl (fun db q => match get_or_create_laptop db q.1.1 q.1.2 q.2 with Some (_, db) => db | None => db end) db reqs.

Lemma get_or_create_ok db mac id tok l db' :
  db_ok db -> get_or_create_laptop db mac id tok = Some (l, db') ->
  db_ok db' /\ lp_mac l = mac /\ l ∈ laptops db' /\ (exists k, laptops db' = laptops db ++ k).
Proof.
  intros [Hm Hi Hn]. unfold get_or_create_laptop. destruct (list_find _ _) as [[i x]|] eqn:E.
  - apply list_find_Some in E as (Hx & <- & _). intros [= <- <-]. split; [by split|]. split; [done|].
    split; [by eapply list_elem_of_lookup_2|]. exists []. by rewrite app_nil_r.
  - apply list_find_None in E. case_bool_decide as Hid; [done|]. intros [= <- <-]. cbn [laptops lp_mac].
    split; [split; cbn [laptops]|].
    + rewrite map_app. apply NoDup_app. split; [done|]. split; [|apply NoDup_singleton].
      intros y (z & -> & Hz)%list_elem_of_fmap. cbn [map]. rewrite list_elem_of_singleton.
      rewrite Forall_forall in E. by apply E.
    + rewrite map_app. apply NoDup_app. split; [done|]. split; [|apply NoDup_singleton].
      intros y (z & -> & Hz)%list_elem_of_fmap. cbn [map]. rewrite list_elem_of_singleton. cbn. intros Ez.
      apply Hid, Exists_exists. eauto.
    + intros i x. rewrite lookup_app_Some. intros [Hx|[Hge Hx]]; [by apply Hn|].
      apply list_lookup_singleton_Some in Hx as [Hi0 <-]. cbn. f_equal. lia.
    + split; [done|]. split; [apply elem_of_app; right; by apply list_elem_of_singleton|]. eauto.
Qed.

Lemma get_or_create_known db l id tok :
  db_ok db -> l ∈ laptops db -> get_or_create_laptop db (lp_mac l) id tok = Some (l, db).
Proof.
  intros [Hm _ _] Hl. unfold get_or_create_laptop.
  destruct (list_find _ _) as [[i x]|] eqn:E.
  - apply list_find_Some in E as (Hx & Ex & _). repeat f_equal.
    apply list_elem_of_lookup in Hl as [j Hj].
    assert (i = j) as ->.
    { eapply NoDup_lookup; [exact Hm|..]; rewrite list_lookup_fmap; [by rewrite Hx|]. rewrite Hj. cbn. by rewrite Ex. }
    congruence.
  - apply list_find_None in E. rewrite Forall_forall in E. by destruct (E l Hl).
Qed.

Lemma provision_all_ok db reqs : db_ok db -> db_ok (provision_all db reqs) /\ exists k, laptops (provision_all db reqs) = laptops db ++ k.
Proof.
  revert db. induction reqs as [|[[mac id] tok] reqs IH]; intros db H.
  - split; [done|]. exists []. by rewrite app_nil_r.
  - cbn [provision_all foldl fst snd]. destruct (get_or_create_laptop db mac id tok) as [[l db']|] eqn:E.
    + destruct (get_or_create_ok db mac id tok l db' H E) as (H' & _ & _ & k & Ek).
      destruct (IH db' H') as [Ho [k' Ek']]. split; [done|]. exists (k ++ k'). unfold provision_all in Ek'.
      rewrite Ek', Ek. by rewrite <- app_assoc.
    + by apply IH.
Qed.

(** Provisioning is idempotent and never hands out the same identity
    twice: whatever requests came before and come between, a MAC address
    that was answered once is answered with the same row ever after, and two
    laptops with different MACs differ in agent id and in name. *)
Theorem provisioning (before between : list (string * Uuid * string)) (mac : string) (id : Uuid) (tok : string)
    (l : Laptop) (db' : Db) :
  get_or_create_laptop (provision_all db_empty before) mac id tok = Some (l, db') ->
  let db := provision_all db' between in
  (forall id' tok', get_or_create_laptop db mac id' tok' = Some (l, db))
  /\ (forall l1 l2, l1 ∈ laptops db -> l2 ∈ laptops db -> lp_mac l1 <> lp_mac l2 ->
        lp_agent_id l1 <> lp_agent_id l2 /\ lp_name l1 <> lp_name l2).
Proof.
  intros E db.
  assert (H0 : db_ok db_empty) by (split; [constructor..|by intros ? ?]).
  destruct (provision_all_ok db_empty before H0) as [H1 _].
  destruct (get_or_create_ok _ _ _ _ _ _ H1 E) as (H2 & <- & Hl & _).
  destruct (provision_all_ok db' between H2) as [H3 [k Ek]]. split.
  - intros id' tok'. apply get_or_create_known; [done|]. subst db. rewrite Ek. apply elem_of_app. by left.
  - intros l1 l2 [i Hi]%list_elem_of_lookup [j Hj]%list_elem_of_lookup Hne.
    assert (Hij : i <> j) by congruence. split.
    + intros Eq. apply Hij. eapply NoDup_lookup; [apply (dk_id db H3)|..]; rewrite list_lookup_fmap; [by rewrite Hi|].
      rewrite Hj. cbn. by rewrite Eq.
    + rewrite (dk_name db H3 i l1 Hi), (dk_name db H3 j l2 Hj). intros Eq%student_name_inj. lia.
Qed.

Lemma provisioning_witness :
  let l := {| lp_agent_id := 8; lp_mac := "bb"; lp_name := "student-02"; lp_token := "t2" |} in
  let db := provision_all {| laptops := [{| lp_agent_id := 7; lp_mac := "aa"; lp_name := "student-01"; lp_token := "t1" |}; l];
                             admins := []; next_admin_id := 1 |} [("cc"%string, 9, "t3"%string)] in
  get_or_create_laptop db "bb" 55 "t5" = Some (l, db).
Proof.
  cbn zeta.
  destruct (provisioning [("aa"%string, 7, "t1"%string)] [("cc"%string, 9, "t3"%string)] "bb" 8 "t2"
    {| lp_agent_id := 8; lp_mac := "bb"; lp_name := "student-02"; lp_token := "t2" |}
    {| laptops := [{| lp_agent_id := 7; lp_mac := "aa"; lp_name := "student-01"; lp_token := "t1" |};
                   {| lp_agent_id := 8; lp_mac := "bb"; lp_name := "student-02"; lp_token := "t2" |}];
       admins := []; next_admin_id := 1 |}) as [H _]; [vm_compute; reflexivity|exact (H 55 "t5"%string)].
Defined.
