(* ===== verification/Hub.v ===== *)
(** * The hub's request handlers and agent connections as threads
    ([kmc-hub/src/routes.rs], [kmc-hub/src/agent_ws.rs])

    Every handler is a thread that advances one critical section at a time:
    a [Thread] value is the place where a handler stands with its local
    variables, [thread_step] runs it to the next lock, and [sys_step]
    interleaves any number of them.  A [broadcast_agent] reads the database,
    the online table and the sessions under three locks in turn before it
    sends: [Bcast] with its [BcStage].  Random identifiers, WebSocket frames
    and timeouts are inputs of the step. *)
From Stdlib Require Import Floats.SpecFloat.
From S2P Require Import Prelude Float HubState.

Inductive Response :=
| ROk | RClosed
| RUnauthorized (what : string) | RNotFound | RConflict (what : string) | RForbidden | RInternal (what : string)
| RGatewayTimeout
| RProvision (l : Laptop) | RLogin (token : string)
| RSession (token : string) (addr : option string)
| RResult (r : CommandResult).

(** A frame of the agent's WebSocket; [Text None] does not parse. *)
Inductive WsFrame := Text (m : option AgentToHub) | WsClose | WsOther | WsError | WsEnd.

Record CommandApiReq := mkCommandApiReq { ca_script : string; ca_destructive : bool; ca_kind : option CommandKind }.

(** How far a [broadcast_agent] has come; [bare]: a view without a row is sent
    as a minimal one. *)
Inductive BcStage :=
| BvName (bare : bool)
| BvOnline (name : string)
| BvSessions (name : string) (is_online : bool) (status : option StatusReport)
| BvSend (v : AgentView).

Inductive Thread :=
| AwHello (peer_ip : string)
| AwConnId (agent_id : Uuid) (name addr : string)
| AwInsertOnline (agent_id : Uuid) (name addr : string) (cid : Z)
| AwInsertAddr (agent_id : Uuid) (addr : string) (cid : Z)
| AwHelloOk (agent_id : Uuid) (cid : Z)
| AwLive (agent_id : Uuid) (cid : Z)
| AwAlert (agent_id : Uuid) (cid : Z) (report : StatusReport)
| AwAlertSend (agent_id : Uuid) (cid : Z) (name : string) (percent : option f32)
| AwCleanupOnline (agent_id : Uuid) (cid : Z)
| AwCleanupAddr (agent_id : Uuid)
| AwCleanupSessions (agent_id : Uuid)
| PvProvision (mac : string)
| LgVerify (username password : string)
| LgTokens (username : string) (admin_id : Z)
| LgNames (username token : string)
| SrKnown (admin : string) (agent_id : Uuid)
| SrLock (admin : string) (agent_id : Uuid)
| SrAddr (agent_id : Uuid) (token : string)
| ReLock (admin : string) (agent_id : Uuid)
| RcLookup (agent_id : Uuid) (req : CommandApiReq)
| RcInsert (cid : Z) (req : CommandApiReq)
| RcSend (cid : Z) (cmd : CommandRequest)
| RcWait (command_id : Uuid)
| Done (r : Response)
| Bcast (agent_id : Uuid) (st : BcStage) (next : Thread).

Inductive Input :=
| IFrame (f : WsFrame) | ISent (ok : bool) | IFresh (id : Uuid) (token : string) | ITimeout | IDropped | INone.

(** [matches!(battery, Some(p) if p < 20) && charging == Some(false)] *)
Definition low_battery (r : StatusReport) : bool :=
  match battery_percent r with
  | Some p => SFltb p LOW_BATTERY_THRESHOLD
  | None => false
  end && bool_decide (battery_charging r = Some false).

(** Critical sections of [handle_socket]. *)
Definition register_online (h : Hub) (agent_id : Uuid) (name : string) (cid : Z) : Hub :=
  let prev_status := match online h !! agent_id with Some p => last_status p | None => None end in
  set_open_channels
    (set_online h (<[agent_id := {| ac_name := name; last_status := prev_status; conn_id := cid |}]> (online h)))
    ({[cid]} ∪ open_channels h).

Definition store_status (h : Hub) (agent_id : Uuid) (report : StatusReport) : Hub :=
  match online h !! agent_id with
  | Some c => set_online h (<[agent_id := {| ac_name := ac_name c; last_status := Some report;
                                             conn_id := conn_id c |}]> (online h))
  | None => h
  end.

Definition agent_name (h : Hub) (agent_id : Uuid) (id_text : Uuid -> string) : string :=
  match online h !! agent_id with Some c => ac_name c | None => id_text agent_id end.

Definition deliver_result (h : Hub) (r : CommandResult) : Hub :=
  match pending_cmds h !! res_id r with
  | Some waiter => set_answers (set_pending_cmds h (delete (res_id r) (pending_cmds h))) (answers h ++ [(waiter, r)])
  | None => h
  end.

(** The first critical section of [cleanup]: whether this connection is the
    registered one. *)
Definition cleanup_online (h : Hub) (agent_id : Uuid) (cid : Z) : option Hub :=
  match online h !! agent_id with
  | Some c => if conn_id c =? cid then Some (set_online h (delete agent_id (online h))) else None
  | None => None
  end.

Section Threads.
Context (verify_password : string -> string -> bool) (id_text : Uuid -> string).

(** The view of a laptop without a row. *)
Definition bare_view (agent_id : Uuid) : AgentView :=
  {| av_agent_id := agent_id; av_name := id_text agent_id; av_online := false; av_status := None;
     av_controlled_by := None; av_tailscale_addr := None |}.

(** One lock, or the send, of [broadcast_agent]; then [next]. *)
Definition bcast_step (h : Hub) (agent_id : Uuid) (st : BcStage) (next : Thread) : Hub * Thread :=
  match st with
  | BvName bare =>
      (h, match laptop_name (hub_db h) agent_id with
          | Some name => Bcast agent_id (BvOnline name) next
          | None => if bare then Bcast agent_id (BvSend (bare_view agent_id)) next else next
          end)
  | BvOnline name =>
      (h, match online h !! agent_id with
          | Some c => Bcast agent_id (BvSessions name true (last_status c)) next
          | None => Bcast agent_id (BvSessions name false None) next
          end)
  | BvSessions name is_online status =>
      (h, Bcast agent_id (BvSend {| av_agent_id := agent_id; av_name := name; av_online := is_online; av_status := status;
                                    av_controlled_by := admin_username <$> sessions h !! agent_id;
                                    av_tailscale_addr := None |}) next)
  | BvSend v => (broadcast h (AgentUpdated v), next)
  end.

(** The alert after a status of a low battery: the name is read under the lock
    of the connections, then the message is sent. *)
Definition alert (h : Hub) (agent_id : Uuid) (cid : Z) (report : StatusReport) : Thread :=
  AwAlertSend agent_id cid (agent_name h agent_id id_text) (battery_percent report).

Definition on_hello (h : Hub) (peer_ip : string) (f : WsFrame) : Thread :=
  match f with
  | Text (Some (Hello id _ token stream_addr)) =>
      match verify_agent (hub_db h) id token with
      | Some db_name => AwConnId id db_name (default peer_ip stream_addr)
      | None => Done RClosed
      end
  | Text _ => Done RClosed
  | WsOther => AwHello peer_ip
  | WsClose | WsEnd | WsError => Done RClosed
  end.

Definition on_agent_frame (h : Hub) (agent_id : Uuid) (cid : Z) (f : WsFrame) : Hub * Thread :=
  match f with
  | Text (Some (Status report)) =>
      (store_status h agent_id report,
       Bcast agent_id (BvName false) (if low_battery report then AwAlert agent_id cid report else AwLive agent_id cid))
  | Text (Some (CommandResultMsg result)) => (deliver_result h result, AwLive agent_id cid)
  | Text (Some (Hello _ _ _ _)) | Text None | WsOther => (h, AwLive agent_id cid)
  | WsClose | WsError | WsEnd => (h, AwCleanupOnline agent_id cid)
  end.

Definition request_session (h : Hub) (admin : string) (agent_id : Uuid) (token : string) : Hub * Thread :=
  let grant := (set_sessions h (<[agent_id := {| admin_username := admin; session_token := token |}]> (sessions h)),
                SrAddr agent_id token) in
  match sessions h !! agent_id with
  | Some s => if bool_decide (admin_username s = admin) then grant
              else (h, Done (RConflict "agent already controlled by another admin"))
  | None => grant
  end.

Definition release_session (h : Hub) (admin : string) (agent_id : Uuid) : Hub * Thread :=
  match sessions h !! agent_id with
  | Some s => if bool_decide (admin_username s = admin)
              then (set_sessions h (delete agent_id (sessions h)), Bcast agent_id (BvName false) (Done ROk))
              else (h, Done RForbidden)
  | None => (h, Done ROk)
  end.

Definition send_command (h : Hub) (cid : Z) (cmd : CommandRequest) : Hub * Thread :=
  if bool_decide (cid ∈ open_channels h)
  then (set_outbox h (outbox h ++ [(cid, RunCommand cmd)]), RcWait (cr_id cmd))
  else (set_pending_cmds h (delete (cr_id cmd) (pending_cmds h)), Done (RConflict "agent connection closed")).

(** The answer that reached the oneshot of thread [tid]. *)
Definition answer_for (h : Hub) (tid : nat) : option CommandResult :=
  match list_find (fun a => a.1 = tid) (answers h) with
  | Some (_, (_, r)) => Some r
  | None => None
  end.

Definition thread_step (tid : nat) (h : Hub) (t : Thread) (i : Input) : option (Hub * Thread) :=
  match t, i with
  | AwHello peer_ip, IFrame f => Some (h, on_hello h peer_ip f)
  | AwConnId a name addr, INone =>
      Some (set_next_conn_id h (next_conn_id h + 1), AwInsertOnline a name addr (next_conn_id h))
  | AwInsertOnline a name addr cid, INone => Some (register_online h a name cid, AwInsertAddr a addr cid)
  | AwInsertAddr a addr cid, INone => Some (set_agent_addr h (<[a := addr]> (agent_addr h)), AwHelloOk a cid)
  | AwHelloOk a cid, ISent ok => Some (h, if ok then Bcast a (BvName false) (AwLive a cid) else AwCleanupOnline a cid)
  | AwLive a cid, IFrame f => Some (on_agent_frame h a cid f)
  | AwAlert a cid report, INone => Some (h, alert h a cid report)
  | AwAlertSend a cid name percent, INone => Some (broadcast h (Alert a LevelCritical name percent), AwLive a cid)
  | AwCleanupOnline a cid, INone =>
      match cleanup_online h a cid with
      | Some h => Some (h, AwCleanupAddr a)
      | None => Some (h, Done RClosed)
      end
  | AwCleanupAddr a, INone => Some (set_agent_addr h (delete a (agent_addr h)), AwCleanupSessions a)
  | AwCleanupSessions a, INone => Some (set_sessions h (delete a (sessions h)), Bcast a (BvName true) (Done RClosed))
  | PvProvision mac, IFresh id token =>
      Some (match get_or_create_laptop (hub_db h) mac id token with
            | Some (l, db) => (set_hub_db h db, Done (RProvision l))
            | None => (h, Done (RInternal "provision failed"))
            end)
  | LgVerify user password, INone =>
      Some (h, match verify_admin verify_password (hub_db h) user password with
               | Some id => LgTokens user id
               | None => Done (RUnauthorized "invalid credentials")
               end)
  | LgTokens user id, IFresh _ token => Some (set_admin_tokens h (<[token := id]> (admin_tokens h)), LgNames user token)
  | LgNames user token, INone => Some (set_admin_names h (<[token := user]> (admin_names h)), Done (RLogin token))
  | SrKnown admin a, INone =>
      Some (h, match laptop_name (hub_db h) a with Some _ => SrLock admin a | None => Done RNotFound end)
  | SrLock admin a, IFresh _ token => Some (request_session h admin a token)
  | SrAddr a token, INone => Some (h, Bcast a (BvName false) (Done (RSession token (agent_addr h !! a))))
  | ReLock admin a, INone => Some (release_session h admin a)
  | RcLookup a req, INone =>
      Some (h, match online h !! a with Some c => RcInsert (conn_id c) req | None => Done (RConflict "agent not online") end)
  | RcInsert cid req, IFresh id _ =>
      Some (set_pending_cmds h (<[id := tid]> (pending_cmds h)),
            RcSend cid {| cr_id := id; cr_kind := default (PowerShell (ca_script req)) (ca_kind req);
                          cr_destructive := ca_destructive req |})
  | RcSend cid cmd, INone => Some (send_command h cid cmd)
  | RcWait id, INone =>
      match answer_for h tid with
      | Some r => Some (h, Done (RResult r))
      | None => None
      end
  | RcWait id, ITimeout => Some (set_pending_cmds h (delete id (pending_cmds h)), Done RGatewayTimeout)
  | RcWait id, IDropped => Some (set_pending_cmds h (delete id (pending_cmds h)), Done (RInternal "command channel dropped"))
  | Bcast a st next, INone => Some (bcast_step h a st next)
  | _, _ => None
  end.

(** ** Interleaving *)

Record Sys := mkSys { hub : Hub; threads : gmap nat Thread }.

(** The handlers a request starts: the authenticated ones need a token
    [login] gave out. *)
Definition entry_point (h : Hub) (t : Thread) : Prop :=
  match t with
  | AwHello _ | PvProvision _ | LgVerify _ _ => True
  | SrKnown admin _ | ReLock admin _ => exists token, admin_from_token h token = Some admin
  | RcLookup _ _ => exists token admin, admin_from_token h token = Some admin
  | _ => False
  end.

Inductive sys_step : Sys -> Sys -> Prop :=
| sys_spawn s tid t :
    threads s !! tid = None -> entry_point (hub s) t ->
    sys_step s {| hub := hub s; threads := <[tid := t]> (threads s) |}
| sys_thread s tid t i h' t' :
    threads s !! tid = Some t -> thread_step tid (hub s) t i = Some (h', t') ->
    sys_step s {| hub := h'; threads := <[tid := t']> (threads s) |}
| sys_close s cid :
    sys_step s {| hub := set_open_channels (hub s) (open_channels (hub s) ∖ {[cid]}); threads := threads s |}.

Definition sys_initial (db : Db) : Sys := {| hub := hub_new db; threads := ∅ |}.
End Threads.

(** ** What a step can do to the connection table *)

Fixpoint command_of (t : Thread) : option Uuid :=
  match t with
  | Bcast _ _ next => command_of next
  | RcSend _ cmd => Some (cr_id cmd)
  | RcWait id => Some id
  | _ => None
  end.

(** The registered connection a thread stands for. *)
Fixpoint conn_of (t : Thread) : option (Uuid * Z) :=
  match t with
  | Bcast _ _ next => conn_of next
  | AwInsertAddr a _ c | AwHelloOk a c | AwLive a c | AwAlert a c _ | AwAlertSend a c _ _
  | AwCleanupOnline a c => Some (a, c)
  | _ => None
  end.

(** The connection id a thread holds, registered or about to be. *)
Fixpoint cid_of (t : Thread) : option Z :=
  match t with
  | Bcast _ _ next => cid_of next
  | AwInsertOnline _ _ _ c => Some c
  | _ => option_map snd (conn_of t)
  end.

Ltac step_cases E :=
  match type of E with thread_step _ _ _ ?h ?t ?i = _ =>
    destruct t, i; cbn [thread_step] in E; try discriminate E
  end.

Ltac break_step E :=
  repeat match type of E with
  | context [match ?x with _ => _ end] => destruct x eqn:?
  end; simplify_eq.

Section Steps.
Context (verify_password : string -> string -> bool) (id_text : Uuid -> string).
Local Abbreviation tstep := (thread_step verify_password id_text).

(** The hub fields the invariants speak of, as a tuple. *)
Definition core (h : Hub) :=
  (online h, sessions h, pending_cmds h, answers h, next_conn_id h).

(** One step, by what it changes. *)
Inductive effect (tid : nat) (h : Hub) : Thread -> Hub -> Thread -> Prop :=
| eff_none t h' t' :
    core h' = core h -> conn_of t' = conn_of t -> cid_of t' = cid_of t ->
    command_of t' = command_of t ->
    effect tid h t h' t'
| eff_answered id r :
    answer_for h tid = Some r -> effect tid h (RcWait id) h (Done (RResult r))
| eff_conn_id a name addr h' :
    core h' = (online h, sessions h, pending_cmds h, answers h, next_conn_id h + 1) ->
    effect tid h (AwConnId a name addr) h' (AwInsertOnline a name addr (next_conn_id h))
| eff_register a name addr cid c h' :
    core h' = (<[a := c]> (online h), sessions h, pending_cmds h, answers h, next_conn_id h) -> conn_id c = cid ->
    effect tid h (AwInsertOnline a name addr cid) h' (AwInsertAddr a addr cid)
| eff_status a cid c c' h' t' :
    online h !! a = Some c -> conn_id c' = conn_id c ->
    core h' = (<[a := c']> (online h), sessions h, pending_cmds h, answers h, next_conn_id h) ->
    conn_of t' = conn_of (AwLive a cid) -> cid_of t' = cid_of (AwLive a cid) ->
    command_of t' = command_of (AwLive a cid) ->
    effect tid h (AwLive a cid) h' t'
| eff_result a cid r waiter h' :
    pending_cmds h !! res_id r = Some waiter ->
    core h' = (online h, sessions h, delete (res_id r) (pending_cmds h), answers h ++ [(waiter, r)], next_conn_id h) ->
    effect tid h (AwLive a cid) h' (AwLive a cid)
| eff_offline a cid c h' :
    online h !! a = Some c -> conn_id c = cid ->
    core h' = (delete a (online h), sessions h, pending_cmds h, answers h, next_conn_id h) ->
    effect tid h (AwCleanupOnline a cid) h' (AwCleanupAddr a)
| eff_stale a cid :
    (forall c, online h !! a = Some c -> conn_id c <> cid) ->
    effect tid h (AwCleanupOnline a cid) h (Done RClosed)
| eff_unlock a h' :
    core h' = (online h, delete a (sessions h), pending_cmds h, answers h, next_conn_id h) ->
    effect tid h (AwCleanupSessions a) h' (Bcast a (BvName true) (Done RClosed))
| eff_grant admin a token h' :
    (forall s, sessions h !! a = Some s -> admin_username s = admin) ->
    core h' = (online h, <[a := {| admin_username := admin; session_token := token |}]> (sessions h),
               pending_cmds h, answers h, next_conn_id h) ->
    effect tid h (SrLock admin a) h' (SrAddr a token)
| eff_release admin a s h' :
    sessions h !! a = Some s -> admin_username s = admin ->
    core h' = (online h, delete a (sessions h), pending_cmds h, answers h, next_conn_id h) ->
    effect tid h (ReLock admin a) h' (Bcast a (BvName false) (Done ROk))
| eff_command cid req cmd h' :
    core h' = (online h, sessions h, <[cr_id cmd := tid]> (pending_cmds h), answers h, next_conn_id h) ->
    effect tid h (RcInsert cid req) h' (RcSend cid cmd)
| eff_forget t id r h' :
    command_of t = Some id ->
    core h' = (online h, sessions h, delete id (pending_cmds h), answers h, next_conn_id h) ->
    (forall x, r <> RResult x) ->
    effect tid h t h' (Done r).

Lemma core_fields h h' :
  online h' = online h -> sessions h' = sessions h -> pending_cmds h' = pending_cmds h ->
  answers h' = answers h -> next_conn_id h' = next_conn_id h -> core h' = core h.
Proof. unfold core. congruence. Qed.

(** Steps that touch none of the tables. *)
Ltac quiet := apply eff_none; [first [reflexivity|by apply core_fields]|reflexivity..].

Lemma bcast_step_effect tid h a st next :
  effect tid h (Bcast a st next) (bcast_step id_text h a st next).1 (bcast_step id_text h a st next).2.
Proof.
  destruct st as [bare|name|name o stat|v]; cbn [bcast_step fst snd]; [| |quiet|quiet].
  - destruct (laptop_name _ _); [quiet|]. destruct bare; quiet.
  - destruct (online h !! a); quiet.
Qed.

Lemma thread_step_effect tid h t i h' t' : tstep tid h t i = Some (h', t') -> effect tid h t h' t'.
Proof.
  intros E. destruct t, i; cbn [thread_step] in E; try discriminate E; try solve [injection E as <- <-; quiet].
  - injection E as <- <-. unfold on_hello.
    destruct f as [[[]|]| | | |]; try quiet. destruct (verify_agent _ _ _); quiet.
  - injection E as <- <-. by apply eff_conn_id.
  - injection E as <- <-. eapply eff_register; [reflexivity|done].
  - injection E as <- <-. destruct ok; quiet.
  - injection E as E. unfold on_agent_frame in E.
    destruct f as [[[]|]| | | |]; simplify_eq; try quiet.
    + unfold store_status. destruct (online h !! agent_id) as [c|] eqn:Ec; [|destruct (low_battery report); quiet].
      eapply eff_status; [exact Ec| |reflexivity|by destruct (low_battery report)..]. done.
    + unfold deliver_result. destruct (pending_cmds h !! res_id result) as [w|] eqn:Ew; [|quiet].
      eapply eff_result; [exact Ew|reflexivity].
  - unfold cleanup_online in E. destruct (online h !! agent_id) as [c|] eqn:Ec.
    + destruct (conn_id c =? cid) eqn:Eid; injection E as <- <-.
      * apply Z.eqb_eq in Eid. by eapply eff_offline.
      * apply Z.eqb_neq in Eid. apply eff_stale. intros c' Hc'. congruence.
    + injection E as <- <-. apply eff_stale. intros c' Hc'. congruence.
  - injection E as <- <-. by apply eff_unlock.
  - injection E as E. destruct (get_or_create_laptop _ _ _ _) as [[l db]|]; injection E as <- <-; quiet.
  - injection E as <- <-. destruct (verify_admin _ _ _ _); quiet.
  - injection E as <- <-. destruct (laptop_name _ _); quiet.
  - injection E as E. unfold request_session in E.
    destruct (sessions h !! agent_id) as [s|] eqn:Es.
    + destruct (decide (admin_username s = admin)) as [Ha|Ha].
      * rewrite bool_decide_true in E by done. injection E as <- <-.
        eapply eff_grant; [|reflexivity]. intros s' Hs'. congruence.
      * rewrite bool_decide_false in E by done. injection E as <- <-. quiet.
    + injection E as <- <-. eapply eff_grant; [|reflexivity]. intros s' Hs'. congruence.
  - injection E as E. unfold release_session in E. destruct (sessions h !! agent_id) as [s|] eqn:Es.
    + destruct (decide (admin_username s = admin)) as [Ha|Ha].
      * rewrite bool_decide_true in E by done. injection E as <- <-. by eapply eff_release.
      * rewrite bool_decide_false in E by done. injection E as <- <-. quiet.
    + injection E as <- <-. quiet.
  - injection E as <- <-. destruct (online h !! agent_id); quiet.
  - injection E as <- <-. by apply eff_command.
  - injection E as E. unfold send_command in E. case_bool_decide; injection E as <- <-; [quiet|].
    by eapply eff_forget.
  - injection E as <- <-. by eapply eff_forget.
  - injection E as <- <-. by eapply eff_forget.
  - destruct (answer_for h tid) as [r|] eqn:Er; [|done]. injection E as <- <-.
    by apply eff_answered.
  - pose proof (bcast_step_effect tid h agent_id st t) as H. injection E as E. by rewrite E in H.
Qed.
End Steps.

(** ** Invariant *)

Record sys_inv (s : Sys) : Prop := {
  si_bound tid t c : threads s !! tid = Some t -> cid_of t = Some c -> c < next_conn_id (hub s);
  si_unique tid1 tid2 t1 t2 c :
    threads s !! tid1 = Some t1 -> threads s !! tid2 = Some t2 ->
    cid_of t1 = Some c -> cid_of t2 = Some c -> tid1 = tid2;
  si_online a c : online (hub s) !! a = Some c ->
    exists tid t, threads s !! tid = Some t /\ conn_of t = Some (a, conn_id c);
  si_pending id tid : pending_cmds (hub s) !! id = Some tid ->
    exists t, threads s !! tid = Some t /\ command_of t = Some id;
  si_answers tid r : (tid, r) ∈ answers (hub s) ->
    exists t, threads s !! tid = Some t /\ (command_of t = Some (res_id r) \/ exists x, t = Done x);
  si_answered tid r id : (tid, r) ∈ answers (hub s) -> pending_cmds (hub s) !! id <> Some tid
}.

Lemma conn_cid t a c : conn_of t = Some (a, c) -> cid_of t = Some c.
Proof. induction t; simpl; intros; simplify_eq; auto. Qed.

Lemma sys_inv_initial db : sys_inv (sys_initial db).
Proof. split; simpl; intros *; rewrite ?lookup_empty; done || by intros ?%elem_of_nil. Qed.

Lemma answer_for_elem h tid r : answer_for h tid = Some r -> (tid, r) ∈ answers h.
Proof.
  unfold answer_for. destruct (list_find _ _) as [[k [w x]]|] eqn:E; [|done]. intros [= <-].
  apply list_find_Some in E as (Hk & <- & _). by apply list_elem_of_lookup_2 in Hk.
Qed.

Section Invariant.
Context (verify_password : string -> string -> bool) (id_text : Uuid -> string).
Local Abbreviation step := (sys_step verify_password id_text).

(** A thread that keeps its connection and its command, beside unchanged
    tables, keeps the invariant. *)
Lemma sys_inv_frame s tid t h' t' :
  sys_inv s -> threads s !! tid = Some t ->
  (forall c, cid_of t' = Some c -> cid_of t = Some c \/ next_conn_id (hub s) <= c) ->
  (forall c, cid_of t' = Some c -> c < next_conn_id h') -> next_conn_id (hub s) <= next_conn_id h' ->
  (forall a c, online h' !! a = Some c ->
     (exists tid2 t2, (<[tid := t']> (threads s)) !! tid2 = Some t2 /\ conn_of t2 = Some (a, conn_id c))) ->
  (forall id tid2, pending_cmds h' !! id = Some tid2 ->
     exists t2, (<[tid := t']> (threads s)) !! tid2 = Some t2 /\ command_of t2 = Some id) ->
  (forall tid2 r, (tid2, r) ∈ answers h' ->
     exists t2, (<[tid := t']> (threads s)) !! tid2 = Some t2
       /\ (command_of t2 = Some (res_id r) \/ exists x, t2 = Done x)) ->
  (forall tid2 r id, (tid2, r) ∈ answers h' -> pending_cmds h' !! id <> Some tid2) ->
  sys_inv {| hub := h'; threads := <[tid := t']> (threads s) |}.
Proof.
  intros [B U O P A A2] Et Hc Hb Hn HO HP HA HA2.
  assert (Look : forall k x, (<[tid := t']> (threads s)) !! k = Some x ->
            (k = tid /\ x = t') \/ (k <> tid /\ threads s !! k = Some x)).
  { intros k x. destruct (decide (k = tid)) as [->|Hk].
    - rewrite lookup_insert_eq. intros [= <-]. by left.
    - rewrite lookup_insert_ne by done. by right. }
  split; cbn [hub threads]; auto.
  - intros k x c [[-> ->]|[Hk Hx]]%Look Hcx; [by apply Hb|]. pose proof (B k x c Hx Hcx). lia.
  - intros k1 k2 x1 x2 c [[-> ->]|[Hk1 Hx1]]%Look [[-> ->]|[Hk2 Hx2]]%Look C1 C2; [done| | |by eapply U].
    + destruct (Hc c C1) as [C|C]; [by eapply U|]. pose proof (B _ _ _ Hx2 C2). lia.
    + destruct (Hc c C2) as [C|C]; [by eapply U|]. pose proof (B _ _ _ Hx1 C1). lia.
Qed.

(** Threads other than [tid], or [tid] itself when it keeps the attribute. *)
Lemma insert_witness (m : gmap nat Thread) tid t t' (P : Thread -> Prop) k x :
  m !! tid = Some t -> (P t -> P t') -> m !! k = Some x -> P x ->
  exists y, (<[tid := t']> m) !! k = Some y /\ P y.
Proof.
  intros Et HP Hk HPx. destruct (decide (k = tid)) as [->|Hne].
  - exists t'. rewrite lookup_insert_eq. split; [done|]. apply HP. congruence.
  - exists x. by rewrite lookup_insert_ne.
Qed.

Lemma answers_persist s tid t t' tid2 r :
  sys_inv s -> threads s !! tid = Some t ->
  (command_of t' = command_of t \/ exists x, t' = Done x) -> (forall x, t = Done x -> exists y, t' = Done y) ->
  (tid2, r) ∈ answers (hub s) ->
  exists t2, (<[tid := t']> (threads s)) !! tid2 = Some t2
    /\ (command_of t2 = Some (res_id r) \/ exists x, t2 = Done x).
Proof.
  intros I Et Hc Hd Hr. destruct (si_answers s I _ _ Hr) as (x & Hx & Px).
  apply (insert_witness _ tid t t' (fun y => command_of y = Some (res_id r) \/ exists z, y = Done z) tid2 x);
    [done| |done|done].
  intros [C|[z ->]]; [destruct Hc as [->|Hc]; eauto|right; by eapply Hd].
Qed.

Lemma done_no_step tid h x i : thread_step verify_password id_text tid h (Done x) i = None.
Proof. by destruct i. Qed.

Lemma online_persist s tid t t' a c :
  sys_inv s -> threads s !! tid = Some t ->
  (conn_of t = Some (a, conn_id c) -> conn_of t' = Some (a, conn_id c)) ->
  online (hub s) !! a = Some c ->
  exists k x, (<[tid := t']> (threads s)) !! k = Some x /\ conn_of x = Some (a, conn_id c).
Proof.
  intros I Et H Hc. destruct (si_online s I a c Hc) as (k & x & Hk & Cx).
  destruct (insert_witness _ tid t t' (fun y => conn_of y = Some (a, conn_id c)) k x Et H Hk Cx)
    as (y & Hy & Cy). eauto.
Qed.

Lemma pending_persist s tid t t' id k :
  sys_inv s -> threads s !! tid = Some t ->
  (k = tid -> command_of t = Some id -> command_of t' = Some id) ->
  pending_cmds (hub s) !! id = Some k ->
  exists x, (<[tid := t']> (threads s)) !! k = Some x /\ command_of x = Some id.
Proof.
  intros I Et H Hp. destruct (si_pending s I id k Hp) as (x & Hx & Cx).
  destruct (decide (k = tid)) as [->|Hne].
  - exists t'. rewrite lookup_insert_eq. split; [done|]. apply H; [done|congruence].
  - exists x. by rewrite lookup_insert_ne.
Qed.

(** The obligations a step leaves when it keeps the field in question. *)
Ltac kept I Et :=
  try done;
  try (by intros k0 Hk0; left; first [exact Hk0|congruence]);
  try (by intros k0 Hk0; eapply (si_bound _ I _ _ k0 Et); first [exact Hk0|congruence]);
  try (by intros a0 c0; apply (online_persist _ _ _ _ _ _ I Et); cbn; congruence);
  try (by intros id0 k0; apply (pending_persist _ _ _ _ _ _ I Et); cbn; congruence);
  try (by intros k0 r0; apply (answers_persist _ _ _ _ _ _ I Et); [first [by left|by eauto]|];
          intros x0 Hx0; by eauto);
  try (by intros k0 r0 id0; apply (si_answered _ I)).

Lemma deliver_inv s tid a cid r w h' :
  sys_inv s -> threads s !! tid = Some (AwLive a cid) ->
  pending_cmds (hub s) !! res_id r = Some w ->
  core h' = (online (hub s), sessions (hub s), delete (res_id r) (pending_cmds (hub s)),
             answers (hub s) ++ [(w, r)], next_conn_id (hub s)) ->
  sys_inv {| hub := h'; threads := <[tid := AwLive a cid]> (threads s) |}.
Proof.
  intros I Et Hw [= Eo Es Ep Ea En].
  assert (Hsame : <[tid := AwLive a cid]> (threads s) = threads s) by by apply insert_id.
  destruct (si_pending s I _ _ Hw) as (tw & Htw & Ctw).
  eapply (sys_inv_frame s tid _ _ _ I Et); rewrite ?Eo, ?Ep, ?Ea, ?En, ?Hsame; kept I Et.
  - by apply I.
  - intros id k [_ Hk]%lookup_delete_Some. by apply (si_pending s I).
  - intros k r0 [Hr|Hr]%elem_of_app; [by apply (si_answers s I)|].
    apply list_elem_of_singleton in Hr. injection Hr as -> ->. eauto.
  - intros k r0 id [Hr|Hr]%elem_of_app [Hne Hk]%lookup_delete_Some; [by apply (si_answered s I k r0 id Hr)|].
    apply list_elem_of_singleton in Hr. injection Hr as -> ->.
    destruct (si_pending s I _ _ Hk) as (t2 & Ht2 & Ct2). congruence.
Qed.

Lemma command_inv s tid cid req cmd h' :
  sys_inv s -> threads s !! tid = Some (RcInsert cid req) ->
  core h' = (online (hub s), sessions (hub s), <[cr_id cmd := tid]> (pending_cmds (hub s)),
             answers (hub s), next_conn_id (hub s)) ->
  sys_inv {| hub := h'; threads := <[tid := RcSend cid cmd]> (threads s) |}.
Proof.
  intros I Et [= Eo Es Ep Ea En].
  assert (Hnot : forall r, (tid, r) ∉ answers (hub s)).
  { intros r Hr. destruct (si_answers s I _ _ Hr) as (x & Hx & [Cx|[y ->]]); simplify_eq. }
  eapply (sys_inv_frame s tid _ _ _ I Et); rewrite ?Eo, ?Ep, ?Ea, ?En; kept I Et.
  - intros id k [[<- <-]|[Hne Hk]]%lookup_insert_Some.
    + exists (RcSend cid cmd). by rewrite lookup_insert_eq.
    + revert Hk. apply (pending_persist s tid _ _ _ _ I Et). by intros.
  - intros k r Hr. destruct (decide (k = tid)) as [->|Hne]; [by destruct (Hnot r)|].
    rewrite lookup_insert_ne by done. by apply (si_answers s I).
  - intros k r id Hr [[<- <-]|[Hne Hk]]%lookup_insert_Some; [by apply (Hnot r)|].
    by apply (si_answered s I k r id Hr).
Qed.

Lemma command_conn t id : command_of t = Some id -> conn_of t = None.
Proof. by induction t. Qed.

Lemma finish_inv s tid t id r h' :
  sys_inv s -> threads s !! tid = Some t -> command_of t = Some id ->
  (forall x, online h' !! x = online (hub s) !! x) -> next_conn_id h' = next_conn_id (hub s) ->
  answers h' = answers (hub s) ->
  (forall k x, pending_cmds h' !! k = Some x -> pending_cmds (hub s) !! k = Some x /\ x <> tid) ->
  sys_inv {| hub := h'; threads := <[tid := Done r]> (threads s) |}.
Proof.
  intros I Et Hc Eo En Ea Hp. assert (Hcn : conn_of t = None) by by eapply command_conn.
  eapply (sys_inv_frame s tid _ _ _ I Et); rewrite ?Ea, ?En; kept I Et.
  - intros a c. rewrite Eo. apply (online_persist s tid _ _ _ _ I Et). congruence.
  - intros k x [Hk Hx]%Hp. apply (pending_persist s tid _ _ _ _ I Et); [done|done].
  - intros k x id0 Hr [Hk Hx]%Hp. by apply (si_answered s I k x id0 Hr).
Qed.

Lemma sys_inv_effect s tid t h' t' :
  sys_inv s -> threads s !! tid = Some t -> (forall x, t <> Done x) -> effect tid (hub s) t h' t' ->
  sys_inv {| hub := h'; threads := <[tid := t']> (threads s) |}.
Proof.
  intros I Et ND F.
  destruct F as [t h' t' C C2 C3 C4|id r Ha|a name addr h' C|a name addr cid c h' C Hcid|a cid c c' h' t' Hc Hcc C Hcn Hci Hcm
    |a cid r w h' Hw C|a cid c h' Hc Hcid C|a cid Hst|a h' C|admin a token h' Hs C|admin a ss h' Hs Hu C
    |cid req cmd h' C|t id r h' Hid C Hr];
    try (injection C as Eo Es Ep Ea En;
         eapply (sys_inv_frame s tid _ _ _ I Et); rewrite ?Eo, ?Es, ?Ep, ?Ea, ?En; kept I Et; fail).
  - injection C as Eo Es Ep Ea En.
    eapply (sys_inv_frame s tid _ _ _ I Et); rewrite ?Eo, ?Ep, ?Ea, ?En; kept I Et.
    intros k r. apply (answers_persist s tid t t' k r I Et); [by left|]. intros x Hx. by destruct (ND x).
  - apply (finish_inv s tid (RcWait id) id); try done. intros k x Hk. split; [done|]. intros ->.
    by apply (si_answered s I tid r k (answer_for_elem _ _ _ Ha)).
  - injection C as Eo Es Ep Ea En.
    eapply (sys_inv_frame s tid _ _ _ I Et); rewrite ?Eo, ?Ep, ?Ea, ?En; kept I Et; cbn; intros; simplify_eq; lia.
  - injection C as Eo Es Ep Ea En.
    eapply (sys_inv_frame s tid _ _ _ I Et); rewrite ?Eo, ?Ep, ?Ea, ?En; kept I Et.
    intros a0 c0 [[<- <-]|[Hne Hc0]]%lookup_insert_Some.
    + exists tid, (AwInsertAddr a addr cid). rewrite lookup_insert_eq. by rewrite Hcid.
    + revert Hc0. apply (online_persist s tid _ _ _ _ I Et). done.
  - injection C as Eo Es Ep Ea En.
    eapply (sys_inv_frame s tid _ _ _ I Et); rewrite ?Eo, ?Ep, ?Ea, ?En; kept I Et.
    intros a0 c0 [[<- <-]|[Hne Hc0]]%lookup_insert_Some.
    + rewrite Hcc. revert Hc. apply (online_persist s tid _ _ _ _ I Et). congruence.
    + revert Hc0. apply (online_persist s tid _ _ _ _ I Et). congruence.
  - by eapply deliver_inv.
  - injection C as Eo Es Ep Ea En.
    eapply (sys_inv_frame s tid _ _ _ I Et); rewrite ?Eo, ?Ep, ?Ea, ?En; kept I Et.
    intros a0 c0 [Hne Hc0]%lookup_delete_Some. revert Hc0.
    apply (online_persist s tid _ _ _ _ I Et). cbn. congruence.
  - eapply (sys_inv_frame s tid _ _ _ I Et); kept I Et.
    intros a0 c0 Hc0. destruct (decide (a0 = a /\ conn_id c0 = cid)) as [[-> Hid]|Hne].
    + by destruct (Hst c0 Hc0).
    + revert Hc0. apply (online_persist s tid _ _ _ _ I Et). cbn. intros. simplify_eq. by destruct Hne.
  - by eapply command_inv.
  - injection C as Eo Es Ep Ea En. apply (finish_inv s tid t id); try done; [by intros; rewrite Eo|].
    rewrite Ep. intros k x [Hne Hk]%lookup_delete_Some. split; [done|]. intros ->.
    destruct (si_pending s I _ _ Hk) as (t2 & Ht2 & Ct2). congruence.
Qed.

Lemma entry_point_blank h t : entry_point h t -> cid_of t = None /\ command_of t = None.
Proof. by destruct t. Qed.

Lemma sys_inv_step s s' : sys_inv s -> step s s' -> sys_inv s'.
Proof.
  intros I. destruct 1 as [s tid t Hn He|s tid t i h' t' Et E|s cid].
  - destruct (entry_point_blank _ _ He) as [E1 E2]. destruct I as [B U O P A A2].
    assert (Look : forall k x, (<[tid := t]> (threads s)) !! k = Some x ->
      (k = tid /\ x = t) \/ threads s !! k = Some x).
    { intros k x [[-> ->]|[_ Hx]]%lookup_insert_Some; auto. }
    assert (Old : forall k x, threads s !! k = Some x -> (<[tid := t]> (threads s)) !! k = Some x).
    { intros k x Hx. rewrite lookup_insert_ne; congruence. }
    split; cbn [hub threads]; [| | | | |done].
    + intros k x c [[-> ->]|Hx]%Look Hc; [congruence|by eapply B].
    + intros k1 k2 x1 x2 c [[-> ->]|H1]%Look [[-> ->]|H2]%Look C1 C2; [done|congruence..|by eapply U].
    + intros a c Hc. destruct (O a c Hc) as (k & x & Hk & Cx). eauto.
    + intros id k Hk. destruct (P id k Hk) as (x & Hx & Cx). eauto.
    + intros k r Hr. destruct (A k r Hr) as (x & Hx & Cx). eauto.
  - apply (sys_inv_effect s tid t); [done|done| |by eapply thread_step_effect].
    intros x ->. by rewrite done_no_step in E.
  - destruct I. by split.
Qed.

Lemma reachable_inv db s : steps step (sys_initial db) s -> sys_inv s.
Proof. apply steps_invariant; [apply sys_inv_initial|apply sys_inv_step]. Qed.
End Invariant.

(** ** Sessions *)

Section Sessions.
Context (verify_password : string -> string -> bool) (id_text : Uuid -> string).
Local Abbreviation step := (sys_step verify_password id_text).

Lemma effect_sessions tid h t h' t' a ss :
  effect tid h t h' t' -> sessions h !! a = Some ss ->
  (exists ss', sessions h' !! a = Some ss' /\ admin_username ss' = admin_username ss)
  \/ (sessions h' !! a = None /\ (t = ReLock (admin_username ss) a \/ t = AwCleanupSessions a)).
Proof.
  intros F Hs.
  destruct F as [t h' t' C C2 C3 C4|id r Ha|b name addr h' C|b name addr cid c h' C Hcid|b cid r c c' h' Hc Hcc C
    |b cid r w h' Hw C|b cid c h' Hc Hcid C|b cid Hst|b h' C|admin b token h' Hb C|admin b s0 h' Hb Hu C
    |cid req cmd h' C|t id r h' Hid C Hr];
    try injection C as Eo Es Ep Ea En; try (left; exists ss; by rewrite ?Es).
  - rewrite Es. destruct (decide (a = b)) as [->|Hne].
    + right. rewrite lookup_delete_eq. auto.
    + left. exists ss. by rewrite lookup_delete_ne.
  - rewrite Es. left. destruct (decide (a = b)) as [->|Hne].
    + eexists. rewrite lookup_insert_eq. split; [done|]. cbn. by rewrite (Hb ss).
    + exists ss. by rewrite lookup_insert_ne.
  - rewrite Es. destruct (decide (a = b)) as [->|Hne].
    + right. rewrite lookup_delete_eq. split; [done|]. left. congruence.
    + left. exists ss. by rewrite lookup_delete_ne.
Qed.

(** A step keeps the holder of a session, unless the holder releases it or
    the agent's connection is cleaned up. *)
Lemma step_sessions s s' a ss :
  step s s' -> sessions (hub s) !! a = Some ss ->
  (exists ss', sessions (hub s') !! a = Some ss' /\ admin_username ss' = admin_username ss)
  \/ (sessions (hub s') !! a = None
      /\ exists tid, threads s !! tid = Some (ReLock (admin_username ss) a)
                   \/ threads s !! tid = Some (AwCleanupSessions a)).
Proof.
  destruct 1 as [s tid t Hn He|s tid t i h' t' Et E|s cid]; intros Hs; [left; eauto| |left; eauto].
  destruct (effect_sessions tid (hub s) t h' t' a ss (thread_step_effect _ _ _ _ _ _ _ _ E) Hs) as [L|[L [->| ->]]];
    [by left|right; eauto..].
Qed.

(** C7: Control of an agent is exclusive under any interleaving of the
    handlers: it passes from one admin to another only through a state in
    which it is free, and it becomes free only by the holder's own release
    request or by the cleanup of the agent's connection. *)
Theorem session_exclusive (s s' : Sys) (a : Uuid) (ss ss' : ControlSession) :
  steps step s s' -> sessions (hub s) !! a = Some ss -> sessions (hub s') !! a = Some ss' ->
  admin_username ss <> admin_username ss' ->
  exists before after tid,
    steps step s before /\ step before after /\ steps step after s'
    /\ sessions (hub after) !! a = None
    /\ (threads before !! tid = Some (ReLock (admin_username ss) a)
        \/ threads before !! tid = Some (AwCleanupSessions a)).
Proof.
  intros Hst Hs Hs' Hne.
  assert (G : (exists x, sessions (hub s') !! a = Some x /\ admin_username x = admin_username ss)
    \/ exists before after tid,
        steps step s before /\ step before after /\ steps step after s'
        /\ sessions (hub after) !! a = None
        /\ (threads before !! tid = Some (ReLock (admin_username ss) a)
            \/ threads before !! tid = Some (AwCleanupSessions a))).
  { clear Hs' Hne. induction Hst as [s|s s1 s2 H1 IH H2]; [left; eauto|].
    destruct (IH Hs) as [(x & Hx & Ux)|(b & c & k & P1 & P2 & P3 & P4 & P5)].
    - destruct (step_sessions s1 s2 a x H2 Hx) as [(y & Hy & Uy)|(Hn & k & Hk)].
      + left. exists y. split; [done|congruence].
      + right. exists s1, s2, k. rewrite <- Ux. repeat split; auto using steps_refl.
    - right. exists b, c, k. repeat split; auto. by eapply steps_next. }
  destruct G as [(x & Hx & Ux)|G]; [congruence|done].
Qed.
End Sessions.

(** ** Connections and commands *)

Section Connections.
Context (verify_password : string -> string -> bool) (id_text : Uuid -> string).
Local Abbreviation step := (sys_step verify_password id_text).

(** C23: In every reachable state an agent that is registered as online is
    served by exactly one connection thread, the one whose id is registered;
    and no step of another connection of that agent - a duplicate that is
    being closed, say - removes or replaces the registration. *)
Theorem stale_connection_harmless (db : Db) (s : Sys) (a : Uuid) (c : AgentConn) :
  steps step (sys_initial db) s -> online (hub s) !! a = Some c ->
  (exists tid t, threads s !! tid = Some t /\ conn_of t = Some (a, conn_id c)
     /\ forall tid2 t2, threads s !! tid2 = Some t2 -> conn_of t2 = Some (a, conn_id c) -> tid2 = tid)
  /\ (forall tid t i h' t' cid, threads s !! tid = Some t -> conn_of t = Some (a, cid) -> cid <> conn_id c ->
       thread_step verify_password id_text tid (hub s) t i = Some (h', t') ->
       exists c', online h' !! a = Some c' /\ conn_id c' = conn_id c).
Proof.
  intros Hr Hc. pose proof (reachable_inv _ _ _ _ Hr) as I. split.
  - destruct (si_online s I a c Hc) as (tid & t & Ht & Ct). exists tid, t. split; [done|]. split; [done|].
    intros tid2 t2 H2 C2. eapply (si_unique s I); eauto using conn_cid.
  - intros tid t i h' t' cid Ht Ct Hne E. apply thread_step_effect in E.
    destruct E as [t h' t' C C2 C3 C4|id r Ha|b name addr h' C|b name addr k d h' C Hcid|b k r d d' h' Hd Hdd C
      |b k r w h' Hw C|b k d h' Hd Hcid C|b k Hst|b h' C|admin b token h' Hb C|admin b s0 h' Hb Hu C
      |k req cmd h' C|t id r h' Hid C Hrr];
      try injection C as Eo Es Ep Ea En; try (exists c; by rewrite ?Eo); cbn in Ct; simplify_eq.
    rewrite Eo. eexists. by rewrite lookup_insert_eq.
Qed.

(** C37: In every reachable state each entry of the pending table belongs to
    a request that is still sending or waiting for just that command, so
    none outlives its request; and the result a request returns carries the
    id of the command it issued. *)
Theorem command_answers (db : Db) (s : Sys) :
  steps step (sys_initial db) s ->
  (forall id tid, pending_cmds (hub s) !! id = Some tid ->
     exists t, threads s !! tid = Some t /\ command_of t = Some id)
  /\ (forall tid id i h' r, threads s !! tid = Some (RcWait id) ->
       thread_step verify_password id_text tid (hub s) (RcWait id) i = Some (h', Done (RResult r)) ->
       res_id r = id).
Proof.
  intros Hr. pose proof (reachable_inv _ _ _ _ Hr) as I. split; [apply I|].
  intros tid id i h' r Ht E. destruct i; cbn [thread_step] in E; try discriminate E.
  destruct (answer_for (hub s) tid) as [r0|] eqn:Er; [|done]. injection E as <- <-.
  destruct (si_answers s I tid r0 (answer_for_elem _ _ _ Er)) as (t & Ht' & [C|[x ->]]); [|congruence].
  rewrite Ht in Ht'. injection Ht' as <-. by injection C.
Qed.
End Connections.

(** ** Concrete interleavings *)

Inductive Action := Spawn (tid : nat) (t : Thread) | Run (tid : nat) (i : Input).

Definition pw_example (_ _ : string) : bool := true.
Definition id_example (_ : Uuid) : string := "agent".

Definition act (s : option Sys) (x : Action) : option Sys :=
  s <-? s;
  match x with
  | Spawn tid t =>
      match threads s !! tid, t with
      | None, (AwHello _ | PvProvision _ | LgVerify _ _) =>
          Some {| hub := hub s; threads := <[tid := t]> (threads s) |}
      | None, (SrKnown admin _ | ReLock admin _) =>
          if bool_decide (admin_from_token (hub s) admin = Some admin)
          then Some {| hub := hub s; threads := <[tid := t]> (threads s) |} else None
      | None, RcLookup _ _ =>
          if bool_decide (admin_from_token (hub s) "ann" = Some "ann"%string)
          then Some {| hub := hub s; threads := <[tid := t]> (threads s) |} else None
      | _, _ => None
      end
  | Run tid i =>
      t <-? threads s !! tid;
      r <-? thread_step pw_example id_example tid (hub s) t i;
      Some {| hub := r.1; threads := <[tid := r.2]> (threads s) |}
  end.

Definition run_from (s : Sys) (l : list Action) : option Sys := foldl act (Some s) l.

Lemma act_step s x s' : act (Some s) x = Some s' -> sys_step pw_example id_example s s'.
Proof.
  destruct x as [tid t|tid i]; cbn [act].
  - destruct (threads s !! tid) eqn:E; [done|].
    destruct t; try done; try (case_bool_decide; [|done]); intros [= <-]; apply sys_spawn; cbn; eauto.
  - destruct (threads s !! tid) as [t|] eqn:E; [|done].
    destruct (thread_step _ _ _ _ _ _) as [[h t']|] eqn:F; [|done]. intros [= <-]. by eapply sys_thread.
Qed.

Lemma run_from_steps s l s' : run_from s l = Some s' -> steps (sys_step pw_example id_example) s s'.
Proof.
  revert s'. induction l as [|x l IH] using rev_ind; intros s'; unfold run_from.
  - intros [= <-]. apply steps_refl.
  - rewrite foldl_app. cbn [foldl]. destruct (foldl act (Some s) l) as [s1|] eqn:E; [|done].
    intros H. eapply steps_next; [by apply IH|by eapply act_step].
Qed.

Definition hub_db_example : Db :=
  {| laptops := [{| lp_agent_id := 7; lp_mac := "m"; lp_name := "student-01"; lp_token := "t" |}];
     admins := [{| ad_id := 1; ad_username := "ann"; ad_hash := "" |};
                {| ad_id := 2; ad_username := "bob"; ad_hash := "" |}]; next_admin_id := 3 |}.

Definition hello_example : Input := IFrame (Text (Some (Hello 7 "student-01" "t" (Some "100.64.0.7"%string)))).

(** Logging in with the user name as token, and an agent coming online. *)
Definition login_actions (tid : nat) (user : string) : list Action :=
  [Spawn tid (LgVerify user ""); Run tid INone; Run tid (IFresh 0 user); Run tid INone].
Definition bcast_actions (tid : nat) : list Action := replicate 4 (Run tid INone).
Definition online_actions (tid : nat) : list Action :=
  [Spawn tid (AwHello "10.0.0.1"); Run tid hello_example; Run tid INone; Run tid INone; Run tid INone;
   Run tid (ISent true)] ++ bcast_actions tid.

(** The old connection leaves the online table, the new one registers
    completely, then the old one finishes its cleanup. *)
Definition race_actions : list Action :=
  online_actions 1 ++ [Run 1 (IFrame WsClose); Run 1 INone] ++ online_actions 2 ++ [Run 1 INone; Run 1 INone] ++ bcast_actions 1.

(** The cleanup of a connection is not atomic: an agent that reconnects
    between its first and its second critical section ends up online, with
    its new connection live and the old one gone, but without an address, so
    a session granted on it carries none. *)
Theorem cleanup_race_loses_address :
  exists s, steps (sys_step pw_example id_example) (sys_initial hub_db_example) s
    /\ threads s !! 1%nat = Some (Done RClosed)
    /\ threads s !! 2%nat = Some (AwLive 7 2)
    /\ (exists c, online (hub s) !! 7 = Some c /\ conn_id c = 2)
    /\ agent_addr (hub s) !! 7 = None.
Proof.
  destruct (run_from (sys_initial hub_db_example) race_actions) as [s|] eqn:E; [|by vm_compute in E].
  exists s. split; [by eapply run_from_steps|]. vm_compute in E. injection E as <-.
  repeat split; try (vm_compute; reflexivity). eexists. split; vm_compute; reflexivity.
Qed.

Definition handover_actions : list Action :=
  [Spawn 5 (ReLock "ann" 7); Run 5 INone; Spawn 6 (SrKnown "bob" 7); Run 6 INone; Run 6 (IFresh 0 "s2")].
Definition session_actions : list Action :=
  login_actions 1 "ann" ++ login_actions 2 "bob" ++ [Spawn 3 (SrKnown "ann" 7); Run 3 INone; Run 3 (IFresh 0 "s1")].
Definition session_example : Sys := default (sys_initial db_empty) (run_from (sys_initial hub_db_example) session_actions).
Definition handover_example : Sys := default (sys_initial db_empty) (run_from session_example handover_actions).

Lemma session_exclusive_witness :
  exists before after tid,
    steps (sys_step pw_example id_example) session_example before
    /\ sys_step pw_example id_example before after
    /\ steps (sys_step pw_example id_example) after handover_example
    /\ sessions (hub after) !! 7 = None
    /\ (threads before !! tid = Some (ReLock "ann" 7) \/ threads before !! tid = Some (AwCleanupSessions 7)).
Proof.
  apply (session_exclusive pw_example id_example session_example handover_example 7
           {| admin_username := "ann"; session_token := "s1" |} {| admin_username := "bob"; session_token := "s2" |}).
  - apply (run_from_steps session_example handover_actions). vm_compute. reflexivity.
  - vm_compute. reflexivity.
  - vm_compute. reflexivity.
  - cbn. discriminate.
Defined.

(** A duplicate connection 2 has replaced connection 1, which is closing. *)
Definition duplicate_actions : list Action := online_actions 1 ++ online_actions 2 ++ [Run 1 (IFrame WsClose)].
Definition duplicate_example : Sys :=
  default (sys_initial db_empty) (run_from (sys_initial hub_db_example) duplicate_actions).

Lemma stale_connection_harmless_witness :
  exists c', online (default (hub_new db_empty)
                (option_map fst (thread_step pw_example id_example 1 (hub duplicate_example) (AwCleanupOnline 7 1) INone)))
      !! 7 = Some c' /\ conn_id c' = 2.
Proof.
  destruct (online (hub duplicate_example) !! 7) as [c|] eqn:Ec; [|by vm_compute in Ec].
  assert (Hid : conn_id c = 2) by (vm_compute in Ec; by injection Ec as <-).
  destruct (stale_connection_harmless pw_example id_example hub_db_example duplicate_example 7 c) as [_ H].
  - apply (run_from_steps _ duplicate_actions). vm_compute. reflexivity.
  - exact Ec.
  - rewrite <- Hid.
    eapply (H 1%nat (AwCleanupOnline 7 1) INone _ (Done RClosed) 1);
      [vm_compute; reflexivity|reflexivity|rewrite Hid; discriminate|vm_compute; reflexivity].
Defined.

Definition command_actions : list Action :=
  login_actions 1 "ann" ++ online_actions 2 ++
  [Spawn 3 (RcLookup 7 {| ca_script := "dir"; ca_destructive := false; ca_kind := None |}); Run 3 INone;
   Run 3 (IFresh 99 ""); Run 3 INone;
   Run 2 (IFrame (Text (Some (CommandResultMsg {| res_id := 99; exit_code := Some 0; res_stdout := "ok";
                                                  res_stderr := ""; res_error := None |}))))].
Definition command_example : Sys :=
  default (sys_initial db_empty) (run_from (sys_initial hub_db_example) command_actions).

Lemma command_answers_witness :
  pending_cmds (hub command_example) = ∅
  /\ forall h' r, thread_step pw_example id_example 3 (hub command_example) (RcWait 99) INone
                  = Some (h', Done (RResult r)) -> res_id r = 99.
Proof.
  split; [vm_compute; reflexivity|]. intros h' r.
  destruct (command_answers pw_example id_example hub_db_example command_example) as [_ H].
  - apply (run_from_steps _ command_actions). vm_compute. reflexivity.
  - apply H. vm_compute. reflexivity.
Defined.
