(* ===== verification/AdminWs.v ===== *)
(** * The admin's WebSocket feed ([kmc-hub/src/admin_ws.rs]) and the public
    routes around it

    The broadcast channel keeps the last 256 messages; a subscriber is a
    position in the list of all broadcasts.  The feed sends a snapshot, then
    subscribes, then forwards; a subscriber that fell behind gets a fresh
    snapshot and continues with the oldest message kept. *)
From S2P Require Import Prelude Float HubState.

Definition BROADCAST_CAPACITY : nat := 256.

Record AdminFeed := mkAdminFeed {
  (** messages sent to this admin, oldest first *)
  fd_sent : list HubToAdmin;
  (** next broadcast to receive, once subscribed *)
  fd_cursor : option nat;
  fd_closed : bool
}.

Section Feed.
Context (order : list Laptop -> list Laptop).

(** Token check and immediate snapshot. *)
Definition feed_open (h : Hub) (token : string) : AdminFeed :=
  match admin_from_token h token with
  | Some _ => {| fd_sent := [Snapshot (snapshot h order)]; fd_cursor := None; fd_closed := false |}
  | None => {| fd_sent := []; fd_cursor := None; fd_closed := true |}
  end.

Definition feed_subscribe (h : Hub) (f : AdminFeed) : AdminFeed :=
  if fd_closed f then f
  else {| fd_sent := fd_sent f; fd_cursor := Some (length (broadcasts h)); fd_closed := false |}.

(** One [rx.recv()], [None] while there is nothing to receive. *)
Definition feed_recv (h : Hub) (f : AdminFeed) : option AdminFeed :=
  match fd_cursor f with
  | None => None
  | Some k =>
      let n := length (broadcasts h) in
      if (BROADCAST_CAPACITY <? n - k)%nat then
        Some {| fd_sent := fd_sent f ++ [Snapshot (snapshot h order)];
                fd_cursor := Some (n - BROADCAST_CAPACITY)%nat; fd_closed := false |}
      else
        msg <-? broadcasts h !! k;
        Some {| fd_sent := fd_sent f ++ [msg]; fd_cursor := Some (S k); fd_closed := false |}
  end.

(** Receiving until nothing is left; a round either forwards one message or
    resynchronises, so twice the backlog is enough fuel. *)
Fixpoint feed_drain (fuel : nat) (h : Hub) (f : AdminFeed) : AdminFeed :=
  match fuel with
  | O => f
  | S fuel => match feed_recv h f with Some f => feed_drain fuel h f | None => f end
  end.

Lemma feed_drain_sent fuel h sent k :
  (k <= length (broadcasts h))%nat -> (length (broadcasts h) - k <= BROADCAST_CAPACITY)%nat ->
  (length (broadcasts h) - k <= fuel)%nat ->
  feed_drain fuel h {| fd_sent := sent; fd_cursor := Some k; fd_closed := false |}
  = {| fd_sent := sent ++ drop k (broadcasts h); fd_cursor := Some (length (broadcasts h)); fd_closed := false |}.
Proof.
  revert sent k. induction fuel as [|fuel IH]; intros sent k Hk Hc Hf; cbn [feed_drain].
  - assert (k = length (broadcasts h)) as -> by lia. by rewrite drop_all, app_nil_r.
  - unfold feed_recv. cbn [fd_cursor fd_sent]. rewrite (proj2 (Nat.ltb_ge _ _)) by lia.
    destruct (broadcasts h !! k) as [msg|] eqn:E.
    + pose proof (lookup_lt_Some _ _ _ E). rewrite IH by lia. by rewrite (drop_S _ _ _ E), <- app_assoc.
    + apply lookup_ge_None in E. assert (k = length (broadcasts h)) as -> by lia.
      by rewrite drop_all, app_nil_r.
Qed.

(** From its subscription on, an admin that is never more than 256
    messages behind receives every broadcast exactly once and in order. *)
Theorem admin_feed_complete (h0 h : Hub) (f : AdminFeed) (news : list HubToAdmin) (fuel : nat) :
  fd_closed f = false -> broadcasts h = broadcasts h0 ++ news ->
  (length news <= BROADCAST_CAPACITY)%nat -> (length news <= fuel)%nat ->
  fd_sent (feed_drain fuel h (feed_subscribe h0 f)) = fd_sent f ++ news.
Proof.
  intros Hf Hb Hn Hfuel. unfold feed_subscribe. rewrite Hf.
  rewrite feed_drain_sent; rewrite ?Hb, ?length_app; [|lia..]. cbn [fd_sent]. by rewrite drop_app_length.
Qed.

(** An update broadcast between the snapshot and the subscription is in
    neither: the admin keeps showing the state before it. *)
Lemma admin_feed_misses (h0 h1 : Hub) (token user : string) (fuel : nat) :
  admin_from_token h0 token = Some user ->
  feed_drain fuel h1 (feed_subscribe h1 (feed_open h0 token))
  = {| fd_sent := [Snapshot (snapshot h0 order)]; fd_cursor := Some (length (broadcasts h1)); fd_closed := false |}.
Proof.
  intros Ht. unfold feed_open. rewrite Ht. unfold feed_subscribe. cbn [fd_closed fd_sent].
  destruct fuel as [|fuel]; [done|]. cbn [feed_drain]. unfold feed_recv. cbn [fd_cursor].
  rewrite Nat.sub_diag, lookup_ge_None_2 by lia. done.
Qed.
End Feed.

Lemma admin_feed_complete_witness :
  let news := [AgentUpdated {| av_agent_id := 7; av_name := "student-01"; av_online := true; av_status := None;
                               av_controlled_by := None; av_tailscale_addr := None |}] in
  let h := set_broadcasts (hub_new db_empty) news in
  let f := {| fd_sent := [Snapshot []]; fd_cursor := None; fd_closed := false |} in
  fd_sent (feed_drain (fun l => l) 3 h (feed_subscribe (hub_new db_empty) f)) = [Snapshot []] ++ news.
Proof.
  apply (admin_feed_complete (fun l => l) (hub_new db_empty)); try reflexivity; cbn; unfold BROADCAST_CAPACITY; lia.
Defined.
