(* ===== verification/Keyhook.v ===== *)
(** * Input capture on the admin's machine
    ([kmc-keyhook/src/main.rs], [kmc-admin/src-tauri/src/keyhook.rs])

    The sidecar's hooks and its stdin reader as functions on the shared
    flags, and the admin's reader of the sidecar's lines.  A hook callback
    and a stdin command are one step each.  A line is a constructor with its
    numbers; its text is in KeyLines.v.  [None] is a panic. *)
From S2P Require Import Prelude Input Control.

(** ** Lines *)

Inductive OutLine :=
| LineKey (vk : Z) (down : bool)
| LineMouseMove (x y w h : Z)
| LineButton (button : Z) (down : bool)
| LineScroll (amount : Z)
| LineHover (on : bool).

Inductive StdinLine := LineS (on : bool) | LineF (on : bool) | LineR (numbers : list Z) | LineUnknown.

(** ** Shared state *)

Record KeyHook := mkKeyHook {
  STREAMING : bool;
  FOCUSED : bool;
  HOVERING : bool;
  RECT_SET : bool;
  RECT_L : Z; RECT_T : Z; RECT_R : Z; RECT_B : Z;
  KEY_REMOTE : list bool;
  BTN_REMOTE : list bool;
  (** every line written so far *)
  out : list OutLine
}.

Definition keyhook_new : KeyHook :=
  {| STREAMING := false; FOCUSED := false; HOVERING := false; RECT_SET := false;
     RECT_L := 0; RECT_T := 0; RECT_R := 0; RECT_B := 0;
     KEY_REMOTE := replicate 256 false; BTN_REMOTE := replicate 6 false; out := [] |}.

Definition active (k : KeyHook) : bool := STREAMING k && FOCUSED k && HOVERING k.

Definition emit_lines (k : KeyHook) (l : list OutLine) : KeyHook :=
  {| STREAMING := STREAMING k; FOCUSED := FOCUSED k; HOVERING := HOVERING k; RECT_SET := RECT_SET k;
     RECT_L := RECT_L k; RECT_T := RECT_T k; RECT_R := RECT_R k; RECT_B := RECT_B k;
     KEY_REMOTE := KEY_REMOTE k; BTN_REMOTE := BTN_REMOTE k; out := out k ++ l |}.

Definition set_gate (k : KeyHook) (s f h : bool) : KeyHook :=
  {| STREAMING := s; FOCUSED := f; HOVERING := h; RECT_SET := RECT_SET k;
     RECT_L := RECT_L k; RECT_T := RECT_T k; RECT_R := RECT_R k; RECT_B := RECT_B k;
     KEY_REMOTE := KEY_REMOTE k; BTN_REMOTE := BTN_REMOTE k; out := out k |}.

Definition set_owned (k : KeyHook) (keys btns : list bool) : KeyHook :=
  {| STREAMING := STREAMING k; FOCUSED := FOCUSED k; HOVERING := HOVERING k; RECT_SET := RECT_SET k;
     RECT_L := RECT_L k; RECT_T := RECT_T k; RECT_R := RECT_R k; RECT_B := RECT_B k;
     KEY_REMOTE := keys; BTN_REMOTE := btns; out := out k |}.

Definition set_rect (k : KeyHook) (l t r b : Z) : KeyHook :=
  {| STREAMING := STREAMING k; FOCUSED := FOCUSED k; HOVERING := HOVERING k;
     RECT_SET := (l <? r) && (t <? b);
     RECT_L := l; RECT_T := t; RECT_R := r; RECT_B := b;
     KEY_REMOTE := KEY_REMOTE k; BTN_REMOTE := BTN_REMOTE k; out := out k |}.

Definition release_keys (k : KeyHook) : list OutLine :=
  flat_map (fun vk : nat => if (KEY_REMOTE k !!! vk : bool) then [LineKey (Z.of_nat vk) false] else []) (seq 0 256).
Definition release_buttons (k : KeyHook) : list OutLine :=
  flat_map (fun b : nat => if (BTN_REMOTE k !!! b : bool) then [LineButton (Z.of_nat b) false] else []) (seq 1 5).

Definition release_all_remote (k : KeyHook) : KeyHook :=
  emit_lines (set_owned k (replicate 256 false) ((BTN_REMOTE k !!! 0%nat) :: replicate 5 false))
             (release_keys k ++ release_buttons k).

(** [v.clamp(0, hi)], which panics when [hi < 0]. *)
Definition clamp0 (v hi : Z) : option Z := if hi <? 0 then None else Some (Z.max 0 (Z.min v hi)).

(** The new state and the mapped coordinates. *)
Definition update_hover (k : KeyHook) (px py : Z) : option (KeyHook * option (Z * Z * Z * Z)) :=
  let hover on := set_gate k (STREAMING k) (FOCUSED k) on in
  let report on := if Bool.eqb (HOVERING k) on then hover on else emit_lines (hover on) [LineHover on] in
  if negb (RECT_SET k) then Some (report false, None)
  else
    let '(l, t, r, b) := (RECT_L k, RECT_T k, RECT_R k, RECT_B k) in
    let inside := (l <=? px) && (px <? r) && (t <=? py) && (py <? b) in
    if negb inside || (r <=? l) || (b <=? t) then Some (report inside, None)
    else
      let w := i32 (r - l) in
      let h := i32 (b - t) in
      x <-? clamp0 (i32 (px - l)) (i32 (w - 1));
      y <-? clamp0 (i32 (py - t)) (i32 (h - 1));
      Some (report inside, Some (x, y, w, h)).

Inductive KeyMsg := KeyDownMsg | KeyUpMsg | KeyOtherMsg.

(** The keyboard hook; the flag tells whether the key is kept from the local
    desktop. *)
Definition kbd_proc (k : KeyHook) (m : KeyMsg) (vkCode : Z) : KeyHook * bool :=
  let vk := Z.to_nat (Z.land vkCode 0xff) in
  match m with
  | KeyDownMsg =>
      if active k
      then (emit_lines (set_owned k (<[vk := true]> (KEY_REMOTE k)) (BTN_REMOTE k)) [LineKey vkCode true], true)
      else (k, false)
  | KeyUpMsg =>
      if (KEY_REMOTE k !!! vk : bool)
      then (emit_lines (set_owned k (<[vk := false]> (KEY_REMOTE k)) (BTN_REMOTE k)) [LineKey vkCode false], true)
      else (k, false)
  | KeyOtherMsg => (k, false)
  end.

Inductive MouseMsg :=
| MsgMove | MsgLDown | MsgLUp | MsgRDown | MsgRUp | MsgMDown | MsgMUp | MsgXDown | MsgXUp
| MsgWheel | MsgHWheel | MsgOther.

Definition high_word (mouseData : Z) : Z := Z.land (Z.shiftr mouseData 16) 0xFFFF.

Definition button_of (m : MouseMsg) (mouseData : Z) : option (nat * bool) :=
  let xbtn := if high_word mouseData =? 1 then 4%nat else 5%nat in
  match m with
  | MsgLDown => Some (1%nat, true) | MsgLUp => Some (1%nat, false)
  | MsgRDown => Some (3%nat, true) | MsgRUp => Some (3%nat, false)
  | MsgMDown => Some (2%nat, true) | MsgMUp => Some (2%nat, false)
  | MsgXDown => Some (xbtn, true) | MsgXUp => Some (xbtn, false)
  | _ => None
  end.

Definition mouse_proc (k : KeyHook) (m : MouseMsg) (px py mouseData : Z) : option KeyHook :=
  r <-? update_hover k px py;
  let '(k, mapped) := r in
  let act := active k in
  Some (match button_of m mouseData with
        | Some (b, true) =>
            if act then emit_lines (set_owned k (KEY_REMOTE k) (<[b := true]> (BTN_REMOTE k))) [LineButton (Z.of_nat b) true]
            else k
        | Some (b, false) =>
            if (BTN_REMOTE k !!! b : bool)
            then emit_lines (set_owned k (KEY_REMOTE k) (<[b := false]> (BTN_REMOTE k))) [LineButton (Z.of_nat b) false]
            else k
        | None =>
            if act then
              match m, mapped with
              | MsgMove, Some (x, y, w, h) => emit_lines k [LineMouseMove x y w h]
              | MsgWheel, _ => emit_lines k [LineScroll (i16 (high_word mouseData))]
              | _, _ => k
              end
            else k
        end).

(** The stdin reader's loop body. *)
Definition on_stdin (k : KeyHook) (line : StdinLine) : KeyHook :=
  match line with
  | LineS true => set_gate k true (FOCUSED k) (HOVERING k)
  | LineS false => release_all_remote (set_gate k false (FOCUSED k) (HOVERING k))
  | LineF on => set_gate k (STREAMING k) on (HOVERING k)
  | LineR [l; t; r; b] => set_rect k l t r b
  | LineR _ | LineUnknown => k
  end.

Inductive HookEvent :=
| HookKey (m : KeyMsg) (vkCode : Z)
| HookMouse (m : MouseMsg) (px py mouseData : Z)
| HookStdin (line : StdinLine).

Definition hook_step (k : KeyHook) (e : HookEvent) : option KeyHook :=
  match e with
  | HookKey m vk => Some (kbd_proc k m vk).1
  | HookMouse m px py data => mouse_proc k m px py data
  | HookStdin line => Some (on_stdin k line)
  end.

Fixpoint hook_run (k : KeyHook) (l : list HookEvent) : option KeyHook :=
  match l with
  | [] => Some k
  | e :: l => k <-? hook_step k e; hook_run k l
  end.

(** ** The admin's side *)

Definition set_streaming (on : bool) : StdinLine := LineS on.
Definition set_focused (on : bool) : StdinLine := LineF on.
Definition set_canvas_rect (l t r b : Z) : StdinLine := LineR [l; t; r; b].

(** What [handle_line] sends to the host; a hover line only goes to the UI. *)
Definition handle_line (line : OutLine) : option InputEvent :=
  match line with
  | LineKey vk down => Some (Key (i16 vk) down 0)
  | LineMouseMove x y w h => Some (MousePosition (i16 x) (i16 y) (i16 w) (i16 h))
  | LineButton b down => if bool_decide (is_u8 b) then Some (MouseButton b down) else None
  | LineScroll a => if bool_decide (- 2 ^ 15 <= a < 2 ^ 15) then Some (Scroll a) else None
  | LineHover _ => None
  end.

(** ** What the remote desktop holds down *)

(** The last state a sequence of lines leaves a key, or a button, in. *)
Definition key_down (lines : list OutLine) (vk : Z) : bool :=
  foldl (fun b l => match l with LineKey v d => if v =? vk then d else b | _ => b end) false lines.
Definition button_down (lines : list OutLine) (btn : Z) : bool :=
  foldl (fun b l => match l with LineButton v d => if v =? btn then d else b | _ => b end) false lines.

Lemma key_down_app lines l vk :
  key_down (lines ++ l) vk
  = foldl (fun b l => match l with LineKey v d => if v =? vk then d else b | _ => b end) (key_down lines vk) l.
Proof. apply foldl_app. Qed.

Lemma button_down_app lines l btn :
  button_down (lines ++ l) btn
  = foldl (fun b l => match l with LineButton v d => if v =? btn then d else b | _ => b end) (button_down lines btn) l.
Proof. apply foldl_app. Qed.

(** A fold over lines that only release leaves nothing down that the lines
    mention, and whatever was up stays up. *)
Lemma release_fold {A} (upd : bool -> A -> bool) (ls : list A) (b : bool) :
  (forall x, x ∈ ls -> upd false x = false) ->
  (b = false \/ exists x, x ∈ ls /\ forall c, upd c x = false) -> foldl upd b ls = false.
Proof.
  revert b. induction ls as [|x ls IH]; intros b Hoff Hb; cbn [foldl].
  - destruct Hb as [->|(x & Hx & _)]; [done|]. by apply elem_of_nil in Hx.
  - apply IH; [intros y Hy; apply Hoff; by right|]. destruct Hb as [->|(y & Hy & Hy')].
    + left. apply Hoff. by left.
    + apply elem_of_cons in Hy as [->|Hy]; [left; apply Hy'|right; eauto].
Qed.

Record hook_ok (k : KeyHook) : Prop := {
  hk_keys_len : length (KEY_REMOTE k) = 256%nat;
  hk_btns_len : length (BTN_REMOTE k) = 6%nat;
  hk_keys vk : 0 <= vk < 256 -> key_down (out k) vk = KEY_REMOTE k !!! Z.to_nat vk;
  hk_btns b : 1 <= b <= 5 -> button_down (out k) b = BTN_REMOTE k !!! Z.to_nat b
}.

Lemma hook_ok_frame k k' l :
  hook_ok k -> KEY_REMOTE k' = KEY_REMOTE k -> BTN_REMOTE k' = BTN_REMOTE k -> out k' = out k ++ l ->
  Forall (fun x => match x with LineKey _ _ | LineButton _ _ => False | _ => True end) l -> hook_ok k'.
Proof.
  intros [L1 L2 K B] E1 E2 E3 Hl. split; rewrite ?E1, ?E2, ?E3; try done.
  - intros vk Hvk. rewrite key_down_app, <- K by done. clear -Hl. generalize (key_down (out k) vk).
    induction Hl as [|x l Hx Hl IH]; intros c; [done|]. destruct x; try done; apply IH.
  - intros b Hb. rewrite button_down_app, <- B by done. clear -Hl. generalize (button_down (out k) b).
    induction Hl as [|x l Hx Hl IH]; intros c; [done|]. destruct x; try done; apply IH.
Qed.

Lemma hook_ok_key k v d :
  hook_ok k -> 0 <= v < 256 ->
  hook_ok (emit_lines (set_owned k (<[Z.to_nat v := d]> (KEY_REMOTE k)) (BTN_REMOTE k)) [LineKey v d]).
Proof.
  intros [L1 L2 K B] Hv. split; cbn [KEY_REMOTE BTN_REMOTE out emit_lines set_owned].
  - by rewrite length_insert.
  - done.
  - intros vk Hvk. rewrite key_down_app. cbn [foldl]. destruct (Z.eqb_spec v vk) as [->|Hne].
    + rewrite list_lookup_total_insert_eq by lia. done.
    + rewrite list_lookup_total_insert_ne by lia. by apply K.
  - intros b Hb. rewrite button_down_app. by apply B.
Qed.

Lemma hook_ok_button k b d :
  hook_ok k -> (1 <= b <= 5)%nat ->
  hook_ok (emit_lines (set_owned k (KEY_REMOTE k) (<[b := d]> (BTN_REMOTE k))) [LineButton (Z.of_nat b) d]).
Proof.
  intros [L1 L2 K B] Hv. split; cbn [KEY_REMOTE BTN_REMOTE out emit_lines set_owned].
  - done.
  - by rewrite length_insert.
  - intros vk Hvk. rewrite key_down_app. by apply K.
  - intros c Hc. rewrite button_down_app. cbn [foldl]. destruct (Z.eqb_spec (Z.of_nat b) c) as [<-|Hne].
    + rewrite Nat2Z.id, list_lookup_total_insert_eq by lia. done.
    + rewrite list_lookup_total_insert_ne by lia. by apply B.
Qed.

Lemma elem_release_keys k x : x ∈ release_keys k <-> exists vk, (vk < 256)%nat /\ KEY_REMOTE k !!! vk = true /\ x = LineKey (Z.of_nat vk) false.
Proof.
  unfold release_keys. rewrite list_elem_of_In, in_flat_map. setoid_rewrite in_seq. split.
  - intros (vk & Hvk & Hx). exists vk. destruct (KEY_REMOTE k !!! vk); [|done]. destruct Hx as [<-|[]].
    split; [lia|done].
  - intros (vk & Hvk & Hk & ->). exists vk. rewrite Hk. split; [lia|by left].
Qed.

Lemma elem_release_buttons k x : x ∈ release_buttons k <-> exists b, (1 <= b <= 5)%nat /\ BTN_REMOTE k !!! b = true /\ x = LineButton (Z.of_nat b) false.
Proof.
  unfold release_buttons. rewrite list_elem_of_In, in_flat_map. setoid_rewrite in_seq. split.
  - intros (vk & Hvk & Hx). exists vk. destruct (BTN_REMOTE k !!! vk); [|done]. destruct Hx as [<-|[]].
    split; [lia|done].
  - intros (vk & Hvk & Hk & ->). exists vk. rewrite Hk. split; [lia|by left].
Qed.

(** After [release_all_remote] nothing is held down. *)
Lemma release_all_up k :
  hook_ok k ->
  hook_ok (release_all_remote k)
  /\ (forall vk, 0 <= vk < 256 -> key_down (out (release_all_remote k)) vk = false)
  /\ (forall b, 1 <= b <= 5 -> button_down (out (release_all_remote k)) b = false).
Proof.
  intros [L1 L2 K B].
  assert (HK : forall vk, 0 <= vk < 256 -> key_down (out (release_all_remote k)) vk = false).
  { intros vk Hvk. cbn [release_all_remote emit_lines set_owned out]. rewrite key_down_app. apply release_fold.
    - intros x [(v & _ & _ & ->)%elem_release_keys|(b & _ & _ & ->)%elem_release_buttons]%elem_of_app; [|done].
      by case_if.
    - destruct (KEY_REMOTE k !!! Z.to_nat vk) eqn:E; [right|left; by rewrite K].
      exists (LineKey vk false). split; [|intros c; by rewrite Z.eqb_refl].
      apply elem_of_app. left. apply elem_release_keys. exists (Z.to_nat vk). rewrite Z2Nat.id by lia.
      split; [lia|done]. }
  assert (HB : forall b, 1 <= b <= 5 -> button_down (out (release_all_remote k)) b = false).
  { intros b Hb. cbn [release_all_remote emit_lines set_owned out]. rewrite button_down_app. apply release_fold.
    - intros x [(v & _ & _ & ->)%elem_release_keys|(c & _ & _ & ->)%elem_release_buttons]%elem_of_app; [done|].
      by case_if.
    - destruct (BTN_REMOTE k !!! Z.to_nat b) eqn:E; [right|left; by rewrite B].
      exists (LineButton b false). split; [|intros c; by rewrite Z.eqb_refl].
      apply elem_of_app. right. apply elem_release_buttons. exists (Z.to_nat b). rewrite Z2Nat.id by lia.
      split; [lia|done]. }
  split; [|done]. split; [done|done| |].
  - intros vk Hvk. rewrite HK by done. symmetry. cbn [release_all_remote emit_lines set_owned KEY_REMOTE].
    apply list_lookup_total_correct, lookup_replicate_2. lia.
  - intros b Hb. rewrite HB by done. symmetry. cbn [release_all_remote emit_lines set_owned BTN_REMOTE].
    destruct (Z.to_nat b) as [|n] eqn:En; [lia|]. cbn [lookup_total list_lookup_total].
    apply list_lookup_total_correct, lookup_replicate_2. lia.
Qed.

(** ** Events *)

(** Virtual key codes are bytes. *)
Definition event_ok (e : HookEvent) : Prop :=
  match e with
  | HookKey _ vk => 0 <= vk < 256
  | _ => True
  end.

Lemma update_hover_frame k px py k' mapped :
  update_hover k px py = Some (k', mapped) ->
  KEY_REMOTE k' = KEY_REMOTE k /\ BTN_REMOTE k' = BTN_REMOTE k
  /\ exists l, out k' = out k ++ l
     /\ Forall (fun x => match x with LineHover _ => True | _ => False end) l.
Proof.
  assert (R : forall on, let k1 := if Bool.eqb (HOVERING k) on then set_gate k (STREAMING k) (FOCUSED k) on
                              else emit_lines (set_gate k (STREAMING k) (FOCUSED k) on) [LineHover on] in
     KEY_REMOTE k1 = KEY_REMOTE k /\ BTN_REMOTE k1 = BTN_REMOTE k
     /\ exists l, out k1 = out k ++ l
        /\ Forall (fun x => match x with LineHover _ => True | _ => False end) l).
  { intros on. cbn zeta. case_if; (split; [done|]; split; [done|]).
    - exists []. by rewrite app_nil_r.
    - exists [LineHover on]. split; [done|]. by constructor. }
  unfold update_hover. case_if; [intros [= <- <-]; apply R|]. case_if; [intros [= <- <-]; apply R|].
  destruct (clamp0 _ _); [|done]. destruct (clamp0 _ _); [|done]. intros [= <- <-]. apply R.
Qed.

Lemma button_of_range m data b d : button_of m data = Some (b, d) -> (1 <= b <= 5)%nat.
Proof. destruct m; simpl; try done; intros [= <- <-]; try lia; case_if; lia. Qed.

Lemma land_255 v : 0 <= v < 256 -> Z.land v 0xff = v.
Proof. intros. change 0xff with (Z.ones 8). rewrite Z.land_ones by lia. apply Z.mod_small. lia. Qed.

Lemma hook_ok_step k e k' : hook_ok k -> event_ok e -> hook_step k e = Some k' -> hook_ok k'.
Proof.
  intros H He. destruct e as [m vk|m px py data|line]; cbn [hook_step].
  - intros [= <-]. cbn [event_ok] in He. unfold kbd_proc. rewrite land_255 by done.
    destruct m; [case_if|case_if|]; try done; by apply hook_ok_key.
  - unfold mouse_proc. destruct (update_hover k px py) as [[k1 mapped]|] eqn:E; [|done].
    destruct (update_hover_frame _ _ _ _ _ E) as (E1 & E2 & l & E3 & Hl).
    assert (H1 : hook_ok k1).
    { eapply hook_ok_frame; [exact H|exact E1|exact E2|exact E3|].
      eapply Forall_impl; [exact Hl|]. by intros []. }
    intros [= <-]. destruct (button_of m data) as [[b []]|] eqn:Eb.
    + case_if; [|done]. apply hook_ok_button; [done|by eapply button_of_range].
    + case_if; [|done]. apply hook_ok_button; [done|by eapply button_of_range].
    + case_if; [|done]. destruct m; try done.
      * destruct mapped as [[[[x y] w] h]|]; [|done].
        eapply (hook_ok_frame k1 _ [LineMouseMove x y w h]); [done..|]. by constructor.
      * eapply (hook_ok_frame k1 _ [LineScroll _]); [done..|]. by constructor.
  - intros [= <-]. destruct line as [[]|on|ns|]; cbn [on_stdin]; try done.
    + eapply (hook_ok_frame k _ []); [done..|by rewrite app_nil_r|constructor].
    + apply release_all_up. eapply (hook_ok_frame k _ []); [done..|by rewrite app_nil_r|constructor].
    + eapply (hook_ok_frame k _ []); [done..|by rewrite app_nil_r|constructor].
    + destruct ns as [|l [|t [|r [|b [|]]]]]; try done.
      eapply (hook_ok_frame k _ []); [done..|by rewrite app_nil_r|constructor].
Qed.

Lemma hook_run_ok k l k' : hook_ok k -> Forall event_ok l -> hook_run k l = Some k' -> hook_ok k'.
Proof.
  intros H Hl. revert k H. induction Hl as [|e l He Hl IH]; intros k H; cbn [hook_run]; [by intros [= <-]|].
  destruct (hook_step k e) as [k1|] eqn:E; [|done]. apply IH. by eapply hook_ok_step.
Qed.

Lemma keyhook_new_ok : hook_ok keyhook_new.
Proof.
  split; [done|done| |].
  - intros vk Hvk. symmetry. apply list_lookup_total_correct, lookup_replicate_2. lia.
  - intros b Hb. symmetry. apply list_lookup_total_correct, lookup_replicate_2. lia.
Qed.


(** Captured with the pointer inside, then out of the window and released. *)
Definition keyhook_events_example : list HookEvent :=
  [HookStdin (LineS true); HookStdin (LineF true); HookStdin (LineR [100; 100; 1060; 640]);
   HookMouse MsgMove 580 370 0; HookKey KeyDownMsg 0x41; HookMouse MsgLDown 580 370 0; HookMouse MsgMove 5 5 0].


(** ** The pointer, from the admin's screen to the host's *)

(** A canvas on a real screen. *)
Record canvas_ok (k : KeyHook) : Prop := {
  cv_set : RECT_SET k = true;
  cv_w : 0 < RECT_R k - RECT_L k < 2 ^ 15;
  cv_h : 0 < RECT_B k - RECT_T k < 2 ^ 15
}.

Lemma i32_small z : 0 <= z < 2 ^ 31 -> i32 z = z.
Proof.
  intros H. unfold i32. rewrite u32_id by (unfold is_u32; lia). by rewrite (proj2 (Z.ltb_lt _ _)) by lia.
Qed.

Lemma i16_small z : 0 <= z < 2 ^ 15 -> i16 z = z.
Proof.
  intros H. unfold i16. rewrite u16_id by (unfold is_u16; lia). by rewrite (proj2 (Z.ltb_lt _ _)) by lia.
Qed.

Lemma clamp0_id v hi : 0 <= v <= hi -> clamp0 v hi = Some v.
Proof.
  intros H. unfold clamp0. rewrite (proj2 (Z.ltb_ge _ _)) by lia. f_equal. lia.
Qed.

Lemma update_hover_inside k px py :
  canvas_ok k -> RECT_L k <= px < RECT_R k -> RECT_T k <= py < RECT_B k ->
  exists k', update_hover k px py
    = Some (k', Some (px - RECT_L k, py - RECT_T k, RECT_R k - RECT_L k, RECT_B k - RECT_T k))
    /\ STREAMING k' = STREAMING k /\ FOCUSED k' = FOCUSED k /\ HOVERING k' = true.
Proof.
  intros [Hs Hw Hh] Hx Hy. unfold update_hover. rewrite Hs. cbn [negb].
  rewrite (proj2 (Z.leb_le (RECT_L k) px)), (proj2 (Z.ltb_lt px (RECT_R k))),
    (proj2 (Z.leb_le (RECT_T k) py)), (proj2 (Z.ltb_lt py (RECT_B k))) by lia. cbn [andb negb orb].
  rewrite !(proj2 (Z.leb_gt _ _)) by lia. cbn [orb].
  rewrite (i32_small (RECT_R k - RECT_L k)), (i32_small (RECT_B k - RECT_T k)) by lia.
  rewrite !i32_small by lia. rewrite !clamp0_id by lia.
  eexists. split; [reflexivity|]. by destruct (HOVERING k).
Qed.

(** While the admin streams with focus, moving the pointer to a point of
    the canvas moves the host's pointer to the same relative position: the
    sidecar's line becomes an event whose injection is one absolute move to
    the coordinates floor(65535 x / w), floor(65535 y / h), both on the 16-bit
    axis of the host's screen. *)
Theorem pointer_end_to_end (k : KeyHook) (px py data : Z) :
  canvas_ok k -> STREAMING k = true -> FOCUSED k = true ->
  RECT_L k <= px < RECT_R k -> RECT_T k <= py < RECT_B k ->
  let w := RECT_R k - RECT_L k in
  let h := RECT_B k - RECT_T k in
  exists k' pre ev nx ny,
    mouse_proc k MsgMove px py data = Some k'
    /\ out k' = out k ++ pre ++ [LineMouseMove (px - RECT_L k) (py - RECT_T k) w h]
    /\ omap handle_line (pre ++ [LineMouseMove (px - RECT_L k) (py - RECT_T k) w h]) = [ev]
    /\ inject (as_slice (encode_input ev)) = [MouseInput nx ny 0 [MOUSEEVENTF_MOVE; MOUSEEVENTF_ABSOLUTE]]
    /\ nx = (px - RECT_L k) * 65535 / w /\ ny = (py - RECT_T k) * 65535 / h
    /\ 0 <= nx <= 65535 /\ 0 <= ny <= 65535.
Proof.
  intros Hc Hs Hf Hx Hy w h.
  destruct (update_hover_inside k px py Hc Hx Hy) as (k1 & E & S1 & F1 & H1).
  destruct (update_hover_frame _ _ _ _ _ E) as (_ & _ & pre & Eo & Hpre).
  destruct Hc as [_ Hw Hh]. fold w in Hw, E. fold h in Hh, E.
  destruct (normalize_inside (px - RECT_L k) w ltac:(lia) ltac:(lia)) as [Nx Bx].
  destruct (normalize_inside (py - RECT_T k) h ltac:(lia) ltac:(lia)) as [Ny By].
  assert (Ehl : handle_line (LineMouseMove (px - RECT_L k) (py - RECT_T k) w h)
                = Some (MousePosition (px - RECT_L k) (py - RECT_T k) w h))
    by (cbn [handle_line]; rewrite !i16_small by lia; done).
  eexists _, pre, (MousePosition (px - RECT_L k) (py - RECT_T k) w h),
    (normalize (px - RECT_L k) w), (normalize (py - RECT_T k) h).
  unfold mouse_proc. rewrite E. unfold active. rewrite S1, F1, Hs, Hf, H1. cbn [andb button_of].
  split; [reflexivity|]. split; [cbn [out emit_lines]; by rewrite Eo, <- app_assoc|].
  split.
  { rewrite omap_app. cbn [omap list_omap]. rewrite Ehl.
    assert (omap handle_line pre = []) as ->; [|done].
    clear -Hpre. induction Hpre as [|x l Hx Hl IH]; [done|]. by destruct x. }
  split; [|done].
  rewrite inject_encoded by (unfold input_ok, is_i16; lia). unfold input_effect.
  rewrite !(proj2 (Z.ltb_lt _ _)) by lia. cbn [andb].
  rewrite !normalize_i16 by (unfold is_i16; lia). done.
Qed.

Lemma pointer_end_to_end_witness :
  let k := set_rect (set_gate keyhook_new true true false) 100 100 1060 640 in
  exists k' pre ev nx ny,
    mouse_proc k MsgMove 580 370 0 = Some k'
    /\ out k' = out k ++ pre ++ [LineMouseMove 480 270 960 540]
    /\ omap handle_line (pre ++ [LineMouseMove 480 270 960 540]) = [ev]
    /\ inject (as_slice (encode_input ev)) = [MouseInput nx ny 0 [MOUSEEVENTF_MOVE; MOUSEEVENTF_ABSOLUTE]]
    /\ nx = 480 * 65535 / 960 /\ ny = 270 * 65535 / 540
    /\ 0 <= nx <= 65535 /\ 0 <= ny <= 65535.
Proof.
  apply (pointer_end_to_end (set_rect (set_gate keyhook_new true true false) 100 100 1060 640) 580 370 0);
    [split; [reflexivity|cbn; lia|cbn; lia]|reflexivity|reflexivity|cbn; lia|cbn; lia].
Defined.
