(* ===== verification/Pairing.v ===== *)
(** * GameStream pairing
    ([kmc-streamhost/src/clients.rs], [state.rs], [crypto.rs], the pairing
    routes of [webserver.rs], [kmc-moonclient/src/pair.rs])

    Host: the pending-client state machine behind [/pair] and the persistent
    list of paired clients.  Client: the five requests.  SHA-256, the AES
    block, X.509 and RSA are parameters ([PairCrypto]), and so is the hex
    crate; ECB chaining and the key derivation are the code's own.  Strings
    that the code hashes or sends are byte lists. *)
From S2P Require Import Prelude.

Class PairCrypto := {
  sha256 : list Z -> list Z;
  encrypt_block : list Z -> list Z -> list Z;
  decrypt_block : list Z -> list Z -> list Z;
  cert_signature : list Z -> option (list Z);
  cert_fingerprint : list Z -> option string;
  rsa_sign_sha256 : list Z -> list Z -> option (list Z);
  rsa_verify_cert_sha256 : list Z -> list Z -> list Z -> bool;
  hex_encode : list Z -> string;
  hex_decode : string -> option (list Z);
  utf8_valid : list Z -> bool
}.

Class PairCryptoLaws (C : PairCrypto) := {
  pc_sha_length l : length (sha256 l) = 32%nat;
  pc_enc_length k b : length b = 16%nat -> length (encrypt_block k b) = 16%nat;
  pc_dec_length k b : length b = 16%nat -> length (decrypt_block k b) = 16%nat;
  pc_dec_enc k b : length b = 16%nat -> decrypt_block k (encrypt_block k b) = b;
  pc_hex l : hex_decode (hex_encode l) = Some l
}.

Section Pairing.
Context {C : PairCrypto}.

(** ** crypto.rs *)

Definition derive_key (salt pin : list Z) : list Z := take 16 (sha256 (salt ++ pin)).

(** [chunks_mut(16)]: one call of the block function per 16 bytes. *)
Fixpoint ecb_blocks (f : list Z -> list Z) (n : nat) (data : list Z) : list Z :=
  match n with
  | O => []
  | S n => f (take 16 data) ++ ecb_blocks f n (drop 16 data)
  end.

Definition aes_ecb_encrypt (data k : list Z) : option (list Z) :=
  if (length data mod 16 =? 0)%nat then Some (ecb_blocks (encrypt_block k) (length data / 16) data) else None.
Definition aes_ecb_decrypt (data k : list Z) : option (list Z) :=
  if (length data mod 16 =? 0)%nat then Some (ecb_blocks (decrypt_block k) (length data / 16) data) else None.

(** ** clients.rs and state.rs *)

Record PendingClient := mkPendingClient {
  pc_pem : list Z;
  pc_salt : list Z;
  pc_key : option (list Z);
  server_secret : option (list Z);
  server_challenge : option (list Z);
  client_hash : option (list Z)
}.

Record ClientManager := mkClientManager {
  pending : gmap string PendingClient;
  st_clients : gmap string (list Z);
  paired_fingerprints : list string;
  server_cert_pem : list Z;
  server_key_pem : list Z
}.

Definition set_pending (m : ClientManager) (id : string) (c : PendingClient) : ClientManager :=
  {| pending := <[id := c]> (pending m); st_clients := st_clients m;
     paired_fingerprints := paired_fingerprints m; server_cert_pem := server_cert_pem m;
     server_key_pem := server_key_pem m |}.

Definition is_paired (m : ClientManager) (id : string) : bool := bool_decide (is_Some (st_clients m !! id)).
Definition is_cert_paired (m : ClientManager) (fp : string) : bool := bool_decide (fp ∈ paired_fingerprints m).

Definition add_paired (m : ClientManager) (id fingerprint : string) (pem : list Z) : ClientManager :=
  {| pending := pending m; st_clients := <[id := pem]> (st_clients m);
     paired_fingerprints := if bool_decide (fingerprint ∈ paired_fingerprints m) then paired_fingerprints m
                            else paired_fingerprints m ++ [fingerprint];
     server_cert_pem := server_cert_pem m; server_key_pem := server_key_pem m |}.

Definition start_pairing (m : ClientManager) (id : string) (pem salt : list Z) : ClientManager :=
  set_pending m id {| pc_pem := pem; pc_salt := salt; pc_key := None; server_secret := None;
                      server_challenge := None; client_hash := None |}.

Definition register_pin (m : ClientManager) (id : string) (pin : list Z) : option ClientManager :=
  c <-? pending m !! id;
  Some (set_pending m id {| pc_pem := pc_pem c; pc_salt := pc_salt c; pc_key := Some (derive_key (pc_salt c) pin);
                            server_secret := server_secret c; server_challenge := server_challenge c;
                            client_hash := client_hash c |}).

(** [rnd_secret] and [rnd_challenge] are the 16-byte draws.  The state keeps
    the secret even when a later step fails, and the challenge when only the
    last one does. *)
Definition client_challenge (m : ClientManager) (id : string) (challenge rnd_secret rnd_challenge : list Z)
  : ClientManager * option (list Z) :=
  match pending m !! id with
  | None => (m, None)
  | Some c =>
      match pc_key c with
      | None => (m, None)
      | Some k =>
          let with_secret ch := set_pending m id
            {| pc_pem := pc_pem c; pc_salt := pc_salt c; pc_key := pc_key c; server_secret := Some rnd_secret;
               server_challenge := ch; client_hash := client_hash c |} in
          match aes_ecb_decrypt challenge k, cert_signature (server_cert_pem m) with
          | Some decrypted, Some cert_sig =>
              let hash := sha256 (decrypted ++ cert_sig ++ rnd_secret) in
              (with_secret (Some rnd_challenge), aes_ecb_encrypt (hash ++ rnd_challenge) k)
          | _, _ => (with_secret (server_challenge c), None)
          end
      end
  end.

Definition server_challenge_response (m : ClientManager) (id : string) (challenge_response : list Z)
  : ClientManager * option (list Z) :=
  match pending m !! id with
  | None => (m, None)
  | Some c =>
      match pc_key c with
      | None => (m, None)
      | Some k =>
          match aes_ecb_decrypt challenge_response k with
          | None => (m, None)
          | Some decrypted =>
              (set_pending m id {| pc_pem := pc_pem c; pc_salt := pc_salt c; pc_key := pc_key c;
                                   server_secret := server_secret c; server_challenge := server_challenge c;
                                   client_hash := Some decrypted |},
               secret <-? server_secret c;
               signed <-? rsa_sign_sha256 secret (server_key_pem m);
               Some (secret ++ signed))
          end
      end
  end.

Definition verify_pairing_secret (c : PendingClient) (client_secret : list Z) : bool :=
  match client_hash c, server_challenge c with
  | Some hash, Some chal =>
      if (length client_secret <? 16)%nat then false
      else
        let payload := take 16 client_secret in
        match cert_signature (pc_pem c) with
        | Some cert_sig =>
            bool_decide (sha256 (chal ++ cert_sig ++ payload) = hash)
            && rsa_verify_cert_sha256 (pc_pem c) payload (drop 16 client_secret)
        | None => false
        end
  | _, _ => false
  end.

Definition check_client_pairing_secret (m : ClientManager) (id : string) (client_secret : list Z)
  : ClientManager * bool :=
  match pending m !! id with
  | Some c =>
      if verify_pairing_secret c client_secret then
        match cert_fingerprint (pc_pem c) with
        | Some fp => (add_paired m id fp (pc_pem c), true)
        | None => (m, false)
        end
      else (m, false)
  | None => (m, false)
  end.

(** ** webserver.rs: the [/pair] route *)

Record PairParams := mkPairParams {
  phrase : option string;
  uniqueid : option string;
  salt_hex : option string;
  clientcert : option string;
  clientchallenge : option string;
  serverchallengeresp : option string;
  clientpairingsecret : option string
}.

(** [paired_xml] around an optional element, or [bad_request]. *)
Inductive PairReply := PairedXml (inner : option (string * string)) | BadRequest.

(** [entered] is the PIN submitted while [getservercert] waits, if any. *)
Definition pair_get_server_cert (m : ClientManager) (p : PairParams) (entered : option (list Z))
  : ClientManager * PairReply :=
  let r := cert_hex <-? clientcert p;
           pem <-? hex_decode cert_hex;
           (if utf8_valid pem then
              id <-? uniqueid p;
              s <-? salt_hex p;
              salt <-? hex_decode s;
              (if (length salt =? 16)%nat then Some (id, pem, salt) else None)
            else None) in
  match r with
  | None => (m, BadRequest)
  | Some (id, pem, salt) =>
      let m := start_pairing m id pem salt in
      let m := match entered with
               | Some pin => default m (register_pin m id pin)
               | None => m
               end in
      (m, PairedXml (Some ("plaincert"%string, hex_encode (server_cert_pem m))))
  end.

Definition reply_of (tag : string) (r : ClientManager * option (list Z)) : ClientManager * PairReply :=
  (r.1, match r.2 with Some b => PairedXml (Some (tag, hex_encode b)) | None => BadRequest end).

Definition pair_client_challenge (m : ClientManager) (p : PairParams) (rnd_secret rnd_challenge : list Z) :=
  match uniqueid p, clientchallenge p with
  | Some id, Some h =>
      match hex_decode h with
      | Some c => reply_of "challengeresponse" (client_challenge m id c rnd_secret rnd_challenge)
      | None => (m, BadRequest)
      end
  | _, _ => (m, BadRequest)
  end.

Definition pair_server_challenge_response (m : ClientManager) (p : PairParams) :=
  match uniqueid p, serverchallengeresp p with
  | Some id, Some h =>
      match hex_decode h with
      | Some c => reply_of "pairingsecret" (server_challenge_response m id c)
      | None => (m, BadRequest)
      end
  | _, _ => (m, BadRequest)
  end.

Definition pair_client_secret (m : ClientManager) (p : PairParams) :=
  match uniqueid p, clientpairingsecret p with
  | Some id, Some h =>
      match hex_decode h with
      | Some c => let '(m, ok) := check_client_pairing_secret m id c in
                  (m, if ok then PairedXml None else BadRequest)
      | None => (m, BadRequest)
      end
  | _, _ => (m, BadRequest)
  end.

Definition handle_pair (m : ClientManager) (p : PairParams) (entered : option (list Z)) (rnd_secret rnd_challenge : list Z)
  : ClientManager * PairReply :=
  match phrase p with
  | Some ph =>
      if bool_decide (ph = "getservercert"%string) then pair_get_server_cert m p entered
      else if bool_decide (ph = "pairchallenge"%string) then (m, PairedXml None)
      else (m, BadRequest)
  | None =>
      match clientchallenge p, serverchallengeresp p, clientpairingsecret p with
      | Some _, _, _ => pair_client_challenge m p rnd_secret rnd_challenge
      | None, Some _, _ => pair_server_challenge_response m p
      | None, None, Some _ => pair_client_secret m p
      | None, None, None => (m, BadRequest)
      end
  end.

(** ** pair.rs: the client *)

Record Identity := mkIdentity { cert_pem : list Z; key_pem : list Z; unique_id : string }.

Definition xml_text (r : PairReply) (tag : string) : option string :=
  match r with
  | PairedXml (Some (t, v)) => if bool_decide (t = tag) then Some v else None
  | _ => None
  end.
Definition paired_1 (r : PairReply) : bool := match r with PairedXml _ => true | BadRequest => false end.

Definition params_of (id : Identity) : PairParams :=
  {| phrase := None; uniqueid := Some (unique_id id); salt_hex := None; clientcert := None; clientchallenge := None;
     serverchallengeresp := None; clientpairingsecret := None |}.

(** The values drawn in one pairing: by the client, by the host. *)
Record Draws := mkDraws { d_salt : list Z; d_challenge : list Z; d_secret : list Z; d_srv_secret : list Z; d_srv_challenge : list Z }.

(** [pair]: the pinned server certificate on success.  Without a PIN the
    host would answer after 90 seconds, the client gives up after 15. *)
Definition pair_client (id : Identity) (pin : list Z) (entered : option (list Z)) (d : Draws) (m : ClientManager)
  : ClientManager * option (list Z) :=
  let key := derive_key (d_salt d) pin in
  let ask m p := handle_pair m p entered (d_srv_secret d) (d_srv_challenge d) in
  let p0 := params_of id in
  let '(m, r1) := ask m {| phrase := Some "getservercert"%string; uniqueid := uniqueid p0;
                           salt_hex := Some (hex_encode (d_salt d)); clientcert := Some (hex_encode (cert_pem id));
                           clientchallenge := None; serverchallengeresp := None; clientpairingsecret := None |} in
  let stage1 := match entered with
                | None => None
                | Some _ => if paired_1 r1 then h <-? xml_text r1 "plaincert"; pem <-? hex_decode h;
                                                if utf8_valid pem then Some pem else None
                            else None
                end in
  match stage1, aes_ecb_encrypt (d_challenge d) key with
  | Some server_cert, Some enc_challenge =>
      let '(m, r2) := ask m {| phrase := None; uniqueid := uniqueid p0; salt_hex := None; clientcert := None;
                               clientchallenge := Some (hex_encode enc_challenge);
                               serverchallengeresp := None; clientpairingsecret := None |} in
      let stage2 := h <-? xml_text r2 "challengeresponse"; b <-? hex_decode h; chresp <-? aes_ecb_decrypt b key;
                    (if (length chresp <? 48)%nat then None
                     else sig <-? cert_signature (cert_pem id);
                          aes_ecb_encrypt (sha256 (slice 32 48 chresp ++ sig ++ d_secret d)) key) in
      match stage2 with
      | None => (m, None)
      | Some enc_hash =>
          let '(m, r3) := ask m {| phrase := None; uniqueid := uniqueid p0; salt_hex := None; clientcert := None;
                                   clientchallenge := None; serverchallengeresp := Some (hex_encode enc_hash);
                                   clientpairingsecret := None |} in
          let stage3 := h <-? xml_text r3 "pairingsecret"; secret <-? hex_decode h;
                        (if (length secret <? 16)%nat then None
                         else if rsa_verify_cert_sha256 server_cert (take 16 secret) (drop 16 secret)
                              then rsa_sign_sha256 (d_secret d) (key_pem id) else None) in
          match stage3 with
          | None => (m, None)
          | Some signed =>
              (* the reply to the fourth request is not looked at *)
              let '(m, _) := ask m {| phrase := None; uniqueid := uniqueid p0; salt_hex := None; clientcert := None;
                                      clientchallenge := None; serverchallengeresp := None;
                                      clientpairingsecret := Some (hex_encode (d_secret d ++ signed)) |} in
              let '(m, r5) := ask m {| phrase := Some "pairchallenge"%string; uniqueid := uniqueid p0; salt_hex := None;
                                       clientcert := None; clientchallenge := None; serverchallengeresp := None;
                                       clientpairingsecret := None |} in
              (m, if paired_1 r5 then Some server_cert else None)
          end
      end
  | _, _ => (m, None)
  end.
End Pairing.

(** ** ECB *)

Section Ecb.
Context {C : PairCrypto} {L : PairCryptoLaws C}.

Lemma ecb_blocks_length f n data :
  (forall b, length b = 16%nat -> length (f b) = 16%nat) -> length data = (16 * n)%nat ->
  length (ecb_blocks f n data) = (16 * n)%nat.
Proof.
  intros Hf. revert data. induction n as [|n IH]; intros data H; [done|].
  cbn [ecb_blocks]. rewrite length_app, Hf by (rewrite length_take; lia).
  rewrite IH by (rewrite length_drop; lia). lia.
Qed.

Lemma ecb_blocks_inverse k n data :
  length data = (16 * n)%nat -> ecb_blocks (decrypt_block k) n (ecb_blocks (encrypt_block k) n data) = data.
Proof.
  revert data. induction n as [|n IH]; intros data H; cbn [ecb_blocks].
  - destruct data; [done|simpl in H; lia].
  - assert (Lb : length (encrypt_block k (take 16 data)) = 16%nat)
      by (apply pc_enc_length; rewrite length_take; lia).
    rewrite take_app_le, take_ge by lia. rewrite drop_app_ge, Lb, Nat.sub_diag, drop_0 by lia.
    rewrite pc_dec_enc by (rewrite length_take; lia).
    rewrite IH by (rewrite length_drop; lia). apply take_drop.
Qed.

Lemma blocks_of (l : list Z) : (length l mod 16 = 0)%nat -> length l = (16 * (length l / 16))%nat.
Proof. intros H. pose proof (Nat.div_mod (length l) 16). lia. Qed.

Lemma aes_ecb_encrypt_some k data :
  (length data mod 16 = 0)%nat -> exists ct, aes_ecb_encrypt data k = Some ct /\ length ct = length data
    /\ aes_ecb_decrypt ct k = Some data.
Proof.
  intros H. unfold aes_ecb_encrypt. rewrite H. eexists. split; [reflexivity|].
  assert (E : length (ecb_blocks (encrypt_block k) (length data / 16) data) = length data).
  { rewrite ecb_blocks_length; [by rewrite <- blocks_of|apply pc_enc_length|by apply blocks_of]. }
  split; [done|]. unfold aes_ecb_decrypt. rewrite E, H. f_equal. by apply ecb_blocks_inverse, blocks_of.
Qed.

Lemma aes_ecb_decrypt_some k data :
  (length data mod 16 = 0)%nat -> exists pt, aes_ecb_decrypt data k = Some pt /\ length pt = length data.
Proof.
  intros H. unfold aes_ecb_decrypt. rewrite H. eexists. split; [reflexivity|].
  rewrite ecb_blocks_length; [by rewrite <- blocks_of|apply pc_dec_length|by apply blocks_of].
Qed.
End Ecb.

(** ** The protocol *)

(** A certificate whose private key is [key]: everything the code asks of it
    works. *)
Record keypair {C : PairCrypto} (cert key : list Z) : Prop := {
  kp_sig : exists s, cert_signature cert = Some s;
  kp_fp : exists fp, cert_fingerprint cert = Some fp;
  kp_utf8 : utf8_valid cert = true;
  kp_sign data : exists s, rsa_sign_sha256 data key = Some s /\ rsa_verify_cert_sha256 cert data s = true
}.

Record draws_ok (d : Draws) : Prop := {
  dr_salt : length (d_salt d) = 16%nat;
  dr_challenge : length (d_challenge d) = 16%nat;
  dr_secret : length (d_secret d) = 16%nat;
  dr_srv_secret : length (d_srv_secret d) = 16%nat;
  dr_srv_challenge : length (d_srv_challenge d) = 16%nat
}.

Section Protocol.
Context {C : PairCrypto} {L : PairCryptoLaws C}.

(** The hash the host ends up with in the third request, from the client's
    challenge response under the two keys, and the one it expects. *)
Definition received_hash (kc kh sig : list Z) (d : Draws) (server_hash : list Z) : option (list Z) :=
  ct <-? aes_ecb_encrypt (server_hash ++ d_srv_challenge d) kh;
  chresp <-? aes_ecb_decrypt ct kc;
  ct2 <-? aes_ecb_encrypt (sha256 (slice 32 48 chresp ++ sig ++ d_secret d)) kc;
  aes_ecb_decrypt ct2 kh.
Definition expected_hash (sig : list Z) (d : Draws) : list Z := sha256 (d_srv_challenge d ++ sig ++ d_secret d).

Lemma length_sha_16 l : (length (sha256 l) mod 16 = 0)%nat.
Proof using L. by rewrite pc_sha_length. Qed.

(** The four requests that change the host, one lemma each. *)

Definition awaiting (id : Identity) (d : Draws) (kh : list Z) (secret chal hash : option (list Z)) : PendingClient :=
  {| pc_pem := cert_pem id; pc_salt := d_salt d; pc_key := Some kh; server_secret := secret;
     server_challenge := chal; client_hash := hash |}.

Lemma set_pending_twice m id c c' : set_pending (set_pending m id c) id c' = set_pending m id c'.
Proof. unfold set_pending. cbn. by rewrite insert_insert_eq. Qed.

Lemma pending_set m id c : pending (set_pending m id c) !! id = Some c.
Proof. apply lookup_insert_eq. Qed.

Lemma ask_cert id d entered m p rs rc :
  length (d_salt d) = 16%nat -> utf8_valid (cert_pem id) = true ->
  phrase p = Some "getservercert"%string -> uniqueid p = Some (unique_id id) ->
  salt_hex p = Some (hex_encode (d_salt d)) -> clientcert p = Some (hex_encode (cert_pem id)) ->
  handle_pair m p (Some entered) rs rc
  = (set_pending m (unique_id id) (awaiting id d (derive_key (d_salt d) entered) None None None),
     PairedXml (Some ("plaincert"%string, hex_encode (server_cert_pem m)))).
Proof using L.
  intros Hs Hu E1 E2 E3 E4. unfold handle_pair. rewrite E1, bool_decide_true by done.
  unfold pair_get_server_cert. rewrite E4, E2, E3, !pc_hex, Hu, Hs. cbn [Nat.eqb].
  unfold register_pin, start_pairing. rewrite pending_set. cbn [pc_pem pc_salt server_secret server_challenge client_hash default].
  by rewrite set_pending_twice.
Qed.

Lemma ask_challenge id d kh m p e ch dch ssig hash cr :
  phrase p = None -> uniqueid p = Some (unique_id id) -> clientchallenge p = Some (hex_encode ch) ->
  pending m !! unique_id id = Some (awaiting id d kh None None None) ->
  aes_ecb_decrypt ch kh = Some dch -> cert_signature (server_cert_pem m) = Some ssig ->
  hash = sha256 (dch ++ ssig ++ d_srv_secret d) -> aes_ecb_encrypt (hash ++ d_srv_challenge d) kh = Some cr ->
  handle_pair m p e (d_srv_secret d) (d_srv_challenge d)
  = (set_pending m (unique_id id) (awaiting id d kh (Some (d_srv_secret d)) (Some (d_srv_challenge d)) None),
     PairedXml (Some ("challengeresponse"%string, hex_encode cr))).
Proof using L.
  intros E1 E2 E3 Hp Hd Hs -> He. unfold handle_pair. rewrite E1, E3. unfold pair_client_challenge.
  rewrite E2, E3, pc_hex. unfold client_challenge. rewrite Hp. cbn [pc_key awaiting]. rewrite Hd, Hs, He. done.
Qed.

Lemma ask_response id d kh m p e rs rc resp hash signed :
  phrase p = None -> uniqueid p = Some (unique_id id) -> clientchallenge p = None ->
  serverchallengeresp p = Some (hex_encode resp) ->
  pending m !! unique_id id = Some (awaiting id d kh (Some (d_srv_secret d)) (Some (d_srv_challenge d)) None) ->
  aes_ecb_decrypt resp kh = Some hash -> rsa_sign_sha256 (d_srv_secret d) (server_key_pem m) = Some signed ->
  handle_pair m p e rs rc
  = (set_pending m (unique_id id) (awaiting id d kh (Some (d_srv_secret d)) (Some (d_srv_challenge d)) (Some hash)),
     PairedXml (Some ("pairingsecret"%string, hex_encode (d_srv_secret d ++ signed)))).
Proof using L.
  intros E1 E2 E3 E4 Hp Hd Hs. unfold handle_pair. rewrite E1, E3, E4. unfold pair_server_challenge_response.
  rewrite E2, E4, pc_hex. unfold server_challenge_response. rewrite Hp. cbn [pc_key awaiting server_secret].
  rewrite Hd, Hs. done.
Qed.

Lemma ask_secret id d kh m p e rs rc hash sig fp signed :
  phrase p = None -> uniqueid p = Some (unique_id id) -> clientchallenge p = None -> serverchallengeresp p = None ->
  clientpairingsecret p = Some (hex_encode (d_secret d ++ signed)) -> length (d_secret d) = 16%nat ->
  pending m !! unique_id id = Some (awaiting id d kh (Some (d_srv_secret d)) (Some (d_srv_challenge d)) (Some hash)) ->
  cert_signature (cert_pem id) = Some sig -> cert_fingerprint (cert_pem id) = Some fp ->
  rsa_verify_cert_sha256 (cert_pem id) (d_secret d) signed = true ->
  (handle_pair m p e rs rc).1
  = (if bool_decide (expected_hash sig d = hash) then add_paired m (unique_id id) fp (cert_pem id) else m).
Proof using L.
  intros E1 E2 E3 E4 E5 Hl Hp Hs Hf Hv. unfold handle_pair. rewrite E1, E3, E4, E5. unfold pair_client_secret.
  rewrite E2, E5, pc_hex. unfold check_client_pairing_secret. rewrite Hp. unfold verify_pairing_secret.
  cbn [client_hash server_challenge awaiting pc_pem].
  rewrite (proj2 (Nat.ltb_ge _ _)) by (rewrite length_app; lia).
  rewrite take_app_le, take_ge, drop_app_ge, Hl, Nat.sub_diag, drop_0, Hs, Hv by lia.
  unfold expected_hash. case_bool_decide; cbn [andb]; [|done]. by rewrite Hf.
Qed.

(** Whatever PIN was entered, the client is told that it is paired; the host
    stores it exactly when the two hashes agree. *)
Lemma pair_client_run (id : Identity) (pin entered : list Z) (d : Draws) (m : ClientManager) :
  keypair (cert_pem id) (key_pem id) -> keypair (server_cert_pem m) (server_key_pem m) -> draws_ok d ->
  exists m' sig fp server_hash hash,
    pair_client id pin (Some entered) d m = (m', Some (server_cert_pem m))
    /\ cert_signature (cert_pem id) = Some sig /\ cert_fingerprint (cert_pem id) = Some fp
    /\ length server_hash = 32%nat
    /\ received_hash (derive_key (d_salt d) pin) (derive_key (d_salt d) entered) sig d server_hash = Some hash
    /\ st_clients m' = (if bool_decide (expected_hash sig d = hash)
                        then <[unique_id id := cert_pem id]> (st_clients m) else st_clients m)
    /\ (expected_hash sig d = hash -> fp ∈ paired_fingerprints m')
    /\ (expected_hash sig d <> hash -> paired_fingerprints m' = paired_fingerprints m).
Proof using L.
  intros [[sig Hsig] [fp Hfp] Hu Hsign] [[ssig Hssig] _ Hsu Hssign] [D1 D2 D3 D4 D5].
  set (kc := derive_key (d_salt d) pin). set (kh := derive_key (d_salt d) entered).
  destruct (aes_ecb_encrypt_some kc (d_challenge d)) as (ech & E1 & L1 & _); [by rewrite D2|].
  destruct (aes_ecb_decrypt_some kh ech) as (dch & E2 & L2); [by rewrite L1, D2|].
  remember (sha256 (dch ++ ssig ++ d_srv_secret d)) as server_hash eqn:Esh.
  assert (Lsh : length server_hash = 32%nat) by (subst; apply pc_sha_length).
  destruct (aes_ecb_encrypt_some kh (server_hash ++ d_srv_challenge d)) as (cr & E3 & L3 & _);
    [by rewrite length_app, Lsh, D5|].
  rewrite length_app, Lsh, D5 in L3.
  destruct (aes_ecb_decrypt_some kc cr) as (chresp & E4 & L4); [by rewrite L3|].
  destruct (aes_ecb_encrypt_some kc (sha256 (slice 32 48 chresp ++ sig ++ d_secret d))) as (eh & E5 & L5 & _);
    [apply length_sha_16|].
  destruct (aes_ecb_decrypt_some kh eh) as (hash & E6 & L6); [rewrite L5; apply length_sha_16|].
  destruct (Hssign (d_srv_secret d)) as (ss & S1 & S2). destruct (Hsign (d_secret d)) as (cs & S3 & S4).
  assert (R : received_hash kc kh sig d server_hash = Some hash)
    by (unfold received_hash; by rewrite E3, E4, E5).
  set (m3 := set_pending m (unique_id id) (awaiting id d kh (Some (d_srv_secret d)) (Some (d_srv_challenge d)) (Some hash))).
  exists (if bool_decide (expected_hash sig d = hash) then add_paired m3 (unique_id id) fp (cert_pem id) else m3),
    sig, fp, server_hash, hash.
  split.
  - unfold pair_client. cbn [uniqueid params_of].
    erewrite (ask_cert id d entered) by done. cbn [paired_1 xml_text]. rewrite bool_decide_true, pc_hex, Hsu by done.
    fold kc kh. rewrite E1.
    erewrite (ask_challenge id d kh) by (done || apply pending_set). cbn [xml_text].
    rewrite bool_decide_true, pc_hex by done. rewrite E4, L4, L3. change (32 + 16 <? 48)%nat with false. cbv iota. rewrite Hsig, E5.
    rewrite set_pending_twice.
    erewrite (ask_response id d kh) by (done || apply pending_set). cbn [xml_text].
    rewrite bool_decide_true, pc_hex, length_app by done. rewrite (proj2 (Nat.ltb_ge _ _)) by lia.
    rewrite take_app_le, take_ge, drop_app_ge, D4, Nat.sub_diag, drop_0, S2, S3 by lia.
    rewrite set_pending_twice. fold m3.
    pose proof (ask_secret id d kh m3 {| phrase := None; uniqueid := Some (unique_id id); salt_hex := None;
      clientcert := None; clientchallenge := None; serverchallengeresp := None;
      clientpairingsecret := Some (hex_encode (d_secret d ++ cs)) |} (Some entered) (d_srv_secret d) (d_srv_challenge d)
      hash sig fp cs eq_refl eq_refl eq_refl eq_refl eq_refl D3 (pending_set _ _ _) Hsig Hfp S4) as X.
    destruct (handle_pair m3 _ _ _ _) as [m4 r4]. cbn [fst] in X. subst m4.
    unfold handle_pair. cbn [phrase]. rewrite bool_decide_false, bool_decide_true by done. done.
  - repeat (split; [done|]). split; [by case_bool_decide|]. split; intros H.
    + rewrite bool_decide_true by done. cbn [add_paired paired_fingerprints]. case_bool_decide; [done|].
      apply elem_of_app. right. by apply list_elem_of_singleton.
    + by rewrite bool_decide_false.
Qed.
End Protocol.

Section Outcomes.
Context {C : PairCrypto} {L : PairCryptoLaws C}.

Lemma received_same_key k sig d server_hash hash :
  length server_hash = 32%nat -> length (d_srv_challenge d) = 16%nat ->
  received_hash k k sig d server_hash = Some hash -> hash = expected_hash sig d.
Proof using L.
  intros Hl Hd. unfold received_hash.
  destruct (aes_ecb_encrypt_some k (server_hash ++ d_srv_challenge d)) as (ct & -> & _ & ->);
    [by rewrite length_app, Hl, Hd|].
  assert (slice 32 48 (server_hash ++ d_srv_challenge d) = d_srv_challenge d) as ->.
  { unfold slice. rewrite drop_app_ge, Hl, Nat.sub_diag, drop_0 by lia. apply take_ge. lia. }
  destruct (aes_ecb_encrypt_some k (sha256 (d_srv_challenge d ++ sig ++ d_secret d))) as (ct2 & -> & _ & ->);
    [apply length_sha_16|]. by intros [= <-].
Qed.

(** When the PIN entered at the host is the one the client shows, the
    five requests pair both sides: the client pins the host's certificate and
    the host stores the client's, under its id and by its fingerprint. *)
Theorem pairing_completes (id : Identity) (pin : list Z) (d : Draws) (m : ClientManager) :
  keypair (cert_pem id) (key_pem id) -> keypair (server_cert_pem m) (server_key_pem m) -> draws_ok d ->
  exists m' fp,
    pair_client id pin (Some pin) d m = (m', Some (server_cert_pem m))
    /\ st_clients m' = <[unique_id id := cert_pem id]> (st_clients m)
    /\ cert_fingerprint (cert_pem id) = Some fp
    /\ is_paired m' (unique_id id) = true /\ is_cert_paired m' fp = true.
Proof using L.
  intros K1 K2 D. destruct (pair_client_run id pin pin d m K1 K2 D)
    as (m' & sig & fp & sh & hash & E & Hs & Hf & Hl & R & S & F & _).
  apply received_same_key in R as ->; [|done|apply D]. rewrite bool_decide_true in S by done.
  exists m', fp. repeat (split; [done|]). unfold is_paired, is_cert_paired. split.
  - rewrite S. apply bool_decide_true. rewrite lookup_insert_eq. eauto.
  - apply bool_decide_true. by apply F.
Qed.

(** The client does not notice a wrong PIN.  Whatever PIN was entered at
    the host, its pairing ends in success with the host's certificate; when
    the hash the host recovers under its own key is not the expected one, the
    host has rejected the client and stores nothing. *)
Theorem pairing_pin_unchecked (id : Identity) (pin entered : list Z) (d : Draws) (m : ClientManager) :
  keypair (cert_pem id) (key_pem id) -> keypair (server_cert_pem m) (server_key_pem m) -> draws_ok d ->
  exists m' sig server_hash hash,
    pair_client id pin (Some entered) d m = (m', Some (server_cert_pem m))
    /\ cert_signature (cert_pem id) = Some sig
    /\ received_hash (derive_key (d_salt d) pin) (derive_key (d_salt d) entered) sig d server_hash = Some hash
    /\ (hash <> expected_hash sig d ->
        st_clients m' = st_clients m /\ paired_fingerprints m' = paired_fingerprints m).
Proof using L.
  intros K1 K2 D. destruct (pair_client_run id pin entered d m K1 K2 D)
    as (m' & sig & fp & sh & hash & E & Hs & Hf & Hl & R & S & _ & F).
  exists m', sig, sh, hash. repeat (split; [done|]). intros Hne.
  rewrite bool_decide_false in S by congruence. split; [done|]. by apply F.
Qed.
End Outcomes.

(** ** A lawful instance *)

Module ToyCrypto.

Definition shift (s : Z) (b : list Z) : list Z := map (fun x => x + s) b.
Definition key_sum (k : list Z) : Z := foldr Z.add 0 k.
Definition hash (l : list Z) : list Z := replicate 32 (foldr (fun x a => x + 3 * a) 0 l).

(** Byte strings as text: the bits of their code. *)
Fixpoint text_of (p : positive) : string :=
  match p with
  | xH => EmptyString
  | xO p => String (Ascii.ascii_of_nat 48) (text_of p)
  | xI p => String (Ascii.ascii_of_nat 49) (text_of p)
  end.
Fixpoint pos_of (s : string) : positive :=
  match s with
  | EmptyString => xH
  | String c s => if Ascii.eqb c (Ascii.ascii_of_nat 48) then xO (pos_of s) else xI (pos_of s)
  end.
End ToyCrypto.

Lemma toy_text p : ToyCrypto.pos_of (ToyCrypto.text_of p) = p.
Proof. induction p as [p IH|p IH|]; simpl; by rewrite ?IH. Qed.

#[export] Instance toy_crypto : PairCrypto := {|
  sha256 := ToyCrypto.hash;
  encrypt_block k := ToyCrypto.shift (ToyCrypto.key_sum k);
  decrypt_block k := ToyCrypto.shift (- ToyCrypto.key_sum k);
  cert_signature cert := Some (1 :: cert);
  cert_fingerprint cert := Some (ToyCrypto.text_of (encode cert));
  rsa_sign_sha256 data key := Some (key ++ data);
  rsa_verify_cert_sha256 cert data sig := bool_decide (sig = cert ++ data);
  hex_encode l := ToyCrypto.text_of (encode l);
  hex_decode s := decode (ToyCrypto.pos_of s);
  utf8_valid _ := true
|}.

#[export] Instance toy_crypto_laws : PairCryptoLaws toy_crypto.
Proof.
  split; simpl; intros; unfold ToyCrypto.shift; rewrite ?length_map; try done.
  - rewrite map_map. rewrite <- (map_id b) at 2. apply map_ext. intros. lia.
  - rewrite toy_text. apply decode_encode.
Qed.

Lemma toy_keypair cert : keypair cert cert.
Proof. split; simpl; eauto. intros data. eexists. split; [done|]. by apply bool_decide_true. Qed.

Definition identity_example : Identity := {| cert_pem := [11]; key_pem := [11]; unique_id := "c1" |}.
Definition manager_example : ClientManager :=
  {| pending := ∅; st_clients := ∅; paired_fingerprints := []; server_cert_pem := [22]; server_key_pem := [22] |}.
Definition draws_example : Draws :=
  {| d_salt := replicate 16 1; d_challenge := replicate 16 2; d_secret := replicate 16 3;
     d_srv_secret := replicate 16 4; d_srv_challenge := replicate 16 5 |}.

Lemma draws_example_ok : draws_ok draws_example.
Proof. by split. Qed.

Lemma pairing_completes_witness :
  exists m' fp,
    pair_client identity_example [1; 2; 3; 4] (Some [1; 2; 3; 4]) draws_example manager_example = (m', Some [22])
    /\ st_clients m' = <["c1" := [11]]> ∅
    /\ cert_fingerprint [11] = Some fp
    /\ is_paired m' "c1" = true /\ is_cert_paired m' fp = true.
Proof.
  apply (pairing_completes identity_example [1; 2; 3; 4] draws_example manager_example);
    [apply toy_keypair|apply toy_keypair|apply draws_example_ok].
Defined.

(** The host was given 9999 where the client showed 1234. *)
Lemma pairing_pin_unchecked_witness :
  (pair_client identity_example [1; 2; 3; 4] (Some [9; 9; 9; 9]) draws_example manager_example).2 = Some [22]
  /\ st_clients (pair_client identity_example [1; 2; 3; 4] (Some [9; 9; 9; 9]) draws_example manager_example).1 = ∅.
Proof.
  destruct (pairing_pin_unchecked identity_example [1; 2; 3; 4] [9; 9; 9; 9] draws_example manager_example)
    as (m' & sig & sh & hash & E & Hs & R & H);
    [apply toy_keypair|apply toy_keypair|apply draws_example_ok|].
  rewrite E. split; [reflexivity|]. vm_compute in E. injection E as <-. reflexivity.
Defined.
