(* ===== verification/Store.v ===== *)
(** * What the program keeps on disk
    ([kmc-streamhost/src/state.rs], [clients.rs], the [Identity] of
    [kmc-moonclient/src/pair.rs])

    The host's list of paired clients and the client's identity are JSON
    files.  The host inserts under a lock, takes a copy under a second one
    and writes the file under none; [fs::write] first truncates and then
    writes.  A saver is a thread in this sequence, and a restart keeps the
    file only. *)
From S2P Require Import Prelude Pairing.

(** ** The paired clients *)

Record StateData := mkStateData {
  sd_clients : gmap string (list Z);
  sd_fingerprints : list string
}.

Definition state_default : StateData := {| sd_clients := ∅; sd_fingerprints := [] |}.

(** [serde_json] on the two files; the empty text is not JSON. *)
Class JsonText (A : Type) := {
  to_vec : A -> list Z;
  from_slice : list Z -> option A
}.

Class JsonTextLaws {A} (J : JsonText A) : Prop := {
  json_roundtrip a : from_slice (to_vec a) = Some a;
  json_empty : from_slice [] = None
}.

(** A file: its bytes, or nothing that could be read. *)
Definition File : Type := option (list Z).

(** [File::create], and one [write_all] of a fresh handle: other handles may
    have written before. *)
Definition file_create (f : File) : File := Some [].
Definition file_write (bytes : list Z) (f : File) : File :=
  Some (bytes ++ drop (length bytes) (default [] f)).

Definition has_client (d : StateData) (id : string) : bool := bool_decide (is_Some (sd_clients d !! id)).
Definition has_paired_cert (d : StateData) (fingerprint : string) : bool :=
  bool_decide (fingerprint ∈ sd_fingerprints d).

(** The locked part of [add_paired]. *)
Definition insert_paired (d : StateData) (id fingerprint : string) (pem : list Z) : StateData :=
  {| sd_clients := <[id := pem]> (sd_clients d);
     sd_fingerprints := if bool_decide (fingerprint ∈ sd_fingerprints d) then sd_fingerprints d
                        else sd_fingerprints d ++ [fingerprint] |}.

(** [None] is an error. *)
Definition load_or_default {J : JsonText StateData} (f : File) : option StateData :=
  match f with Some bytes => from_slice bytes | None => Some state_default end.

(** ** Savers *)

(** Where a call of [add_paired] stands; the last is its return. *)
Inductive Saver :=
| SvInsert (id fingerprint : string) (pem : list Z)
| SvSnapshot
| SvCreate (json : list Z)
| SvWrite (json : list Z)
| SvDone (ok : bool).

(** A write that fails may have written a part. *)
Inductive IoResult := IoOk | IoErr (written : nat).

Record PersistentState := mkPersistentState { ps_data : StateData; ps_file : File }.

Section Savers.
Context {J : JsonText StateData}.

Definition saver_step (io : IoResult) (s : PersistentState) (t : Saver) : PersistentState * Saver :=
  match t with
  | SvInsert id fp pem => (mkPersistentState (insert_paired (ps_data s) id fp pem) (ps_file s), SvSnapshot)
  | SvSnapshot => (s, SvCreate (to_vec (ps_data s)))
  | SvCreate json =>
      match io with
      | IoOk => (mkPersistentState (ps_data s) (file_create (ps_file s)), SvWrite json)
      | IoErr _ => (s, SvDone false)
      end
  | SvWrite json =>
      match io with
      | IoOk => (mkPersistentState (ps_data s) (file_write json (ps_file s)), SvDone true)
      | IoErr n => (mkPersistentState (ps_data s) (file_write (take n json) (ps_file s)), SvDone false)
      end
  | SvDone ok => (s, SvDone ok)
  end.

(** [add_paired] without anyone in between. *)
Definition persist (s : PersistentState) : PersistentState * Saver :=
  let '(s, t) := saver_step IoOk s SvSnapshot in
  let '(s, t) := saver_step IoOk s t in
  saver_step IoOk s t.

Definition save (s : PersistentState) (id fingerprint : string) (pem : list Z) : PersistentState * Saver :=
  let '(s, _) := saver_step IoOk s (SvInsert id fingerprint pem) in persist s.

(** Interleaved savers: which one moves, and how its system call ends. *)
Definition savers_step (a : nat * IoResult) (w : PersistentState * list Saver) : PersistentState * list Saver :=
  match w.2 !! a.1 with
  | Some t => let '(s, t) := saver_step a.2 w.1 t in (s, <[a.1 := t]> w.2)
  | None => w
  end.

Definition savers_run (schedule : list (nat * IoResult)) (w : PersistentState * list Saver) :=
  foldl (fun w a => savers_step a w) w schedule.

(** The runs in which nobody interrupts a [persist]. *)
Definition locked_step (i : nat) (w : PersistentState * list Saver) : PersistentState * list Saver :=
  match w.2 !! i with
  | Some (SvInsert id fp pem) => let '(s, t) := saver_step IoOk w.1 (SvInsert id fp pem) in (s, <[i := t]> w.2)
  | Some SvSnapshot => let '(s, t) := persist w.1 in (s, <[i := t]> w.2)
  | _ => w
  end.

Definition locked_run (schedule : list nat) (w : PersistentState * list Saver) :=
  foldl (fun w i => locked_step i w) w schedule.
End Savers.

(** ** The manager over its file *)

Section Manager.
Context {C : PairCrypto} {J : JsonText StateData}.

Definition data_of (m : ClientManager) : StateData :=
  {| sd_clients := st_clients m; sd_fingerprints := paired_fingerprints m |}.

(** [ClientManager::new] *)
Definition client_manager_new (f : File) (cert key : list Z) : option ClientManager :=
  d <-? load_or_default f;
  Some {| pending := ∅; st_clients := sd_clients d; paired_fingerprints := sd_fingerprints d;
          server_cert_pem := cert; server_key_pem := key |}.

(** [check_client_pairing_secret] with the file: [create] and [write] are
    how the two system calls of the save end.  A failed save makes the call
    fail, and the client stays in memory. *)
Definition check_and_save (create write : IoResult) (m : ClientManager) (f : File) (id : string) (secret : list Z)
  : ClientManager * File * bool :=
  let '(m', verified) := check_client_pairing_secret m id secret in
  if verified then
    let '(s, t) := saver_step create (mkPersistentState (data_of m') f) (SvCreate (to_vec (data_of m'))) in
    let '(s, t) := saver_step write s t in
    (m', ps_file s, match t with SvDone ok => ok | _ => false end)
  else (m', f, false).
End Manager.

(** ** The client's identity *)

(** [created] is the new certificate and key, [random] the eight bytes
    drawn; [encode_upper] belongs to the [hex] crate. *)
Definition generate (encode_upper : list Z -> string) (created : option (list Z * list Z)) (random : list Z) : option Identity :=
  p <-? created; Some {| cert_pem := p.1; key_pem := p.2; unique_id := encode_upper random |}.

(** A file that is missing or not the JSON of an identity is replaced. *)
Definition load_or_generate {J : JsonText Identity} (generated : option Identity) (writable : bool) (f : File) : File * option Identity :=
  match (bytes <-? f; from_slice bytes) with
  | Some id => (f, Some id)
  | None =>
      match generated with
      | None => (f, None)
      | Some id => if writable then (Some (to_vec id), Some id) else (f, None)
      end
  end.

(** ** Saving *)

Section Saving.
Context {J : JsonText StateData} {L : JsonTextLaws J}.

Lemma persist_file s : persist s = (mkPersistentState (ps_data s) (Some (to_vec (ps_data s))), SvDone true).
Proof. unfold persist, saver_step, file_write, file_create. simpl. by rewrite drop_nil, app_nil_r. Qed.

Lemma load_saved d : load_or_default (Some (to_vec d)) = Some d.
Proof using L. apply json_roundtrip. Qed.

(** A save that nobody interrupts makes the next start find what is in
    memory, whatever the file was. *)
Lemma persist_restores s : load_or_default (ps_file (persist s).1) = Some (ps_data s).
Proof using L. rewrite persist_file. apply load_saved. Qed.

Lemma insert_client d id fp pem id' : has_client d id' = true -> has_client (insert_paired d id fp pem) id' = true.
Proof.
  unfold has_client. rewrite !bool_decide_eq_true. cbn. intros H.
  destruct (decide (id = id')) as [->|]; [rewrite lookup_insert_eq; eauto|by rewrite lookup_insert_ne].
Qed.

Lemma insert_client_self d id fp pem : has_client (insert_paired d id fp pem) id = true.
Proof. unfold has_client. cbn. rewrite lookup_insert_eq. apply bool_decide_true. eauto. Qed.

Lemma insert_cert d id fp pem fp' :
  has_paired_cert d fp' = true -> has_paired_cert (insert_paired d id fp pem) fp' = true.
Proof.
  unfold has_paired_cert. rewrite !bool_decide_eq_true. cbn. case_bool_decide; [done|]. rewrite elem_of_app. tauto.
Qed.

Lemma insert_cert_self d id fp pem : has_paired_cert (insert_paired d id fp pem) fp = true.
Proof.
  unfold has_paired_cert. cbn. apply bool_decide_true. case_bool_decide; [done|].
  apply elem_of_app. right. by apply list_elem_of_singleton.
Qed.

(** ** Runs of savers *)

Definition job : Type := string * string * list Z.
Definition saver_of (j : job) : Saver := SvInsert j.1.1 j.1.2 j.2.
Definition holds (d : StateData) (j : job) : Prop := has_client d j.1.1 = true /\ has_paired_cert d j.1.2 = true.

Lemma holds_insert d id fp pem j : holds d j -> holds (insert_paired d id fp pem) j.
Proof. intros [H1 H2]. split; [by apply insert_client|by apply insert_cert]. Qed.

Lemma holds_self d j : holds (insert_paired d j.1.1 j.1.2 j.2) j.
Proof. split; [apply insert_client_self|apply insert_cert_self]. Qed.

(** What is known of the saver of a job. *)
Definition saver_ok (s : PersistentState) (j : job) (t : Saver) : Prop :=
  match t with
  | SvInsert id fp pem => (id, fp, pem) = j
  | SvSnapshot => holds (ps_data s) j
  | SvDone true => holds (ps_data s) j /\ exists d, load_or_default (ps_file s) = Some d /\ holds d j
  | _ => False
  end.

Definition savers_ok (jobs : list job) (w : PersistentState * list Saver) : Prop :=
  Forall2 (saver_ok w.1) jobs w.2.

Lemma saver_ok_insert s j t id fp pem :
  saver_ok s j t -> saver_ok (mkPersistentState (insert_paired (ps_data s) id fp pem) (ps_file s)) j t.
Proof. destruct t as [| | | |[]]; cbn; auto using holds_insert. intros [? ?]. auto using holds_insert. Qed.

Lemma saver_ok_persist s j t : saver_ok s j t -> saver_ok (persist s).1 j t.
Proof using L.
  rewrite persist_file. destruct t as [| | | |[]]; cbn; auto.
  intros [H _]. split; [done|]. exists (ps_data s). by rewrite json_roundtrip.
Qed.

Lemma locked_step_ok jobs i w : savers_ok jobs w -> savers_ok jobs (locked_step i w).
Proof using L.
  destruct w as [s ts]. unfold savers_ok, locked_step. cbn [fst snd]. intros H.
  destruct (ts !! i) as [t|] eqn:Et; [|done].
  destruct (Forall2_lookup_r _ _ _ _ _ H Et) as (j & Ej & Ht).
  destruct t as [id fp pem| | | |]; try done.
  - cbn [saver_step fst snd]. rewrite <- (list_insert_id jobs i j) by done. apply Forall2_insert.
    + eapply Forall2_impl; [exact H|]. intros. by apply saver_ok_insert.
    + cbn in Ht. subst j. apply (holds_self _ (id, fp, pem)).
  - destruct (persist s) as [s' t'] eqn:Ep. cbn [fst snd].
    assert (s' = (persist s).1 /\ t' = SvDone true) as [-> ->] by (rewrite persist_file in *; by simplify_eq).
    rewrite <- (list_insert_id jobs i j) by done. apply Forall2_insert.
    + eapply Forall2_impl; [exact H|]. intros. by apply saver_ok_persist.
    + cbn in Ht. rewrite persist_file. cbn. split; [done|]. exists (ps_data s). by rewrite json_roundtrip.
Qed.

Lemma locked_run_ok jobs schedule w : savers_ok jobs w -> savers_ok jobs (locked_run schedule w).
Proof using L.
  revert w. induction schedule as [|i schedule IH]; intros w H; [done|]. by apply IH, locked_step_ok.
Qed.

Lemma savers_run_app a b w : savers_run (a ++ b) w = savers_run b (savers_run a w).
Proof. apply foldl_app. Qed.

(** Each uninterrupted step is one or three steps of the program. *)
Lemma locked_step_run i w : exists schedule, savers_run schedule w = locked_step i w.
Proof.
  destruct w as [s ts]. unfold locked_step. cbn [fst snd].
  destruct (ts !! i) as [t|] eqn:Et; [|by exists []].
  assert (i < length ts)%nat as Hi by (by eapply lookup_lt_Some).
  destruct t as [id fp pem| | | |]; try by exists [].
  - exists [(i, IoOk)]. cbn. unfold savers_step. cbn [fst snd]. by rewrite Et.
  - exists [(i, IoOk); (i, IoOk); (i, IoOk)]. cbn [savers_run foldl]. unfold savers_step. cbn [fst snd].
    rewrite Et. cbn [saver_step fst snd]. rewrite list_lookup_insert_eq by done. cbn [saver_step fst snd].
    rewrite list_lookup_insert_eq by (by rewrite length_insert). cbn [saver_step fst snd].
    by rewrite !list_insert_insert_eq.
Qed.

Lemma locked_run_run turns w : exists schedule, savers_run schedule w = locked_run turns w.
Proof.
  revert w. induction turns as [|i turns IH]; intros w; [by exists []|].
  destruct (locked_step_run i w) as [a Ha]. destruct (IH (locked_step i w)) as [b Hb].
  exists (a ++ b). by rewrite savers_run_app, Ha, Hb.
Qed.


(** Two clients are paired at the same time and both are told so, but the
    copy taken first is written last: the next start does not know the
    second. *)
Theorem concurrent_save_lost (s0 : PersistentState) (id1 id2 fp1 fp2 : string) (pem1 pem2 : list Z) :
  id1 <> id2 -> has_client (ps_data s0) id2 = false ->
  exists schedule s d,
    savers_run schedule (s0, [SvInsert id1 fp1 pem1; SvInsert id2 fp2 pem2]) = (s, [SvDone true; SvDone true])
    /\ has_client (ps_data s) id2 = true
    /\ load_or_default (ps_file s) = Some d /\ has_client d id1 = true /\ has_client d id2 = false.
Proof using L.
  intros Hne Hnew. destruct s0 as [d0 f0].
  exists [(0, IoOk); (0, IoOk); (1, IoOk); (1, IoOk); (1, IoOk); (1, IoOk); (0, IoOk); (0, IoOk)]%nat.
  eexists _, (insert_paired d0 id1 fp1 pem1). split; [cbn; reflexivity|]. cbn [ps_data ps_file].
  split; [apply insert_client_self|]. split.
  { unfold file_write, file_create. simpl. rewrite drop_nil, app_nil_r. apply json_roundtrip. }
  split; [apply insert_client_self|]. unfold has_client in *. cbn in *. by rewrite lookup_insert_ne.
Qed.

(** A host that stops between the truncation and the write never starts
    again: the file is there and is not JSON. *)
Theorem crash_in_save_blocks_start {C : PairCrypto} (w : PersistentState * list Saver) (i : nat) (json cert key : list Z) :
  w.2 !! i = Some (SvCreate json) ->
  client_manager_new (ps_file (savers_step (i, IoOk) w).1) cert key = None.
Proof using L.
  intros E. unfold savers_step. cbn [fst snd]. rewrite E. cbn [saver_step fst ps_file file_create].
  unfold client_manager_new, file_create, load_or_default. by rewrite json_empty.
Qed.
End Saving.

(** ** The last request of the pairing, with the file *)

Section PairAndSave.
Context {C : PairCrypto} {J : JsonText StateData} {L : JsonTextLaws J}.

Lemma data_add_paired m id fp pem : data_of (add_paired m id fp pem) = insert_paired (data_of m) id fp pem.
Proof. done. Qed.

(** A client the host answers with success is known to the next start, by
    its id and by its certificate, together with everyone paired before. *)
Theorem pairing_survives_restart create write (m m' : ClientManager) (f f' : File) (id : string) (secret : list Z) :
  check_and_save create write m f id secret = (m', f', true) ->
  exists c fp m2,
    pending m !! id = Some c /\ cert_fingerprint (pc_pem c) = Some fp
    /\ client_manager_new f' (server_cert_pem m) (server_key_pem m) = Some m2
    /\ is_paired m2 id = true /\ is_cert_paired m2 fp = true
    /\ (forall id', is_paired m id' = true -> is_paired m2 id' = true)
    /\ (forall fp', is_cert_paired m fp' = true -> is_cert_paired m2 fp' = true).
Proof using L.
  unfold check_and_save, check_client_pairing_secret.
  destruct (pending m !! id) as [c|] eqn:Ec; [|done].
  destruct (verify_pairing_secret c secret); [|done].
  destruct (cert_fingerprint (pc_pem c)) as [fp|] eqn:Ef; [|done].
  destruct create as [|]; [|done]. cbn [saver_step]. destruct write as [|]; [|done].
  unfold file_write, file_create. cbn [ps_file ps_data default]. intros [= <- <-]. exists c, fp. eexists. do 2 (split; [done|]).
  rewrite drop_nil, app_nil_r. unfold client_manager_new. cbn [load_or_default]. rewrite json_roundtrip.
  split; [done|]. rewrite data_add_paired. unfold is_paired, is_cert_paired. cbn [st_clients paired_fingerprints].
  split_and!.
  - apply (insert_client_self (data_of m)).
  - apply (insert_cert_self (data_of m)).
  - intros id'. apply (insert_client (data_of m)).
  - intros fp'. apply (insert_cert (data_of m)).
Qed.
End PairAndSave.

(** ** The identity *)

(** Once a start has an identity, every later start has the same one and
    leaves the file alone. *)
Theorem identity_persists {J : JsonText Identity} {L : JsonTextLaws J} generated generated' writable writable' (f f' : File) (id : Identity) :
  load_or_generate generated writable f = (f', Some id) ->
  load_or_generate generated' writable' f' = (f', Some id).
Proof.
  unfold load_or_generate. destruct (match f with Some _ => _ | None => _ end) as [id0|] eqn:E.
  - intros [= <- <-]. by rewrite E.
  - destruct generated as [g|]; [|done]. destruct writable; [|done]. intros [= <- <-]. by rewrite json_roundtrip.
Qed.

(** ** A lawful instance: the bits of the code of a value, least first, and
    an end mark *)

Fixpoint bits_of (p : positive) : list Z :=
  match p with
  | xO p => 0 :: bits_of p
  | xI p => 1 :: bits_of p
  | xH => [2]
  end.

Fixpoint of_bits (l : list Z) : option positive :=
  match l with
  | 0 :: l => xO <$> of_bits l
  | 1 :: l => xI <$> of_bits l
  | [2] => Some xH
  | _ => None
  end.

Lemma of_bits_of p : of_bits (bits_of p) = Some p.
Proof. induction p as [p IH|p IH|]; simpl; by rewrite ?IH. Qed.

Definition bits_json {A B} `{Countable B} (f : A -> B) (g : B -> A) : JsonText A := {|
  to_vec a := bits_of (encode (f a));
  from_slice l := p <-? of_bits l; b <-? decode p; Some (g b)
|}.

Lemma bits_json_laws {A B} `{Countable B} (f : A -> B) (g : B -> A) :
  (forall a, g (f a) = a) -> JsonTextLaws (bits_json f g).
Proof. intros Hgf. split; [|done]. intros a. simpl. by rewrite of_bits_of, decode_encode, Hgf. Qed.

#[export] Instance state_json : JsonText StateData :=
  bits_json (fun d => (sd_clients d, sd_fingerprints d)) (fun p => mkStateData p.1 p.2).
#[export] Instance state_json_laws : JsonTextLaws state_json.
Proof. apply bits_json_laws. by intros []. Qed.

#[export] Instance identity_json : JsonText Identity :=
  bits_json (fun i => (cert_pem i, key_pem i, unique_id i)) (fun p => mkIdentity p.1.1 p.1.2 p.2).
#[export] Instance identity_json_laws : JsonTextLaws identity_json.
Proof. apply bits_json_laws. by intros []. Qed.


Lemma concurrent_save_lost_witness :
  exists schedule s d,
    savers_run schedule (mkPersistentState state_default None, [SvInsert "a" "fa" [1]; SvInsert "b" "fb" [2]])
    = (s, [SvDone true; SvDone true])
    /\ has_client (ps_data s) "b" = true
    /\ load_or_default (ps_file s) = Some d /\ has_client d "a" = true /\ has_client d "b" = false.
Proof. by apply (concurrent_save_lost (mkPersistentState state_default None) "a" "b" "fa" "fb" [1] [2]). Defined.

Lemma crash_in_save_blocks_start_witness :
  client_manager_new
    (ps_file (savers_step (0%nat, IoOk)
      (mkPersistentState state_default (Some (to_vec state_default)), [SvCreate (to_vec state_default)])).1) [1] [2] = None.
Proof.
  by apply (crash_in_save_blocks_start (mkPersistentState state_default (Some (to_vec state_default)),
    [SvCreate (to_vec state_default)]) 0 (to_vec state_default)).
Defined.

(** The fourth request of the pairing of Pairing.v. *)
Definition verified_manager : ClientManager :=
  let d := draws_example in
  set_pending manager_example "c1"
    {| pc_pem := [11]; pc_salt := d_salt d; pc_key := None; server_secret := Some (d_srv_secret d);
       server_challenge := Some (d_srv_challenge d); client_hash := Some (expected_hash [1; 11] d) |}.

Lemma pairing_survives_restart_witness :
  let r := check_and_save IoOk IoOk verified_manager None "c1" (d_secret draws_example ++ [11] ++ d_secret draws_example) in
  exists m2, client_manager_new r.1.2 [22] [22] = Some m2 /\ is_paired m2 "c1" = true.
Proof.
  intros r. destruct (pairing_survives_restart IoOk IoOk verified_manager r.1.1 None r.1.2 "c1"
    (d_secret draws_example ++ [11] ++ d_secret draws_example)) as (c & fp & m2 & _ & _ & H2 & Hp & _);
    [vm_compute; reflexivity|]. exists m2. split; [exact H2|exact Hp].
Defined.

Lemma identity_persists_witness :
  load_or_generate None false (load_or_generate (Some identity_example) true None).1
  = (Some (to_vec identity_example), Some identity_example).
Proof. apply (identity_persists (Some identity_example) None true false None). reflexivity. Defined.
