(* ===== verification/Crypto.v ===== *)
(** * Certificates and signatures ([kmc-moonclient/src/crypto.rs],
    [kmc-streamhost/src/crypto.rs])

    Pairing.v takes the certificate functions as parameters.  Here they are
    the program's functions over the libraries it calls: a PEM and an X.509
    parser, RSA and rcgen.  The two crates have the same functions for reading
    certificates and signing, and each its own certificate to create. *)
From S2P Require Import Prelude Pairing Store.

Record X509 := mkX509 { subject_pki : list Z; signature_value : list Z }.

Inductive KeyUsage := DigitalSignature | KeyEncipherment | KeyAgreement.

Record CertificateParams := mkCertificateParams {
  common_name : string; not_before : option Z; not_after : option Z; is_ca : bool; key_usages : list KeyUsage
}.

(** The libraries. *)
Class RsaX509 := {
  rx_sha256 : list Z -> list Z;
  rx_encrypt_block : list Z -> list Z -> list Z;
  rx_decrypt_block : list Z -> list Z -> list Z;
  rx_hex_encode : list Z -> string;
  rx_hex_decode : string -> option (list Z);
  rx_utf8 : list Z -> bool;
  RsaKey : Type;
  RsaPublic : Type;
  RsaSignature : Type;
  CertKeyPair : Type;
  parse_x509_pem : list Z -> option (list Z);
  parse_x509 : list Z -> option X509;
  from_pkcs8_pem : list Z -> option RsaKey;
  to_pkcs8_pem : RsaKey -> option (list Z);
  public_from_der : list Z -> option RsaPublic;
  rsa_sign : RsaKey -> list Z -> RsaSignature;
  signature_bytes : RsaSignature -> list Z;
  signature_from : list Z -> option RsaSignature;
  rsa_verify : RsaPublic -> list Z -> RsaSignature -> bool;
  key_pair_from_pem : list Z -> option CertKeyPair;
  self_signed : CertificateParams -> CertKeyPair -> option (list Z)
}.

Section Functions.
Context {R : RsaX509}.

Definition rsa_sign_sha256 (data key_pem : list Z) : option (list Z) :=
  pk <-? from_pkcs8_pem key_pem;
  Some (signature_bytes (rsa_sign pk data)).

Definition rsa_verify_cert_sha256 (cert_pem data signature : list Z) : bool :=
  match
    (pem <-? parse_x509_pem cert_pem;
     cert <-? parse_x509 pem;
     public_key <-? public_from_der (subject_pki cert);
     sig <-? signature_from signature;
     Some (rsa_verify public_key data sig))
  with
  | Some ok => ok
  | None => false
  end.

Definition cert_signature (cert_pem : list Z) : option (list Z) :=
  pem <-? parse_x509_pem cert_pem;
  cert <-? parse_x509 pem;
  Some (signature_value cert).

Definition cert_fingerprint (cert_pem : list Z) : option string :=
  pem <-? parse_x509_pem cert_pem;
  Some (rx_hex_encode (rx_sha256 pem)).

Definition client_params : CertificateParams :=
  {| common_name := "NVIDIA GameStream Client"; not_before := None; not_after := None; is_ca := false; key_usages := [] |}.

(** Ten years from now. *)
Definition host_params (now : Z) : CertificateParams :=
  {| common_name := "KmcStreamhost"; not_before := Some now; not_after := Some (now + 3650 * 24 * 60 * 60);
     is_ca := true; key_usages := [DigitalSignature; KeyEncipherment; KeyAgreement] |}.

(** [generated] is the key [RsaPrivateKey::new] draws, if it succeeds. *)
Definition create_client_certificate (generated : option RsaKey) : option (list Z * list Z) :=
  private_key <-? generated;
  key_pem <-? to_pkcs8_pem private_key;
  key_pair <-? key_pair_from_pem key_pem;
  cert <-? self_signed client_params key_pair;
  Some (cert, key_pem).

Definition create_certificate (now : Z) (generated : option RsaKey) : option (list Z * list Z) :=
  private_key <-? generated;
  key_pem <-? to_pkcs8_pem private_key;
  key_pair <-? key_pair_from_pem key_pem;
  cert <-? self_signed (host_params now) key_pair;
  Some (cert, key_pem).

#[export] Instance rust_crypto : PairCrypto := {|
  sha256 := rx_sha256;
  encrypt_block := rx_encrypt_block;
  decrypt_block := rx_decrypt_block;
  Pairing.cert_signature := cert_signature;
  Pairing.cert_fingerprint := cert_fingerprint;
  Pairing.rsa_sign_sha256 := rsa_sign_sha256;
  Pairing.rsa_verify_cert_sha256 := rsa_verify_cert_sha256;
  hex_encode := rx_hex_encode;
  hex_decode := rx_hex_decode;
  utf8_valid := rx_utf8
|}.
End Functions.
#[export] Existing Instance rust_crypto | 0.

(** What the libraries document: SHA-256 and AES have their sizes, decryption
    undoes encryption, hex and the PEM of a key read back, a self-signed
    certificate parses and carries the public half of the key it was made
    with, and a signature verifies under it. *)
Class RsaX509Laws (R : RsaX509) := {
  rl_sha_length l : length (rx_sha256 l) = 32%nat;
  rl_enc_length k b : length b = 16%nat -> length (rx_encrypt_block k b) = 16%nat;
  rl_dec_length k b : length b = 16%nat -> length (rx_decrypt_block k b) = 16%nat;
  rl_dec_enc k b : length b = 16%nat -> rx_decrypt_block k (rx_encrypt_block k b) = b;
  rl_hex l : rx_hex_decode (rx_hex_encode l) = Some l;
  public_of : RsaKey -> RsaPublic;
  rl_pkcs8 k pem : to_pkcs8_pem k = Some pem -> from_pkcs8_pem pem = Some k;
  rl_self_signed p k pem kp cert :
    to_pkcs8_pem k = Some pem -> key_pair_from_pem pem = Some kp -> self_signed p kp = Some cert ->
    rx_utf8 cert = true /\
    exists der x, parse_x509_pem cert = Some der /\ parse_x509 der = Some x /\ public_from_der (subject_pki x) = Some (public_of k);
  rl_signature s : signature_from (signature_bytes s) = Some s;
  rl_verify k data : rsa_verify (public_of k) data (rsa_sign k data) = true
}.

Section Laws.
Context {R : RsaX509} {L : RsaX509Laws R}.

#[export] Instance rust_crypto_laws : PairCryptoLaws rust_crypto.
Proof.
  split; cbn.
  - apply rl_sha_length.
  - apply rl_enc_length.
  - apply rl_dec_length.
  - apply rl_dec_enc.
  - apply rl_hex.
Qed.

Lemma signed_keypair p k pem kp cert :
  to_pkcs8_pem k = Some pem -> key_pair_from_pem pem = Some kp -> self_signed p kp = Some cert -> keypair cert pem.
Proof.
  intros Hk Hkp Hc. destruct (rl_self_signed p k pem kp cert Hk Hkp Hc) as (Hu & der & x & Hp & Hx & Hpub).
  split.
  - change (exists s, cert_signature cert = Some s). unfold cert_signature. rewrite Hp, Hx. eauto.
  - change (exists fp, cert_fingerprint cert = Some fp). unfold cert_fingerprint. rewrite Hp. eauto.
  - exact Hu.
  - intros data. change (exists s, rsa_sign_sha256 data pem = Some s /\ rsa_verify_cert_sha256 cert data s = true).
    unfold rsa_sign_sha256, rsa_verify_cert_sha256.
    rewrite (rl_pkcs8 _ _ Hk), Hp, Hx, Hpub. eexists. split; [done|]. by rewrite rl_signature, rl_verify.
Qed.

Lemma client_certificate_keypair g cert key : create_client_certificate g = Some (cert, key) -> keypair cert key.
Proof.
  unfold create_client_certificate. destruct g as [k|]; [|done]. destruct (to_pkcs8_pem k) as [pem|] eqn:Hk; [|done].
  destruct (key_pair_from_pem pem) as [kp|] eqn:Hkp; [|done]. destruct (self_signed client_params kp) as [c|] eqn:Hc; [|done].
  intros [= <- <-]. by eapply signed_keypair.
Qed.

Lemma host_certificate_keypair now g cert key : create_certificate now g = Some (cert, key) -> keypair cert key.
Proof.
  unfold create_certificate. destruct g as [k|]; [|done]. destruct (to_pkcs8_pem k) as [pem|] eqn:Hk; [|done].
  destruct (key_pair_from_pem pem) as [kp|] eqn:Hkp; [|done]. destruct (self_signed (host_params now) kp) as [c|] eqn:Hc; [|done].
  intros [= <- <-]. by eapply signed_keypair.
Qed.

(** A client and a host that have just made their certificates pair with
    the same PIN: the client keeps the host's certificate, the host stores the
    client's under its identity and by the fingerprint of its own bytes. *)
Theorem new_installation_pairs (encode_upper : list Z -> string) (gc gh : option RsaKey) (now : Z) (random pin : list Z)
    (d : Draws) (id : Identity) (m : ClientManager)
    (Hid : generate encode_upper (create_client_certificate gc) random = Some id)
    (Hm : create_certificate now gh = Some (server_cert_pem m, server_key_pem m)) (Hd : draws_ok d) :
  exists m' fp,
    pair_client id pin (Some pin) d m = (m', Some (server_cert_pem m)) /\
    st_clients m' = <[unique_id id := cert_pem id]> (st_clients m) /\
    cert_fingerprint (cert_pem id) = Some fp /\ is_cert_paired m' fp = true.
Proof.
  unfold generate in Hid. destruct (create_client_certificate gc) as [[cert key]|] eqn:Hc; [|done]. injection Hid as <-.
  pose proof (client_certificate_keypair _ _ _ Hc) as K1. pose proof (host_certificate_keypair _ _ _ _ Hm) as K2.
  cbn [fst snd cert_pem key_pem unique_id] in *.
  destruct (pair_client_run (mkIdentity cert key (encode_upper random)) pin pin d m K1 K2 Hd)
    as (m' & sig & fp & sh & hash & E & Hs & Hf & Hl & Rh & S & F & _).
  apply received_same_key in Rh as ->; [|done|apply Hd]. rewrite bool_decide_true in S by done.
  exists m', fp. split; [exact E|]. split; [exact S|]. split; [exact Hf|].
  unfold is_cert_paired. apply bool_decide_true. by apply F.
Qed.
End Laws.

(** ** Libraries for which the laws hold *)

(** A certificate is its key; both halves of a key are its bytes. *)
Definition plain_rsa : RsaX509 := {|
  rx_sha256 := ToyCrypto.hash;
  rx_encrypt_block k := ToyCrypto.shift (ToyCrypto.key_sum k);
  rx_decrypt_block k := ToyCrypto.shift (- ToyCrypto.key_sum k);
  rx_hex_encode l := ToyCrypto.text_of (encode l);
  rx_hex_decode s := decode (ToyCrypto.pos_of s);
  rx_utf8 _ := true;
  RsaKey := list Z; RsaPublic := list Z; RsaSignature := list Z; CertKeyPair := list Z;
  parse_x509_pem c := Some c;
  parse_x509 d := Some {| subject_pki := d; signature_value := 1 :: d |};
  from_pkcs8_pem p := Some p;
  to_pkcs8_pem k := Some k;
  public_from_der d := Some d;
  rsa_sign k data := k ++ data;
  signature_bytes s := s;
  signature_from s := Some s;
  rsa_verify k data s := bool_decide (s = k ++ data);
  key_pair_from_pem p := Some p;
  self_signed _ p := Some p
|}.

Lemma plain_rsa_laws : RsaX509Laws plain_rsa.
Proof.
  refine {| public_of := fun k : @RsaKey plain_rsa => k |}; cbn.
  - done.
  - intros. unfold ToyCrypto.shift. by rewrite length_map.
  - intros. unfold ToyCrypto.shift. by rewrite length_map.
  - intros k b _. unfold ToyCrypto.shift. rewrite map_map. rewrite <- (map_id b) at 2. apply map_ext. intros. lia.
  - intros l. rewrite toy_text. apply decode_encode.
  - congruence.
  - intros p k pem kp cert [= <-] [= <-] [= <-]. eauto 10.
  - done.
  - intros k data. by apply bool_decide_true.
Defined.

Lemma new_installation_pairs_witness :
  exists m' fp,
    @pair_client (@rust_crypto plain_rsa) {| cert_pem := [11]; key_pem := [11]; unique_id := "c1" |} [1; 2; 3; 4] (Some [1; 2; 3; 4]) draws_example
      manager_example = (m', Some [22]) /\
    st_clients m' = <["c1" := [11]]> ∅ /\
    @cert_fingerprint plain_rsa [11] = Some fp /\ is_cert_paired m' fp = true.
Proof.
  apply (@new_installation_pairs plain_rsa plain_rsa_laws (fun _ => "c1"%string) (Some [11]) (Some [22]) 0 [1; 2; 3; 4; 5; 6; 7; 8] [1; 2; 3; 4]
    draws_example {| cert_pem := [11]; key_pem := [11]; unique_id := "c1" |} manager_example);
    [reflexivity|reflexivity|apply draws_example_ok].
Defined.
