(* ===== verification/Text.v ===== *)
(** * Text: the [str] operations of the standard library the source uses

    A [str] is a list of ASCII characters; other text is not modelled, so
    [from_utf8] always succeeds and [from_utf8_lossy] is the identity. *)
From S2P Require Import Prelude.
From Stdlib Require Export Ascii.

Abbreviation text := (list ascii).
Abbreviation str := String.list_ascii_of_string.

Definition CR : ascii := "013"%char.
Definition LF : ascii := "010"%char.
Definition SP : ascii := " "%char.
Definition CRLF : text := [CR; LF].

(** ** Searching and replacing *)

Fixpoint starts_with (p s : text) : bool :=
  match p, s with
  | [], _ => true
  | c :: p, d :: s => Ascii.eqb c d && starts_with p s
  | _ :: _, [] => false
  end.

(** [s.find(n)] *)
Fixpoint find (n s : text) : option nat :=
  if starts_with n s then Some 0%nat
  else match s with [] => None | _ :: s => S <$> find n s end.

Definition contains (n s : text) : bool := match find n s with Some _ => true | None => false end.

(** [&s[s.find(n)? + n.len()..]] *)
Definition find_after (n s : text) : option text :=
  i <-? find n s; Some (drop (i + length n) s).

(** [s.replace(n, r)] for a non-empty [n]: [skip] characters of a match are
    still to be dropped. *)
Fixpoint replace_go (n r : text) (skip : nat) (s : text) : text :=
  match s with
  | [] => []
  | c :: s =>
      match skip with
      | S skip => replace_go n r skip s
      | O => if starts_with n (c :: s) then r ++ replace_go n r (length n - 1) s
             else c :: replace_go n r 0 s
      end
  end.
Definition replace (n r s : text) : text := replace_go n r 0 s.

(** The text before and after the first [c]. *)
Fixpoint split_once (c : ascii) (s : text) : option (text * text) :=
  match s with
  | [] => None
  | d :: s =>
      if Ascii.eqb d c then Some ([], s)
      else r <-? split_once c s; Some (d :: r.1, r.2)
  end.

(** [s.split(c).next()] *)
Definition before (c : ascii) (s : text) : text :=
  match split_once c s with Some (a, _) => a | None => s end.

Fixpoint take_while (f : ascii -> bool) (s : text) : text :=
  match s with
  | [] => []
  | c :: s => if f c then c :: take_while f s else []
  end.

Fixpoint drop_while (f : ascii -> bool) (s : text) : text :=
  match s with
  | [] => []
  | c :: s' => if f c then drop_while f s' else s
  end.

Definition is_whitespace (c : ascii) : bool :=
  let n := nat_of_ascii c in ((9 <=? n) && (n <=? 13) || (n =? 32))%nat.

Definition trim (s : text) : text :=
  reverse (drop_while is_whitespace (reverse (drop_while is_whitespace s))).

(** ** Decimal numbers *)

Definition is_ascii_digit (c : ascii) : bool :=
  let n := nat_of_ascii c in ((48 <=? n) && (n <=? 57))%nat.

Definition digit_char (d : Z) : ascii := ascii_of_nat (48 + Z.to_nat d).
Definition char_digit (c : ascii) : Z := Z.of_nat (nat_of_ascii c - 48).

Fixpoint print_go (fuel : nat) (z : Z) (acc : text) : text :=
  match fuel with
  | O => acc
  | S fuel =>
      let acc := digit_char (z mod 10) :: acc in
      if z <? 10 then acc else print_go fuel (z / 10) acc
  end.

(** [z.to_string()] of an unsigned number below 10^20, so of any [u64]. *)
Definition to_string (z : Z) : text := print_go 20 z [].

(** [z.to_string()] of an [i32] *)
Definition i32_to_string (z : Z) : text := if z <? 0 then "-"%char :: to_string (- z) else to_string z.

Definition digits_value (s : text) : Z := foldl (fun v c => 10 * v + char_digit c) 0 s.

(** [s.parse()] of an unsigned type with the given maximum; [None] for every
    parse error. *)
Definition parse_unsigned (max : Z) (s : text) : option Z :=
  let ds := match s with "+"%char :: s => s | _ => s end in
  if negb (bool_decide (ds = [])) && forallb is_ascii_digit ds then
    if digits_value ds <=? max then Some (digits_value ds) else None
  else None.

Definition parse_u32 : text -> option Z := parse_unsigned U32_MAX.

(** [s.parse()] of a signed type with [bound] values on either side of 0. *)
Definition parse_signed (bound : Z) (s : text) : option Z :=
  match s with
  | "-"%char :: s =>
      match s with
      | "+"%char :: _ => None
      | _ => v <-? parse_unsigned bound s; Some (- v)
      end
  | _ => parse_unsigned (bound - 1) s
  end.

Definition parse_i32 : text -> option Z := parse_signed (2 ^ 31).
Definition parse_i64 : text -> option Z := parse_signed (2 ^ 63).

(** [s.split(c)] *)
Fixpoint split (c : ascii) (s : text) : list text :=
  match s with
  | [] => [[]]
  | x :: s =>
      if decide (x = c) then [] :: split c s
      else match split c s with h :: t => (x :: h) :: t | [] => [[x]] end
  end.

(** [s.rsplit_once(c)] *)
Definition rsplit_once (c : ascii) (s : text) : option (text * text) :=
  '(b, a) ← split_once c (reverse s); Some (reverse a, reverse b).

(** ** Lemmas: searching *)

Lemma starts_with_spec p s : starts_with p s = true <-> exists t, s = p ++ t.
Proof.
  revert s. induction p as [|c p IH]; intros s; simpl.
  - split; [eauto|done].
  - destruct s as [|d s]; [split; [done|by intros [? ?]]|].
    rewrite andb_true_iff, Ascii.eqb_eq, IH. split.
    + intros [-> [t ->]]. by exists t.
    + intros [t [= -> ->]]. eauto.
Qed.

Lemma contains_cons n c s :
  contains n (c :: s) = starts_with n (c :: s) || contains n s.
Proof.
  unfold contains. cbn [find]. destruct (starts_with n (c :: s)); [done|].
  by destruct (find n s).
Qed.

(** A text contains [n] when some suffix starts with it. *)
Lemma contains_spec n s : contains n s = true <-> exists a b, s = a ++ n ++ b.
Proof.
  induction s as [|c s IH].
  - unfold contains; simpl. destruct n; simpl; [split; [by exists [], []|done]|].
    split; [done|]. intros (x & y & E). by destruct x.
  - rewrite contains_cons, orb_true_iff, IH, starts_with_spec. split.
    + intros [[t ->]|(a & b & ->)]; [by exists [], t|by exists (c :: a), b].
    + intros ([|d a] & b & E); [left; by exists b|right].
      injection E as -> ->. by exists a, b.
Qed.

Lemma contains_false n s : contains n s = false <-> forall a b, s <> a ++ n ++ b.
Proof.
  rewrite <- not_true_iff_false, contains_spec. split; [|by intros H (a & b & ?); eapply H].
  intros H a b E. apply H. eauto.
Qed.

Lemma contains_take n s k : contains n s = false -> contains n (take k s) = false.
Proof.
  rewrite !contains_false. intros H x y E. apply (H x (y ++ drop k s)).
  rewrite <- (take_drop k s) at 1. rewrite E. by rewrite <- !(assoc_L (++)).
Qed.

Lemma replace_none n r s : contains n s = false -> replace n r s = s.
Proof.
  unfold replace. induction s as [|c s IH]; [done|].
  rewrite contains_cons, orb_false_iff. intros [E1 E2].
  cbn [replace_go]. rewrite E1. by rewrite IH.
Qed.

(** A character outside the needle separates its occurrences. *)
Lemma contains_sep n a c b :
  c ∉ n -> contains n a = false -> contains n b = false -> contains n (a ++ c :: b) = false.
Proof.
  rewrite !contains_false. intros Hc Ha Hb x y E.
  assert (n <> []) as Hn by (intros ->; by apply (Ha [] a)).
  apply app_eq_inv in E as [(k & -> & E)|(k & -> & E)].
  - apply app_eq_inv in E as [(j & -> & E)|(j & -> & E)]; [|by apply (Ha x j)].
    destruct j as [|e j]; [apply (Ha x []); by rewrite !app_nil_r|].
    injection E as <- ->. set_solver.
  - destruct k as [|e k]; [|injection E as <- ->; by apply (Hb k y)].
    destruct n as [|d n]; [done|]. injection E as <- ->. set_solver.
Qed.

(** A text without the needle's first character does not contain it. *)
Lemma contains_first d n s : d ∉ s -> contains (d :: n) s = false.
Proof. intros H. apply contains_false. intros a b ->. set_solver. Qed.

(** Putting a character that is not the needle's first in front of a text. *)
Lemma contains_skip d n c s : c <> d -> contains (d :: n) s = false -> contains (d :: n) (c :: s) = false.
Proof.
  intros Hc H. rewrite contains_cons, H, orb_false_r. cbn [starts_with].
  by rewrite (proj2 (Ascii.eqb_neq d c)) by congruence.
Qed.

(** Putting a character that is not the needle's last behind a text. *)
Lemma contains_snoc n d a c : c <> d -> contains (n ++ [d]) a = false -> contains (n ++ [d]) (a ++ [c]) = false.
Proof.
  rewrite !contains_false. intros Hc Ha x y E.
  destruct y as [|e y _] using rev_ind.
  - rewrite app_nil_r, (assoc_L (++)) in E. apply app_inj_tail in E as [_ E]. congruence.
  - rewrite !(assoc_L (++)) in E. apply app_inj_tail in E as [-> _].
    apply (Ha x y). by rewrite <- !(assoc_L (++)).
Qed.

(** ** Lemmas: splitting *)

Lemma split_once_app c a b : c ∉ a -> split_once c (a ++ c :: b) = Some (a, b).
Proof.
  induction a as [|d a IH]; intros H; cbn [split_once app].
  - by rewrite Ascii.eqb_refl.
  - rewrite (proj2 (Ascii.eqb_neq d c)) by set_solver. by rewrite IH by set_solver.
Qed.

Lemma split_once_none c s : c ∉ s -> split_once c s = None.
Proof.
  induction s as [|d s IH]; intros H; cbn [split_once]; [done|].
  rewrite (proj2 (Ascii.eqb_neq d c)) by set_solver. by rewrite IH by set_solver.
Qed.

Lemma before_app c a b : c ∉ a -> before c (a ++ c :: b) = a.
Proof. intros. unfold before. by rewrite split_once_app. Qed.

Lemma take_while_app f a c b : forallb f a = true -> f c = false -> take_while f (a ++ c :: b) = a.
Proof.
  intros H Hc. induction a as [|d a IH]; cbn in *; [by rewrite Hc|]. bool_prop.
  rewrite H. by rewrite IH.
Qed.

Lemma take_while_all f a : forallb f a = true -> take_while f a = a.
Proof. intros H. induction a as [|d a IH]; cbn in *; [done|]. bool_prop. rewrite H. by rewrite IH. Qed.

(** ** Lemmas: decimals *)

Lemma digit_char_digit d : 0 <= d < 10 -> is_ascii_digit (digit_char d) = true.
Proof.
  intros H. unfold is_ascii_digit, digit_char. rewrite nat_ascii_embedding by lia. lia.
Qed.

Lemma char_digit_char d : 0 <= d < 10 -> char_digit (digit_char d) = d.
Proof. intros H. unfold char_digit, digit_char. rewrite nat_ascii_embedding by lia. lia. Qed.

Lemma print_go_digits fuel z acc :
  forallb is_ascii_digit acc = true -> forallb is_ascii_digit (print_go fuel z acc) = true.
Proof.
  revert z acc. induction fuel as [|fuel IH]; intros z acc H; cbn [print_go]; [done|].
  assert (forallb is_ascii_digit (digit_char (z mod 10) :: acc) = true).
  { cbn [forallb]. rewrite digit_char_digit, H; [done|]. apply Z.mod_pos_bound. lia. }
  destruct (z <? 10); auto.
Qed.

Lemma print_go_value fuel z acc v :
  0 <= z < 10 ^ Z.of_nat fuel ->
  foldl (fun v c => 10 * v + char_digit c) 0 (print_go fuel z acc) = v <->
  foldl (fun v c => 10 * v + char_digit c) z acc = v.
Proof.
  revert z acc. induction fuel as [|fuel IH]; intros z acc H.
  - simpl in H. assert (z = 0) as -> by lia. done.
  - cbn [print_go]. assert (E : forall x, foldl (fun v c => 10 * v + char_digit c) x (digit_char (z mod 10) :: acc)
      = foldl (fun v c => 10 * v + char_digit c) (10 * x + z mod 10) acc).
    { intros x. cbn [foldl]. rewrite char_digit_char; [done|]. apply Z.mod_pos_bound. lia. }
    destruct (z <? 10) eqn:Hz; bool_prop.
    + rewrite E. rewrite Z.mod_small by lia. done.
    + rewrite Nat2Z.inj_succ, Z.pow_succ_r in H by lia.
      rewrite IH, E by div_lia. rewrite <- Z.div_mod by lia. done.
Qed.

Lemma to_string_value z : 0 <= z < 10 ^ 20 -> digits_value (to_string z) = z.
Proof. intros H. unfold digits_value. by apply (print_go_value 20). Qed.

Lemma to_string_digits z : forallb is_ascii_digit (to_string z) = true.
Proof. by apply print_go_digits. Qed.

Lemma print_go_cons fuel z acc : acc <> [] -> print_go fuel z acc <> [].
Proof. revert z acc. induction fuel as [|fuel IH]; intros z acc H; cbn [print_go]; [done|]. by case_if; [|apply IH]. Qed.

Lemma to_string_nonempty z : to_string z <> [].
Proof.
  unfold to_string. change 20%nat with (S 19). generalize 19%nat as n. intros n. cbn [print_go].
  case_if; [done|]. by apply print_go_cons.
Qed.

Lemma length_to_string z : (length (to_string z) <= 20)%nat.
Proof.
  assert (forall fuel acc z, (length (print_go fuel z acc) <= fuel + length acc)%nat) as H; [|apply (H 20%nat [])].
  induction fuel as [|fuel IH]; intros acc x; cbn [print_go]; [lia|].
  case_if; [simpl; lia|]. specialize (IH (digit_char (x mod 10) :: acc) (x / 10)). simpl in IH. lia.
Qed.

Lemma digit_not c s : is_ascii_digit c = false -> forallb is_ascii_digit s = true -> c ∉ s.
Proof.
  intros Hc H Hin. rewrite forallb_forall in H. apply list_elem_of_In, H in Hin. congruence.
Qed.

(** What is printed is parsed back. *)
Lemma parse_to_string max z : 0 <= z <= max -> z < 10 ^ 20 -> parse_unsigned max (to_string z) = Some z.
Proof.
  intros H Hz. unfold parse_unsigned.
  pose proof (to_string_digits z) as D. pose proof (to_string_nonempty z) as N.
  assert (E : match to_string z with "+"%char :: s => s | _ => to_string z end = to_string z).
  { destruct (to_string z) as [|c s]; [done|]. cbn [forallb] in D. apply andb_prop in D as [D _].
    destruct c as [[] [] [] [] [] [] [] []]; try done; discriminate D. }
  rewrite E. rewrite bool_decide_eq_false_2, D, to_string_value by (done || lia). simpl.
  by rewrite (proj2 (Z.leb_le z max)) by lia.
Qed.

(** The same through a sign, as far as an [i32] goes. *)
Lemma parse_signed_to_string bound z :
  - bound <= z < bound -> - 10 ^ 10 < z < 10 ^ 10 -> parse_signed bound (i32_to_string z) = Some z.
Proof.
  intros H Hz. unfold i32_to_string. destruct (z <? 0) eqn:E; bool_prop.
  - cbn [parse_signed]. rewrite parse_to_string by lia.
    pose proof (to_string_digits (- z)) as D. destruct (to_string (- z)) as [|c s] eqn:Es.
    + f_equal. lia.
    + cbn [forallb] in D. apply andb_prop in D as [D _].
      destruct c as [[] [] [] [] [] [] [] []]; try (f_equal; lia); discriminate D.
  - unfold parse_signed. pose proof (to_string_digits z) as D. pose proof (to_string_nonempty z).
    pose proof (parse_to_string (bound - 1) z ltac:(lia) ltac:(lia)) as P.
    destruct (to_string z) as [|c s]; [done|]. cbn [forallb] in D. apply andb_prop in D as [D _].
    destruct c as [[] [] [] [] [] [] [] []]; try exact P; discriminate D.
Qed.

Lemma split_cons_sep c s : split c (c :: s) = [] :: split c s.
Proof. cbn [split]. by rewrite decide_True. Qed.

Lemma split_app c a s : c ∉ a -> split c (a ++ c :: s) = a :: split c s.
Proof.
  induction a as [|x a IH]; intros H; [apply split_cons_sep|]. rewrite not_elem_of_cons in H. destruct H as [H1 H2].
  cbn [app split]. rewrite decide_False by congruence. by rewrite IH.
Qed.

Lemma split_none c a : c ∉ a -> split c a = [a].
Proof.
  induction a as [|x a IH]; intros H; [done|]. rewrite not_elem_of_cons in H. destruct H as [H1 H2].
  cbn [split]. rewrite decide_False by congruence. by rewrite IH.
Qed.

Lemma rsplit_once_app c a b : c ∉ b -> rsplit_once c (a ++ c :: b) = Some (a, b).
Proof.
  intros H. unfold rsplit_once. rewrite reverse_app, reverse_cons, <- app_assoc. cbn [app].
  rewrite split_once_app by set_solver. simpl. by rewrite !reverse_involutive.
Qed.

Lemma rsplit_once_none c a : c ∉ a -> rsplit_once c a = None.
Proof. intros H. unfold rsplit_once. rewrite split_once_none; [done|]. set_solver. Qed.

Lemma parse_to_string_u32 z : is_u32 z -> parse_u32 (to_string z) = Some z.
Proof. intros H. apply parse_to_string; unfold is_u32, U32_MAX in *; lia. Qed.

Lemma trim_id s : forallb (fun c => negb (is_whitespace c)) s = true -> trim s = s.
Proof.
  intros H. unfold trim.
  assert (D : forall l, forallb (fun c => negb (is_whitespace c)) l = true -> drop_while is_whitespace l = l).
  { intros [|c l] Hl; cbn in *; [done|]. bool_prop. by rewrite H0. }
  rewrite (D s H), (D (reverse s)); [apply reverse_involutive|].
  rewrite forallb_forall in *. intros c Hc. apply H. rewrite <- list_elem_of_In in *. set_solver.
Qed.

Lemma digits_not_whitespace s : forallb is_ascii_digit s = true -> forallb (fun c => negb (is_whitespace c)) s = true.
Proof.
  rewrite !forallb_forall. intros H c Hc. specialize (H c Hc).
  unfold is_ascii_digit, is_whitespace in *. lia.
Qed.

Lemma trim_to_string z : trim (to_string z) = to_string z.
Proof. apply trim_id, digits_not_whitespace, to_string_digits. Qed.

#[export] Hint Resolve to_string_digits digit_not : kmc.
