(* ===== verification/KeyLines.v ===== *)
(** * The capture process and its manager
    ([kmc-keyhook/src/main.rs], [kmc-admin/src-tauri/src/keyhook.rs])

    The text of the lines between the admin and the capture process, their
    parsers, and the two processes with the pipes between them: who reads what
    and when is an event.  What the hooks do is [hook_step] of Keyhook.v. *)
From S2P Require Import Prelude Input Control Keyhook Text.

(** ** Reading a line *)

(** [s.split_whitespace()] *)
Fixpoint split_whitespace (s : text) : list text :=
  match s with
  | [] => []
  | c :: s' =>
      if is_whitespace c then split_whitespace s'
      else
        match s' with
        | [] => [[c]]
        | d :: _ =>
            if is_whitespace d then [c] :: split_whitespace s'
            else match split_whitespace s' with w :: ws => (c :: w) :: ws | [] => [[c]] end
        end
  end.

Definition parse_u8 : text -> option Z := parse_unsigned 255.
Definition parse_i16 : text -> option Z := parse_signed (2 ^ 15).

(** The admin's reader: the event for the host and the hover state for the
    user interface. *)
Definition handle_text (line : text) : option InputEvent * option bool :=
  match split_whitespace line with
  | [] => (None, None)
  | w :: it =>
      if decide (w = str "k") then
        match it with
        | vk :: d :: _ =>
            match parse_i32 vk, parse_u8 d with
            | Some vk, Some d => (Some (Key (i16 vk) (d =? 1) 0), None)
            | _, _ => (None, None)
            end
        | _ => (None, None)
        end
      else if decide (w = str "mm") then
        match omap parse_i32 it with
        | [x; y; w; h] => (Some (MousePosition (i16 x) (i16 y) (i16 w) (i16 h)), None)
        | _ => (None, None)
        end
      else if decide (w = str "mb") then
        match it with
        | b :: d :: _ =>
            match parse_u8 b, parse_u8 d with
            | Some b, Some d => (Some (MouseButton b (d =? 1)), None)
            | _, _ => (None, None)
            end
        | _ => (None, None)
        end
      else if decide (w = str "ms") then
        match it with
        | a :: _ => match parse_i16 a with Some a => (Some (Scroll a), None) | None => (None, None) end
        | _ => (None, None)
        end
      else if decide (w = str "h") then
        match it with
        | v :: _ => (None, Some (bool_decide (v = str "1")))
        | _ => (None, None)
        end
      else (None, None)
  end.

(** The capture process's reader. *)
Definition parse_stdin (line : text) : StdinLine :=
  let line := trim line in
  if decide (line = str "s1") then LineS true
  else if decide (line = str "s0") then LineS false
  else if decide (line = str "f1") then LineF true
  else if decide (line = str "f0") then LineF false
  else if starts_with (str "r ") line then LineR (omap parse_i32 (split_whitespace (drop 2 line)))
  else LineUnknown.

(** ** Writing a line *)

Definition flag (b : bool) : text := if b then str "1" else str "0".

(** The words of a line, with one blank between them. *)
Fixpoint join (ws : list text) : text :=
  match ws with
  | [] => []
  | [w] => w
  | w :: ws => w ++ SP :: join ws
  end.

(** The [format!]s of the hooks. *)
Definition line_text (l : OutLine) : text :=
  match l with
  | LineKey vk down => join [str "k"; to_string vk; flag down]
  | LineMouseMove x y w h => join [str "mm"; i32_to_string x; i32_to_string y; i32_to_string w; i32_to_string h]
  | LineButton b down => join [str "mb"; to_string b; flag down]
  | LineScroll a => join [str "ms"; i32_to_string a]
  | LineHover on => join [str "h"; flag on]
  end.

(** The admin's commands, and the line each of them writes. *)
Inductive Command := SetStreaming (on : bool) | SetFocused (on : bool) | SetCanvasRect (l t r b : Z).

Definition command_text (c : Command) : text :=
  match c with
  | SetStreaming on => str "s" ++ flag on
  | SetFocused on => str "f" ++ flag on
  | SetCanvasRect l t r b => join [str "r"; i32_to_string l; i32_to_string t; i32_to_string r; i32_to_string b]
  end.

Definition command_line (c : Command) : StdinLine :=
  match c with
  | SetStreaming on => set_streaming on
  | SetFocused on => set_focused on
  | SetCanvasRect l t r b => set_canvas_rect l t r b
  end.

(** ** The two processes *)

(** The capture process: lines on its standard input it has not read, its
    hooks' state, how many lines its worker has written. *)
Record Sidecar := mkSidecar { sc_alive : bool; sc_stdin : list text; sc_hook : KeyHook; sc_written : nat }.

(** The admin: how many lines its reader has handled and what it passed on. *)
Record KeyAdmin := mkKeyAdmin {
  INSTALLED : bool;
  SIDECAR : option Sidecar;
  ka_read : nat;
  ka_sent : list InputEvent;
  ka_hover : list bool
}.

Definition key_admin_new : KeyAdmin :=
  {| INSTALLED := false; SIDECAR := None; ka_read := 0; ka_sent := []; ka_hover := [] |}.

Definition set_sidecar (a : KeyAdmin) (c : Sidecar) : KeyAdmin :=
  {| INSTALLED := INSTALLED a; SIDECAR := Some c; ka_read := ka_read a; ka_sent := ka_sent a; ka_hover := ka_hover a |}.

Definition install (spawn_ok : bool) (a : KeyAdmin) : KeyAdmin :=
  if INSTALLED a then a
  else if spawn_ok then
    {| INSTALLED := true; SIDECAR := Some {| sc_alive := true; sc_stdin := []; sc_hook := keyhook_new; sc_written := 0 |};
       ka_read := 0; ka_sent := ka_sent a; ka_hover := ka_hover a |}
  else {| INSTALLED := false; SIDECAR := SIDECAR a; ka_read := ka_read a; ka_sent := ka_sent a; ka_hover := ka_hover a |}.

(** [send]: without a capture process, or when it is gone, the line is lost
    and nobody is told. *)
Definition send (line : text) (a : KeyAdmin) : KeyAdmin :=
  match SIDECAR a with
  | Some c =>
      if sc_alive c
      then set_sidecar a {| sc_alive := true; sc_stdin := sc_stdin c ++ [line]; sc_hook := sc_hook c; sc_written := sc_written c |}
      else a
  | None => a
  end.

(** The reader thread handles one line. *)
Definition read_line (line : text) (a : KeyAdmin) : KeyAdmin :=
  let '(ev, hover) := handle_text line in
  {| INSTALLED := INSTALLED a; SIDECAR := SIDECAR a; ka_read := S (ka_read a);
     ka_sent := ka_sent a ++ option_list ev; ka_hover := ka_hover a ++ option_list hover |}.

Definition sidecar_dies (c : Sidecar) : Sidecar :=
  {| sc_alive := false; sc_stdin := []; sc_hook := sc_hook c; sc_written := sc_written c |}.

(** An event on the hooks; a panic in a hook ends the process. *)
Definition sidecar_hook (e : HookEvent) (stdin : list text) (c : Sidecar) : Sidecar :=
  match hook_step (sc_hook c) e with
  | Some k => {| sc_alive := sc_alive c; sc_stdin := stdin; sc_hook := k; sc_written := sc_written c |}
  | None => sidecar_dies c
  end.

Inductive KeyEvent :=
| KeInstall (spawn_ok : bool)
| KeCommand (c : Command)
| KeReadsStdin
| KeKey (m : KeyMsg) (vkCode : Z)
| KeMouse (m : MouseMsg) (px py mouseData : Z)
| KeWrites
| KeReads
| KeDies.

(** What the capture process does with an event while it runs. *)
Definition sidecar_step (e : KeyEvent) (c : Sidecar) : Sidecar :=
  match e with
  | KeReadsStdin =>
      match sc_stdin c with
      | [] => c
      | line :: lines => sidecar_hook (HookStdin (parse_stdin line)) lines c
      end
  | KeKey m vk => sidecar_hook (HookKey m vk) (sc_stdin c) c
  | KeMouse m px py data => sidecar_hook (HookMouse m px py data) (sc_stdin c) c
  | KeWrites =>
      {| sc_alive := true; sc_stdin := sc_stdin c; sc_hook := sc_hook c;
         sc_written := Nat.min (S (sc_written c)) (length (out (sc_hook c))) |}
  | KeDies => sidecar_dies c
  | _ => c
  end.

Definition key_step (a : KeyAdmin) (e : KeyEvent) : KeyAdmin :=
  match e with
  | KeInstall ok => install ok a
  | KeCommand c => send (command_text c) a
  | KeReads =>
      match SIDECAR a with
      | Some c =>
          if (ka_read a <? sc_written c)%nat then
            match out (sc_hook c) !! ka_read a with
            | Some l => read_line (line_text l) a
            | None => a
            end
          else a
      | None => a
      end
  | _ =>
      match SIDECAR a with
      | Some c => if sc_alive c then set_sidecar a (sidecar_step e c) else a
      | None => a
      end
  end.

Definition key_run (a : KeyAdmin) (es : list KeyEvent) : KeyAdmin := foldl key_step a es.

(** ** Words *)

Definition no_blank (w : text) : Prop := w <> [] /\ forallb (fun c => negb (is_whitespace c)) w = true.

Lemma split_word w s : no_blank w -> split_whitespace (w ++ SP :: s) = w :: split_whitespace s.
Proof.
  intros [Hne H]. induction w as [|c w IH]; [done|]. cbn [forallb] in H. apply andb_prop in H as [Hc Hw].
  apply negb_true_iff in Hc. cbn [app split_whitespace]. rewrite Hc. destruct w as [|d w].
  - cbn [app]. done.
  - cbn [app] in *. pose proof Hw as Hd. cbn [forallb] in Hd. apply andb_prop in Hd as [Hd _].
    apply negb_true_iff in Hd. rewrite Hd. by rewrite IH.
Qed.

Lemma split_last w : no_blank w -> split_whitespace w = [w].
Proof.
  intros [Hne H]. induction w as [|c w IH]; [done|]. cbn [forallb] in H. apply andb_prop in H as [Hc Hw].
  apply negb_true_iff in Hc. cbn [split_whitespace]. rewrite Hc. destruct w as [|d w]; [done|].
  pose proof Hw as Hd. cbn [forallb] in Hd. apply andb_prop in Hd as [Hd _].
  apply negb_true_iff in Hd. rewrite Hd. by rewrite IH.
Qed.

Lemma split_join ws : Forall no_blank ws -> split_whitespace (join ws) = ws.
Proof.
  induction 1 as [|w ws Hw Hws IH]; [done|]. destruct ws as [|v ws]; [by apply split_last|].
  change (join (w :: v :: ws)) with (w ++ SP :: join (v :: ws)). rewrite split_word by done. by rewrite IH.
Qed.

Lemma no_blank_number z : no_blank (to_string z).
Proof. split; [apply to_string_nonempty|apply digits_not_whitespace, to_string_digits]. Qed.

Lemma no_blank_signed z : no_blank (i32_to_string z).
Proof.
  unfold i32_to_string. case_match; [|apply no_blank_number]. destruct (no_blank_number (- z)) as [_ Hd]. split; [done|].
  cbn [forallb]. by rewrite Hd.
Qed.

Lemma no_blank_flag b : no_blank (flag b).
Proof. by destruct b. Qed.

#[local] Hint Resolve no_blank_number no_blank_signed no_blank_flag : kmc.

Ltac words := rewrite split_join by (repeat (apply Forall_cons_2; [first [by auto with kmc | by split]|]); apply Forall_nil_2);
  repeat first [rewrite decide_True by done | rewrite decide_False by done].

Lemma parse_flag b : parse_u8 (flag b) = Some (if b then 1 else 0).
Proof. by destruct b. Qed.

(** ** Reading back what was written *)

(** The numbers fit the types they are printed from. *)
Definition line_ok (l : OutLine) : Prop :=
  match l with
  | LineKey vk _ => 0 <= vk < 2 ^ 31
  | LineMouseMove x y w h => Forall (fun z => - 2 ^ 31 <= z < 2 ^ 31) [x; y; w; h]
  | LineButton b _ => is_u8 b
  | LineScroll a => - 2 ^ 15 <= a < 2 ^ 15
  | LineHover _ => True
  end.

Definition hover_of (l : OutLine) : option bool := match l with LineHover on => Some on | _ => None end.

Lemma parse_i32_signed z : - 2 ^ 31 <= z < 2 ^ 31 -> parse_i32 (i32_to_string z) = Some z.
Proof. intros H. apply parse_signed_to_string; lia. Qed.

Lemma parse_i32_unsigned z : 0 <= z < 2 ^ 31 -> parse_i32 (to_string z) = Some z.
Proof.
  intros H. rewrite <- (parse_i32_signed z) by lia. unfold i32_to_string. by rewrite (proj2 (Z.ltb_ge z 0)) by lia.
Qed.

Lemma handle_line_text l : line_ok l -> handle_text (line_text l) = (handle_line l, hover_of l).
Proof.
  intros Hok. unfold handle_text. destruct l as [vk d|x y w h|b d|a|on]; cbn [line_text line_ok handle_line hover_of] in *.
  - words. cbn -[parse_i32 parse_u8 to_string flag]. rewrite parse_i32_unsigned, parse_flag by done. by destruct d.
  - words. rewrite !Forall_cons in Hok. destruct Hok as (Hx & Hy & Hw & Hh & _). cbn -[parse_i32 i32_to_string]. by rewrite !parse_i32_signed by done.
  - words. cbn -[parse_u8 to_string flag]. rewrite parse_flag. unfold parse_u8. rewrite parse_to_string by (unfold is_u8 in Hok; lia).
    rewrite bool_decide_true by done. by destruct d.
  - words. cbn -[parse_i16 i32_to_string]. unfold parse_i16. rewrite parse_signed_to_string by lia. by rewrite bool_decide_true.
  - words. by destruct on.
Qed.

Definition command_ok (c : Command) : Prop :=
  match c with SetCanvasRect l t r b => Forall (fun z => - 2 ^ 31 <= z < 2 ^ 31) [l; t; r; b] | _ => True end.

Lemma drop_while_word w s : no_blank w -> drop_while is_whitespace (w ++ s) = w ++ s.
Proof.
  intros [Hne H]. destruct w as [|c w]; [done|]. cbn [forallb] in H. apply andb_prop in H as [Hc _].
  apply negb_true_iff in Hc. cbn [app drop_while]. by rewrite Hc.
Qed.

Lemma no_blank_reverse w : no_blank w -> no_blank (reverse w).
Proof.
  intros [Hne H]. split.
  - intros E. apply Hne. rewrite <- (reverse_involutive w), E. done.
  - rewrite forallb_forall in *. intros c Hc. apply H. rewrite <- list_elem_of_In in *. set_solver.
Qed.

Lemma trim_words a s b : no_blank a -> no_blank b -> trim (a ++ s ++ b) = a ++ s ++ b.
Proof.
  intros Ha Hb. unfold trim. rewrite (drop_while_word a) by done. rewrite !reverse_app, <- !app_assoc.
  rewrite drop_while_word by (by apply no_blank_reverse). by rewrite !reverse_app, !reverse_involutive, <- app_assoc.
Qed.

Lemma parse_command_text c : command_ok c -> parse_stdin (command_text c) = command_line c.
Proof.
  intros H. destruct c as [[]|[]|l t r b]; try reflexivity. cbn [command_ok] in H.
  unfold parse_stdin. cbn [command_text].
  set (rest := join [i32_to_string l; i32_to_string t; i32_to_string r; i32_to_string b]).
  assert (join [str "r"; i32_to_string l; i32_to_string t; i32_to_string r; i32_to_string b] = str "r " ++ rest) as -> by done.
  assert (trim (str "r " ++ rest) = str "r " ++ rest) as ->.
  { assert (exists s, str "r " ++ rest = str "r" ++ s ++ i32_to_string b) as [s ->].
    { exists (SP :: i32_to_string l ++ SP :: i32_to_string t ++ SP :: i32_to_string r ++ [SP]).
      subst rest. cbn [join]. change (str "r ") with (str "r" ++ [SP]). repeat (rewrite <- ?app_assoc; cbn [app]). done. }
    apply trim_words; [done|apply no_blank_signed]. }
  rewrite !decide_False by done.
  change (LineR (omap parse_i32 (split_whitespace rest)) = command_line (SetCanvasRect l t r b)). subst rest. words.
  rewrite !Forall_cons in H. destruct H as (Hx & Hy & Hw & Hh & _).
  cbn -[parse_i32 i32_to_string]. by rewrite !parse_i32_signed by done.
Qed.

(** ** The hooks print numbers that fit *)

Lemma clamp0_fits v hi x : hi < 2 ^ 31 -> clamp0 v hi = Some x -> - 2 ^ 31 <= x < 2 ^ 31.
Proof. intros Hhi. unfold clamp0. case_match; bool_prop; [done|]. intros [= <-]. lia. Qed.

Lemma update_hover_mapped k px py k' m : update_hover k px py = Some (k', Some m) ->
  line_ok (LineMouseMove m.1.1.1 m.1.1.2 m.1.2 m.2).
Proof.
  unfold update_hover. case_match; [done|]. case_match; [done|].
  destruct (clamp0 (i32 (px - _)) _) as [x|] eqn:Ex; [|done]. destruct (clamp0 (i32 (py - _)) _) as [y|] eqn:Ey; [|done].
  intros [= <- <-]. cbn [fst snd line_ok].
  apply clamp0_fits in Ex; [|apply i32_range]. apply clamp0_fits in Ey; [|apply i32_range].
  repeat (apply Forall_cons_2; [first [done | apply i32_range]|]). constructor.
Qed.

Lemma hook_step_lines k e k' : event_ok e -> hook_step k e = Some k' ->
  exists l, out k' = out k ++ l /\ Forall line_ok l.
Proof.
  assert (forall k, exists l : list OutLine, out k = out k ++ l /\ Forall line_ok l) as Hnil
    by (intros k0; exists []; by rewrite app_nil_r).
  intros He. destruct e as [m vk|m px py data|line]; cbn [hook_step event_ok] in *.
  - intros [= <-]. unfold kbd_proc. destruct m; [|..]; [case_match; [|apply Hnil]..|apply Hnil]; cbn [fst emit_lines set_owned out].
    all: eexists; split; [done|]; constructor; [cbn; lia|constructor].
  - unfold mouse_proc. destruct (update_hover k px py) as [[k1 mapped]|] eqn:E; [|done].
    destruct (update_hover_frame _ _ _ _ _ E) as (_ & _ & l & El & Hl).
    assert (Forall line_ok l) as Hl' by (eapply Forall_impl; [exact Hl|]; by intros []).
    assert (forall l2, Forall line_ok l2 -> exists l3, (out k ++ l) ++ l2 = out k ++ l3 /\ Forall line_ok l3) as Hap.
    { intros l2 H2. exists (l ++ l2). rewrite <- app_assoc. split; [done|]. by apply Forall_app_2. }
    assert (exists l3, out k1 = out k ++ l3 /\ Forall line_ok l3) as Hk1 by (exists l; by split).
    intros [= <-]. destruct (button_of m data) as [[b []]|] eqn:Eb.
    + case_match; [|done]. cbn [emit_lines set_owned out]. rewrite El. apply Hap. constructor; [|constructor].
      apply button_of_range in Eb. unfold line_ok, is_u8. lia.
    + case_match; [|done]. cbn [emit_lines set_owned out]. rewrite El. apply Hap. constructor; [|constructor].
      apply button_of_range in Eb. unfold line_ok, is_u8. lia.
    + case_match; [|done]. destruct m; try done.
      * destruct mapped as [[[[x y] w] h]|]; [|done]. cbn [emit_lines out]. rewrite El. apply Hap.
        constructor; [|constructor]. by apply update_hover_mapped in E.
      * cbn [emit_lines out]. rewrite El. apply Hap. constructor; [apply i16_range|constructor].
  - intros [= <-]. destruct line as [[]|on|ns|]; cbn [on_stdin]; try (by exists []; rewrite app_nil_r).
    + eexists. split; [reflexivity|]. apply Forall_forall.
      intros x [(v & Hv & _ & ->)%elem_release_keys|(b & Hb & _ & ->)%elem_release_buttons]%elem_of_app; cbn [line_ok];
        unfold is_u8; lia.
    + destruct ns as [|l [|t [|r [|b [|]]]]]; by exists []; rewrite app_nil_r.
Qed.

Lemma hook_run_snoc k l e : hook_run k (l ++ [e]) = (k <-? hook_run k l; hook_step k e).
Proof.
  revert k. induction l as [|x l IH]; intros k; cbn [app hook_run].
  - by destruct (hook_step k e).
  - destruct (hook_step k x); [apply IH|done].
Qed.

(** ** The two processes together *)

Definition key_event_ok (e : KeyEvent) : Prop :=
  match e with KeKey _ vk => 0 <= vk < 256 | KeCommand c => command_ok c | _ => True end.

Definition commands (es : list KeyEvent) : list Command :=
  omap (fun e => match e with KeCommand c => Some c | _ => None end) es.
Definition inputs (es : list KeyEvent) : list HookEvent :=
  omap (fun e => match e with KeKey m vk => Some (HookKey m vk) | KeMouse m x y d => Some (HookMouse m x y d) | _ => None end) es.
Definition stdin_of (hs : list HookEvent) : list StdinLine :=
  omap (fun h => match h with HookStdin l => Some l | _ => None end) hs.
Definition inputs_of (hs : list HookEvent) : list HookEvent :=
  omap (fun h => match h with HookStdin _ => None | _ => Some h end) hs.

(** What the admin and its capture process have done, in terms of the hooks
    alone. *)
Record key_ok (a : KeyAdmin) (c : Sidecar) (cmds : list Command) (ins : list HookEvent) (hs : list HookEvent) : Prop := {
  ky_sidecar : SIDECAR a = Some c;
  ky_installed : INSTALLED a = true;
  ky_alive : sc_alive c = true;
  ky_hook : hook_run keyhook_new hs = Some (sc_hook c);
  ky_events : Forall event_ok hs;
  ky_lines : Forall line_ok (out (sc_hook c));
  ky_commands : stdin_of hs ++ (parse_stdin <$> sc_stdin c) = command_line <$> cmds;
  ky_inputs : inputs_of hs = ins;
  ky_counts : (ka_read a <= sc_written c <= length (out (sc_hook c)))%nat;
  ky_sent : ka_sent a = omap handle_line (take (ka_read a) (out (sc_hook c)));
  ky_hover : ka_hover a = omap hover_of (take (ka_read a) (out (sc_hook c)))
}.

Lemma take_app_short {A} n (l r : list A) : (n <= length l)%nat -> take n (l ++ r) = take n l.
Proof. intros H. rewrite take_app. replace (n - length l)%nat with 0%nat by lia. by rewrite take_0, app_nil_r. Qed.

(** An event on the hooks keeps the correspondence, unless the process dies
    of it. *)
Lemma key_ok_hook a c cmds ins hs h stdin cmds' ins' :
  key_ok a c cmds ins hs -> event_ok h -> sc_alive (sidecar_hook h stdin c) = true ->
  stdin_of (hs ++ [h]) ++ (parse_stdin <$> stdin) = command_line <$> cmds' -> inputs_of (hs ++ [h]) = ins' ->
  key_ok (set_sidecar a (sidecar_hook h stdin c)) (sidecar_hook h stdin c) cmds' ins' (hs ++ [h]).
Proof.
  intros [] Hh Hal Hc Hi. unfold sidecar_hook in *. destruct (hook_step (sc_hook c) h) as [k|] eqn:E; [|done].
  destruct (hook_step_lines _ _ _ Hh E) as (l & El & Hl).
  split; cbn [SIDECAR INSTALLED set_sidecar sc_alive sc_hook sc_stdin sc_written ka_read ka_sent ka_hover] in *; try done.
  - rewrite hook_run_snoc, ky_hook0. done.
  - by apply Forall_app_2; [|constructor].
  - rewrite El. by apply Forall_app_2.
  - rewrite El, length_app. lia.
  - rewrite El, take_app_short by lia. done.
  - rewrite El, take_app_short by lia. done.
Qed.

Definition sidecar_alive (a : KeyAdmin) : bool := match SIDECAR a with Some c => sc_alive c | None => false end.

Lemma key_ok_read a c cmds ins hs l : key_ok a c cmds ins hs -> out (sc_hook c) !! ka_read a = Some l ->
  (ka_read a < sc_written c)%nat -> key_ok (read_line (line_text l) a) c cmds ins hs.
Proof.
  intros [] Hl Hlt. assert (line_ok l) as Hok by (rewrite Forall_lookup in ky_lines0; by eapply ky_lines0).
  unfold read_line. rewrite (handle_line_text l Hok).
  split; cbn [SIDECAR INSTALLED ka_read ka_sent ka_hover] in *; try done.
  - lia.
  - rewrite (take_S_r _ _ _ Hl), omap_app, ky_sent0. done.
  - rewrite (take_S_r _ _ _ Hl), omap_app, ky_hover0. done.
Qed.

Lemma key_ok_step a c cmds ins hs e : key_ok a c cmds ins hs -> key_event_ok e -> sidecar_alive (key_step a e) = true ->
  exists c' hs', key_ok (key_step a e) c' (cmds ++ commands [e]) (ins ++ inputs [e]) hs'.
Proof.
  intros H He. pose proof H as Hk. destruct H. unfold sidecar_alive.
  destruct e as [ok|cmd| |m vk|m px py data| | |]; cbn [key_step key_event_ok commands inputs omap list_omap] in *;
    rewrite ?app_nil_r.
  - unfold install. rewrite ky_installed0. eauto.
  - unfold send. rewrite ky_sidecar0, ky_alive0. intros _. eexists _, hs. destruct Hk.
    split; cbn [SIDECAR INSTALLED set_sidecar sc_alive sc_hook sc_stdin sc_written ka_read ka_sent ka_hover] in *; try done.
    cbn [sc_stdin]. rewrite !fmap_app, app_assoc, ky_commands1. cbn. by rewrite parse_command_text.
  - rewrite ky_sidecar0, ky_alive0. cbn [sidecar_step set_sidecar SIDECAR]. destruct (sc_stdin c) as [|line lines] eqn:Es.
    + intros _. exists c, hs. destruct Hk. by split.
    + intros Hal. eexists _, _. apply (key_ok_hook a c cmds ins hs); try done.
      * rewrite <- ky_commands0. unfold stdin_of. rewrite omap_app. cbn. by rewrite <- app_assoc.
      * unfold inputs_of. rewrite omap_app. cbn. by rewrite app_nil_r.
  - rewrite ky_sidecar0, ky_alive0. intros Hal. eexists _, _. apply (key_ok_hook a c cmds ins hs); try done.
    * unfold stdin_of. rewrite omap_app. cbn. by rewrite app_nil_r.
    * unfold inputs_of. rewrite omap_app. cbn. f_equal. exact ky_inputs0.
  - rewrite ky_sidecar0, ky_alive0. intros Hal. eexists _, _. apply (key_ok_hook a c cmds ins hs); try done.
    * unfold stdin_of. rewrite omap_app. cbn. by rewrite app_nil_r.
    * unfold inputs_of. rewrite omap_app. cbn. f_equal. exact ky_inputs0.
  - rewrite ky_sidecar0, ky_alive0. intros _. eexists _, hs. destruct Hk.
    split; cbn [SIDECAR INSTALLED set_sidecar sidecar_step sc_alive sc_hook sc_stdin sc_written ka_read ka_sent ka_hover] in *;
      try done. cbn [sc_written sc_hook]. lia.
  - rewrite ky_sidecar0. destruct (Nat.ltb_spec (ka_read a) (sc_written c)) as [Hlt|]; [|eauto].
    destruct (out (sc_hook c) !! ka_read a) as [l|] eqn:El; [|eauto]. intros _. exists c, hs. by apply key_ok_read.
  - rewrite ky_sidecar0, ky_alive0. cbn. done.
Qed.

(** Once gone, for good. *)
Lemma dead_step a e : INSTALLED a = true -> SIDECAR a <> None -> sidecar_alive a = false ->
  INSTALLED (key_step a e) = true /\ SIDECAR (key_step a e) = SIDECAR a.
Proof.
  unfold sidecar_alive. intros Hi Hn Ha. destruct (SIDECAR a) as [c|] eqn:Es; [|done].
  destruct e; cbn [key_step]; rewrite ?Es, ?Ha; try done.
  - unfold install. by rewrite Hi.
  - unfold send. by rewrite Es, Ha.
  - case_match; [|done]. case_match; [|done]. unfold read_line. by destruct (handle_text _).
Qed.

Lemma dead_run es : forall a, INSTALLED a = true -> SIDECAR a <> None -> sidecar_alive a = false ->
  INSTALLED (key_run a es) = true /\ SIDECAR (key_run a es) = SIDECAR a.
Proof.
  induction es as [|e es IH]; intros a Hi Hn Ha; [done|]. cbn [key_run foldl].
  destruct (dead_step a e Hi Hn Ha) as [H1 H2]. destruct (IH (key_step a e)) as [H3 H4]; [done|by rewrite H2| |].
  - unfold sidecar_alive in *. by rewrite H2.
  - split; [exact H3|]. etransitivity; [exact H4|done].
Qed.

Lemma step_keeps a e c : INSTALLED a = true -> SIDECAR a = Some c ->
  INSTALLED (key_step a e) = true /\ SIDECAR (key_step a e) <> None.
Proof.
  intros Hi Hs. assert (SIDECAR a <> None) as Hn by (by rewrite Hs).
  destruct e; cbn [key_step]; rewrite ?Hs; try (case_match; [by split|done]).
  - unfold install. by rewrite Hi.
  - unfold send. rewrite Hs. case_match; by split.
  - case_match; [|done]. case_match; [|done]. unfold read_line. by destruct (handle_text _).
Qed.

Lemma key_ok_run es : forall a c cmds ins hs, key_ok a c cmds ins hs -> Forall key_event_ok es -> sidecar_alive (key_run a es) = true ->
  exists c' hs', key_ok (key_run a es) c' (cmds ++ commands es) (ins ++ inputs es) hs'.
Proof.
  induction es as [|e es IH]; intros a c cmds ins hs H He Ha.
  - rewrite !app_nil_r. eauto.
  - inversion_clear He as [|? ? H1 H2]. cbn [key_run foldl] in Ha.
    assert (sidecar_alive (key_step a e) = true) as Hal.
    { destruct (sidecar_alive (key_step a e)) eqn:E; [done|]. exfalso. destruct H.
      destruct (step_keeps a e c) as [Hi Hn]; [done..|].
      destruct (dead_run es (key_step a e) Hi Hn E) as [_ Hs]. unfold sidecar_alive in *. unfold key_run in Hs. rewrite Hs in Ha. congruence. }
    destruct (key_ok_step _ _ _ _ _ _ H H1 Hal) as (c1 & hs1 & Hk).
    destruct (IH _ _ _ _ _ Hk H2 Ha) as (c2 & hs2 & Hk2). exists c2, hs2. cbn [key_run foldl].
    assert (commands (e :: es) = commands [e] ++ commands es) as -> by (by destruct e).
    assert (inputs (e :: es) = inputs [e] ++ inputs es) as -> by (by destruct e).
    by rewrite !app_assoc.
Qed.


(** When the capture process is gone, and what it had written is read,
    nothing reaches the host or the user interface any more, whatever is
    pressed, commanded or installed again: a key the host was told to hold
    down stays down. *)
Theorem dead_sidecar_final a c es :
  INSTALLED a = true -> SIDECAR a = Some c -> sc_alive c = false -> (sc_written c <= ka_read a)%nat ->
  ka_sent (key_run a es) = ka_sent a /\ ka_hover (key_run a es) = ka_hover a /\ sidecar_alive (key_run a es) = false.
Proof.
  intros Hi Hs Hd Hr. revert a Hi Hs Hr. induction es as [|e es IH]; intros a Hi Hs Hr.
  - unfold sidecar_alive. cbn. by rewrite Hs.
  - cbn [key_run foldl]. assert (key_step a e = a) as E.
    { destruct e; cbn [key_step]; rewrite ?Hs, ?Hd; try done.
      - unfold install. by rewrite Hi.
      - unfold send. by rewrite Hs, Hd.
      - by rewrite (proj2 (Nat.ltb_ge _ _)). }
    rewrite E. by apply IH.
Qed.

(** ** Witnesses *)

(** The admin starts streaming, the pointer enters the canvas and A goes
    down, is read, and the process dies. *)
Definition key_events_example : list KeyEvent :=
  [KeCommand (SetStreaming true); KeCommand (SetFocused true); KeCommand (SetCanvasRect (-100) 100 860 640);
   KeReadsStdin; KeReadsStdin; KeReadsStdin; KeMouse MsgMove 580 370 0; KeKey KeyDownMsg 0x41;
   KeWrites; KeWrites; KeWrites; KeReads; KeReads; KeReads].


Lemma dead_sidecar_final_witness :
  let a := key_run (install true key_admin_new) (key_events_example ++ [KeDies]) in
  ka_sent (key_run a [KeInstall true; KeKey KeyUpMsg 0x41; KeCommand (SetStreaming false); KeReads])
  = [MousePosition 680 270 960 540; Key 0x41 true 0].
Proof.
  cbn zeta.
  edestruct (dead_sidecar_final (key_run (install true key_admin_new) (key_events_example ++ [KeDies]))) as [E _];
    [vm_compute; reflexivity|vm_compute; reflexivity|vm_compute; reflexivity|vm_compute; lia|].
  etransitivity; [exact E|vm_compute; reflexivity].
Defined.
