(* ===== verification/RtspTypes.v ===== *)
(** * What the RTSP code relies on of [rtsp_types], [url] and [sdp_types]

    The three crates are parameters: their operations are the class
    [RtspTypes] and their documented behaviour, restricted to the messages
    the program exchanges, the class [RtspTypesLaws].  [PlainRtsp] is a small
    RTSP reader and writer that satisfies the laws. *)
From S2P Require Import Prelude Text.

(** ** Messages *)

Inductive Method := Options | Describe | Setup | Announce | Play | OtherMethod (name : text).
Inductive Version := V1_0 | V2_0.
Inductive StatusCode := StatusOk | StatusBadRequest | OtherStatus (code : Z).

Abbreviation Headers := (list (text * text)).

#[export] Instance Method_eq_dec : EqDecision Method.
Proof. solve_decision. Defined.
#[export] Instance StatusCode_eq_dec : EqDecision StatusCode.
Proof. solve_decision. Defined.

Definition CSEQ : text := str "CSeq".
Definition SESSION : text := str "Session".
Definition TRANSPORT : text := str "Transport".
Definition PUBLIC : text := str "Public".
Definition ACCEPT : text := str "Accept".
Definition CONTENT_TYPE : text := str "Content-Type".
Definition CONTENT_LENGTH : text := str "Content-Length".

(** The value of a header. *)
Definition header (name : text) (hs : Headers) : option text :=
  snd <$> List.find (fun h => bool_decide (h.1 = name)) hs.

Record RtspRequest (U : Type) := mkRtspRequest {
  rq_method : Method;
  rq_version : Version;
  rq_uri : option U;
  rq_headers : Headers;
  rq_body : text
}.
Arguments mkRtspRequest {U}.
Arguments rq_method {U}.
Arguments rq_version {U}.
Arguments rq_uri {U}.
Arguments rq_headers {U}.
Arguments rq_body {U}.

Record RtspResponse := mkRtspResponse {
  rs_status : StatusCode;
  rs_version : Version;
  rs_headers : Headers;
  rs_body : text
}.

Inductive RtspMessage (U : Type) := MRequest (r : RtspRequest U) | MResponse (r : RtspResponse) | MData.
Arguments MRequest {U}.
Arguments MResponse {U}.
Arguments MData {U}.

Inductive ParseResult (U : Type) := Parsed (m : RtspMessage U) | Incomplete | ParseFailed.
Arguments Parsed {U}.
Arguments Incomplete {U}.
Arguments ParseFailed {U}.

Class RtspTypes := {
  Url : Type;
  url_parse : text -> option Url;
  query_pairs : Url -> list (text * text);
  (** [builder.build(body)] then [write]: a message with these headers *)
  request_write : Method -> Headers -> text -> text;
  response_write : RtspResponse -> text;
  message_parse : text -> ParseResult Url;
  SdpSession : Type;
  sdp_parse : text -> option SdpSession;
  (** [get_first_attribute_value]: [None] for an absent attribute *)
  get_first_attribute_value : SdpSession -> text -> option (option text)
}.

(** ** The text of a message (RFC 2326) and of the SDP the client sends *)

Definition method_text (m : Method) : text :=
  match m with
  | Options => str "OPTIONS" | Describe => str "DESCRIBE" | Setup => str "SETUP"
  | Announce => str "ANNOUNCE" | Play => str "PLAY" | OtherMethod name => name
  end.

Definition known_method (m : Method) : Prop := match m with OtherMethod _ => False | _ => True end.

Definition VERSION_1_0 : text := str "RTSP/1.0".
Definition header_line (h : text * text) : text := h.1 ++ str ": " ++ h.2 ++ CRLF.
Definition message_text (line : text) (hs : Headers) (body : text) : text :=
  line ++ CRLF ++ concat (map header_line hs) ++ CRLF ++ body.
Definition request_head (m : Method) (target : text) : text := method_text m ++ SP :: target.
Definition request_text (m : Method) (target : text) (hs : Headers) (body : text) : text :=
  message_text (request_head m target ++ SP :: VERSION_1_0) hs body.

(** The header [build] adds. *)
Definition content_length (body : text) : Headers :=
  if bool_decide (body = []) then [] else [(CONTENT_LENGTH, to_string (Z.of_nat (length body)))].

(** No character below 0x21 and none that is not ASCII. *)
Definition plain_char (c : ascii) : bool := let n := nat_of_ascii c in ((33 <=? n) && (n <=? 126))%nat.
Definition plain (t : text) : Prop := forallb plain_char t = true.

Record header_ok (h : text * text) : Prop := {
  ho_name : plain h.1;
  ho_colon : ":"%char ∉ h.1;
  ho_not_empty : h.1 <> [];
  ho_cr : CR ∉ h.2;
  ho_lf : LF ∉ h.2;
  ho_trim : trim h.2 = h.2
}.

Record headers_ok (hs : Headers) (body : text) : Prop := {
  hs_each : Forall header_ok hs;
  hs_body : Z.of_nat (length body) <= U32_MAX;
  hs_length : header CONTENT_LENGTH hs = header CONTENT_LENGTH (content_length body)
}.

Record response_ok (r : RtspResponse) : Prop := {
  ro_status : rs_status r = StatusOk \/ rs_status r = StatusBadRequest;
  ro_each : Forall header_ok (rs_headers r);
  ro_body : Z.of_nat (length (rs_body r)) <= U32_MAX;
  ro_length : header CONTENT_LENGTH (rs_headers r) = None
}.

Definition attribute_line (a : text * text) : text := str "a=" ++ a.1 ++ str ":" ++ a.2 ++ CRLF.

(** The SDP of an ANNOUNCE: the session part ends at the [m=] line. *)
Definition sdp_text (addrtype addr : text) (attrs : list (text * text)) (port : text) : text :=
  str "v=0" ++ CRLF ++ str "o=android 0 14 IN " ++ addrtype ++ str " " ++ addr ++ CRLF ++
  str "s=NVIDIA Streaming Client" ++ CRLF ++ concat (map attribute_line attrs) ++
  str "t=0 0" ++ CRLF ++ str "m=video " ++ port ++ str "  " ++ CRLF.

Record attribute_ok (a : text * text) : Prop := {
  ao_name : plain a.1;
  ao_colon : ":"%char ∉ a.1;
  ao_value : plain a.2
}.

(** What can be the value of the [streamid] query: the characters that form
    decoding leaves alone. *)
Definition query_char (c : ascii) : bool :=
  let n := nat_of_ascii c in ((97 <=? n) && (n <=? 122) || (47 <=? n) && (n <=? 57))%nat.

Class RtspTypesLaws (R : RtspTypes) := {
  url_streamid v : forallb query_char v = true ->
    exists u, url_parse (str "rtsp://localhost?streamid=" ++ v) = Some u /\
              query_pairs u = [(str "streamid", v)];
  url_localhost : is_Some (url_parse (str "rtsp://localhost/"));
  (** A request without URI is written with the placeholder [*]. *)
  request_write_text m hs body : exists hs',
    hs' ≡ₚ hs ++ content_length body /\
    request_write m hs body = request_text m (str "*") hs' body;
  request_parse m target u hs body :
    known_method m -> plain target -> url_parse target = Some u -> headers_ok hs body ->
    message_parse (request_text m target hs body)
    = Parsed (MRequest {| rq_method := m; rq_version := V1_0; rq_uri := Some u; rq_headers := hs; rq_body := body |});
  request_partial m target u hs body k :
    known_method m -> plain target -> url_parse target = Some u -> headers_ok hs body ->
    (k < length (request_text m target hs body))%nat ->
    message_parse (take k (request_text m target hs body)) = Incomplete;
  (** A request line is incomplete while its URI may go on. *)
  target_partial m target k :
    known_method m -> plain target -> message_parse (take k (request_head m target)) = Incomplete;
  response_parse r :
    response_ok r ->
    exists hs, message_parse (response_write r)
    = Parsed (MResponse {| rs_status := rs_status r; rs_version := rs_version r; rs_headers := hs; rs_body := rs_body r |})
    /\ hs ≡ₚ rs_headers r ++ content_length (rs_body r);
  response_partial r k :
    response_ok r ->
    (k < length (response_write r))%nat -> message_parse (take k (response_write r)) = Incomplete;
  sdp_attributes addrtype addr attrs port :
    addrtype = str "IPv4" \/ addrtype = str "IPv6" -> plain addr -> addr <> [] ->
    Forall attribute_ok attrs -> is_u16 port ->
    exists s, sdp_parse (sdp_text addrtype addr attrs (to_string port)) = Some s /\
      forall n v, header n attrs = Some v -> get_first_attribute_value s n = Some (Some v)
}.

(** ** A small reader and writer that satisfies the laws *)

Fixpoint split_crlf (s : text) : option (text * text) :=
  match s with
  | [] => None
  | c :: s' => if starts_with CRLF s then Some ([], drop 1 s')
               else r <-? split_crlf s'; Some (c :: r.1, r.2)
  end.

Inductive HeaderResult := HIncomplete | HFailed | HDone (hs : Headers) (body : text).

Fixpoint plain_headers (fuel : nat) (s : text) : HeaderResult :=
  match fuel with
  | O => HIncomplete
  | S fuel =>
      match split_crlf s with
      | None => HIncomplete
      | Some ([], body) => HDone [] body
      | Some (line, rest) =>
          match split_once ":"%char line with
          | None => HFailed
          | Some (n, v) =>
              match plain_headers fuel rest with
              | HDone hs body => HDone ((n, trim v) :: hs) body
              | r => r
              end
          end
      end
  end.

Definition plain_method (t : text) : Method :=
  match List.find (fun m => bool_decide (method_text m = t)) [Options; Describe; Setup; Announce; Play] with
  | Some m => m
  | None => OtherMethod t
  end.

Definition plain_version (t : text) : Version := if bool_decide (t = VERSION_1_0) then V1_0 else V2_0.
Definition version_text (v : Version) : text := match v with V1_0 => VERSION_1_0 | V2_0 => str "RTSP/2.0" end.

Definition status_code (s : StatusCode) : Z := match s with StatusOk => 200 | StatusBadRequest => 400 | OtherStatus z => z end.
Definition plain_status (z : Z) : StatusCode :=
  if z =? 200 then StatusOk else if z =? 400 then StatusBadRequest else OtherStatus z.

Definition plain_url (t : text) : option text := if starts_with (str "rtsp://") t then Some t else None.

Definition plain_query (t : text) : list (text * text) :=
  match split_once "?"%char t with
  | Some (_, q) => match split_once "="%char q with Some kv => [kv] | None => [] end
  | None => []
  end.

(** The request or status line. *)
Definition plain_line (line : text) (hs : Headers) (body : text) : ParseResult text :=
  match split_once SP line with
  | None => ParseFailed
  | Some (a, rest) =>
      match split_once SP rest with
      | None => ParseFailed
      | Some (b, c) =>
          if starts_with (str "RTSP/") a then
            match parse_u32 b with
            | Some z => Parsed (MResponse {| rs_status := plain_status z; rs_version := plain_version a;
                                             rs_headers := hs; rs_body := body |})
            | None => ParseFailed
            end
          else
            match plain_url b with
            | Some u => Parsed (MRequest {| rq_method := plain_method a; rq_version := plain_version c;
                                            rq_uri := Some u; rq_headers := hs; rq_body := body |})
            | None => ParseFailed
            end
      end
  end.

Definition announced_length (hs : Headers) : nat :=
  match header CONTENT_LENGTH hs with
  | Some v => Z.to_nat (default 0 (parse_u32 v))
  | None => 0
  end.

Definition plain_parse (s : text) : ParseResult text :=
  match split_crlf s with
  | None => Incomplete
  | Some (line, rest) =>
      match plain_headers (length rest) rest with
      | HIncomplete => Incomplete
      | HFailed => ParseFailed
      | HDone hs body =>
          if (length body <? announced_length hs)%nat then Incomplete else plain_line line hs body
      end
  end.

Definition plain_write_request (m : Method) (hs : Headers) (body : text) : text :=
  request_text m (str "*") (hs ++ content_length body) body.

Definition plain_write_response (r : RtspResponse) : text :=
  message_text (version_text (rs_version r) ++ SP :: to_string (status_code (rs_status r)) ++ SP :: str "-")
    (rs_headers r ++ content_length (rs_body r)) (rs_body r).

(** The attributes of the lines before the first [m=]. *)
Fixpoint plain_sdp (fuel : nat) (s : text) : list (text * text) :=
  match fuel with
  | O => []
  | S fuel =>
      match split_crlf s with
      | None => []
      | Some (line, rest) =>
          if starts_with (str "m=") line then []
          else if starts_with (str "a=") line then
            match split_once ":"%char (drop 2 line) with
            | Some a => a :: plain_sdp fuel rest
            | None => plain_sdp fuel rest
            end
          else plain_sdp fuel rest
      end
  end.

#[export] Instance PlainRtsp : RtspTypes := {
  Url := text;
  url_parse := plain_url;
  query_pairs := plain_query;
  request_write := plain_write_request;
  response_write := plain_write_response;
  message_parse := plain_parse;
  SdpSession := list (text * text);
  sdp_parse := fun t => if starts_with (str "v=0") t then Some (plain_sdp (length t) t) else None;
  get_first_attribute_value := fun s n => Some <$> header n s
}.

(** ** Its laws *)

Lemma split_crlf_none s : LF ∉ s -> split_crlf s = None.
Proof.
  induction s as [|c s IH]; intros H; [done|]. cbn [split_crlf].
  assert (starts_with CRLF (c :: s) = false) as ->.
  { apply not_true_iff_false. rewrite starts_with_spec. intros [t E]. injection E as -> ->. set_solver. }
  by rewrite IH by set_solver.
Qed.

Lemma split_crlf_app l r : LF ∉ l -> split_crlf (l ++ CRLF ++ r) = Some (l, r).
Proof.
  induction l as [|c l IH]; intros H; [done|]. cbn [split_crlf app].
  assert (starts_with CRLF (c :: l ++ CRLF ++ r) = false) as ->.
  { apply not_true_iff_false. rewrite starts_with_spec. intros [t E]. injection E as -> E.
    destruct l as [|d l]; [done|]. injection E as -> _. set_solver. }
  change (CR :: LF :: r) with (CRLF ++ r). by rewrite IH by set_solver.
Qed.

Lemma split_crlf_take l r k : LF ∉ l ->
  split_crlf (take k (l ++ CRLF ++ r)) =
  if (k <? length l + 2)%nat then None else Some (l, take (k - (length l + 2)) r).
Proof.
  intros H. case_if; bool_prop.
  - apply split_crlf_none. replace (l ++ CRLF ++ r) with ((l ++ [CR]) ++ LF :: r) by by rewrite <- (assoc_L (++)).
    rewrite take_app_le by (rewrite length_app; simpl; lia).
    intros [Hin|Hin]%subseteq_take%elem_of_app; [done|]. by apply list_elem_of_singleton in Hin.
  - rewrite (assoc_L (++) l). rewrite take_app_ge by (rewrite length_app; simpl; lia).
    rewrite <- (assoc_L (++)), split_crlf_app by done. by rewrite length_app.
Qed.

Definition line_of (h : text * text) : text := h.1 ++ str ": " ++ h.2.

Lemma plain_not c t : plain_char c = false -> plain t -> c ∉ t.
Proof.
  intros Hc H Hin. unfold plain in H. rewrite forallb_forall in H.
  apply list_elem_of_In, H in Hin. congruence.
Qed.

Lemma header_line_of h : header_line h = line_of h ++ CRLF.
Proof. unfold header_line, line_of. by rewrite <- !(assoc_L (++)). Qed.

Lemma line_of_ok h : header_ok h -> (LF ∉ line_of h) /\ line_of h <> [].
Proof.
  intros [Hn Hc He Hcr Hlf Ht]. unfold line_of. split.
  - rewrite !elem_of_app. intros [H|[H|H]]; [by eapply plain_not in H| |done].
    exact (bool_decide_eq_true_1 (LF ∉ str ": ") eq_refl H).
  - destruct h.1; done.
Qed.

Lemma split_once_line h : header_ok h -> split_once ":"%char (line_of h) = Some (h.1, SP :: h.2).
Proof. intros []. unfold line_of. by apply split_once_app. Qed.

Lemma plain_headers_line fuel h rest : header_ok h ->
  plain_headers (S fuel) (header_line h ++ rest) =
  match plain_headers fuel rest with HDone hs body => HDone (h :: hs) body | r => r end.
Proof.
  intros H. destruct (line_of_ok h H) as [Hlf Hne].
  rewrite header_line_of, <- (assoc_L (++)). cbn [plain_headers]. rewrite split_crlf_app by done.
  rewrite split_once_line by done. destruct (line_of h) as [|c l] eqn:E; [done|].
  change (trim (SP :: h.2)) with (trim h.2). rewrite (ho_trim _ H). by destruct h.
Qed.

Lemma plain_headers_all hs body fuel :
  Forall header_ok hs -> (length hs < fuel)%nat ->
  plain_headers fuel (concat (map header_line hs) ++ CRLF ++ body) = HDone hs body.
Proof.
  intros H. revert fuel. induction H as [|h hs Hh _ IH]; intros [|fuel] Hf; simpl in Hf; [lia|done|lia|].
  cbn [map concat]. rewrite <- (assoc_L (++)), plain_headers_line by done. by rewrite IH by lia.
Qed.

Lemma plain_headers_partial hs body fuel k :
  Forall header_ok hs -> (k < length (concat (map header_line hs) ++ CRLF))%nat ->
  plain_headers fuel (take k (concat (map header_line hs) ++ CRLF ++ body)) = HIncomplete.
Proof.
  intros H. revert fuel k. induction H as [|h hs Hh _ IH]; intros [|fuel] k Hk; try done.
  - cbn [map concat app length] in Hk. cbn [map concat app plain_headers].
    rewrite (split_crlf_take [] body) by set_solver. case_if; [done|]. bool_prop. simpl in *. lia.
  - cbn [map concat] in Hk |- *. rewrite <- (assoc_L (++)) in Hk |- *.
    destruct (line_of_ok h Hh) as [Hlf Hne].
    destruct (decide (k < length (header_line h))%nat) as [Hlt|Hge].
    + cbn [plain_headers]. rewrite header_line_of, <- (assoc_L (++)), split_crlf_take by done.
      rewrite header_line_of, length_app in Hlt. case_if; [done|]. bool_prop. simpl in *. lia.
    + rewrite take_app_ge by lia. rewrite plain_headers_line by done.
      rewrite length_app in Hk. by rewrite IH by lia.
Qed.

Lemma length_headers hs : Forall header_ok hs -> (length hs <= length (concat (map header_line hs)))%nat.
Proof.
  induction 1 as [|h hs Hh _ IH]; [simpl; lia|]. cbn [map concat length]. rewrite length_app.
  rewrite header_line_of, length_app. simpl. lia.
Qed.

Lemma message_rest hs body :
  concat (map header_line hs) ++ CRLF ++ body = (concat (map header_line hs) ++ CRLF) ++ body.
Proof. by rewrite (assoc_L (++)). Qed.

Lemma plain_parse_text line hs body :
  LF ∉ line -> Forall header_ok hs -> announced_length hs = length body ->
  plain_parse (message_text line hs body) = plain_line line hs body.
Proof.
  intros Hl Hh Hb. unfold plain_parse, message_text. rewrite split_crlf_app by done.
  rewrite plain_headers_all; [|done|].
  - by rewrite Hb, Nat.ltb_irrefl.
  - pose proof (length_headers hs Hh). rewrite !length_app. simpl. lia.
Qed.

Lemma plain_parse_partial line hs body k :
  LF ∉ line -> Forall header_ok hs -> announced_length hs = length body ->
  (k < length (message_text line hs body))%nat ->
  plain_parse (take k (message_text line hs body)) = Incomplete.
Proof.
  intros Hl Hh Hb Hk. unfold plain_parse, message_text in *.
  rewrite split_crlf_take by done. case_if; [done|]. bool_prop.
  rewrite !length_app in Hk. simpl in Hk. set (j := (k - (length line + 2))%nat).
  destruct (decide (j < length (concat (map header_line hs) ++ CRLF))%nat) as [Hj|Hj].
  - by rewrite plain_headers_partial by done.
  - rewrite message_rest, take_app_ge by lia. rewrite <- (assoc_L (++)).
    rewrite plain_headers_all; [|done|].
    + rewrite Hb, length_take. rewrite (proj2 (Nat.ltb_lt _ _)); [done|].
      rewrite length_app in *. simpl in *. lia.
    + pose proof (length_headers hs Hh). rewrite !length_app. simpl. lia.
Qed.

Lemma announced_ok hs body :
  Z.of_nat (length body) <= U32_MAX -> header CONTENT_LENGTH hs = header CONTENT_LENGTH (content_length body) ->
  announced_length hs = length body.
Proof.
  intros Hb H. unfold announced_length. rewrite H. unfold content_length. case_bool_decide as E; [by subst|].
  assert (header CONTENT_LENGTH [(CONTENT_LENGTH, to_string (Z.of_nat (length body)))] = Some (to_string (Z.of_nat (length body)))) as -> by done.
  unfold U32_MAX in Hb. rewrite parse_to_string_u32 by (unfold is_u32; lia). simpl. lia.
Qed.

Lemma method_text_plain m : known_method m -> plain (method_text m).
Proof. by destruct m. Qed.

Lemma request_line_lf m target : known_method m -> plain target -> LF ∉ request_head m target ++ SP :: VERSION_1_0.
Proof.
  intros Hm Ht. unfold request_head. rewrite <- (assoc_L (++)), !elem_of_app. cbn [app].
  intros [H|[H|H]].
  - by apply plain_not in H; [|done|apply method_text_plain].
  - apply elem_of_cons in H as [H|H]; [done|]. by apply plain_not in H.
  - exact (bool_decide_eq_true_1 (LF ∉ SP :: VERSION_1_0) eq_refl H).
Qed.

Lemma plain_line_request m target u hs body :
  known_method m -> plain target -> plain_url target = Some u ->
  plain_line (request_head m target ++ SP :: VERSION_1_0) hs body
  = Parsed (MRequest {| rq_method := m; rq_version := V1_0; rq_uri := Some u; rq_headers := hs; rq_body := body |}).
Proof.
  intros Hm Ht Hu. unfold plain_line, request_head. rewrite <- (assoc_L (++)). cbn [app].
  rewrite split_once_app by by apply plain_not; [|apply method_text_plain].
  rewrite split_once_app by by apply plain_not. rewrite Hu. by destruct m.
Qed.

Lemma response_line_lf v st : LF ∉ version_text v ++ SP :: to_string st ++ SP :: str "-".
Proof.
  rewrite elem_of_app. intros [H|H]; [by apply plain_not in H; [|done|destruct v]|].
  apply elem_of_cons in H as [H|H]; [done|]. apply elem_of_app in H as [H|H].
  - revert H. apply digit_not; [done|apply to_string_digits].
  - exact (bool_decide_eq_true_1 (LF ∉ SP :: str "-") eq_refl H).
Qed.

Lemma plain_line_response v st hs body :
  st = StatusOk \/ st = StatusBadRequest ->
  plain_line (version_text v ++ SP :: to_string (status_code st) ++ SP :: str "-") hs body
  = Parsed (MResponse {| rs_status := st; rs_version := v; rs_headers := hs; rs_body := body |}).
Proof. by intros [-> | ->]; destruct v. Qed.

Lemma content_length_ok body : Forall header_ok (content_length body).
Proof.
  unfold content_length. case_bool_decide; constructor; [|constructor].
  constructor; cbn [fst snd].
  - done.
  - exact (bool_decide_eq_true_1 (":"%char ∉ CONTENT_LENGTH) eq_refl).
  - done.
  - by apply digit_not; [|apply to_string_digits].
  - by apply digit_not; [|apply to_string_digits].
  - apply trim_to_string.
Qed.

Lemma header_app n hs hs' :
  header n (hs ++ hs') = match header n hs with Some v => Some v | None => header n hs' end.
Proof.
  unfold header. induction hs as [|h hs IH]; [done|]. cbn. by case_bool_decide.
Qed.

Lemma response_announced r : response_ok r ->
  announced_length (rs_headers r ++ content_length (rs_body r)) = length (rs_body r).
Proof. intros []. apply announced_ok; [done|]. by rewrite header_app, ro_length0. Qed.

Lemma response_headers r : response_ok r -> Forall header_ok (rs_headers r ++ content_length (rs_body r)).
Proof. intros []. apply Forall_app. split; [done|]. apply content_length_ok. Qed.

Lemma plain_sdp_line fuel l rest : LF ∉ l ->
  plain_sdp (S fuel) (l ++ CRLF ++ rest) =
  if starts_with (str "m=") l then []
  else if starts_with (str "a=") l then
    match split_once ":"%char (drop 2 l) with Some a => a :: plain_sdp fuel rest | None => plain_sdp fuel rest end
  else plain_sdp fuel rest.
Proof. intros H. cbn [plain_sdp]. by rewrite split_crlf_app. Qed.

Lemma plain_no_lf t : plain t -> forallb (fun c => negb (Ascii.eqb c LF)) t = true.
Proof.
  unfold plain. rewrite !forallb_forall. intros H c Hc. specialize (H c Hc).
  apply negb_true_iff, Ascii.eqb_neq. by intros ->.
Qed.

Lemma plain_sdp_attributes attrs rest fuel :
  Forall attribute_ok attrs -> plain_sdp fuel rest = [] ->
  plain_sdp (length attrs + fuel) (concat (map attribute_line attrs) ++ rest) = attrs.
Proof.
  intros H E. induction H as [|[n v] attrs [Hn Hc Hv] _ IH]; [done|]. simpl in Hn, Hc, Hv.
  cbn [map concat length Nat.add]. unfold attribute_line at 1. cbn [fst snd].
  replace ((str "a=" ++ n ++ str ":" ++ v ++ CRLF) ++ concat (map attribute_line attrs))
    with ((str "a=" ++ n ++ str ":" ++ v) ++ CRLF ++ concat (map attribute_line attrs)) by by rewrite <- !(assoc_L (++)).
  rewrite <- (assoc_L (++)), <- (assoc_L (++) CRLF), plain_sdp_line.
  - assert (starts_with (str "m=") (str "a=" ++ n ++ str ":" ++ v) = false) as -> by done.
    assert (starts_with (str "a=") (str "a=" ++ n ++ str ":" ++ v) = true) as -> by done.
    change (drop 2 (str "a=" ++ n ++ str ":" ++ v)) with (n ++ ":"%char :: v).
    rewrite split_once_app by done. by rewrite IH.
  - assert (forallb (fun c => negb (Ascii.eqb c LF)) (str "a=" ++ n ++ str ":" ++ v) = true) as HF.
    { rewrite !forallb_app. apply plain_no_lf in Hn, Hv. by rewrite Hn, Hv. }
    rewrite forallb_forall in HF. intros Hin%list_elem_of_In%HF. done.
Qed.

Lemma plain_sdp_session addrtype addr attrs port :
  addrtype = str "IPv4" \/ addrtype = str "IPv6" -> plain addr -> Forall attribute_ok attrs ->
  let t := sdp_text addrtype addr attrs (to_string port) in plain_sdp (length t) t = attrs.
Proof.
  intros Ht Ha Hattrs t.
  set (rest := str "t=0 0" ++ CRLF ++ str "m=video " ++ to_string port ++ str "  " ++ CRLF).
  set (origin := str "o=android 0 14 IN " ++ addrtype ++ str " " ++ addr).
  assert (t = str "v=0" ++ CRLF ++ origin ++ CRLF ++ str "s=NVIDIA Streaming Client" ++ CRLF ++
              concat (map attribute_line attrs) ++ rest) as E.
  { unfold t, sdp_text, origin. by rewrite <- !(assoc_L (++)). }
  assert (exists f, length t = S (S (S (length attrs + S f)))) as [f ->].
  { exists (length t - 4 - length attrs)%nat.
    assert (length attrs <= length (concat (map attribute_line attrs)))%nat.
    { clear. induction attrs as [|a attrs IH]; [done|]. cbn [map concat length]. rewrite length_app.
      unfold attribute_line at 1. rewrite length_app. simpl. lia. }
    rewrite E, !length_app. simpl. lia. }
  rewrite E. rewrite plain_sdp_line by exact (bool_decide_eq_true_1 (LF ∉ str "v=0") eq_refl).
  assert (LF ∉ origin) as Ho.
  { assert (forallb (fun c => negb (Ascii.eqb c LF)) origin = true) as HF.
    { unfold origin. rewrite !forallb_app. apply plain_no_lf in Ha. rewrite Ha. by destruct Ht as [-> | ->]. }
    rewrite forallb_forall in HF. intros Hin%list_elem_of_In%HF. done. }
  rewrite (plain_sdp_line _ origin) by done.
  rewrite plain_sdp_line by exact (bool_decide_eq_true_1 (LF ∉ str "s=NVIDIA Streaming Client") eq_refl).
  cbn [starts_with str Ascii.eqb origin app]. apply plain_sdp_attributes; [done|].
  unfold rest. rewrite plain_sdp_line by exact (bool_decide_eq_true_1 (LF ∉ str "t=0 0") eq_refl).
  destruct f as [|f]; [done|].
  replace (str "m=video " ++ to_string port ++ str "  " ++ CRLF)
    with ((str "m=video " ++ to_string port ++ str "  ") ++ CRLF ++ []) by by rewrite <- !(assoc_L (++)).
  change (plain_sdp (S f) ((str "m=video " ++ to_string port ++ str "  ") ++ CRLF ++ []) = []).
  rewrite plain_sdp_line; [done|].
  rewrite !elem_of_app. intros [H|[H|H]].
  - exact (bool_decide_eq_true_1 (LF ∉ str "m=video ") eq_refl H).
  - revert H. apply digit_not; [done|apply to_string_digits].
  - exact (bool_decide_eq_true_1 (LF ∉ str "  ") eq_refl H).
Qed.

#[export] Instance plain_rtsp_laws : RtspTypesLaws PlainRtsp.
Proof.
  split; cbn [url_parse query_pairs request_write response_write message_parse sdp_parse get_first_attribute_value
              PlainRtsp Url SdpSession].
  - intros v _. exists (str "rtsp://localhost?streamid=" ++ v). done.
  - by eexists.
  - intros m hs body. exists (hs ++ content_length body). done.
  - intros m target u hs body Hm Ht Hu [Hh Hb Hl]. unfold request_text.
    rewrite plain_parse_text by (done || by apply request_line_lf || by apply announced_ok).
    by apply plain_line_request.
  - intros m target u hs body k Hm Ht Hu [Hh Hb Hl]. unfold request_text.
    apply plain_parse_partial; [by apply request_line_lf|done|by apply announced_ok].
  - intros m target k Hm Ht. unfold plain_parse. rewrite split_crlf_none; [done|].
    intros Hin%subseteq_take. unfold request_head in Hin.
    pose proof (request_line_lf m target Hm Ht) as H. apply H.
    unfold request_head. apply elem_of_app. by left.
  - intros r Hr. exists (rs_headers r ++ content_length (rs_body r)). split; [|done].
    unfold plain_write_response. rewrite plain_parse_text.
    + apply plain_line_response. apply Hr.
    + apply response_line_lf.
    + by apply response_headers.
    + by apply response_announced.
  - intros r k Hr. unfold plain_write_response. apply plain_parse_partial.
    + apply response_line_lf.
    + by apply response_headers.
    + by apply response_announced.
  - intros addrtype addr attrs port Ht Ha Hne Hattrs Hp. eexists. split; [done|].
    intros n v H. rewrite plain_sdp_session; [by rewrite H|done|done|done].
Qed.
