(* ===== verification/Rtsp.v ===== *)
(** * The RTSP handshake ([kmc-streamhost/src/rtsp.rs] and
    [kmc-moonclient/src/rtsp.rs])

    OPTIONS, DESCRIBE, three SETUPs, ANNOUNCE and PLAY, each on its own TCP
    connection.  The host rewrites the client's non-standard targets before
    it parses a request; the client writes them back after serializing one.
    A connection is the list of chunks [read] returns until the end of the
    stream; message and URL parsing are the class [RtspTypes]. *)
From S2P Require Import Prelude Text RtspTypes HostSession.

Inductive Result (A E : Type) := Ok (a : A) | Err (e : E).
Arguments Ok {A E}.
Arguments Err {A E}.

Definition STREAMID : text := str "streamid".
Definition PLAY_SLASH : text := str "PLAY /".

(** ** The host *)

Record StreamPorts := mkStreamPorts { sp_video : Z; sp_audio : Z; sp_control : Z }.
Definition stream_ports_default : StreamPorts := {| sp_video := 47998; sp_audio := 48000; sp_control := 47999 |}.

Record StreamContext := mkStreamContext {
  ctx_width : Z;
  ctx_height : Z;
  ctx_fps : Z;
  ctx_packet_size : Z;
  ctx_bitrate_bps : Z;
  ctx_video_format : Z
}.
Definition stream_context_default : StreamContext := mkStreamContext 0 0 0 0 0 0.

(** [W] is the state the PLAY hook works on. *)
Record RtspServer (W : Type) := mkRtspServer {
  srv_ports : StreamPorts;
  srv_context : option StreamContext;
  srv_session : SessionState;
  play_hook : option (StreamContext -> W -> W);
  srv_world : W
}.
Arguments mkRtspServer {W}.
Arguments srv_ports {W}.
Arguments srv_context {W}.
Arguments srv_session {W}.
Arguments play_hook {W}.
Arguments srv_world {W}.

Section Host.
Context {R : RtspTypes} {W : Type}.

Definition rtsp_server_new (ports : StreamPorts) (session : SessionState) (w : W) : RtspServer W :=
  {| srv_ports := ports; srv_context := None; srv_session := session; play_hook := None; srv_world := w |}.

Definition set_play_hook (s : RtspServer W) (hook : StreamContext -> W -> W) : RtspServer W :=
  {| srv_ports := srv_ports s; srv_context := srv_context s; srv_session := srv_session s;
     play_hook := Some hook; srv_world := srv_world s |}.

Definition last_context (s : RtspServer W) : option StreamContext := srv_context s.

Definition set_context (s : RtspServer W) (ctx : StreamContext) : RtspServer W :=
  {| srv_ports := srv_ports s; srv_context := Some ctx; srv_session := srv_session s;
     play_hook := play_hook s; srv_world := srv_world s |}.

Definition set_world (s : RtspServer W) (w : W) : RtspServer W :=
  {| srv_ports := srv_ports s; srv_context := srv_context s; srv_session := srv_session s;
     play_hook := play_hook s; srv_world := w |}.

Definition rtsp_resp (cseq : Z) (version : Version) (status : StatusCode) : RtspResponse :=
  {| rs_status := status; rs_version := version; rs_headers := [(CSEQ, i32_to_string cseq)]; rs_body := [] |}.

Definition rtsp_options (req : RtspRequest Url) (cseq : Z) : RtspResponse :=
  {| rs_status := StatusOk; rs_version := rq_version req;
     rs_headers := [(CSEQ, i32_to_string cseq); (PUBLIC, str "OPTIONS DESCRIBE SETUP PLAY ANNOUNCE")];
     rs_body := [] |}.

Definition describe_sdp : text :=
  concat (map (fun l => l ++ [LF])
    [str "a=x-ss-general.featureFlags:2";
     str "a=x-ss-general.encryptionSupported:1";
     str "a=x-ss-general.encryptionRequested:1";
     str "sprop-parameter-sets=AAAAAU";
     str "a=x-nv-video[0].refPicInvalidation:1";
     str "a=fmtp:96 packetization-mode=1"]).

Definition rtsp_describe (req : RtspRequest Url) (cseq : Z) : RtspResponse :=
  {| rs_status := StatusOk; rs_version := rq_version req;
     rs_headers := [(CSEQ, i32_to_string cseq)]; rs_body := describe_sdp |}.

(** The part of the [streamid] query before the first slash. *)
Definition stream_of (req : RtspRequest Url) : text :=
  match rq_uri req with
  | Some u => match List.find (fun kv => bool_decide (kv.1 = STREAMID)) (query_pairs u) with
              | Some (_, v) => before "/"%char v
              | None => []
              end
  | None => []
  end.

Definition port_of (ports : StreamPorts) (stream : text) : option Z :=
  if bool_decide (stream = str "video") then Some (sp_video ports)
  else if bool_decide (stream = str "audio") then Some (sp_audio ports)
  else if bool_decide (stream = str "control") then Some (sp_control ports)
  else None.

Definition rtsp_setup (s : RtspServer W) (req : RtspRequest Url) (cseq : Z) : RtspResponse :=
  match port_of (srv_ports s) (stream_of req) with
  | None => rtsp_resp cseq (rq_version req) StatusBadRequest
  | Some port =>
      {| rs_status := StatusOk; rs_version := rq_version req;
         rs_headers := [(CSEQ, i32_to_string cseq); (SESSION, str "KmcSession;timeout = 90");
                        (TRANSPORT, str "server_port=" ++ to_string port)];
         rs_body := [] |}
  end.

(** [sdp_attr::<u32>] *)
Definition sdp_attr (sdp : SdpSession) (attr : text) : option Z :=
  match get_first_attribute_value sdp attr with
  | Some (Some v) => parse_u32 (trim v)
  | _ => None
  end.

Definition context_of_sdp (sdp : SdpSession) : StreamContext :=
  {| ctx_width := default 0 (sdp_attr sdp (str "x-nv-video[0].clientViewportWd"));
     ctx_height := default 0 (sdp_attr sdp (str "x-nv-video[0].clientViewportHt"));
     ctx_fps := default 60 (sdp_attr sdp (str "x-nv-video[0].maxFPS"));
     ctx_packet_size := default 1024 (sdp_attr sdp (str "x-nv-video[0].packetSize"));
     ctx_bitrate_bps := saturating_mul32 (default 10000 (sdp_attr sdp (str "x-ml-video.configuredBitrateKbps"))) 1000;
     ctx_video_format := default 0 (sdp_attr sdp (str "x-nv-vqos[0].bitStreamFormat")) |}.

Definition rtsp_announce (s : RtspServer W) (req : RtspRequest Url) (cseq : Z) : RtspServer W * RtspResponse :=
  match sdp_parse (rq_body req) with
  | None => (s, rtsp_resp cseq (rq_version req) StatusBadRequest)
  | Some sdp => (set_context s (context_of_sdp sdp), rtsp_resp cseq (rq_version req) StatusOk)
  end.

(** A panic of the hook is caught, so the answer does not depend on it. *)
Definition rtsp_play (s : RtspServer W) (req : RtspRequest Url) (cseq : Z) : RtspServer W * RtspResponse :=
  let ctx := default stream_context_default (srv_context s) in
  let s := match play_hook s with Some hook => set_world s (hook ctx (srv_world s)) | None => s end in
  (s, rtsp_resp cseq (rq_version req) StatusOk).

Definition handle_request (s : RtspServer W) (req : RtspRequest Url) : RtspServer W * RtspResponse :=
  let cseq := default 0 (v <-? header CSEQ (rq_headers req); parse_i32 v) in
  match rq_method req with
  | Options => (s, rtsp_options req cseq)
  | Describe => (s, rtsp_describe req cseq)
  | Setup => (s, rtsp_setup s req cseq)
  | Announce => rtsp_announce s req cseq
  | Play => rtsp_play s req cseq
  | OtherMethod _ => (s, rtsp_resp cseq (rq_version req) StatusBadRequest)
  end.

(** The rewriting of non-standard targets, applied to the whole text. *)
Definition fix_request (raw : text) : text :=
  replace PLAY_SLASH (str "PLAY rtsp://localhost/") (replace STREAMID (str "rtsp://localhost?streamid") raw).

(** The read loop; an empty read is the end of the stream. *)
Fixpoint read_message (raw : text) (reads : list text) : option (RtspMessage Url) :=
  match reads with
  | [] => None
  | [] :: _ => None
  | buf :: reads =>
      let raw := raw ++ buf in
      match message_parse (fix_request raw) with
      | Parsed msg => Some msg
      | Incomplete => read_message raw reads
      | ParseFailed => None
      end
  end.

(** The bytes written before the connection is closed, if any. *)
Definition handle_connection (s : RtspServer W) (reads : list text) : RtspServer W * option text :=
  if negb (session_is_active (srv_session s)) then (s, None)
  else match read_message [] reads with
       | None => (s, None)
       | Some (MRequest req) => let '(s, r) := handle_request s req in (s, Some (response_write r))
       | Some _ => (s, Some (response_write (rtsp_resp 0 V2_0 StatusBadRequest)))
       end.
End Host.

(** ** The client *)

Definition DEFAULT_VIDEO_PORT : Z := 47998.
Definition DEFAULT_AUDIO_PORT : Z := 48000.
Definition DEFAULT_CONTROL_PORT : Z := 47999.
Definition SS_ENC_CONTROL_V2 : Z := 1.
Definition RTSP_CLIENT_VERSION : Z := 14.
Definition CONTROL_STREAM_ID : text := str "streamid=control/13/0".
Definition PLAY_TARGET : text := str "/".

Record StreamCfg := mkStreamCfg {
  cfg_width : Z;
  cfg_height : Z;
  cfg_fps : Z;
  cfg_bitrate_kbps : Z;
  cfg_packet_size : Z;
  cfg_video_format : Z
}.

Record RtspNegotiated := mkRtspNegotiated { video_port : Z; audio_port : Z; control_port : Z }.

Record RtspClient := mkRtspClient {
  host_ip : text;
  rtsp_port : Z;
  target_url : text;
  rc_cseq : Z;
  session_id : option text
}.

(** The ways a handshake fails.  [NoReply] is a connection that cannot be
    made, written or read, or takes more than 10 s. *)
Inductive RtspError :=
| UnsupportedScheme (url : text)
| NoReply
| ClosedEarly (bytes : nat)
| MalformedResponse
| NotAResponse
| BadStatus (status : StatusCode)
| NoRequestLine.

Definition rtsp_client_new (ip : text) (port : Z) (url : text) : RtspClient :=
  {| host_ip := ip; rtsp_port := port; target_url := url; rc_cseq := 1; session_id := None |}.

Definition resolve_target_url (ip : text) (port : Z) (session_url : text) : Result text RtspError :=
  let url := trim session_url in
  if bool_decide (url = []) then Ok (str "rtsp://" ++ ip ++ str ":" ++ to_string port)
  else if starts_with (str "rtspenc://") url then Err (UnsupportedScheme url)
  else if starts_with (str "rtspru://") url then Err (UnsupportedScheme url)
  else if negb (starts_with (str "rtsp://") url) then Err (UnsupportedScheme url)
  else Ok url.

(** [line.splitn(3, ' ')] of the first line, with the middle replaced. *)
Definition rewrite_request_target (wire target : text) : option text :=
  eol <-? find CRLF wire;
  let line := take eol wire in
  r <-? split_once SP line;
  let '(meth, rest) := r in
  r <-? split_once SP rest;
  let '(_, version) := r in
  Some ((meth ++ str " " ++ target ++ str " " ++ version) ++ drop eol wire).

Definition parse_server_port (transport : text) : option Z :=
  rest <-? find_after (str "server_port=") transport;
  p <-? parse_u32 (take_while is_ascii_digit rest);
  if (0 <? p) && (p <=? U16_MAX) then Some (u16 p) else None.

Definition scan_sdp_uint (txt attr : text) : option Z :=
  rest <-? find_after (attr ++ str ":") txt;
  parse_u32 (take_while is_ascii_digit rest).

(** [is_ipv6] is whether the standard library parses the address as IPv6. *)
Definition sdp_body (is_ipv6 : text -> bool) (ip : text) (cfg : StreamCfg) (port enc_enabled : Z) : text :=
  let addrtype := if is_ipv6 ip then str "IPv6" else str "IPv4" in
  let adjusted_kbps := u32 (u64 (cfg_bitrate_kbps cfg * 80) / 100) in
  let hevc := if cfg_video_format cfg =? 1 then 1 else 0 in
  concat (map (fun line => line ++ CRLF)
    [str "v=0";
     str "o=android 0 " ++ to_string RTSP_CLIENT_VERSION ++ str " IN " ++ addrtype ++ str " " ++ ip;
     str "s=NVIDIA Streaming Client";
     str "a=x-nv-video[0].clientViewportWd:" ++ to_string (cfg_width cfg);
     str "a=x-nv-video[0].clientViewportHt:" ++ to_string (cfg_height cfg);
     str "a=x-nv-video[0].maxFPS:" ++ to_string (cfg_fps cfg);
     str "a=x-nv-video[0].packetSize:" ++ to_string (cfg_packet_size cfg);
     str "a=x-ml-video.configuredBitrateKbps:" ++ to_string (cfg_bitrate_kbps cfg);
     str "a=x-nv-vqos[0].bitStreamFormat:" ++ to_string (cfg_video_format cfg);
     str "a=x-nv-video[0].rateControlMode:4";
     str "a=x-nv-video[0].timeoutLengthMs:7000";
     str "a=x-nv-video[0].framesWithInvalidRefThreshold:0";
     str "a=x-nv-video[0].initialBitrateKbps:" ++ to_string adjusted_kbps;
     str "a=x-nv-video[0].initialPeakBitrateKbps:" ++ to_string adjusted_kbps;
     str "a=x-nv-vqos[0].bw.minimumBitrateKbps:" ++ to_string adjusted_kbps;
     str "a=x-nv-vqos[0].bw.maximumBitrateKbps:" ++ to_string adjusted_kbps;
     str "a=x-nv-clientSupportHevc:" ++ to_string hevc;
     str "a=x-ss-general.encryptionEnabled:" ++ to_string enc_enabled;
     str "t=0 0";
     str "m=video " ++ to_string port ++ str "  "]).

Section Client.
Context {R : RtspTypes}.

(** [N] is the state of the network and of what is behind it.  [transact]
    opens a connection, writes the request and gives the chunks [read]
    returns, or [None] for a failure or a time-out. *)
Context {N : Type} (transact : N -> text -> N * option (list text)).

(** The client with its network, and its errors. *)
Definition RtspM (A : Type) : Type := RtspClient * N -> RtspClient * N * Result A RtspError.
Definition mret {A} (a : A) : RtspM A := fun s => (s, Ok a).
Definition fail {A} (e : RtspError) : RtspM A := fun s => (s, Err e).
Definition mbind {A B} (m : RtspM A) (f : A -> RtspM B) : RtspM B :=
  fun s => match m s with (s, Ok a) => f a s | (s, Err e) => (s, Err e) end.
Notation "'let!' x := m 'in' k" := (mbind m (fun x => k))
  (at level 10, x pattern, m at level 100, k at level 200).

Definition modify (f : RtspClient -> RtspClient) : RtspM RtspClient := fun s => ((f s.1, s.2), Ok s.1).

Definition next_cseq (c : RtspClient) : RtspClient :=
  {| host_ip := host_ip c; rtsp_port := rtsp_port c; target_url := target_url c;
     rc_cseq := u32 (rc_cseq c + 1); session_id := session_id c |}.

Definition set_session_id (token : text) (c : RtspClient) : RtspClient :=
  {| host_ip := host_ip c; rtsp_port := rtsp_port c; target_url := target_url c;
     rc_cseq := rc_cseq c; session_id := Some token |}.

Definition request_headers (c : RtspClient) (extra : Headers) : Headers :=
  [(CSEQ, to_string (rc_cseq c)); (str "X-GS-ClientVersion", to_string RTSP_CLIENT_VERSION); (str "Host", host_ip c)]
  ++ match session_id c with Some session => [(SESSION, session)] | None => [] end
  ++ extra.

Definition encode (method : Method) (target : text) (extra : Headers) (body : text) : RtspM text :=
  let! c := modify next_cseq in
  match rewrite_request_target (request_write method (request_headers c extra) body) target with
  | Some wire => mret wire
  | None => fail NoRequestLine
  end.

Fixpoint read_response (buf : text) (reads : list text) : Result (RtspMessage Url) RtspError :=
  match message_parse buf with
  | Parsed msg => Ok msg
  | ParseFailed => Err MalformedResponse
  | Incomplete =>
      match reads with
      | [] => Err (ClosedEarly (length buf))
      | [] :: _ => Err (ClosedEarly (length buf))
      | chunk :: reads => read_response (buf ++ chunk) reads
      end
  end.

Definition round_trip (wire : text) : RtspM RtspResponse := fun s =>
  let '(n, reads) := transact s.2 wire in
  let s := (s.1, n) in
  match reads with
  | None => (s, Err NoReply)
  | Some reads =>
      match read_response [] reads with
      | Err e => (s, Err e)
      | Ok (MResponse r) => (s, Ok r)
      | Ok _ => (s, Err NotAResponse)
      end
  end.

Definition exchange (method : Method) (target : text) (extra : Headers) (body : text) : RtspM RtspResponse :=
  let! wire := encode method target extra body in
  let! r := round_trip wire in
  if bool_decide (rs_status r = StatusOk) then mret r else fail (BadStatus (rs_status r)).

(** The session token of the first SETUP answer is kept. *)
Definition note_session (r : RtspResponse) (c : RtspClient) : RtspClient :=
  match session_id c, header SESSION (rs_headers r) with
  | None, Some v =>
      let token := trim (before ";"%char v) in
      if bool_decide (token = []) then c else set_session_id token c
  | _, _ => c
  end.

Definition client_setup (streamid : text) (fallback : Z) : RtspM Z :=
  let! r := exchange Setup streamid [] [] in
  let! _ := modify (note_session r) in
  mret (default fallback (v <-? header TRANSPORT (rs_headers r); parse_server_port v)).

(** [handshake] after the target URL is known. *)
Definition negotiate (is_ipv6 : text -> bool) (ip url : text) (cfg : StreamCfg) : RtspM RtspNegotiated :=
  let! _ := exchange Options url [] [] in
  let! describe := exchange Describe url [(ACCEPT, str "application/sdp")] [] in
  let enc_supported := default 0 (scan_sdp_uint (rs_body describe) (str "x-ss-general.encryptionSupported")) in
  let enc_enabled := Z.land enc_supported SS_ENC_CONTROL_V2 in
  let! video := client_setup (str "streamid=video/0/0") DEFAULT_VIDEO_PORT in
  let! audio := client_setup (str "streamid=audio/0/0") DEFAULT_AUDIO_PORT in
  let! control := client_setup CONTROL_STREAM_ID DEFAULT_CONTROL_PORT in
  let! _ := exchange Announce CONTROL_STREAM_ID [(CONTENT_TYPE, str "application/sdp")]
              (sdp_body is_ipv6 ip cfg video enc_enabled) in
  let! _ := exchange Play PLAY_TARGET [] [] in
  mret {| video_port := video; audio_port := audio; control_port := control |}.

Definition handshake (is_ipv6 : text -> bool) (ip : text) (port : Z) (session_url : text) (cfg : StreamCfg) (n : N)
  : N * Result RtspNegotiated RtspError :=
  match resolve_target_url ip port session_url with
  | Err e => (n, Err e)
  | Ok url =>
      let '((_, n), r) := negotiate is_ipv6 ip url cfg (rtsp_client_new ip port url, n) in (n, r)
  end.
End Client.

(** The client connected to a host: [up] and [down] cut each direction into
    the chunks the other side reads. *)
Definition host_transact {R : RtspTypes} {W} (up down : text -> list text) (s : RtspServer W) (wire : text)
  : RtspServer W * option (list text) :=
  let '(s, out) := handle_connection s (up wire) in
  (s, Some (match out with Some bytes => down bytes | None => [] end)).

(** ** The rewriting of targets *)

Definition clean (t : text) : Prop := contains STREAMID t = false /\ contains PLAY_SLASH t = false.

Lemma clean_fixed t : clean t -> fix_request t = t.
Proof. intros [H1 H2]. unfold fix_request. by rewrite (replace_none STREAMID), replace_none. Qed.

Lemma clean_take k t : clean t -> clean (take k t).
Proof. intros []. split; by apply contains_take. Qed.

Lemma clean_sep a c b :
  bool_decide (c ∈ STREAMID ++ PLAY_SLASH) = false -> clean a -> clean b -> clean (a ++ c :: b).
Proof.
  rewrite bool_decide_eq_false, elem_of_app. intros Hc [] []. split; apply contains_sep; tauto.
Qed.

(** A character that cannot start a needle. *)
Lemma clean_skip c t : Ascii.eqb c "s" || Ascii.eqb c "P" = false -> clean t -> clean (c :: t).
Proof.
  rewrite orb_false_iff, !Ascii.eqb_neq. intros [] []. split; apply contains_skip; done.
Qed.

Lemma clean_cons c t :
  starts_with STREAMID (c :: t) = false -> starts_with PLAY_SLASH (c :: t) = false -> clean t -> clean (c :: t).
Proof. intros H1 H2 []. split; rewrite contains_cons; [by rewrite H1|by rewrite H2]. Qed.

Lemma clean_free t : forallb (fun c => negb (Ascii.eqb c "s" || Ascii.eqb c "P")) t = true -> clean t.
Proof.
  intros H. induction t as [|c t IH]; [done|]. cbn [forallb] in H. apply andb_prop in H as [H1 H2].
  apply clean_skip; [by apply negb_true_iff|auto].
Qed.

Lemma digits_free z : forallb (fun c => negb (Ascii.eqb c "s" || Ascii.eqb c "P")) (to_string z) = true.
Proof.
  pose proof (to_string_digits z) as H. rewrite forallb_forall in *.
  intros c Hc. specialize (H c Hc). destruct c as [[] [] [] [] [] [] [] []]; done.
Qed.

Lemma clean_digits z : clean (to_string z).
Proof. apply clean_free, digits_free. Qed.

Lemma clean_line l rest : clean l -> clean rest -> clean (l ++ CRLF ++ rest).
Proof. intros. apply clean_sep; [done|done|]. by apply clean_skip. Qed.

Lemma clean_header n v rest : clean n -> clean v -> clean rest -> clean (header_line (n, v) ++ rest).
Proof.
  intros. unfold header_line. cbn [fst snd].
  replace ((n ++ str ": " ++ v ++ CRLF) ++ rest) with (n ++ ":"%char :: SP :: v ++ CRLF ++ rest)
    by by rewrite <- !(assoc_L (++)).
  apply clean_sep; [done|done|]. apply clean_skip; [done|]. by apply clean_line.
Qed.

Lemma clean_headers hs rest :
  Forall (fun h => clean h.1 /\ clean h.2) hs -> clean rest -> clean (concat (map header_line hs) ++ rest).
Proof.
  intros H Hr. induction H as [|[n v] hs [Hn Hv] _ IH]; [done|]. cbn [map concat]. rewrite <- (assoc_L (++)).
  by apply clean_header.
Qed.

(** What follows the target. *)
Definition after_target (hs : Headers) (body : text) : text :=
  SP :: VERSION_1_0 ++ CRLF ++ concat (map header_line hs) ++ CRLF ++ body.

Lemma request_text_split m target hs body :
  request_text m target hs body = request_head m target ++ after_target hs body.
Proof. unfold request_text, message_text, after_target. by rewrite <- (assoc_L (++)). Qed.

Lemma clean_after hs body :
  Forall (fun h => clean h.1 /\ clean h.2) hs -> clean body -> clean (VERSION_1_0 ++ CRLF ++ concat (map header_line hs) ++ CRLF ++ body).
Proof.
  intros. apply clean_line; [by split|]. apply clean_headers; [done|]. by apply (clean_line []).
Qed.

(** The start of a version. *)
Definition from_version (x : text) : Prop := match x with [] => True | c :: _ => c = "R"%char end.

(** [t] is a target the host reads as [u]. *)
Record target_fixed (m : Method) (t u : text) : Prop := {
  tf_whole x : clean x -> from_version x ->
    fix_request (request_head m t ++ SP :: x) = request_head m u ++ SP :: x;
  tf_part k : (k <= length (request_head m t))%nat ->
    exists j tok, plain tok /\ fix_request (take k (request_head m t)) = take j (request_head m tok)
}.

Lemma clean_target m t : clean (request_head m t) -> plain t -> target_fixed m t t.
Proof.
  intros Hc Ht. split.
  - intros x Hx Hv. apply clean_fixed. destruct Hc, Hx as [Hx1 Hx2]. split.
    + apply contains_sep; [|done|done]. by apply (bool_decide_eq_false_1 (SP ∈ STREAMID)).
    + pose proof (contains_snoc (str "PLAY ") "/"%char (request_head m t) SP) as Hs.
      destruct x as [|c x]; [by apply Hs|]. simpl in Hv. subst c.
      replace (request_head m t ++ SP :: "R"%char :: x) with ((request_head m t ++ [SP]) ++ "R"%char :: x)
        by by rewrite <- (assoc_L (++)).
      apply contains_sep; [by apply (bool_decide_eq_false_1 ("R"%char ∈ PLAY_SLASH))|by apply Hs|].
      rewrite contains_cons in Hx2. by apply orb_false_iff in Hx2 as [_ ?].
  - intros k _. exists k, t. split; [done|]. apply clean_fixed. by apply clean_take.
Qed.

(** Whether a text is the start of a request line of [m]. *)
Definition starts_line (m : Method) (s : text) : bool :=
  starts_with s (request_head m []) ||
  starts_with (request_head m []) s && forallb plain_char (drop (length (request_head m [])) s).

Lemma starts_line_spec m s : starts_line m s = true ->
  exists j tok, plain tok /\ s = take j (request_head m tok).
Proof.
  unfold starts_line. rewrite orb_true_iff, andb_true_iff, !starts_with_spec. intros [[t E]|[[t ->] H]].
  - exists (length s), []. split; [done|]. by rewrite E, take_app_length.
  - rewrite drop_app_length in H. exists (length (request_head m t)), t. split; [done|].
    rewrite firstn_all. unfold request_head. by rewrite <- (assoc_L (++)).
Qed.

Definition parts_fixed (m : Method) (t : text) : bool :=
  forallb (fun k => starts_line m (fix_request (take k (request_head m t)))) (seq 0 (S (length (request_head m t)))).

Lemma fixed_target m t u :
  parts_fixed m t = true ->
  (forall x, fix_request (request_head m t ++ SP :: x) = request_head m u ++ SP :: fix_request x) ->
  target_fixed m t u.
Proof.
  intros Hp Hw. split.
  - intros x Hx _. by rewrite Hw, clean_fixed.
  - intros k Hk. unfold parts_fixed in Hp. rewrite forallb_forall in Hp.
    apply starts_line_spec, Hp, in_seq. lia.
Qed.

Definition SETUP_URL (s : text) : text := str "rtsp://localhost?streamid=" ++ s.

Lemma setup_video_fixed : target_fixed Setup (str "streamid=video/0/0") (SETUP_URL (str "video/0/0")).
Proof. by apply fixed_target. Qed.
Lemma setup_audio_fixed : target_fixed Setup (str "streamid=audio/0/0") (SETUP_URL (str "audio/0/0")).
Proof. by apply fixed_target. Qed.
Lemma setup_control_fixed : target_fixed Setup CONTROL_STREAM_ID (SETUP_URL (str "control/13/0")).
Proof. by apply fixed_target. Qed.
Lemma announce_fixed : target_fixed Announce CONTROL_STREAM_ID (SETUP_URL (str "control/13/0")).
Proof. by apply fixed_target. Qed.
Lemma play_fixed : target_fixed Play PLAY_TARGET (str "rtsp://localhost/").
Proof. by apply fixed_target. Qed.

(** ** Reading in chunks *)

Definition chunked (cut : text -> list text) : Prop :=
  forall s, concat (cut s) = s /\ Forall (fun c => c <> []) (cut s).

Lemma chunk_cases (raw acc c : text) (reads : list text) :
  acc ++ concat (c :: reads) = raw ->
  acc ++ c = raw \/ (length (acc ++ c) < length raw)%nat /\ acc ++ c = take (length (acc ++ c)) raw.
Proof.
  cbn [concat]. intros <-. rewrite (assoc_L (++)). destruct (concat reads) as [|d l] eqn:E.
  - left. by rewrite app_nil_r.
  - right. split; [rewrite (length_app (acc ++ c)); simpl; lia|by rewrite take_app_length].
Qed.

Section Reading.
Context {R : RtspTypes} {L : RtspTypesLaws R}.

Lemma read_message_chunks raw msg reads acc :
  (forall k, (k < length raw)%nat -> message_parse (fix_request (take k raw)) = Incomplete) ->
  message_parse (fix_request raw) = Parsed msg ->
  acc ++ concat reads = raw -> acc <> raw -> Forall (fun c => c <> []) reads ->
  read_message acc reads = Some msg.
Proof.
  intros Hp Hm. revert acc. induction reads as [|c reads IH]; intros acc E Hne H.
  - cbn [concat] in E. by rewrite app_nil_r in E.
  - inversion_clear H as [|? ? Hc Hr]. cbn [read_message].
    destruct c as [|d c]; [done|]. apply chunk_cases in E as Hcase.
    destruct Hcase as [->|[Hlt Et]]; [by rewrite Hm|].
    rewrite Et, Hp by done. rewrite <- Et. apply IH; [|intros E'; rewrite E' in Hlt; lia|done].
    cbn [concat] in E. by rewrite <- (assoc_L (++)).
Qed.

Lemma read_response_chunks raw msg reads acc :
  (forall k, (k < length raw)%nat -> message_parse (take k raw) = Incomplete) ->
  message_parse raw = Parsed msg ->
  acc ++ concat reads = raw -> Forall (fun c => c <> []) reads ->
  read_response acc reads = Ok msg.
Proof.
  intros Hp Hm. revert acc. induction reads as [|c reads IH]; intros acc E H.
  - cbn [concat] in E. rewrite app_nil_r in E. subst acc. cbn [read_response]. by rewrite Hm.
  - inversion_clear H as [|? ? Hc Hr]. cbn [read_response].
    destruct (decide (length acc < length raw)%nat) as [Hlt|Hge].
    + assert (acc = take (length acc) raw) as Ea by by rewrite <- E, take_app_length.
      rewrite Ea at 1. rewrite Hp by done. destruct c as [|d c]; [done|].
      apply IH; [|done]. cbn [concat] in E. by rewrite <- (assoc_L (++)).
    + assert (acc = raw) as ->; [|by rewrite Hm].
      rewrite <- E, length_app in Hge. cbn [concat] in *. destruct c as [|d c]; [done|]. simpl in Hge. lia.
Qed.

Definition headers_clean (hs : Headers) : Prop := Forall (fun h => clean h.1 /\ clean h.2) hs.

(** A request reaches the host's handlers however it is cut. *)
Lemma request_received cut m t u url hs body :
  chunked cut -> known_method m -> target_fixed m t u -> plain u -> url_parse u = Some url ->
  headers_ok hs body -> headers_clean hs -> clean body ->
  read_message [] (cut (request_text m t hs body))
  = Some (MRequest {| rq_method := m; rq_version := V1_0; rq_uri := Some url; rq_headers := hs; rq_body := body |}).
Proof.
  intros Hcut Hm Hf Hu Hurl Hhs Hc Hb. destruct (Hcut (request_text m t hs body)) as [Ec Hne].
  pose proof (clean_after hs body Hc Hb) as Hx. set (x := VERSION_1_0 ++ _) in Hx.
  assert (forall v, request_text m v hs body = request_head m v ++ SP :: x) as Ex by (intros; apply request_text_split).
  apply (read_message_chunks (request_text m t hs body)); [| | done | |done].
  - intros k Hk. rewrite Ex in *. destruct (decide (k <= length (request_head m t))%nat) as [Hle|Hgt].
    + rewrite take_app_le by done. destruct (tf_part _ _ _ Hf k Hle) as (j & tok & Htok & ->).
      by apply target_partial.
    + rewrite take_app_ge by lia. destruct (k - length (request_head m t))%nat as [|i] eqn:Ei; [lia|].
      cbn [take]. rewrite length_app in Hk. cbn [length] in Hk.
      rewrite (tf_whole _ _ _ Hf); [|by apply clean_take|by destruct i].
      replace (request_head m u ++ SP :: take i x) with (take (length (request_head m u) + S i) (request_text m u hs body)).
      * eapply request_partial; [done..|]. rewrite Ex, length_app. cbn [length]. lia.
      * rewrite Ex, take_app_add. done.
  - rewrite Ex, (tf_whole _ _ _ Hf), <- Ex by done. by apply request_parse.
  - rewrite Ex. unfold request_head. by destruct (method_text m).
Qed.
End Reading.

(** ** Headers and bodies of the program's own messages *)

Lemma header_perm n hs hs' : NoDup (map fst hs) -> hs ≡ₚ hs' -> header n hs = header n hs'.
Proof.
  intros Hnd Hp. revert Hnd. induction Hp as [|h hs hs' _ IH|h1 h2 hs|hs1 hs2 hs3 Hp1 IH1 _ IH2]; intros Hnd.
  - done.
  - cbn [map] in Hnd. apply NoDup_cons in Hnd as [_ Hnd]. unfold header in *. cbn [List.find].
    case_bool_decide; [done|auto].
  - cbn [map] in Hnd. apply NoDup_cons in Hnd as [Hn _]. unfold header. cbn [List.find].
    do 2 case_bool_decide; try done. exfalso. apply Hn. subst n. rewrite <- H0. apply list_elem_of_here.
  - rewrite IH1 by done. apply IH2. by rewrite <- Hp1.
Qed.

Lemma plain_value v : plain v -> (CR ∉ v) /\ (LF ∉ v) /\ trim v = v.
Proof.
  intros H. split_and!; [by apply plain_not..|]. apply trim_id.
  unfold plain in H. rewrite forallb_forall in *. intros c Hc. specialize (H c Hc).
  unfold plain_char, is_whitespace in *. lia.
Qed.

Lemma plain_digits s : forallb is_ascii_digit s = true -> plain s.
Proof.
  unfold plain. rewrite !forallb_forall. intros H c Hc. specialize (H c Hc).
  unfold plain_char, is_ascii_digit in *. lia.
Qed.

Lemma plain_to_string z : plain (to_string z).
Proof. apply plain_digits, to_string_digits. Qed.

Lemma plain_i32 z : plain (i32_to_string z).
Proof.
  unfold i32_to_string. case_if; [|apply plain_to_string]. unfold plain. cbn [forallb].
  by rewrite plain_to_string.
Qed.

(** The header names the program uses. *)
Definition name_ok (n : text) : bool :=
  forallb plain_char n && bool_decide (":"%char ∉ n) && bool_decide (n <> []).

Lemma header_value n v : name_ok n = true -> (CR ∉ v) /\ (LF ∉ v) /\ trim v = v -> header_ok (n, v).
Proof. unfold name_ok. intros H (? & ? & ?). bool_prop. by constructor. Qed.

Lemma header_plain n v : name_ok n = true -> plain v -> header_ok (n, v).
Proof. intros. by apply header_value, plain_value. Qed.

Lemma header_literal n v :
  name_ok n && bool_decide (CR ∉ v) && bool_decide (LF ∉ v) && bool_decide (trim v = v) = true -> header_ok (n, v).
Proof. intros H. bool_prop. by apply header_value. Qed.

(** Some extra header of a request. *)
Definition extra_ok (extra : Headers) : Prop :=
  extra = [] \/ extra = [(ACCEPT, str "application/sdp")] \/ extra = [(CONTENT_TYPE, str "application/sdp")].

Definition KMC_SESSION : text := str "KmcSession".

Record host_ok (ip : text) : Prop := {
  hk_plain : plain ip;
  hk_not_empty : ip <> [];
  hk_length : (length ip <= 255)%nat;
  hk_clean : clean ip
}.

Record client_ok (c : RtspClient) : Prop := {
  ck_host : host_ok (host_ip c);
  ck_session : session_id c = None \/ session_id c = Some KMC_SESSION
}.

Lemma request_headers_each c extra : client_ok c -> extra_ok extra ->
  Forall (fun h => header_ok h /\ clean h.1 /\ clean h.2) (request_headers c extra).
Proof.
  intros [[Hp _ _ Hc] Hs] He. unfold request_headers.
  assert (forall n v, name_ok n = true -> clean n -> plain v -> clean v -> header_ok (n, v) /\ clean n /\ clean v) as H
    by (intros; split_and!; auto using header_plain).
  repeat first [apply Forall_app; split | apply Forall_cons; split].
  - apply H; [done|by split|apply plain_to_string|apply clean_digits].
  - apply H; done || by split.
  - apply H; done || by split.
  - constructor.
  - destruct Hs as [-> | ->]; [constructor|]. constructor; [apply H; done || by split|constructor].
  - destruct He as [->|[-> | ->]]; [constructor|..]; (constructor; [apply H; done || by split|constructor]).
Qed.

Lemma content_length_clean body : headers_clean (content_length body).
Proof.
  unfold content_length, headers_clean. case_bool_decide; constructor; [|constructor].
  split; [by split|apply clean_digits].
Qed.

Lemma request_headers_names c extra body : client_ok c -> extra_ok extra ->
  NoDup (map fst (request_headers c extra ++ content_length body)).
Proof.
  intros [_ Hs] He. unfold request_headers, content_length.
  destruct Hs as [-> | ->], He as [->|[-> | ->]]; case_bool_decide;
    cbn [map app fst]; apply (bool_decide_unpack _); vm_compute; done.
Qed.

Lemma request_headers_length c extra : client_ok c -> extra_ok extra ->
  header CONTENT_LENGTH (request_headers c extra) = None.
Proof.
  intros [_ Hs] He. unfold request_headers. by destruct Hs as [-> | ->], He as [->|[-> | ->]].
Qed.

Lemma request_headers_ok c extra body hs : client_ok c -> extra_ok extra ->
  Z.of_nat (length body) <= U32_MAX -> hs ≡ₚ request_headers c extra ++ content_length body ->
  headers_ok hs body /\ headers_clean hs.
Proof.
  intros Hc He Hb Hp. pose proof (request_headers_each c extra Hc He) as H.
  split; [split; [| done |]|].
  - rewrite Hp. apply Forall_app. split; [|apply content_length_ok]. by eapply Forall_impl; [exact H|]; intros ? [].
  - rewrite <- (header_perm _ _ _ (request_headers_names c extra body Hc He)) by by rewrite Hp.
    by rewrite header_app, request_headers_length.
  - unfold headers_clean. rewrite Hp. apply Forall_app. split; [|apply content_length_clean].
    by eapply Forall_impl; [exact H|]; intros ? [].
Qed.

Lemma find_crlf l r : LF ∉ l -> find CRLF (l ++ CRLF ++ r) = Some (length l).
Proof.
  induction l as [|c l IH]; intros H; [done|]. cbn [find app length].
  assert (starts_with CRLF (c :: l ++ CRLF ++ r) = false) as ->.
  { apply not_true_iff_false. rewrite starts_with_spec. intros [t E]. injection E as -> E.
    destruct l as [|d l]; [done|]. injection E as -> _. set_solver. }
  rewrite IH; [done|set_solver].
Qed.

(** The placeholder is replaced and nothing else. *)
Lemma rewrite_target m target hs body : known_method m ->
  rewrite_request_target (request_text m (str "*") hs body) target = Some (request_text m target hs body).
Proof.
  intros Hm. unfold request_text at 1, message_text.
  set (line := request_head m (str "*") ++ SP :: VERSION_1_0). set (rest := concat _ ++ _).
  assert (rewrite_request_target (line ++ CRLF ++ rest) target
          = Some ((method_text m ++ str " " ++ target ++ str " " ++ VERSION_1_0) ++ CRLF ++ rest)) as ->.
  { unfold rewrite_request_target. rewrite find_crlf by by apply request_line_lf.
    rewrite take_app_length, drop_app_length.
    unfold line, request_head. rewrite <- (assoc_L (++)). cbn [app].
    rewrite split_once_app by by apply plain_not; [|apply method_text_plain].
    by rewrite (split_once_app SP (str "*")) by by apply (bool_decide_eq_false_1 (SP ∈ str "*")). }
  f_equal. unfold request_text, message_text, request_head. by rewrite <- !(assoc_L (++)).
Qed.

(** ** One exchange with the host *)

Section Exchange.
Context {R : RtspTypes} {L : RtspTypesLaws R} {W : Type}.
Context (up down : text -> list text) (Hup : chunked up) (Hdown : chunked down).

Abbreviation net := (host_transact up down).

(** The request the host sees. *)
Definition seen (m : Method) (url : Url) (hs : Headers) (body : text) : RtspRequest Url :=
  {| rq_method := m; rq_version := V1_0; rq_uri := Some url; rq_headers := hs; rq_body := body |}.

Lemma exchange_host (c : RtspClient) (s : RtspServer W) m t u url extra body :
  client_ok c -> session_is_active (srv_session s) = true ->
  known_method m -> target_fixed m t u -> plain u -> url_parse u = Some url ->
  extra_ok extra -> clean body -> Z.of_nat (length body) <= U32_MAX ->
  (forall hs, response_ok (handle_request s (seen m url hs body)).2 /\
              rs_status (handle_request s (seen m url hs body)).2 = StatusOk) ->
  exists hs r hs', handle_request s (seen m url hs body) = r /\
    exchange net m t extra body (c, s)
    = ((next_cseq c, r.1), Ok {| rs_status := StatusOk; rs_version := rs_version r.2; rs_headers := hs'; rs_body := rs_body r.2 |}) /\
    hs' ≡ₚ rs_headers r.2 ++ content_length (rs_body r.2).
Proof.
  intros Hc Ha Hm Hf Hu Hurl He Hb Hl Hr.
  destruct (request_write_text m (request_headers c extra) body) as (hs & Hp & Hw).
  destruct (request_headers_ok c extra body hs Hc He Hl Hp) as [Hok Hcl].
  destruct (Hr hs) as [Hro Hst]. destruct (handle_request s (seen m url hs body)) as [s' r] eqn:Eh. simpl in Hro, Hst.
  destruct (response_parse r Hro) as (hs' & Hparse & Hp').
  exists hs, (s', r), hs'. split; [done|]. split; [|done].
  unfold exchange, encode, mbind, modify. cbn [fst snd]. rewrite Hw, rewrite_target by done. unfold mret.
  unfold round_trip, host_transact. cbn [fst snd]. unfold handle_connection. rewrite Ha. cbn [negb].
  rewrite (request_received up m t u url hs body) by done.
  unfold seen in Eh. rewrite Eh. destruct (Hdown (response_write r)) as [Ed Hned].
  erewrite (read_response_chunks (response_write r)); [| |exact Hparse|exact Ed|exact Hned].
  - cbn [rs_status]. rewrite Hst. done.
  - intros k Hk. by apply response_partial.
Qed.
End Exchange.

(** ** The SDP of the ANNOUNCE *)

Definition cfg_ok (cfg : StreamCfg) : Prop :=
  is_u32 (cfg_width cfg) /\ is_u32 (cfg_height cfg) /\ is_u32 (cfg_fps cfg) /\
  is_u32 (cfg_bitrate_kbps cfg) /\ is_u32 (cfg_packet_size cfg) /\ is_u32 (cfg_video_format cfg).

#[export] Instance cfg_ok_dec cfg : Decision (cfg_ok cfg).
Proof. unfold cfg_ok; apply _. Defined.

(** What the host is to stream. *)
Definition context_of_cfg (cfg : StreamCfg) : StreamContext :=
  {| ctx_width := cfg_width cfg; ctx_height := cfg_height cfg; ctx_fps := cfg_fps cfg;
     ctx_packet_size := cfg_packet_size cfg; ctx_bitrate_bps := saturating_mul32 (cfg_bitrate_kbps cfg) 1000;
     ctx_video_format := cfg_video_format cfg |}.

Definition sdp_attrs (cfg : StreamCfg) (enc_enabled : Z) : list (text * text) :=
  let adjusted := to_string (u32 (u64 (cfg_bitrate_kbps cfg * 80) / 100)) in
  [(str "x-nv-video[0].clientViewportWd", to_string (cfg_width cfg));
   (str "x-nv-video[0].clientViewportHt", to_string (cfg_height cfg));
   (str "x-nv-video[0].maxFPS", to_string (cfg_fps cfg));
   (str "x-nv-video[0].packetSize", to_string (cfg_packet_size cfg));
   (str "x-ml-video.configuredBitrateKbps", to_string (cfg_bitrate_kbps cfg));
   (str "x-nv-vqos[0].bitStreamFormat", to_string (cfg_video_format cfg));
   (str "x-nv-video[0].rateControlMode", str "4");
   (str "x-nv-video[0].timeoutLengthMs", str "7000");
   (str "x-nv-video[0].framesWithInvalidRefThreshold", str "0");
   (str "x-nv-video[0].initialBitrateKbps", adjusted);
   (str "x-nv-video[0].initialPeakBitrateKbps", adjusted);
   (str "x-nv-vqos[0].bw.minimumBitrateKbps", adjusted);
   (str "x-nv-vqos[0].bw.maximumBitrateKbps", adjusted);
   (str "x-nv-clientSupportHevc", to_string (if cfg_video_format cfg =? 1 then 1 else 0));
   (str "x-ss-general.encryptionEnabled", to_string enc_enabled)].

Lemma sdp_body_text is_ipv6 ip cfg port enc :
  sdp_body is_ipv6 ip cfg port enc
  = sdp_text (if is_ipv6 ip then str "IPv6" else str "IPv4") ip (sdp_attrs cfg enc) (to_string port).
Proof.
  unfold sdp_body, sdp_text, sdp_attrs, attribute_line. cbn [map concat fst snd].
  rewrite !app_nil_r, <- !(assoc_L (++)). done.
Qed.

Lemma sdp_attrs_ok cfg enc : Forall attribute_ok (sdp_attrs cfg enc).
Proof.
  assert (forall n v, name_ok n = true -> plain v -> attribute_ok (n, v)) as H.
  { intros n v Hn Hv. unfold name_ok in Hn. bool_prop. by constructor. }
  unfold sdp_attrs. repeat constructor; apply H; done || apply plain_to_string.
Qed.

Lemma sdp_attrs_clean cfg enc : Forall (fun a => clean a.1 /\ clean a.2) (sdp_attrs cfg enc).
Proof.
  unfold sdp_attrs. repeat (apply Forall_cons; split; [split; [by split|by apply clean_digits || by split]|]).
  constructor.
Qed.

Lemma clean_attributes attrs rest :
  Forall (fun a => clean a.1 /\ clean a.2) attrs -> clean rest -> clean (concat (map attribute_line attrs) ++ rest).
Proof.
  intros H Hr. induction H as [|[n v] attrs [Hn Hv] _ IH]; [done|]. cbn [map concat fst snd] in *.
  unfold attribute_line at 1. cbn [fst snd]. rewrite <- !(assoc_L (++)). cbn [app].
  do 2 (apply clean_skip; [done|]). apply clean_sep; [done|done|]. by apply clean_line.
Qed.

Lemma sdp_body_clean is_ipv6 ip cfg port enc : host_ok ip -> clean (sdp_body is_ipv6 ip cfg port enc).
Proof.
  intros [_ _ _ Hip]. rewrite sdp_body_text. unfold sdp_text.
  assert (clean (str "o=android 0 14 IN " ++ (if is_ipv6 ip then str "IPv6" else str "IPv4") ++ str " " ++ ip)) as Ho.
  { destruct (is_ipv6 ip); do 23 (apply clean_cons; [done|done|]); done. }
  apply (clean_line (str "v=0")); [by split|].
  match goal with |- clean (?a ++ ?b ++ ?c ++ ?d ++ ?e) =>
    change (clean (a ++ b ++ c ++ d ++ e)); rewrite (assoc_L (++) c), (assoc_L (++) b), (assoc_L (++) a) end.
  apply clean_line; [done|]. apply (clean_line (str "s=NVIDIA Streaming Client")); [by split|].
  apply clean_attributes; [apply sdp_attrs_clean|]. apply (clean_line (str "t=0 0")); [by split|].
  apply clean_free. rewrite !forallb_app, digits_free. done.
Qed.

Lemma sdp_body_length is_ipv6 ip cfg port enc : host_ok ip ->
  Z.of_nat (length (sdp_body is_ipv6 ip cfg port enc)) <= U32_MAX.
Proof.
  intros [_ _ Hl _]. unfold sdp_body. cbn [map concat].
  pose proof length_to_string as H. rewrite !length_app.
  repeat match goal with |- context [length (to_string ?z)] => generalize (length (to_string z)) (H z); intros ? ? end.
  destruct (is_ipv6 ip); cbn [length str]; unfold U32_MAX, CRLF; cbn [length]; lia.
Qed.

Section Sdp.
Context {R : RtspTypes} {L : RtspTypesLaws R}.

(** The host reads back what the client announced. *)
Lemma sdp_negotiated is_ipv6 ip cfg port enc :
  host_ok ip -> cfg_ok cfg -> is_u16 port ->
  exists sdp, sdp_parse (sdp_body is_ipv6 ip cfg port enc) = Some sdp /\ context_of_sdp sdp = context_of_cfg cfg.
Proof.
  intros [Hp Hne _ _] (H1 & H2 & H3 & H4 & H5 & H6) Hport. rewrite sdp_body_text.
  destruct (sdp_attributes (if is_ipv6 ip then str "IPv6" else str "IPv4") ip (sdp_attrs cfg enc) port)
    as (sdp & Hs & Ha); [by destruct (is_ipv6 ip); auto|done|done|apply sdp_attrs_ok|done|].
  exists sdp. split; [done|].
  assert (forall n z, header n (sdp_attrs cfg enc) = Some (to_string z) -> is_u32 z -> sdp_attr sdp n = Some z) as E.
  { intros n z Hn Hz. unfold sdp_attr. rewrite (Ha _ _ Hn), trim_to_string. by apply parse_to_string_u32. }
  unfold context_of_sdp, context_of_cfg.
  rewrite (E _ (cfg_width cfg)), (E _ (cfg_height cfg)), (E _ (cfg_fps cfg)), (E _ (cfg_packet_size cfg)),
    (E _ (cfg_bitrate_kbps cfg)), (E _ (cfg_video_format cfg)) by done. done.
Qed.
End Sdp.

(** ** The whole handshake *)

Definition ports_ok (p : StreamPorts) : Prop :=
  (0 < sp_video p <= U16_MAX) /\ (0 < sp_audio p <= U16_MAX) /\ (0 < sp_control p <= U16_MAX).

#[export] Instance ports_ok_dec p : Decision (ports_ok p).
Proof. unfold ports_ok; apply _. Defined.

Lemma server_port_parsed p : 0 < p <= U16_MAX -> parse_server_port (str "server_port=" ++ to_string p) = Some p.
Proof.
  intros Hp. unfold parse_server_port.
  assert (find_after (str "server_port=") (str "server_port=" ++ to_string p) = Some (to_string p)) as -> by done.
  rewrite take_while_all by apply to_string_digits. unfold U16_MAX in *.
  rewrite parse_to_string_u32 by (unfold is_u32; lia).
  rewrite (proj2 (andb_true_iff _ _)) by lia. by rewrite u16_id by (unfold is_u16; lia).
Qed.

Lemma query_plain v : forallb query_char v = true -> forallb plain_char v = true.
Proof.
  rewrite !forallb_forall. intros H c Hc. specialize (H c Hc). unfold query_char, plain_char in *. lia.
Qed.

Lemma next_cseq_ok c : client_ok c -> client_ok (next_cseq c).
Proof. by intros []. Qed.

Section Handshake.
Context {R : RtspTypes} {L : RtspTypesLaws R} {W : Type}.
Context (up down : text -> list text) (Hup : chunked up) (Hdown : chunked down).

Abbreviation net := (host_transact up down).

Record url_ok (u : text) : Prop := {
  uk_plain : plain u;
  uk_clean : clean u;
  uk_parse : is_Some (url_parse u)
}.

Lemma resp_ok cseq v st : st = StatusOk \/ st = StatusBadRequest -> response_ok (rtsp_resp cseq v st).
Proof.
  intros H. split; [done| |done|done]. constructor; [|constructor]. by apply header_plain, plain_i32.
Qed.

Lemma options_ok req cseq : response_ok (rtsp_options req cseq).
Proof.
  split; [by left| |done|done]. constructor; [by apply header_plain, plain_i32|].
  constructor; [by apply header_literal|constructor].
Qed.

Lemma describe_ok req cseq : response_ok (rtsp_describe req cseq).
Proof.
  split; [by left| |by vm_compute|done]. constructor; [by apply header_plain, plain_i32|constructor].
Qed.

Lemma setup_ok (s : RtspServer W) req cseq : response_ok (rtsp_setup s req cseq).
Proof.
  unfold rtsp_setup. destruct (port_of _ _) as [port|]; [|apply resp_ok; by right].
  split; [by left| |done|done]. constructor; [by apply header_plain, plain_i32|].
  constructor; [by apply header_literal|]. constructor; [|constructor].
  apply header_plain; [done|]. unfold plain. rewrite forallb_app. by rewrite plain_to_string.
Qed.

Lemma step_url (c : RtspClient) (s : RtspServer W) m u extra :
  client_ok c -> session_is_active (srv_session s) = true -> url_ok u -> extra_ok extra ->
  m = Options \/ m = Describe ->
  exists r, exchange net m u extra [] (c, s) = ((next_cseq c, s), Ok r) /\
    (m = Describe -> rs_body r = describe_sdp).
Proof.
  intros Hc Ha [Hp Hcl [url Hurl]] He Hm.
  assert (clean (request_head m u)) as Hh
    by (destruct Hm as [-> | ->]; [do 8 (apply clean_cons; [done|done|])|do 9 (apply clean_cons; [done|done|])]; done).
  destruct (exchange_host up down Hup Hdown c s m u u url extra []) as (hs & r & hs' & Er & E & _);
    [done|done|by destruct Hm as [-> | ->]|by apply clean_target|done|done|done|by split|done| |].
  - intros hs. destruct Hm as [-> | ->]; (split; [|done]); [apply options_ok|apply describe_ok].
  - eexists. split.
    + rewrite E, <- Er. by destruct Hm as [-> | ->].
    + by intros ->.
Qed.

Lemma step_setup (c : RtspClient) (s : RtspServer W) t v stream port fallback :
  t = str "streamid=" ++ v -> client_ok c -> session_is_active (srv_session s) = true ->
  target_fixed Setup (str "streamid=" ++ v) (SETUP_URL v) -> forallb query_char v = true ->
  before "/"%char v = stream -> port_of (srv_ports s) stream = Some port -> 0 < port <= U16_MAX ->
  exists c', client_setup net t fallback (c, s) = ((c', s), Ok port) /\ client_ok c' /\
    host_ip c' = host_ip c.
Proof.
  intros -> Hc Ha Hf Hv Hb Hport Hp. destruct (url_streamid v Hv) as (url & Hurl & Hq).
  assert (forall hs, handle_request s (seen Setup url hs []) = (s,
    {| rs_status := StatusOk; rs_version := V1_0;
       rs_headers := [(CSEQ, i32_to_string (default 0 (v <-? header CSEQ hs; parse_i32 v)));
                      (SESSION, str "KmcSession;timeout = 90"); (TRANSPORT, str "server_port=" ++ to_string port)];
       rs_body := [] |})) as Eh.
  { intros hs. unfold handle_request, rtsp_setup, seen, stream_of. cbn [rq_method rq_uri]. rewrite Hq. cbn [List.find fst].
    rewrite bool_decide_eq_true_2 by done. by rewrite Hb, Hport. }
  destruct (exchange_host up down Hup Hdown c s Setup (str "streamid=" ++ v) (SETUP_URL v) url [] [])
    as (hs & r & hs' & Er & E & Hp'); [done|done|done|done| |done|by left|by split|done| |].
  - unfold plain, SETUP_URL. rewrite forallb_app. apply andb_true_iff. split; [by vm_compute|by apply query_plain].
  - intros hs. split; [|by rewrite Eh]. unfold handle_request, seen. cbn [rq_method snd]. apply setup_ok.
  - rewrite Eh in Er. subst r. cbn [fst snd rs_headers rs_body rs_version] in *.
    assert (forall n, header n hs' = header n ([(CSEQ, i32_to_string (default 0 (v <-? header CSEQ hs; parse_i32 v)));
                      (SESSION, str "KmcSession;timeout = 90"); (TRANSPORT, str "server_port=" ++ to_string port)] ++ content_length [])) as Hh.
    { intros n. symmetry. apply header_perm; [|done]. cbn [map app fst content_length].
      apply (bool_decide_unpack _). vm_compute. done. }
    unfold client_setup, mbind. rewrite E. unfold modify. cbn [fst snd]. unfold mret.
    cbn [rs_headers]. rewrite !Hh.
    assert (header TRANSPORT ([(CSEQ, i32_to_string (default 0 (v <-? header CSEQ hs; parse_i32 v)));
                      (SESSION, str "KmcSession;timeout = 90"); (TRANSPORT, str "server_port=" ++ to_string port)] ++ content_length [])
            = Some (str "server_port=" ++ to_string port)) as -> by done.
    rewrite server_port_parsed by done. eexists. split; [done|].
    unfold note_session. cbn [session_id next_cseq]. rewrite Hh.
    destruct Hc as [Hk [Hs|Hs]]; rewrite Hs; (split; [split; [done|]|done]); [by right|by right].
Qed.

Lemma step_announce (c : RtspClient) (s : RtspServer W) is_ipv6 cfg port enc :
  client_ok c -> session_is_active (srv_session s) = true -> cfg_ok cfg -> is_u16 port ->
  exists r, exchange net Announce CONTROL_STREAM_ID [(CONTENT_TYPE, str "application/sdp")]
              (sdp_body is_ipv6 (host_ip c) cfg port enc) (c, s)
    = ((next_cseq c, set_context s (context_of_cfg cfg)), Ok r).
Proof.
  intros Hc Ha Hcfg Hport. destruct (url_streamid (str "control/13/0")) as (url & Hurl & _); [done|].
  destruct (sdp_negotiated is_ipv6 (host_ip c) cfg port enc (ck_host c Hc) Hcfg Hport) as (sdp & Hs & Hctx).
  set (body := sdp_body _ _ _ _ _) in *.
  assert (forall hs, handle_request s (seen Announce url hs body) =
    (set_context s (context_of_cfg cfg), rtsp_resp (default 0 (v <-? header CSEQ hs; parse_i32 v)) V1_0 StatusOk)) as Eh.
  { intros hs. unfold handle_request, rtsp_announce, seen. cbn [rq_method rq_body]. by rewrite Hs, Hctx. }
  destruct (exchange_host up down Hup Hdown c s Announce CONTROL_STREAM_ID (SETUP_URL (str "control/13/0")) url
              [(CONTENT_TYPE, str "application/sdp")] body) as (hs & r & hs' & Er & E & _);
    [done|done|done|apply announce_fixed|done|done|by right; right|by apply sdp_body_clean, Hc|by apply sdp_body_length, Hc| |].
  - intros hs. rewrite Eh. split; [|done]. apply resp_ok. by left.
  - rewrite Eh in Er. subst r. by eexists.
Qed.

(** What PLAY does with the announced context. *)
Definition played (s : RtspServer W) : RtspServer W :=
  match play_hook s with
  | Some hook => set_world s (hook (default stream_context_default (srv_context s)) (srv_world s))
  | None => s
  end.

Lemma step_play (c : RtspClient) (s : RtspServer W) :
  client_ok c -> session_is_active (srv_session s) = true ->
  exists r, exchange net Play PLAY_TARGET [] [] (c, s) = ((next_cseq c, played s), Ok r).
Proof.
  intros Hc Ha. destruct url_localhost as [url Hurl].
  assert (forall hs, handle_request s (seen Play url hs []) =
    (played s, rtsp_resp (default 0 (v <-? header CSEQ hs; parse_i32 v)) V1_0 StatusOk)) as Eh by done.
  destruct (exchange_host up down Hup Hdown c s Play PLAY_TARGET (str "rtsp://localhost/") url [] [])
    as (hs & r & hs' & Er & E & _); [done|done|done|apply play_fixed|done|done|by left|by split|done| |].
  - intros hs. rewrite Eh. split; [|done]. apply resp_ok. by left.
  - rewrite Eh in Er. subst r. by eexists.
Qed.

(** the handshake succeeds against a host with an open session, however
    both directions are cut into reads: the client learns exactly the host's
    ports, the host's stream context is the client's configuration (with the
    bit rate in bits, saturated), and the PLAY hook has run once, on that
    context. *)
Theorem handshake_negotiates (s : RtspServer W) is_ipv6 ip port session_url url cfg :
  session_is_active (srv_session s) = true -> ports_ok (srv_ports s) ->
  host_ok ip -> resolve_target_url ip port session_url = Ok url -> url_ok url -> cfg_ok cfg ->
  handshake net is_ipv6 ip port session_url cfg s
  = (played (set_context s (context_of_cfg cfg)),
     Ok {| video_port := sp_video (srv_ports s); audio_port := sp_audio (srv_ports s);
           control_port := sp_control (srv_ports s) |}).
Proof.
  intros Ha (Hpv & Hpa & Hpc) Hip Hres Hurl Hcfg. unfold handshake. rewrite Hres.
  assert (client_ok (rtsp_client_new ip port url)) as Hc by (split; [done|by left]).
  set (c := rtsp_client_new ip port url) in *. change ip with (host_ip c). unfold negotiate, mbind.
  destruct (step_url c s Options url [] Hc Ha Hurl) as (r1 & -> & _); [by left|by left|].
  destruct (step_url (next_cseq c) s Describe url [(ACCEPT, str "application/sdp")]) as (r2 & -> & Hd);
    [by apply next_cseq_ok|done|done|by right; left|by right|].
  destruct (step_setup (next_cseq (next_cseq c)) s (str "streamid=video/0/0") (str "video/0/0") (str "video") (sp_video (srv_ports s)) DEFAULT_VIDEO_PORT)
    as (c3 & E3 & Hc3 & Hh3); [done|by do 2 apply next_cseq_ok|done|apply setup_video_fixed|done..|]. rewrite E3.
  destruct (step_setup c3 s (str "streamid=audio/0/0") (str "audio/0/0") (str "audio") (sp_audio (srv_ports s)) DEFAULT_AUDIO_PORT)
    as (c4 & E4 & Hc4 & Hh4); [done|done|done|apply setup_audio_fixed|done..|]. rewrite E4.
  destruct (step_setup c4 s CONTROL_STREAM_ID (str "control/13/0") (str "control") (sp_control (srv_ports s)) DEFAULT_CONTROL_PORT)
    as (c5 & E5 & Hc5 & Hh5); [done|done|done|apply setup_control_fixed|done..|]. rewrite E5.
  assert (host_ip c = host_ip c5) as -> by by rewrite Hh5, Hh4, Hh3.
  destruct (step_announce c5 s is_ipv6 cfg (sp_video (srv_ports s))
    (Z.land (default 0 (scan_sdp_uint (rs_body r2) (str "x-ss-general.encryptionSupported"))) SS_ENC_CONTROL_V2))
    as (r6 & ->); [done|done|done|unfold is_u16, U16_MAX in *; lia|].
  destruct (step_play (next_cseq c5) (set_context s (context_of_cfg cfg))) as (r7 & ->); [by apply next_cseq_ok|done|].
  done.
Qed.
End Handshake.

(** One character at a time. *)
Definition singles (s : text) : list text := map (fun c => [c]) s.

Lemma singles_chunked : chunked singles.
Proof.
  intros s. unfold singles. induction s as [|c s [E H]]; [done|]. cbn [map concat]. rewrite E.
  split; [done|by constructor].
Qed.

Definition rtsp_example : RtspServer (list StreamContext) :=
  set_play_hook (rtsp_server_new stream_ports_default (Some (mkLaunchSession [] 0 1920 1080 60)) [])
    (fun ctx w => ctx :: w).
Definition cfg_example : StreamCfg := mkStreamCfg 1920 1080 60 20000 1392 1.

Lemma handshake_negotiates_witness :
  (handshake (host_transact singles singles) (fun _ => false) (str "10.0.0.5") 48010 (str "rtsp://10.0.0.5:48010")
     cfg_example rtsp_example).2 = Ok {| video_port := 47998; audio_port := 48000; control_port := 47999 |}.
Proof.
  rewrite (handshake_negotiates singles singles singles_chunked singles_chunked rtsp_example (fun _ => false)
    (str "10.0.0.5") 48010 (str "rtsp://10.0.0.5:48010") (str "rtsp://10.0.0.5:48010") cfg_example).
  - reflexivity.
  - reflexivity.
  - by apply (bool_decide_unpack _).
  - split; [reflexivity|discriminate|simpl; lia|split; reflexivity].
  - reflexivity.
  - split; [reflexivity|split; reflexivity|by eexists].
  - by apply (bool_decide_unpack _).
Defined.

(** without an open session a connection is closed unanswered and
    nothing changes, so a handshake ends at its first request, whatever
    follows. *)
Theorem handshake_needs_session {R : RtspTypes} {L : RtspTypesLaws R} {W} up down (s : RtspServer W) is_ipv6 ip port session_url url cfg :
  session_is_active (srv_session s) = false -> resolve_target_url ip port session_url = Ok url ->
  handshake (host_transact up down) is_ipv6 ip port session_url cfg s = (s, Err (ClosedEarly 0)).
Proof.
  intros Ha Hres. unfold handshake. rewrite Hres. unfold negotiate, exchange, encode, mbind, modify. cbn [fst snd].
  destruct (request_write_text Options (request_headers (rtsp_client_new ip port url) []) []) as (hs & _ & ->).
  rewrite rewrite_target by done. unfold mret, round_trip, host_transact, handle_connection. cbn [fst snd]. rewrite Ha.
  assert (message_parse [] = Incomplete) as Hp by exact (target_partial Options [] 0 I eq_refl).
  cbn [negb read_response]. by rewrite Hp.
Qed.

Lemma handshake_needs_session_witness :
  handshake (host_transact singles singles) (fun _ => false) (str "10.0.0.5") 48010 (str "") cfg_example
    (rtsp_server_new stream_ports_default session_new tt)
  = (rtsp_server_new stream_ports_default session_new tt, Err (ClosedEarly 0)).
Proof.
  by apply (handshake_needs_session singles singles _ _ _ _ _ (str "rtsp://10.0.0.5:48010")).
Defined.

(** whatever arrives on a connection, the host only ever records an
    announced context or runs the PLAY hook on the context it has, and only
    with an open session; its ports, session and hook never change. *)
Theorem connection_effects {R : RtspTypes} {W} (s : RtspServer W) reads :
  let s' := (handle_connection s reads).1 in
  s' = s \/
  session_is_active (srv_session s) = true /\
  ((exists sdp, s' = set_context s (context_of_sdp sdp)) \/ s' = played s).
Proof.
  cbn zeta. unfold handle_connection. destruct (session_is_active _) eqn:Ha; [|by left]. cbn [negb].
  destruct (read_message [] reads) as [[req| |]|]; try by left.
  unfold handle_request. destruct (rq_method req); try by left.
  - unfold rtsp_announce. destruct (sdp_parse _) as [sdp|]; [|by left]. right. split; [done|]. left. by exists sdp.
  - right. split; [done|]. by right.
Qed.
