(* ===== verification/Encoder.v ===== *)
(** * The encoders ([kmc-streamhost/src/gpu_encode.rs], [qsv.rs] and the
    colour conversion of [encoder.rs])

    FFmpeg and its QSV codecs are the class [VideoCodec]: opening a codec at a
    bit rate and giving it a picture.  The two encoders around it keep the
    ring of mapped pictures, the presentation time, the pending key frame and
    the policy by which a new target bit rate reopens the codec. *)
From S2P Require Import Prelude.

Record EncodedPacket := mkEncodedPacket { ep_data : list Z; ep_is_key_frame : bool }.

(** [open_codec] may fail; [encode_picture] takes the presentation time and
    whether the picture type is forced to I, and fails with [None]. *)
Class VideoCodec := {
  Codec : Type;
  Picture : Type;
  open_codec : Z -> option Codec;
  encode_picture : Codec -> Picture -> Z -> bool -> Codec * option (list EncodedPacket);
  (** a picture from the rows of the Y and the UV plane *)
  picture_of_planes : list (list Z) -> list (list Z) -> Picture
}.

(** ** When a new target reopens the codec

    All arithmetic is [u32]; [elapsed_ms] is the age of the codec. *)
Definition reconfigures (cur bitrate_bps elapsed_ms : Z) : bool :=
  let going_down := bitrate_bps <? cur in
  let urgent_down := going_down && (bitrate_bps <=? 1200000) in
  let threshold_pct := if going_down then 15 else 40 in
  let changed_enough := u32 (cur * threshold_pct) <=? u32 (Z.abs (bitrate_bps - cur) * 100) in
  if negb changed_enough && negb urgent_down then false
  else
    let min_interval := if going_down then 2000 else 8000 in
    if negb urgent_down && (elapsed_ms <? min_interval) then false else true.

(** ** The zero-copy encoder *)

Definition RING_SIZE : nat := 6.

Record ZeroCopyEncoder {C : VideoCodec} := mkZeroCopyEncoder {
  zc_enc : Codec;
  zc_ring : list Picture;
  ring_pos : nat;
  staged : nat;
  zc_pts : Z;
  zc_bitrate : Z;
  zc_last_reconfig : Z
}.
Arguments ZeroCopyEncoder C : clear implicits.

(** ** The encoder fed from memory *)

Record QsvEncoder {C : VideoCodec} := mkQsvEncoder {
  qs_encoder : Codec;
  qs_width : nat;
  qs_height : nat;
  qs_bitrate : Z;
  qs_pts : Z;
  force_idr : bool;
  qs_last_reconfig : Z
}.
Arguments QsvEncoder C : clear implicits.

Section Encoders.
Context {C : VideoCodec}.

(** [blank] is the content of a freshly mapped ring picture. *)
Definition zero_copy_new (blank : Picture) (bitrate_bps now : Z) : option (ZeroCopyEncoder C) :=
  enc <-? open_codec bitrate_bps;
  Some {| zc_enc := enc; zc_ring := replicate RING_SIZE blank; ring_pos := 0; staged := 0; zc_pts := 0;
          zc_bitrate := bitrate_bps; zc_last_reconfig := now |}.

(** Copy a texture into the next ring slot. *)
Definition stage (e : ZeroCopyEncoder C) (tex : Picture) : ZeroCopyEncoder C :=
  let idx := ring_pos e in
  {| zc_enc := zc_enc e; zc_ring := <[idx := tex]> (zc_ring e);
     ring_pos := (ring_pos e + 1) mod length (zc_ring e); staged := idx; zc_pts := zc_pts e;
     zc_bitrate := zc_bitrate e; zc_last_reconfig := zc_last_reconfig e |}.

(** Encode the staged picture; the second component is [None] for an error
    of the codec, the whole is [None] for a slot that does not exist. *)
Definition submit (e : ZeroCopyEncoder C) (force : bool) : option (ZeroCopyEncoder C * option (list EncodedPacket)) :=
  qf <-? zc_ring e !! staged e;
  let '(enc, out) := encode_picture (zc_enc e) qf (zc_pts e) force in
  Some ({| zc_enc := enc; zc_ring := zc_ring e; ring_pos := ring_pos e; staged := staged e;
           zc_pts := zc_pts e + 1; zc_bitrate := zc_bitrate e; zc_last_reconfig := zc_last_reconfig e |}, out).

Definition zero_copy_encode (e : ZeroCopyEncoder C) (tex : Picture) (force : bool) := submit (stage e tex) force.

(** The flag is [false] when the codec cannot be reopened. *)
Definition zero_copy_set_bitrate (e : ZeroCopyEncoder C) (now bitrate_bps : Z) : ZeroCopyEncoder C * bool :=
  if reconfigures (zc_bitrate e) bitrate_bps (saturating_sub now (zc_last_reconfig e) / 1000000) then
    match open_codec bitrate_bps with
    | None => (e, false)
    | Some enc =>
        ({| zc_enc := enc; zc_ring := zc_ring e; ring_pos := ring_pos e; staged := staged e; zc_pts := zc_pts e;
            zc_bitrate := bitrate_bps; zc_last_reconfig := now |}, true)
    end
  else (e, true).

Definition qsv_new (width height : nat) (bitrate_bps now : Z) : option (QsvEncoder C) :=
  enc <-? open_codec bitrate_bps;
  Some {| qs_encoder := enc; qs_width := width; qs_height := height; qs_bitrate := bitrate_bps; qs_pts := 0;
          force_idr := false; qs_last_reconfig := now |}.

Definition qsv_set_bitrate (e : QsvEncoder C) (now bitrate_bps : Z) : QsvEncoder C * bool :=
  if reconfigures (qs_bitrate e) bitrate_bps (saturating_sub now (qs_last_reconfig e) / 1000000) then
    match open_codec bitrate_bps with
    | None => (e, false)
    | Some enc =>
        ({| qs_encoder := enc; qs_width := qs_width e; qs_height := qs_height e; qs_bitrate := bitrate_bps;
            qs_pts := 0; force_idr := true; qs_last_reconfig := now |}, true)
    end
  else (e, true).

Definition request_idr (e : QsvEncoder C) : QsvEncoder C :=
  {| qs_encoder := qs_encoder e; qs_width := qs_width e; qs_height := qs_height e; qs_bitrate := qs_bitrate e;
     qs_pts := qs_pts e; force_idr := true; qs_last_reconfig := qs_last_reconfig e |}.

(** [n] rows of [w] bytes from [off]; [None] for a slice out of range. *)
Definition plane_rows (nv12 : list Z) (off w n : nat) : option (list (list Z)) :=
  mapM (fun y => if (off + y * w + w <=? length nv12)%nat
                 then Some (slice (off + y * w) (off + y * w + w) nv12) else None) (seq 0 n).

(** [None] for a panic; the inner [None] for an error. *)
Definition qsv_encode (e : QsvEncoder C) (nv12 : list Z) : option (QsvEncoder C * option (list EncodedPacket)) :=
  let w := qs_width e in
  let h := qs_height e in
  if (length nv12 <? w * h * 3 / 2)%nat then Some (e, None)
  else
    y <-? plane_rows nv12 0 w h;
    uv <-? plane_rows nv12 (w * h) w (h / 2);
    let '(enc, out) := encode_picture (qs_encoder e) (picture_of_planes y uv) (qs_pts e) (force_idr e) in
    Some ({| qs_encoder := enc; qs_width := w; qs_height := h; qs_bitrate := qs_bitrate e; qs_pts := qs_pts e + 1;
             force_idr := false; qs_last_reconfig := qs_last_reconfig e |}, out).
End Encoders.

(** ** BGRA to NV12 ([bgra_scale_to_nv12])

    [None] is an index out of range. *)

Definition bgra_at (bgra : list Z) (idx : nat) : option (Z * Z * Z) :=
  b <-? bgra !! idx; g <-? bgra !! (idx + 1)%nat; r <-? bgra !! (idx + 2)%nat; Some (b, g, r).

Definition luma (p : Z * Z * Z) : Z :=
  let '(b, g, r) := p in u8 (Z.shiftr (66 * r + 129 * g + 25 * b + 128) 8 + 16).

Definition clamp_u8 (z : Z) : Z := Z.min 255 (Z.max 0 z).

Definition chroma (p : Z * Z * Z) : list Z :=
  let '(b, g, r) := p in
  [clamp_u8 (Z.shiftr (-38 * r - 74 * g + 112 * b + 128) 8 + 128);
   clamp_u8 (Z.shiftr (112 * r - 94 * g - 18 * b + 128) 8 + 128)].

(** The source pixel of target pixel [x], [y]. *)
Definition source_index (src_w src_h tw th x y : nat) : nat :=
  ((y * src_h / th) * src_w * 4 + (x * src_w / tw) * 4)%nat.

Definition y_row (bgra : list Z) (src_w src_h tw th y : nat) : option (list Z) :=
  mapM (fun x => luma <$> bgra_at bgra (source_index src_w src_h tw th x y)) (seq 0 tw).

(** A chunk of the UV plane, [len] bytes long. *)
Definition uv_chunk (bgra : list Z) (src_w src_h tw th len uv_row : nat) : option (list Z) :=
  if (len <? 2 * (tw / 2))%nat then None
  else
    ps <-? mapM (fun c => chroma <$> bgra_at bgra (source_index src_w src_h tw th (2 * c) (uv_row * 2))) (seq 0 (tw / 2));
    Some (concat ps ++ replicate (len - 2 * (tw / 2)) 0).

Definition bgra_scale_to_nv12 (bgra : list Z) (src_w src_h tw th : nat) : option (list Z) :=
  let y_size := (tw * th)%nat in
  let uv_size := (y_size / 2)%nat in
  if (tw =? 0)%nat then None
  else
    ys <-? mapM (y_row bgra src_w src_h tw th) (seq 0 th);
    uvs <-? mapM (fun k => uv_chunk bgra src_w src_h tw th (Nat.min tw (uv_size - k * tw)) k)
                 (seq 0 ((uv_size + tw - 1) / tw));
    Some (concat ys ++ concat uvs).

(** ** The policy *)

(** Down quickly, at once when the target is very low; up slowly. *)
Definition policy (cur target elapsed_ms : Z) : Prop :=
  target < cur /\ target <= 1200000 \/
  target < cur /\ (cur - target) * 100 >= cur * 15 /\ elapsed_ms >= 2000 \/
  cur <= target /\ (target - cur) * 100 >= cur * 40 /\ elapsed_ms >= 8000.

(** C38: below 42.9 Mbit/s the codec is reopened exactly as the policy says:
    for a drop of 15% after 2 s, at once for a drop to 1.2 Mbit/s or less, and
    for a rise of 40% after 8 s. *)
Theorem reconfigures_spec cur target elapsed_ms :
  0 <= cur <= 42949672 -> 0 <= target <= 42949672 ->
  reconfigures cur target elapsed_ms = true <-> policy cur target elapsed_ms.
Proof.
  intros Hc Ht. unfold reconfigures, policy.
  rewrite (u32_id (Z.abs (target - cur) * 100)) by (unfold is_u32; lia).
  rewrite u32_id by (unfold is_u32; destruct (target <? cur); lia).
  destruct (target <? cur) eqn:E1; destruct (target <=? 1200000) eqn:E2; cbn [andb negb]; bool_prop;
    repeat (case_if; bool_prop; try (split; [done|lia]); try (split; [lia|done])).
Qed.

Lemma reconfigures_spec_witness :
  reconfigures 20000000 3000000 2500 = true /\ policy 20000000 3000000 2500.
Proof. split; [reflexivity|]. apply (reconfigures_spec 20000000 3000000 2500); [lia|lia|reflexivity]. Defined.

(** above that the products wrap: a codec opened at 49.152 Mbit/s (2560 by
    1600 at 120 Hz) is not brought down to the controller's starting rate of
    3 Mbit/s, however long it has run, although the policy says it should. *)
Theorem reconfigures_overflow elapsed_ms : 2000 <= elapsed_ms ->
  policy 49152000 3000000 elapsed_ms /\ reconfigures 49152000 3000000 elapsed_ms = false.
Proof. intros H. split; [right; left; lia|reflexivity]. Qed.

Lemma reconfigures_overflow_witness :
  policy 49152000 3000000 2000 /\ reconfigures 49152000 3000000 2000 = false.
Proof. apply reconfigures_overflow. lia. Defined.

(** ** Generic lemmas *)

Lemma mapM_all {A B} (f : A -> option B) (g : A -> B) l :
  (forall x, x ∈ l -> f x = Some (g x)) -> mapM f l = Some (map g l).
Proof.
  intros H. apply mapM_Some_2. induction l as [|x l IH]; cbn [map]; constructor.
  - apply H, list_elem_of_here.
  - apply IH. intros y Hy. apply H. by right.
Qed.

Lemma slice_join {A} a b c (l : list A) :
  (a <= b)%nat -> (b <= c)%nat -> slice a b l ++ slice b c l = slice a c l.
Proof.
  intros. unfold slice. replace (drop b l) with (drop (b - a) (drop a l)) by (rewrite drop_drop; f_equal; lia).
  rewrite take_take_drop. f_equal. lia.
Qed.

Lemma length_concat_const {A} n (ls : list (list A)) :
  Forall (fun l => length l = n) ls -> length (concat ls) = (length ls * n)%nat.
Proof. induction 1 as [|l ls Hl _ IH]; [done|]. cbn [concat length]. rewrite length_app. lia. Qed.

(** Rows of one length with entries in a range. *)
Lemma mapM_rows {A} (f : A -> option (list Z)) n lo hi l :
  (forall x, x ∈ l -> exists row, f x = Some row /\ length row = n /\ Forall (fun z => lo <= z <= hi) row) ->
  exists rows, mapM f l = Some rows /\ length (concat rows) = (length l * n)%nat /\
    Forall (fun z => lo <= z <= hi) (concat rows).
Proof.
  intros H. exists (map (fun x => default [] (f x)) l). split_and!.
  - apply mapM_all. intros x Hx. by destruct (H x Hx) as (row & -> & _).
  - rewrite (length_concat_const n), length_map; [done|]. apply Forall_map, Forall_forall.
    intros x Hx. by destruct (H x Hx) as (row & -> & ? & _).
  - apply Forall_concat, Forall_map, Forall_forall. intros x Hx. by destruct (H x Hx) as (row & -> & _ & ?).
Qed.

(** ** The encoders *)

Record ring_ok {C : VideoCodec} (e : ZeroCopyEncoder C) : Prop := {
  rg_length : length (zc_ring e) = RING_SIZE;
  rg_pos : (ring_pos e < RING_SIZE)%nat
}.

Section EncoderProofs.
Context {C : VideoCodec}.

Lemma zero_copy_new_ok blank b now e : zero_copy_new blank b now = Some e -> ring_ok e.
Proof. unfold zero_copy_new. destruct (open_codec b); [|done]. intros [= <-]. split; [done|]. unfold RING_SIZE. simpl. lia. Qed.

Lemma stage_ok (e : ZeroCopyEncoder C) tex : ring_ok e ->
  ring_ok (stage e tex) /\ zc_ring (stage e tex) !! staged (stage e tex) = Some tex.
Proof.
  intros [Hl Hp]. unfold stage. split; [split|]; cbn [zc_ring ring_pos staged].
  - by rewrite length_insert.
  - rewrite Hl. apply Nat.mod_upper_bound. done.
  - apply list_lookup_insert_eq. lia.
Qed.

(** What is encoded is what was staged, however the ring is positioned. *)
Lemma zero_copy_encode_spec (e : ZeroCopyEncoder C) tex force : ring_ok e ->
  exists e', zero_copy_encode e tex force = Some (e', (encode_picture (zc_enc e) tex (zc_pts e) force).2) /\
    ring_ok e' /\ zc_enc e' = (encode_picture (zc_enc e) tex (zc_pts e) force).1 /\ zc_pts e' = zc_pts e + 1 /\
    zc_bitrate e' = zc_bitrate e.
Proof.
  intros H. destruct (stage_ok e tex H) as [[Hl Hp] Hs]. unfold zero_copy_encode, submit. rewrite Hs.
  change (zc_enc (stage e tex)) with (zc_enc e). change (zc_pts (stage e tex)) with (zc_pts e).
  destruct (encode_picture _ _ _ _) as [enc out]. eexists. split; [done|]. split; [by split|]. done.
Qed.

Lemma plane_rows_total nv12 off w n :
  (off + n * w <= length nv12)%nat ->
  exists rows, plane_rows nv12 off w n = Some rows /\ length rows = n /\
    concat rows = slice off (off + n * w) nv12.
Proof.
  intros H. exists (map (fun y => slice (off + y * w) (off + y * w + w) nv12) (seq 0 n)). split_and!.
  - apply mapM_all. intros y Hy%elem_of_seq. rewrite (proj2 (Nat.leb_le _ _)); [done|nia].
  - by rewrite length_map, length_seq.
  - induction n as [|n IH].
    + cbn [seq map concat]. unfold slice. by replace (off + 0 * w - off)%nat with 0%nat by lia.
    + rewrite seq_S, map_app, concat_app, IH by lia. cbn [map concat]. rewrite app_nil_r, Nat.add_0_l.
      rewrite slice_join by lia. f_equal. lia.
Qed.

Lemma qsv_encode_total (e : QsvEncoder C) nv12 :
  let area := (qs_width e * qs_height e)%nat in
  (area * 3 / 2 <= length nv12)%nat ->
  exists y uv enc,
    concat y = take area nv12 /\ concat uv = slice area (area + qs_height e / 2 * qs_width e) nv12 /\
    qsv_encode e nv12 = Some (enc, (encode_picture (qs_encoder e) (picture_of_planes y uv) (qs_pts e) (force_idr e)).2).
Proof.
  cbn zeta. intros Hlen. unfold qsv_encode. rewrite (proj2 (Nat.ltb_ge _ _) Hlen).
  assert (qs_width e * qs_height e + qs_height e / 2 * qs_width e <= length nv12)%nat as Hl.
  { pose proof (Nat.Div0.mul_div_le (qs_height e) 2).
    enough (qs_width e * qs_height e + qs_height e / 2 * qs_width e <= qs_width e * qs_height e * 3 / 2)%nat by lia.
    apply Nat.div_le_lower_bound; [done|]. nia. }
  destruct (plane_rows_total nv12 0 (qs_width e) (qs_height e)) as (y & -> & _ & Hy); [lia|].
  destruct (plane_rows_total nv12 (qs_width e * qs_height e) (qs_width e) (qs_height e / 2)) as (uv & -> & _ & Huv); [lia|].
  exists y, uv. destruct (encode_picture _ _ _ _) as [enc out] eqn:Ec. eexists. split_and!.
  - rewrite Hy. unfold slice. rewrite drop_0. f_equal. lia.
  - by rewrite Huv.
  - reflexivity.
Qed.

(** encoding from memory never reads out of the frame: a buffer that is
    too short is an error, any other gives the codec its Y and UV planes. *)
Theorem qsv_encode_planes (e : QsvEncoder C) nv12 :
  let size := (qs_width e * qs_height e * 3 / 2)%nat in
  let area := (qs_width e * qs_height e)%nat in
  if (length nv12 <? size)%nat then qsv_encode e nv12 = Some (e, None)
  else exists y uv,
    concat y = take area nv12 /\ concat uv = slice area (area + qs_height e / 2 * qs_width e) nv12 /\
    option_map snd (qsv_encode e nv12)
    = Some (encode_picture (qs_encoder e) (picture_of_planes y uv) (qs_pts e) (force_idr e)).2.
Proof.
  cbn zeta. destruct (_ <? _)%nat eqn:E; [unfold qsv_encode; by rewrite E|]. bool_prop.
  destruct (qsv_encode_total e nv12 E) as (y & uv & enc & ? & ? & ->). exists y, uv. by split_and!.
Qed.
End EncoderProofs.

(** ** The colour conversion *)

Lemma luma_range b g r : byte_ok b -> byte_ok g -> byte_ok r -> 16 <= luma (b, g, r) <= 235.
Proof.
  unfold byte_ok, luma. intros. rewrite Z.shiftr_div_pow2 by lia.
  rewrite u8_id; unfold is_u8; div_lia.
Qed.

(** The clamps never act. *)
Lemma chroma_range b g r : byte_ok b -> byte_ok g -> byte_ok r ->
  Forall (fun z => 16 <= z <= 240) (chroma (b, g, r)).
Proof.
  unfold byte_ok, chroma, clamp_u8. intros. rewrite !Z.shiftr_div_pow2 by lia.
  repeat constructor; div_lia.
Qed.

Lemma source_index_lt src_w src_h tw th x y :
  (0 < src_w)%nat -> (0 < src_h)%nat -> (x < tw)%nat -> (y < th)%nat ->
  (source_index src_w src_h tw th x y + 3 < src_w * src_h * 4)%nat.
Proof.
  intros. unfold source_index.
  assert (y * src_h / th < src_h)%nat by (apply Nat.Div0.div_lt_upper_bound; nia).
  assert (x * src_w / tw < src_w)%nat by (apply Nat.Div0.div_lt_upper_bound; nia). nia.
Qed.

Section Nv12.
Context (bgra : list Z) (src_w src_h tw th : nat).
Context (Hbytes : bytes_ok bgra) (Hw : (0 < src_w)%nat) (Hh : (0 < src_h)%nat).
Context (Hlen : (src_w * src_h * 4 <= length bgra)%nat).

Definition pixel (idx : nat) : Z * Z * Z := default (0, 0, 0) (bgra_at bgra idx).

Lemma bgra_at_total x y : (x < tw)%nat -> (y < th)%nat ->
  exists b g r, bgra_at bgra (source_index src_w src_h tw th x y) = Some (b, g, r) /\
    byte_ok b /\ byte_ok g /\ byte_ok r.
Proof.
  intros Hx Hy. pose proof (source_index_lt src_w src_h tw th x y Hw Hh Hx Hy) as H.
  unfold bgra_at. rewrite Forall_lookup in Hbytes.
  destruct (lookup_lt_is_Some_2 bgra (source_index src_w src_h tw th x y)) as [b Eb]; [lia|].
  destruct (lookup_lt_is_Some_2 bgra (source_index src_w src_h tw th x y + 1)) as [g Eg]; [lia|].
  destruct (lookup_lt_is_Some_2 bgra (source_index src_w src_h tw th x y + 2)) as [r Er]; [lia|].
  exists b, g, r. rewrite Eb, Eg, Er. eauto 10.
Qed.

Lemma y_row_total y : (y < th)%nat ->
  exists row, y_row bgra src_w src_h tw th y = Some row /\ length row = tw /\ Forall (fun z => 16 <= z <= 235) row.
Proof.
  intros Hy. unfold y_row.
  exists (map (fun x => luma (pixel (source_index src_w src_h tw th x y))) (seq 0 tw)). split_and!.
  - apply mapM_all. intros x Hx%elem_of_seq. unfold pixel.
    by destruct (bgra_at_total x y) as (b & g & r & -> & _); [lia|lia|].
  - by rewrite length_map, length_seq.
  - apply Forall_map, Forall_forall. intros x Hx%elem_of_seq. unfold pixel.
    destruct (bgra_at_total x y) as (b & g & r & -> & ? & ? & ?); [lia|lia|]. by apply luma_range.
Qed.

Lemma uv_chunk_total k : Nat.even tw = true -> (2 * k < th)%nat ->
  exists row, uv_chunk bgra src_w src_h tw th tw k = Some row /\ length row = tw /\ Forall (fun z => 16 <= z <= 240) row.
Proof.
  intros He Hk. unfold uv_chunk. apply Nat.even_spec in He as [m Hm].
  replace (tw / 2)%nat with m by (rewrite Hm, Nat.mul_comm; by rewrite Nat.div_mul).
  replace (2 * m)%nat with tw by done. rewrite Nat.ltb_irrefl.
  rewrite (mapM_all _ (fun c => chroma (pixel (source_index src_w src_h tw th (2 * c) (k * 2))))).
  - eexists. split; [done|]. rewrite Nat.sub_diag. cbn [replicate]. rewrite app_nil_r. split.
    + rewrite (length_concat_const 2); [rewrite length_map, length_seq; lia|].
      apply Forall_map, Forall_forall. intros c _. unfold chroma. by destruct (pixel _) as [[??]?].
    + apply Forall_concat, Forall_map, Forall_forall. intros c Hc%elem_of_seq. unfold pixel.
      destruct (bgra_at_total (2 * c) (k * 2)) as (b & g & r & -> & ? & ? & ?); [lia|lia|]. by apply chroma_range.
  - intros c Hc%elem_of_seq. unfold pixel.
    by destruct (bgra_at_total (2 * c) (k * 2)) as (b & g & r & -> & _); [lia|lia|].
Qed.
End Nv12.

(** C39: for even target dimensions and a source of the stated size the
    conversion does not panic; it fills exactly the Y and the interleaved UV
    plane, with luma in 16 to 235 and chroma in 16 to 240. *)
Theorem bgra_scale_to_nv12_total bgra src_w src_h tw th :
  bytes_ok bgra -> (0 < src_w)%nat -> (0 < src_h)%nat -> (src_w * src_h * 4 <= length bgra)%nat ->
  (0 < tw)%nat -> Nat.even tw = true -> Nat.even th = true ->
  exists ys uvs, bgra_scale_to_nv12 bgra src_w src_h tw th = Some (ys ++ uvs) /\
    length ys = (tw * th)%nat /\ length uvs = (tw * th / 2)%nat /\
    Forall (fun z => 16 <= z <= 235) ys /\ Forall (fun z => 16 <= z <= 240) uvs.
Proof.
  intros Hb Hw Hh Hl Htw Hew Heh. unfold bgra_scale_to_nv12.
  rewrite (proj2 (Nat.eqb_neq tw 0)) by lia. apply Nat.even_spec in Heh as [m ->].
  assert (tw * (2 * m) / 2 = m * tw)%nat as ->.
  { replace (tw * (2 * m))%nat with (m * tw * 2)%nat by lia. by rewrite Nat.div_mul. }
  assert ((m * tw + tw - 1) / tw = m)%nat as ->.
  { symmetry. apply (Nat.div_unique _ _ _ (tw - 1)); lia. }
  destruct (mapM_rows (y_row bgra src_w src_h tw (2 * m)) tw 16 235 (seq 0 (2 * m))) as (ys & -> & Ely & Hys).
  { intros y Hy%elem_of_seq. apply y_row_total; done || lia. }
  destruct (mapM_rows (fun k => uv_chunk bgra src_w src_h tw (2 * m) (Nat.min tw (m * tw - k * tw)) k) tw 16 240 (seq 0 m))
    as (uvs & -> & Elu & Huvs).
  { intros k Hk%elem_of_seq. replace (Nat.min tw (m * tw - k * tw)) with tw by nia. apply uv_chunk_total; done || lia. }
  rewrite length_seq in Ely, Elu. exists (concat ys), (concat uvs). split_and!; [done|lia|lia|done|done].
Qed.

Lemma bgra_scale_to_nv12_total_witness :
  exists ys uvs, bgra_scale_to_nv12 (replicate 24 200) 3 2 2 2 = Some (ys ++ uvs) /\
    length ys = 4%nat /\ length uvs = 2%nat /\
    Forall (fun z => 16 <= z <= 235) ys /\ Forall (fun z => 16 <= z <= 240) uvs.
Proof.
  apply (bgra_scale_to_nv12_total (replicate 24 200) 3 2 2 2); try (simpl; lia); try reflexivity.
  repeat constructor; unfold byte_ok; lia.
Defined.

(** A codec that copies: each picture becomes one packet. *)
#[export] Instance PlainCodec : VideoCodec := {|
  Codec := Z;
  Picture := list (list Z);
  open_codec b := if 0 <? b then Some b else None;
  encode_picture e p _ force := (e, Some [mkEncodedPacket (concat p) force]);
  picture_of_planes y uv := y ++ uv
|}.
