(* ===== verification/Ffmpeg.v ===== *)
(** * Who owns the FFmpeg objects ([kmc-streamhost/src/gpu_encode.rs])

    The zero-copy encoder allocates device and frame contexts, a codec, a
    packet and the mapped frames of its ring through the C interface of
    FFmpeg, and frees them by hand.  Each function is translated as the
    sequence of its allocating, transferring and freeing calls over a ledger
    of the references the program has to release; how a call ends is the next
    answer of an oracle.  Freeing what is not owned is undefined behaviour and
    has no result. *)
From S2P Require Import Prelude.

(** ** The ledger *)

Inductive FKind := KBuffer | KCodec | KFrame | KPacket | KDict | KCom | KHandle.

#[export] Instance fkind_eq_dec : EqDecision FKind.
Proof. solve_decision. Defined.

Record Ledger := mkLedger { lg_next : nat; lg_owned : gmap nat FKind; lg_answers : list bool }.

(** A computation on the ledger; [None] is undefined behaviour. *)
Definition Fx (A : Type) : Type := Ledger -> option (Ledger * A).

Definition fx_ret {A} (a : A) : Fx A := fun l => Some (l, a).
Definition fx_bind {A B} (m : Fx A) (f : A -> Fx B) : Fx B :=
  fun l => match m l with Some (l, a) => f a l | None => None end.
Notation "'let!' x := m 'in' k" := (fx_bind m (fun x => k)) 
  (at level 10, x binder, k at level 200) : kmc_scope.

(** The next answer: whether the call succeeds. *)
Definition ask : Fx bool := fun l =>
  match lg_answers l with
  | b :: bs => Some (mkLedger (lg_next l) (lg_owned l) bs, b)
  | [] => Some (l, true)
  end.

(** A reference nobody else has. *)
Definition acquire_sure (k : FKind) : Fx nat := fun l =>
  Some (mkLedger (S (lg_next l)) (<[lg_next l := k]> (lg_owned l)) (lg_answers l), lg_next l).

(** An allocation: null when it fails. *)
Definition acquire (k : FKind) : Fx (option nat) :=
  let! b := ask in if b then (let! h := acquire_sure k in fx_ret (Some h)) else fx_ret None.

Definition release (k : FKind) (h : nat) : Fx unit := fun l =>
  if decide (lg_owned l !! h = Some k) then Some (mkLedger (lg_next l) (delete h (lg_owned l)) (lg_answers l), tt) else None.

(** The object [p] will release [c] when it is freed. *)
Definition give (p c : nat) : Fx unit := fun l =>
  if decide (is_Some (lg_owned l !! p) /\ is_Some (lg_owned l !! c)) then
    Some (mkLedger (lg_next l) (delete c (lg_owned l)) (lg_answers l), tt)
  else None.

(** [field = av_buffer_ref(..)]: nothing to give when it is null. *)
Definition give_ref (p : nat) : Fx unit :=
  let! r := acquire KBuffer in match r with Some c => give p c | None => fx_ret tt end.

Definition release_opt (k : FKind) (h : option nat) : Fx unit :=
  match h with Some h => release k h | None => fx_ret tt end.

(** ** What the codecs are asked for

    [averr] *)
Definition averr (ret : Z) : bool := negb (ret <? 0).

Inductive PixFmt := PIX_QSV | PIX_NV12 | PIX_D3D11.

Record CodecSettings := mkCodecSettings {
  cs_width : Z; cs_height : Z;
  cs_time_base : Z * Z; cs_framerate : Z * Z;
  cs_pix_fmt : PixFmt;
  cs_bit_rate : Z; cs_rc_max_rate : Z;
  cs_gop_size : Z; cs_max_b_frames : Z;
  cs_opts : gmap string string
}.

Definition I32_MAX : Z := 2147483647.

(** The options in the order in which [build_qsv_codec_ctx] sets them. *)
Definition gpu_opts : gmap string string :=
  <["recovery_point_sei" := "0"]> (<["async_depth" := "1"]> (<["forced_idr" := "1"]>
  (<["low_delay_brc" := "1"]> (<["preset" := "veryfast"]> ∅)))).

Definition gpu_codec_settings (out_w out_h fps bitrate_bps : Z) : CodecSettings :=
  {| cs_width := i32 out_w; cs_height := i32 out_h;
     cs_time_base := (1, i32 fps); cs_framerate := (i32 fps, 1); cs_pix_fmt := PIX_QSV;
     cs_bit_rate := bitrate_bps; cs_rc_max_rate := bitrate_bps; cs_gop_size := I32_MAX; cs_max_b_frames := 0;
     cs_opts := gpu_opts |}.

(** [QsvEncoder::build_encoder] *)
Definition ram_opts : gmap string string :=
  <["recovery_point_sei" := "0"]> (<["async_depth" := "1"]> (<["low_delay_brc" := "1"]>
  (<["forced_idr" := "1"]> (<["preset" := "veryfast"]> ∅)))).

Definition ram_codec_settings (width height fps bitrate_bps : Z) : CodecSettings :=
  {| cs_width := i32 width; cs_height := i32 height;
     cs_time_base := (1, i32 fps); cs_framerate := (i32 fps, 1); cs_pix_fmt := PIX_NV12;
     cs_bit_rate := bitrate_bps; cs_rc_max_rate := bitrate_bps; cs_gop_size := I32_MAX; cs_max_b_frames := 0;
     cs_opts := ram_opts |}.

(** The pool behind the ring, and its format and binding. *)
Record FramePool := mkFramePool {
  fp_format : PixFmt; fp_sw_format : PixFmt; fp_width : Z; fp_height : Z; fp_initial_pool_size : Z; fp_render_target : bool
}.
Definition frame_pool (ring_size : nat) (out_w out_h : Z) : FramePool :=
  {| fp_format := PIX_D3D11; fp_sw_format := PIX_NV12; fp_width := i32 out_w; fp_height := i32 out_h;
     fp_initial_pool_size := Z.of_nat ring_size + 2; fp_render_target := true |}.

(** ** The functions *)

(** [build_qsv_codec_ctx]; [None] is an error. *)
Definition build_qsv_codec_ctx (name_ok : bool) : Fx (option nat) :=
  if negb name_ok then fx_ret None
  else
    let! found := ask in
    if negb found then fx_ret None
    else
      let! enc := acquire KCodec in
      match enc with
      | None => fx_ret None
      | Some enc =>
          let! _ := give_ref enc in
          let! opts := acquire KDict in
          let! opened := ask in
          let! _ := release_opt KDict opts in
          if opened then fx_ret (Some enc) else (let! _ := release KCodec enc in fx_ret None)
      end.

Record MappedSlot := mkMappedSlot { d3d11_frame : nat; qsv_frame : nat }.

Record FfEncoder := mkFfEncoder {
  ff_enc : nat; ff_d3d11_dev : nat; ff_qsv_dev : nat; ff_d3d11_frames : nat; ff_qsv_frames : nat;
  ff_ring : list MappedSlot; ff_pkt : nat
}.

(** One slot of the ring. *)
Definition ring_slot : Fx (option MappedSlot) :=
  let! d := acquire KFrame in
  match d with
  | None => fx_ret None
  | Some d =>
      let! got := ask in
      if negb got then (let! _ := release KFrame d in fx_ret None)
      else
        let! q := acquire KFrame in
        match q with
        | None => (let! _ := release KFrame d in fx_ret None)
        | Some q =>
            let! _ := give_ref q in
            let! mapped := ask in
            if negb mapped then (let! _ := release KFrame q in let! _ := release KFrame d in fx_ret None)
            else fx_ret (Some {| d3d11_frame := d; qsv_frame := q |})
        end
  end.

(** The loop over the ring: the slots it has pushed so far, latest first. *)
Fixpoint ring_fill (n : nat) (ring : list MappedSlot) : Fx (option (list MappedSlot)) :=
  match n with
  | O => fx_ret (Some ring)
  | S n =>
      let! s := ring_slot in
      match s with
      | None => fx_ret None
      | Some s => ring_fill n (s :: ring)
      end
  end.

(** [ZeroCopyEncoder::new]; the two COM references belong to the device
    context from the start. *)
Definition encoder_new (ring_size : nat) (name_ok : bool) : Fx (option FfEncoder) :=
  let! d3d11_dev := acquire KBuffer in
  match d3d11_dev with
  | None => fx_ret None
  | Some d3d11_dev =>
      let! device := acquire_sure KCom in
      let! _ := give d3d11_dev device in
      let! context := acquire_sure KCom in
      let! _ := give d3d11_dev context in
      let! inited := ask in
      if negb inited then fx_ret None
      else
        let! qsv_dev := acquire KBuffer in
        match qsv_dev with
        | None => fx_ret None
        | Some qsv_dev =>
            let! d3d11_frames := acquire KBuffer in
            match d3d11_frames with
            | None => fx_ret None
            | Some d3d11_frames =>
                let! inited := ask in
                if negb inited then fx_ret None
                else
                  let! qsv_frames := acquire KBuffer in
                  match qsv_frames with
                  | None => fx_ret None
                  | Some qsv_frames =>
                      let! enc := build_qsv_codec_ctx name_ok in
                      match enc with
                      | None => fx_ret None
                      | Some enc =>
                          let! pkt := acquire KPacket in
                          match pkt with
                          | None => fx_ret None
                          | Some pkt =>
                              let! ring := ring_fill ring_size [] in
                              match ring with
                              | None => fx_ret None
                              | Some ring =>
                                  fx_ret (Some {| ff_enc := enc; ff_d3d11_dev := d3d11_dev; ff_qsv_dev := qsv_dev;
                                                  ff_d3d11_frames := d3d11_frames; ff_qsv_frames := qsv_frames;
                                                  ff_ring := reverse ring; ff_pkt := pkt |})
                              end
                          end
                      end
                  end
            end
        end
  end.

(** The reopening of the codec in [set_bitrate]. *)
Definition encoder_reopen (e : FfEncoder) : Fx (FfEncoder * bool) :=
  let! enc := build_qsv_codec_ctx true in
  match enc with
  | None => fx_ret (e, false)
  | Some enc =>
      let! _ := release KCodec (ff_enc e) in
      fx_ret ({| ff_enc := enc; ff_d3d11_dev := ff_d3d11_dev e; ff_qsv_dev := ff_qsv_dev e;
                 ff_d3d11_frames := ff_d3d11_frames e; ff_qsv_frames := ff_qsv_frames e;
                 ff_ring := ff_ring e; ff_pkt := ff_pkt e |}, true)
  end.

Fixpoint drop_ring (ring : list MappedSlot) : Fx unit :=
  match ring with
  | [] => fx_ret tt
  | s :: ring =>
      let! _ := release KFrame (qsv_frame s) in
      let! _ := release KFrame (d3d11_frame s) in
      drop_ring ring
  end.

(** [Drop]; the handles of an encoder are never null. *)
Definition encoder_drop (e : FfEncoder) : Fx unit :=
  let! _ := drop_ring (ff_ring e) in
  let! _ := release KPacket (ff_pkt e) in
  let! _ := release KCodec (ff_enc e) in
  let! _ := release KBuffer (ff_qsv_frames e) in
  let! _ := release KBuffer (ff_d3d11_frames e) in
  let! _ := release KBuffer (ff_qsv_dev e) in
  release KBuffer (ff_d3d11_dev e).

Fixpoint reopen_times (n : nat) (e : FfEncoder) : Fx FfEncoder :=
  match n with
  | O => fx_ret e
  | S n => let! p := encoder_reopen e in reopen_times n p.1
  end.

(** A whole life: opened, reopened [n] times, dropped.  The result is
    whether it could be opened. *)
Definition encoder_life (ring_size n : nat) (name_ok : bool) : Fx bool :=
  let! e := encoder_new ring_size name_ok in
  match e with
  | None => fx_ret false
  | Some e => let! e := reopen_times n e in let! _ := encoder_drop e in fx_ret true
  end.

(** ** Reasoning about the ledger *)

(** [hs] are the references owned beyond those of [base]. *)
Record owns (base : gmap nat FKind) (hs : list (nat * FKind)) (l : Ledger) : Prop := {
  ow_nodup : NoDup hs.*1;
  ow_in h k : (h, k) ∈ hs -> base !! h = None /\ lg_owned l !! h = Some k;
  ow_out h : h ∉ hs.*1 -> lg_owned l !! h = base !! h;
  ow_next h : is_Some (lg_owned l !! h) -> (h < lg_next l)%nat
}.

Definition fx_wp {A} (m : Fx A) (Q : Ledger -> A -> Prop) (l : Ledger) : Prop :=
  match m l with Some (l, a) => Q l a | None => False end.

Lemma wp_ret {A} (a : A) Q l : Q l a -> fx_wp (fx_ret a) Q l.
Proof. done. Qed.

Lemma wp_bind {A B} (m : Fx A) (f : A -> Fx B) Q l :
  fx_wp m (fun l a => fx_wp (f a) Q l) l -> fx_wp (fx_bind m f) Q l.
Proof. unfold fx_wp, fx_bind. by destruct (m l) as [[? ?]|]. Qed.

Lemma wp_mono {A} (m : Fx A) (P Q : Ledger -> A -> Prop) l :
  fx_wp m P l -> (forall l a, P l a -> Q l a) -> fx_wp m Q l.
Proof. unfold fx_wp. destruct (m l) as [[? ?]|]; auto. Qed.

Lemma owns_perm base hs hs' l : hs ≡ₚ hs' -> owns base hs l -> owns base hs' l.
Proof.
  intros Hp [H1 H2 H3 H4]. split; [by rewrite <- Hp|intros h k; rewrite <- Hp; apply H2|intros h; rewrite <- Hp; apply H3|done].
Qed.

Lemma wp_ask base hs l : owns base hs l -> fx_wp ask (fun l _ => owns base hs l) l.
Proof. intros [H1 H2 H3 H4]. unfold fx_wp, ask. destruct (lg_answers l); by split. Qed.

Lemma wp_acquire_sure base hs k l : owns base hs l -> fx_wp (acquire_sure k) (fun l h => owns base ((h, k) :: hs) l) l.
Proof.
  intros [H1 H2 H3 H4]. unfold fx_wp, acquire_sure.
  assert (lg_owned l !! lg_next l = None) as Hn.
  { destruct (lg_owned l !! lg_next l) eqn:E; [|done]. assert (lg_next l < lg_next l)%nat by (apply H4; eauto). lia. }
  assert (lg_next l ∉ hs.*1) as Hni.
  { intros ([h k'] & E & Hin)%list_elem_of_fmap. cbn in E. subst h. apply H2 in Hin as [_ Hin]. congruence. }
  split; cbn [lg_owned lg_next fmap list_fmap fst].
  - by constructor.
  - intros h k' [E|Hin]%elem_of_cons.
    + injection E as -> ->. split; [by rewrite <- H3|apply lookup_insert_eq].
    + destruct (H2 h k' Hin) as [Hb Ho]. split; [done|]. rewrite lookup_insert_ne; [done|]. intros <-. congruence.
  - intros h [Hne Hin]%not_elem_of_cons. rewrite lookup_insert_ne by done. by apply H3.
  - intros h. destruct (decide (h = lg_next l)) as [->|]; [lia|]. rewrite lookup_insert_ne by done. intros H%H4. lia.
Qed.

Lemma wp_acquire base hs k l : owns base hs l ->
  fx_wp (acquire k) (fun l r => match r with Some h => owns base ((h, k) :: hs) l | None => owns base hs l end) l.
Proof.
  intros H. unfold acquire. apply wp_bind. eapply wp_mono; [by apply (wp_ask base hs)|]. intros l' [] Hl; [|by apply wp_ret].
  apply wp_bind. eapply wp_mono; [by apply wp_acquire_sure|]. intros l2 h Hl2. by apply wp_ret.
Qed.

(** Dropping the first of the owned references. *)
Lemma owns_delete base h k hs l : owns base ((h, k) :: hs) l ->
  owns base hs (mkLedger (lg_next l) (delete h (lg_owned l)) (lg_answers l)).
Proof.
  intros [H1 H2 H3 H4]. cbn [fmap list_fmap fst] in *. apply NoDup_cons in H1 as [Hn H1]. split; cbn [lg_owned lg_next].
  - done.
  - intros h' k' Hin. assert (h <> h') as Hne.
    { intros ->. apply Hn, list_elem_of_fmap. by exists (h', k'). }
    rewrite lookup_delete_ne by done. apply H2. by right.
  - intros h' Hin. destruct (decide (h = h')) as [<-|Hne].
    + rewrite lookup_delete_eq. symmetry. apply (H2 h k). by left.
    + rewrite lookup_delete_ne by done. apply H3. by apply not_elem_of_cons.
  - intros h' [k' [_ Hk]%lookup_delete_Some]. eauto.
Qed.

Lemma wp_release base h k hs hs' l : hs' ≡ₚ (h, k) :: hs -> owns base hs' l -> fx_wp (release k h) (fun l _ => owns base hs l) l.
Proof.
  intros Hp H%(owns_perm _ _ _ _ Hp). unfold fx_wp, release. rewrite decide_True.
  - by apply (owns_delete base h k).
  - apply (ow_in _ _ _ H). by left.
Qed.

Lemma wp_give base p kp c k hs l : (p, kp) ∈ hs -> owns base ((c, k) :: hs) l -> fx_wp (give p c) (fun l _ => owns base hs l) l.
Proof.
  intros Hp H. unfold fx_wp, give. rewrite decide_True.
  - by apply (owns_delete base c k).
  - split; eexists; apply (ow_in _ _ _ H); [right; exact Hp|by left].
Qed.

Lemma wp_give_ref base p kp hs l : (p, kp) ∈ hs -> owns base hs l -> fx_wp (give_ref p) (fun l _ => owns base hs l) l.
Proof.
  intros Hp H. unfold give_ref. apply wp_bind. eapply wp_mono; [by apply (wp_acquire base hs)|].
  intros l' [c|] Hl; [by eapply wp_give|by apply wp_ret].
Qed.

(** One call of a function, with the references it leaves; [x] names its
    result. *)
Ltac in_owned := repeat first [apply list_elem_of_here | apply list_elem_of_further].
Ltac fx_call H :=
  first [ exact (wp_ask _ _ _ H) | exact (wp_acquire _ _ _ _ H) | exact (wp_acquire_sure _ _ _ _ H)
        | eapply wp_give_ref; [|exact H]; in_owned
        | eapply wp_give; [|exact H]; in_owned
        | eapply wp_release; [reflexivity|exact H] ].
Tactic Notation "fx_step" hyp(H) "as" ident(x) :=
  apply wp_bind; eapply wp_mono; [fx_call H | clear H; intros ? x H; cbn beta iota in H].

Tactic Notation "fx_step" hyp(H) :=
  apply wp_bind; eapply wp_mono; [fx_call H | clear H; intros ? ? H; cbn beta iota in H].

Lemma build_qsv_spec base hs name_ok l : owns base hs l ->
  fx_wp (build_qsv_codec_ctx name_ok)
    (fun l r => match r with Some h => owns base ((h, KCodec) :: hs) l | None => owns base hs l end) l.
Proof.
  intros H. unfold build_qsv_codec_ctx. destruct name_ok; cbn [negb]; [|by apply wp_ret].
  fx_step H as b; destruct b; cbn [negb]; [|by apply wp_ret].
  fx_step H as enc; destruct enc as [enc|]; [|by apply wp_ret].
  fx_step H. fx_step H as opts. destruct opts as [opts|]; fx_step H as opened; cbn [release_opt].
  - fx_step H. destruct opened; [by apply wp_ret|].
    fx_step H. by apply wp_ret.
  - apply wp_bind, wp_ret. destruct opened; [by apply wp_ret|]. fx_step H. by apply wp_ret.
Qed.

(** ** The ring *)

Definition slot_handles (s : MappedSlot) : list (nat * FKind) := [(qsv_frame s, KFrame); (d3d11_frame s, KFrame)].
Definition ring_handles (ring : list MappedSlot) : list (nat * FKind) := ring ≫= slot_handles.

Lemma ring_slot_spec base hs l : owns base hs l ->
  fx_wp ring_slot (fun l r => match r with Some s => owns base (slot_handles s ++ hs) l | None => owns base hs l end) l.
Proof.
  intros H. unfold ring_slot. fx_step H as d; destruct d as [d|]; [|by apply wp_ret].
  fx_step H as b; destruct b; cbn [negb]; [|fx_step H; by apply wp_ret].
  fx_step H as q; destruct q as [q|]; [|fx_step H; by apply wp_ret].
  fx_step H. fx_step H as b; destruct b; cbn [negb]; [by apply wp_ret|].
  fx_step H. fx_step H. by apply wp_ret.
Qed.

(** On success the references of all the slots, old and new; on failure
    those of the slots pushed so far stay behind. *)
Lemma ring_fill_spec base n : forall ring hs l, owns base (ring_handles ring ++ hs) l ->
  fx_wp (ring_fill n ring)
    (fun l r => match r with
                | Some ring => owns base (ring_handles ring ++ hs) l
                | None => exists left, owns base (left ++ hs) l
                end) l.
Proof.
  induction n as [|n IH]; intros ring hs l H; cbn [ring_fill]; [by apply wp_ret|].
  apply wp_bind. eapply wp_mono; [by apply ring_slot_spec|]. intros l' [s|] Hs; [|apply wp_ret; eauto].
  apply IH. unfold ring_handles in *. cbn [mbind list_bind]. by rewrite <- app_assoc.
Qed.

(** ** The encoder *)

(** In the order in which [Drop] releases them. *)
Definition enc_handles (e : FfEncoder) : list (nat * FKind) :=
  ring_handles (ff_ring e) ++
  [(ff_pkt e, KPacket); (ff_enc e, KCodec); (ff_qsv_frames e, KBuffer); (ff_d3d11_frames e, KBuffer);
   (ff_qsv_dev e, KBuffer); (ff_d3d11_dev e, KBuffer)].

Lemma wp_acquire_answer base hs k l : owns base hs l ->
  fx_wp (acquire k)
    (fun l' r => match r with
                 | Some h => owns base ((h, k) :: hs) l'
                 | None => owns base hs l' /\ hd true (lg_answers l) = false
                 end) l.
Proof.
  intros H. unfold fx_wp, acquire, fx_bind. pose proof (wp_ask _ _ _ H) as Ha. unfold fx_wp in Ha. unfold ask in *.
  destruct (lg_answers l) as [|[] bs]; [by apply wp_acquire_sure|by apply wp_acquire_sure|done].
Qed.

(** References left behind by a failure, a device context among them. *)
Definition stranded base hs l : Prop :=
  exists left, owns base (left ++ hs) l /\ exists h, (h, KBuffer) ∈ left.

Lemma strand base hs hs' h l : ((h, KBuffer) :: hs) `suffix_of` hs' -> owns base hs' l -> stranded base hs l.
Proof.
  intros [left ->] H. exists (left ++ [(h, KBuffer)]). split; [by rewrite <- app_assoc|].
  exists h. apply elem_of_app. right. by left.
Qed.

Ltac fx_fails H := apply wp_ret; refine (strand _ _ _ _ _ _ H); solve_suffix.

Lemma encoder_new_spec base hs n name_ok l : owns base hs l ->
  fx_wp (encoder_new n name_ok)
    (fun l' r => match r with
                 | Some e => owns base (enc_handles e ++ hs) l'
                 | None => (owns base hs l' /\ hd true (lg_answers l) = false) \/ stranded base hs l'
                 end) l.
Proof.
  intros H. unfold encoder_new. apply wp_bind. eapply wp_mono; [by apply wp_acquire_answer|].
  clear H. intros l1 [dev|] H; [|apply wp_ret; by left].
  eapply (wp_mono _ (fun l' r => match r with Some e => owns base (enc_handles e ++ hs) l' | None => stranded base hs l' end));
    [|intros l' [e|]; [done|by right]].
  fx_step H as device. fx_step H. fx_step H as context. fx_step H.
  fx_step H as b; destruct b; cbn [negb]; [|fx_fails H].
  fx_step H as qsv; destruct qsv as [qsv|]; [|fx_fails H].
  fx_step H as frames; destruct frames as [frames|]; [|fx_fails H].
  fx_step H as b; destruct b; cbn [negb]; [|fx_fails H].
  fx_step H as qframes; destruct qframes as [qframes|]; [|fx_fails H].
  apply wp_bind. eapply wp_mono; [apply build_qsv_spec, H|]. clear H. intros lc [enc|] H; [|fx_fails H].
  fx_step H as pkt; destruct pkt as [pkt|]; [|fx_fails H].
  apply wp_bind. eapply wp_mono; [apply (ring_fill_spec base n []), H|]. clear H. intros lr [ring|] H; apply wp_ret.
  - eapply owns_perm; [|exact H]. unfold enc_handles, ring_handles. cbn [ff_ring ff_pkt ff_enc ff_qsv_frames ff_d3d11_frames ff_qsv_dev ff_d3d11_dev].
    rewrite <- app_assoc. apply Permutation_app; [|done]. by rewrite reverse_Permutation.
  - destruct H as [left H]. refine (strand _ _ _ dev _ _ H). solve_suffix.
Qed.

Lemma encoder_reopen_spec base hs e l : owns base (enc_handles e ++ hs) l ->
  fx_wp (encoder_reopen e) (fun l' p => owns base (enc_handles p.1 ++ hs) l') l.
Proof.
  intros H. unfold encoder_reopen. apply wp_bind. eapply wp_mono; [apply build_qsv_spec, H|].
  clear H. intros l1 [enc|] H; [|by apply wp_ret].
  apply wp_bind. eapply wp_mono.
  - eapply (wp_release base (ff_enc e)); [|exact H]. unfold enc_handles.
    instantiate (1 := ring_handles (ff_ring e) ++
      [(ff_pkt e, KPacket); (enc, KCodec); (ff_qsv_frames e, KBuffer); (ff_d3d11_frames e, KBuffer);
       (ff_qsv_dev e, KBuffer); (ff_d3d11_dev e, KBuffer)] ++ hs).
    solve_Permutation.
  - clear H. intros ? ? H. apply wp_ret. unfold enc_handles. by rewrite <- app_assoc.
Qed.

Lemma reopen_times_spec base hs n : forall e l, owns base (enc_handles e ++ hs) l ->
  fx_wp (reopen_times n e) (fun l' e => owns base (enc_handles e ++ hs) l') l.
Proof.
  induction n as [|n IH]; intros e l H; cbn [reopen_times]; [by apply wp_ret|].
  apply wp_bind. eapply wp_mono; [by apply encoder_reopen_spec|]. intros l1 p Hp. by apply IH.
Qed.

Lemma drop_ring_spec base ring : forall hs l, owns base (ring_handles ring ++ hs) l ->
  fx_wp (drop_ring ring) (fun l' _ => owns base hs l') l.
Proof.
  induction ring as [|s ring IH]; intros hs l H; cbn [drop_ring]; [by apply wp_ret|].
  unfold ring_handles in H. cbn [mbind list_bind slot_handles app] in H. fx_step H. fx_step H. by apply IH.
Qed.

Lemma encoder_drop_spec base hs e l : owns base (enc_handles e ++ hs) l ->
  fx_wp (encoder_drop e) (fun l' _ => owns base hs l') l.
Proof.
  intros H. unfold encoder_drop, enc_handles in *. rewrite <- app_assoc in H. cbn [app] in H.
  apply wp_bind. eapply wp_mono; [apply drop_ring_spec, H|]. clear H. intros l1 ? H.
  do 5 fx_step H. eapply wp_mono; [fx_call H|]. done.
Qed.

(** ** Properties *)

(** Every handle handed out so far is below the next one. *)
Definition ledger_ok (l : Ledger) : Prop := forall h, is_Some (lg_owned l !! h) -> (h < lg_next l)%nat.

Lemma owns_nil l : ledger_ok l -> owns (lg_owned l) [] l.
Proof. intros H. split; [constructor|by intros ? ? ?%elem_of_nil|done|exact H]. Qed.

Lemma owns_back base l : owns base [] l -> lg_owned l = base.
Proof. intros H. apply map_eq. intros h. apply (ow_out _ _ _ H). apply not_elem_of_nil. Qed.


(** An opening that fails after the device context was allocated returns
    without releasing it: the reference stays owned. *)
Theorem new_failure_leaks ring_size name_ok l l' (Hl : ledger_ok l) (Hfirst : hd true (lg_answers l) = true)
    (Hnew : encoder_new ring_size name_ok l = Some (l', None)) :
  exists h, lg_owned l !! h = None /\ lg_owned l' !! h = Some KBuffer.
Proof.
  pose proof (encoder_new_spec (lg_owned l) [] ring_size name_ok l (owns_nil _ Hl)) as H.
  unfold fx_wp in H. rewrite Hnew in H. destruct H as [[_ H]|(left & H & h & Hin)]; [congruence|].
  exists h. apply (ow_in _ _ _ H). apply elem_of_app. by left.
Qed.

(** ** Witnesses *)

Definition l_empty (answers : list bool) : Ledger := mkLedger 0 ∅ answers.

Lemma l_empty_ok answers : ledger_ok (l_empty answers).
Proof. intros h [k Hk]. cbn in Hk. by rewrite lookup_empty in Hk. Qed.


(** A codec the installation does not have. *)
Lemma new_failure_leaks_witness : exists l' h,
  encoder_new 6 true (l_empty [true; true; true; true; true; true; false]) = Some (l', None) /\
  lg_owned l' !! h = Some KBuffer.
Proof.
  eexists. edestruct (new_failure_leaks 6 true (l_empty [true; true; true; true; true; true; false])) as (h & _ & Hh);
    [apply l_empty_ok|reflexivity|vm_compute; reflexivity|].
  exists h. split; [vm_compute; reflexivity|exact Hh].
Defined.

(** Both encoders ask the codec for the same stream: every setting apart from
    the format of the pictures it is given. *)
Lemma codecs_agree w h fps bitrate_bps :
  gpu_codec_settings w h fps bitrate_bps =
  let s := ram_codec_settings w h fps bitrate_bps in
  {| cs_width := cs_width s; cs_height := cs_height s; cs_time_base := cs_time_base s; cs_framerate := cs_framerate s;
     cs_pix_fmt := PIX_QSV; cs_bit_rate := cs_bit_rate s; cs_rc_max_rate := cs_rc_max_rate s;
     cs_gop_size := cs_gop_size s; cs_max_b_frames := cs_max_b_frames s; cs_opts := cs_opts s |}.
Proof. unfold gpu_codec_settings, ram_codec_settings. f_equal. Qed.

(** Opening takes one surface of the pool per slot: it is larger than the ring. *)
Lemma pool_exceeds_ring ring_size w h : Z.of_nat ring_size < fp_initial_pool_size (frame_pool ring_size w h).
Proof. cbn. lia. Qed.
