(* ===== verification/Media.v ===== *)
(** * Conversion on the GPU and the Media Foundation encoder
    ([kmc-streamhost/src/gpuconvert.rs], [encoder.rs]) and the receive loops
    of the two QSV encoders ([gpu_encode.rs], [qsv.rs])

    The Direct3D video processor, a Media Foundation transform and the codec's
    packet queue are classes.  The copying of pitched rows, the loops that
    drain an encoder and the floating-point colour conversion are the
    program's own. *)
From Stdlib Require Import Floats.SpecFloat.
From S2P Require Import Prelude Float Encoder.

(** ** GpuConverter *)

Record Rect := mkRect { rc_left : Z; rc_top : Z; rc_right : Z; rc_bottom : Z }.

(** What the video processor is set up with. *)
Record VpSetup := mkVpSetup {
  vp_in : Z * Z; vp_out : Z * Z; vp_rate : Z * Z;
  vp_source_rect : Rect; vp_dest_rect : Rect; vp_target_rect : Rect;
  vp_input_color_space : Z; vp_output_color_space : Z
}.

(** A picture on the GPU is converted and scaled by [vp_blt]; [map_read]
    gives the program the row pitch and the mapped memory. *)
Class VideoProcessor := {
  VpTexture : Type;
  Nv12Surface : Type;
  vp_create : VpSetup -> bool;
  input_view_ok : VpTexture -> bool;
  vp_blt : VpSetup -> VpTexture -> option Nv12Surface;
  map_read : Nv12Surface -> option (nat * list Z)
}.

Record GpuConverter := mkGpuConverter { gc_setup : VpSetup; tw : nat; th : nat; nv12_buf : list Z }.

Definition vp_setup (src_w src_h tw th : Z) : VpSetup :=
  let src_rect := {| rc_left := 0; rc_top := 0; rc_right := i32 src_w; rc_bottom := i32 src_h |} in
  let dst_rect := {| rc_left := 0; rc_top := 0; rc_right := i32 tw; rc_bottom := i32 th |} in
  {| vp_in := (src_w, src_h); vp_out := (tw, th); vp_rate := (60, 1);
     vp_source_rect := src_rect; vp_dest_rect := dst_rect; vp_target_rect := dst_rect;
     vp_input_color_space := 0; vp_output_color_space := 0 |}.

(** The rows [ys] of [w] bytes each, from pitched memory into the packed
    buffer; [None] for a read outside the mapping or a slice out of range. *)
Fixpoint copy_rows (mem : list Z) (pitch w src dst : nat) (ys : list nat) (buf : list Z) : option (list Z) :=
  match ys with
  | [] => Some buf
  | y :: ys =>
      if (src + y * pitch + w <=? length mem)%nat && (dst + y * w + w <=? length buf)%nat then
        copy_rows mem pitch w src dst ys
          (splice (dst + y * w) (slice (src + y * pitch) (src + y * pitch + w) mem) buf)
      else None
  end.

Section Converter.
Context `{V : VideoProcessor}.

Definition gpu_converter_new (src_w src_h tw th : nat) : option GpuConverter :=
  let setup := vp_setup (Z.of_nat src_w) (Z.of_nat src_h) (Z.of_nat tw) (Z.of_nat th) in
  if vp_create setup then
    Some {| gc_setup := setup; tw := tw; th := th;
            nv12_buf := replicate (Z.to_nat (u32 (u32 (Z.of_nat tw * Z.of_nat th) * 3) / 2)) 0 |}
  else None.

Definition convert_gpu (c : GpuConverter) (src : VpTexture) : option Nv12Surface :=
  if input_view_ok src then vp_blt (gc_setup c) src else None.

(** The inner [None] is an error. *)
Definition convert (c : GpuConverter) (src : VpTexture) : option (GpuConverter * option (list Z)) :=
  if input_view_ok src then
    match vp_blt (gc_setup c) src with
    | None => Some (c, None)
    | Some surface =>
        match map_read surface with
        | None => Some (c, None)
        | Some (row_pitch, mem) =>
            let w := tw c in
            let h := th c in
            buf <-? copy_rows mem row_pitch w 0 0 (seq 0 h) (nv12_buf c);
            buf <-? copy_rows mem row_pitch w (row_pitch * h) (w * h) (seq 0 (h / 2)) buf;
            Some ({| gc_setup := gc_setup c; tw := w; th := h; nv12_buf := buf |}, Some buf)
        end
    end
  else Some (c, None).
End Converter.

(** ** Draining a codec

    What a call to receive a packet may answer: the bytes (none for a packet
    without data) and the key-frame flag. *)
Inductive Received := RPacket (data : option (list Z)) (key : bool) | RAgain | REof | RError.

(** The loop in [ZeroCopyEncoder::submit], where a packet without data is
    empty; answers beyond the list ask for more input. *)
Fixpoint gpu_drain (answers : list Received) (out : list EncodedPacket) : option (list EncodedPacket) :=
  match answers with
  | RPacket data key :: answers =>
      gpu_drain answers (out ++ [{| ep_data := default [] data; ep_is_key_frame := key |}])
  | RAgain :: _ | REof :: _ | [] => Some out
  | RError :: _ => None
  end.

(** [QsvEncoder::drain] *)
Fixpoint qsv_drain (answers : list Received) (out : list EncodedPacket) : option (list EncodedPacket) :=
  match answers with
  | RPacket data key :: answers =>
      qsv_drain answers (match data with
                         | Some data => out ++ [{| ep_data := data; ep_is_key_frame := key |}]
                         | None => out
                         end)
  | _ => Some out
  end.

(** ** The Media Foundation encoder *)

Inductive MtOutput {S : Type} := Produced (s : option S) | NeedMoreInput | StreamChange | OutputError.
Arguments MtOutput S : clear implicits.

Record MediaType := mkMediaType {
  mt_subtype : string; mt_avg_bitrate : option Z; mt_frame_size : Z; mt_frame_rate : Z; mt_aspect : Z; mt_profile : option string
}.

(** [process_output] is told whether the program supplies the sample; failing
    to allocate one is an error of the call. *)
Class MediaTransform := {
  Mft : Type;
  MfSample : Type;
  mft_create : MediaType -> MediaType -> option (Mft * Z * Z);
  process_input : Mft -> list Z -> Z -> Z -> Mft * bool;
  process_output : Mft -> bool -> Mft * MtOutput MfSample;
  sample_data : MfSample -> option (list Z);
  clean_point : MfSample -> option Z
}.

(** [pack_u64] *)
Definition pack_u64 (hi lo : Z) : Z := Z.lor (Z.shiftl hi 32) lo.

Record H264Encoder `{M : MediaTransform} := mkH264Encoder {
  transform : Mft; h_width : Z; h_height : Z; output_provides_samples : bool; output_buf_size : Z
}.
Arguments H264Encoder M : clear implicits.

Definition nv12_size (width height : Z) : Z := u32 (u32 (width * height) * 3) / 2.

Section MfEncoder.
Context `{M : MediaTransform}.

(** The transform answers with the flags and the size of its output stream. *)
Definition new_software (width height fps bitrate_bps : Z) : option (H264Encoder M) :=
  let out_type := {| mt_subtype := "H264"; mt_avg_bitrate := Some bitrate_bps;
                     mt_frame_size := pack_u64 width height; mt_frame_rate := pack_u64 fps 1;
                     mt_aspect := pack_u64 1 1; mt_profile := Some "Main"%string |} in
  let in_type := {| mt_subtype := "NV12"; mt_avg_bitrate := None; mt_frame_size := pack_u64 width height;
                    mt_frame_rate := pack_u64 fps 1; mt_aspect := pack_u64 1 1; mt_profile := None |} in
  match mft_create out_type in_type with
  | None => None
  | Some (transform, flags, cb_size) =>
      Some {| transform := transform; h_width := width; h_height := height;
              output_provides_samples := negb (Z.land flags (Z.lor 256 512) =? 0);
              output_buf_size := Z.max cb_size (Z.max (nv12_size width height) 1) |}
  end.

(** The outer [None] is an error, the inner one an empty sample. *)
Definition sample_to_packet (s : MfSample) : option (option EncodedPacket) :=
  data <-? sample_data s;
  match data with
  | [] => Some None
  | _ => Some (Some {| ep_data := data;
                       ep_is_key_frame := default false ((fun v => negb (v =? 0)) <$> clean_point s) |})
  end.

(** The loop of [drain_output]; the outer [None] means that the fuel is
    spent, the inner one an error. *)
Fixpoint drain_output (fuel : nat) (provides : bool) (t : Mft) (packets : list EncodedPacket)
    : option (Mft * option (list EncodedPacket)) :=
  match fuel with
  | O => None
  | S fuel =>
      match process_output t (negb provides) with
      | (t, Produced None) => drain_output fuel provides t packets
      | (t, Produced (Some s)) =>
          match sample_to_packet s with
          | None => Some (t, None)
          | Some p => drain_output fuel provides t (packets ++ match p with Some p => [p] | None => [] end)
          end
      | (t, NeedMoreInput) | (t, StreamChange) => Some (t, Some packets)
      | (t, OutputError) => Some (t, None)
      end
  end.

Definition with_transform (e : H264Encoder M) (t : Mft) : H264Encoder M :=
  {| transform := t; h_width := h_width e; h_height := h_height e;
     output_provides_samples := output_provides_samples e; output_buf_size := output_buf_size e |}.

Definition encode_nv12 (fuel : nat) (e : H264Encoder M) (nv12 : list Z) (time_100ns dur_100ns : Z)
    : option (H264Encoder M * option (list EncodedPacket)) :=
  if Z.of_nat (length nv12) <? nv12_size (h_width e) (h_height e) then Some (e, None)
  else
    match process_input (transform e) nv12 time_100ns dur_100ns with
    | (t, false) => Some (with_transform e t, None)
    | (t, true) =>
        match drain_output fuel (output_provides_samples e) t [] with
        | None => None
        | Some (t, r) => Some (with_transform e t, r)
        end
    end.
End MfEncoder.

(** ** BGRA to NV12 in [f32] ([bgra_to_nv12]) *)

Definition f32_of_Z (z : Z) : f32 := binary_normalize 24 128 z 0 false.
Definition f32_mul : f32 -> f32 -> f32 := SFmul 24 128.
Definition f32_add : f32 -> f32 -> f32 := SFadd 24 128.
Definition f32_sub : f32 -> f32 -> f32 := SFsub 24 128.

(** [f32::round]: half away from zero. *)
Definition f32_round (x : f32) : f32 :=
  match x with
  | S754_finite s m e =>
      if e <? 0 then
        let q := (Zpos m + 2 ^ (- e - 1)) / 2 ^ (- e) in
        if q =? 0 then S754_zero s else binary_normalize 24 128 (if s then - q else q) 0 s
      else x
  | _ => x
  end.

(** [x as u8]: truncated and saturated. *)
Definition u8_of_f32 (x : f32) : Z :=
  match x with
  | S754_finite false m e => Z.min 255 (if e <? 0 then Zpos m / 2 ^ (- e) else Zpos m * 2 ^ e)
  | S754_infinity false => 255
  | _ => 0
  end.

Definition f32_k (n : Z) : f32 := f32_lit n 1000.

Definition luma_f32 (p : Z * Z * Z) : Z :=
  let '(b, g, r) := p in
  let b := f32_of_Z b in let g := f32_of_Z g in let r := f32_of_Z r in
  u8_of_f32 (fclamp (f32_of_Z 0) (f32_of_Z 255)
    (f32_round (f32_add (f32_add (f32_add (f32_mul (f32_k 257) r) (f32_mul (f32_k 504) g)) (f32_mul (f32_k 98) b)) (f32_of_Z 16)))).

Definition chroma_f32 (p : Z * Z * Z) : Z * Z :=
  let '(b, g, r) := p in
  let b := f32_of_Z b in let g := f32_of_Z g in let r := f32_of_Z r in
  let to_u8 x := u8_of_f32 (fclamp (f32_of_Z 0) (f32_of_Z 255) (f32_round (f32_add x (f32_of_Z 128)))) in
  (to_u8 (f32_add (f32_sub (f32_mul (f32_k (-148)) r) (f32_mul (f32_k 291) g)) (f32_mul (f32_k 439) b)),
   to_u8 (f32_sub (f32_sub (f32_mul (f32_k 439) r) (f32_mul (f32_k 368) g)) (f32_mul (f32_k 71) b))).

(** [0..n] stepped by two. *)
Definition evens (n : nat) : list nat := map (fun k => (2 * k)%nat) (seq 0 ((n + 1) / 2)).

(** One chroma sample; [None] for an index out of range. *)
Definition put_chroma (bgra : list Z) (width j i : nat) (uv_plane : list Z) : option (list Z) :=
  p <-? bgra_at bgra ((j * width + i) * 4);
  let '(u, v) := chroma_f32 p in
  let off := (j / 2 * width + i / 2 * 2)%nat in
  if (off + 1 <? length uv_plane)%nat then Some (<[(off + 1)%nat := v]> (<[off := u]> uv_plane)) else None.

Fixpoint put_chromas (bgra : list Z) (width : nat) (at_ : list (nat * nat)) (uv_plane : list Z) : option (list Z) :=
  match at_ with
  | [] => Some uv_plane
  | (j, i) :: at_ => uv <-? put_chroma bgra width j i uv_plane; put_chromas bgra width at_ uv
  end.

Definition bgra_to_nv12 (bgra : list Z) (width height : nat) : option (list Z) :=
  let y_size := (width * height)%nat in
  let uv_size := (y_size / 2)%nat in
  ys <-? mapM (fun k => luma_f32 <$> bgra_at bgra (k * 4)) (seq 0 y_size);
  uvs <-? put_chromas bgra width (list_prod (evens height) (evens width)) (replicate uv_size 0);
  Some (ys ++ uvs).

Example black_and_white :
  map luma_f32 [(0, 0, 0); (255, 255, 255)] = [16; 235] /\ map chroma_f32 [(0, 0, 0); (255, 255, 255)] = [(128, 128); (128, 128)].
Proof. vm_compute. done. Qed.

(** ** Copying rows *)

Lemma splice_join {A} d (a b l : list A) :
  (d + length a + length b <= length l)%nat -> splice (d + length a) b (splice d a l) = splice d (a ++ b) l.
Proof.
  intros H. unfold splice. rewrite !app_assoc. f_equal; [f_equal|].
  - rewrite take_app_le; [|rewrite length_app, length_take; lia].
    apply take_ge. rewrite length_app, length_take. lia.
  - rewrite drop_app_ge; rewrite length_app, length_take; [|lia].
    rewrite drop_drop. f_equal. rewrite length_app. lia.
Qed.

Lemma copy_rows_app mem pitch w src dst ys zs : forall buf,
  copy_rows mem pitch w src dst (ys ++ zs) buf =
  match copy_rows mem pitch w src dst ys buf with Some buf => copy_rows mem pitch w src dst zs buf | None => None end.
Proof. induction ys as [|y ys IH]; intros buf; [done|]. cbn [copy_rows app]. by case_if. Qed.

Definition pitched (mem : list Z) (pitch w src n : nat) : list (list Z) :=
  map (fun y => slice (src + y * pitch) (src + y * pitch + w) mem) (seq 0 n).

Lemma pitched_length mem pitch w src n :
  (forall y, (y < n)%nat -> (src + y * pitch + w <= length mem)%nat) ->
  Forall (fun r => length r = w) (pitched mem pitch w src n).
Proof.
  intros H. apply Forall_map, Forall_forall. intros y Hy%elem_of_seq. rewrite length_slice; [lia|]. apply H. lia.
Qed.

Lemma length_pitched mem pitch w src n : length (pitched mem pitch w src n) = n.
Proof. unfold pitched. by rewrite length_map, length_seq. Qed.

(** Pitched rows end up packed one after the other. *)
Lemma copy_rows_spec mem pitch w src dst n buf :
  (forall y, (y < n)%nat -> (src + y * pitch + w <= length mem)%nat) -> (dst + n * w <= length buf)%nat ->
  copy_rows mem pitch w src dst (seq 0 n) buf = Some (splice dst (concat (pitched mem pitch w src n)) buf).
Proof.
  induction n as [|n IH]; intros Hm Hb.
  - cbn. unfold splice. cbn. by rewrite Nat.add_0_r, take_drop.
  - assert (forall y, (y < n)%nat -> (src + y * pitch + w <= length mem)%nat) as Hm' by (intros; apply Hm; lia).
    assert (length (concat (pitched mem pitch w src n)) = (n * w)%nat) as Hl.
    { rewrite (length_concat_const w), length_pitched; [done|]. by apply pitched_length. }
    assert (src + n * pitch + w <= length mem)%nat as Hr by (apply Hm; lia).
    rewrite seq_S, copy_rows_app, IH by (done || lia). cbn [copy_rows Nat.add].
    rewrite length_splice by lia.
    rewrite (proj2 (Nat.leb_le _ _) Hr), (proj2 (Nat.leb_le (dst + n * w + w) _)) by lia. cbn [andb]. f_equal.
    rewrite <- Hl, splice_join by (rewrite length_slice; lia).
    f_equal. unfold pitched. rewrite seq_S, map_app, concat_app. cbn [map concat Nat.add]. by rewrite app_nil_r.
Qed.

(** Packed rows read back. *)
Lemma rows_of_concat w (rows : list (list Z)) : forall pre post, Forall (fun r => length r = w) rows ->
  map (fun y => slice (length pre + y * w) (length pre + y * w + w) (pre ++ concat rows ++ post)) (seq 0 (length rows)) = rows.
Proof.
  induction rows as [|r rows IH]; intros pre post H; [done|]. apply Forall_cons in H as [Hr H].
  cbn [length seq map concat]. f_equal.
  - unfold slice. rewrite Nat.mul_0_l, Nat.add_0_r, drop_app_length, <- app_assoc, Nat.add_sub_swap, Nat.sub_diag by lia.
    by rewrite Nat.add_0_l, <- Hr, take_app_length.
  - rewrite <- (IH (pre ++ r) post H) at 2. rewrite <- seq_shift, map_map. apply map_ext. intros y.
    rewrite length_app, Hr, <- !app_assoc. f_equal; lia.
Qed.

Lemma plane_rows_concat w rows pre post : Forall (fun r => length r = w) rows ->
  plane_rows (pre ++ concat rows ++ post) (length pre) w (length rows) = Some rows.
Proof.
  intros H. rewrite <- (rows_of_concat w rows pre post H) at 3. apply mapM_all. intros y Hy%elem_of_seq.
  rewrite (proj2 (Nat.leb_le _ _)); [done|]. rewrite !length_app, (length_concat_const w) by done. nia.
Qed.

(** ** The conversion and the encoder behind it *)

(** The documented layout of a mapped NV12 picture: rows at multiples of the
    pitch, which is at least the width, the UV plane after [h] rows. *)
Class VpLaws `(V : VideoProcessor) := {
  plane_y : Nv12Surface -> list (list Z);
  plane_uv : Nv12Surface -> list (list Z);
  map_layout setup tex s pitch mem w h :
    vp_blt setup tex = Some s -> map_read s = Some (pitch, mem) -> vp_out setup = (Z.of_nat w, Z.of_nat h) ->
    (w <= pitch)%nat /\ (pitch * (h + h / 2) <= length mem)%nat /\
    pitched mem pitch w 0 h = plane_y s /\ pitched mem pitch w (pitch * h) (h / 2) = plane_uv s
}.

Record gc_ok (c : GpuConverter) : Prop := {
  gk_out : vp_out (gc_setup c) = (Z.of_nat (tw c), Z.of_nat (th c));
  gk_buf : length (nv12_buf c) = (tw c * th c * 3 / 2)%nat
}.

Section ConverterProofs.
Context `{L : VpLaws}.

Lemma gpu_converter_new_ok src_w src_h w h c : Z.of_nat w * Z.of_nat h * 3 < 2 ^ 32 ->
  gpu_converter_new src_w src_h w h = Some c -> gc_ok c /\ tw c = w /\ th c = h.
Proof.
  intros Hs. unfold gpu_converter_new. destruct (vp_create _); [|done]. intros [= <-].
  split; [|done]. split; cbn [gc_setup tw th nv12_buf vp_out vp_setup]; [done|].
  rewrite length_replicate, (u32_id (Z.of_nat w * _)) by (unfold is_u32; lia).
  rewrite u32_id by (unfold is_u32; lia).
  rewrite <- (Nat2Z.id (w * h * 3 / 2)). f_equal. rewrite Nat2Z.inj_div, !Nat2Z.inj_mul. done.
Qed.

Lemma planes_lengths (c : GpuConverter) tex s pitch mem (Hc : gc_ok c)
    (Eb : vp_blt (gc_setup c) tex = Some s) (Em : map_read s = Some (pitch, mem)) :
  Forall (fun r => length r = tw c) (plane_y s) /\ length (plane_y s) = th c /\
  Forall (fun r => length r = tw c) (plane_uv s) /\ length (plane_uv s) = (th c / 2)%nat.
Proof.
  destruct (map_layout _ _ _ _ _ _ _ Eb Em (gk_out _ Hc)) as (Hp & Hm & <- & <-). rewrite !length_pitched.
  split_and!; try done; apply pitched_length; intros; nia.
Qed.

(** The buffer a successful conversion leaves. *)
Lemma convert_packs (c : GpuConverter) tex s pitch mem (Hc : gc_ok c) (Ev : input_view_ok tex = true)
    (Eb : vp_blt (gc_setup c) tex = Some s) (Em : map_read s = Some (pitch, mem)) :
  exists rest, let buf := concat (plane_y s) ++ concat (plane_uv s) ++ rest in
  length buf = (tw c * th c * 3 / 2)%nat /\
  convert c tex = Some ({| gc_setup := gc_setup c; tw := tw c; th := th c; nv12_buf := buf |}, Some buf).
Proof.
  destruct (planes_lengths c tex s pitch mem Hc Eb Em) as (Hfy & Hny & Hfuv & Hnuv).
  destruct (map_layout _ _ _ _ _ _ _ Eb Em (gk_out _ Hc)) as (Hp & Hm & Hy & Huv).
  pose proof (gk_buf _ Hc) as Hb. unfold convert. rewrite Ev, Eb, Em. set (w := tw c) in *. set (h := th c) in *.
  assert (w * h + h / 2 * w <= w * h * 3 / 2)%nat as Ha.
  { apply Nat.div_le_lower_bound; [done|]. pose proof (Nat.Div0.mul_div_le h 2). nia. }
  assert (length (concat (plane_y s)) = (w * h)%nat) as Hlcy by (rewrite (length_concat_const w); [lia|done]).
  assert (length (concat (plane_uv s)) = (h / 2 * w)%nat) as Hlcuv by (rewrite (length_concat_const w); [by rewrite Hnuv|done]).
  exists (drop (w * h + h / 2 * w) (nv12_buf c)). cbn zeta.
  rewrite copy_rows_spec by (first [lia | intros; nia]). rewrite Hy.
  rewrite copy_rows_spec by (first [rewrite length_splice; lia | intros; nia]). rewrite Huv.
  assert (splice (w * h) (concat (plane_uv s)) (splice 0 (concat (plane_y s)) (nv12_buf c)) =
    concat (plane_y s) ++ concat (plane_uv s) ++ drop (w * h + h / 2 * w) (nv12_buf c)) as ->.
  { rewrite <- Hlcy at 1. etransitivity; [apply (splice_join 0); lia|].
    by rewrite splice_0, <- app_assoc, length_app, Hlcy, Hlcuv. }
  split; [|done]. rewrite !length_app, length_drop. lia.
Qed.

(** C17: the converter never reads outside the mapped picture nor writes outside
    its buffer; when the GPU delivers, the packed buffer is one from which the
    memory-fed encoder of that size gives its codec exactly the visible rows
    of the picture, whatever the row pitch and the parity of the height. *)
Theorem convert_feeds_encoder `{C : VideoCodec} (c : GpuConverter) (tex : VpTexture) (e : QsvEncoder C)
    (Hc : gc_ok c) (Hw : qs_width e = tw c) (Hh : qs_height e = th c) :
  exists c' r, convert c tex = Some (c', r) /\ gc_ok c' /\
  match convert_gpu c tex with
  | Some s =>
      match map_read s with
      | Some _ =>
          exists buf, r = Some buf /\
          option_map snd (qsv_encode e buf)
          = Some (encode_picture (qs_encoder e) (picture_of_planes (plane_y s) (plane_uv s)) (qs_pts e) (force_idr e)).2
      | None => r = None
      end
  | None => r = None
  end.
Proof.
  unfold convert_gpu. destruct (input_view_ok tex) eqn:Ev; [|exists c, None; unfold convert; by rewrite Ev].
  destruct (vp_blt (gc_setup c) tex) as [s|] eqn:Eb; [|exists c, None; unfold convert; by rewrite Ev, Eb].
  destruct (map_read s) as [[pitch mem]|] eqn:Em; [|exists c, None; unfold convert; by rewrite Ev, Eb, Em].
  destruct (convert_packs c tex s pitch mem Hc Ev Eb Em) as (rest & Hlen & ->).
  destruct (planes_lengths c tex s pitch mem Hc Eb Em) as (Hfy & Hny & Hfuv & Hnuv).
  eexists _, _. split; [reflexivity|]. split; [split; [apply (gk_out _ Hc)|done]|]. eexists. split; [reflexivity|].
  unfold qsv_encode. rewrite Hw, Hh, Hlen, Nat.ltb_irrefl.
  pose proof (plane_rows_concat (tw c) (plane_y s) [] (concat (plane_uv s) ++ rest) Hfy) as P1. cbn [app length] in P1.
  pose proof (plane_rows_concat (tw c) (plane_uv s) (concat (plane_y s)) rest Hfuv) as P2.
  rewrite (length_concat_const (tw c)), Hny, (Nat.mul_comm (th c)), Hnuv in P2 by done. rewrite Hny in P1.
  rewrite P1, P2. by destruct (encode_picture _ _ _ _).
Qed.
End ConverterProofs.

(** ** Draining *)

Definition is_packet (r : Received) : bool := match r with RPacket _ _ => true | _ => false end.

Definition received (p : option (list Z) * bool) : Received := RPacket p.1 p.2.

Lemma gpu_drain_packets ps stop rest : forall out, is_packet stop = false ->
  gpu_drain (map received ps ++ stop :: rest) out =
  match stop with
  | RError => None
  | _ => Some (out ++ map (fun p => {| ep_data := default [] p.1; ep_is_key_frame := p.2 |}) ps)
  end.
Proof.
  induction ps as [|[d k] ps IH]; intros out Hs; cbn [map app gpu_drain received fst snd].
  - rewrite app_nil_r. by destruct stop.
  - rewrite IH by done. by rewrite <- app_assoc.
Qed.

Lemma qsv_drain_packets ps stop rest : forall out, is_packet stop = false ->
  qsv_drain (map received ps ++ stop :: rest) out =
  Some (out ++ omap (fun p => (fun d => {| ep_data := d; ep_is_key_frame := p.2 |}) <$> p.1) ps).
Proof.
  induction ps as [|[[d|] k] ps IH]; intros out Hs; cbn [map app qsv_drain received fst snd].
  - rewrite app_nil_r. by destruct stop.
  - rewrite IH by done. by rewrite <- app_assoc.
  - by apply IH.
Qed.

(** when a codec answers with packets until it wants more input, both
    encoders return all of them in order; when it answers with an error, the
    memory-fed encoder hides the error and the zero-copy encoder drops the
    packets it had already taken out of the codec. *)
Theorem drains_differ (ps : list (list Z * bool)) (stop : Received) rest (Hstop : is_packet stop = false) :
  let answers := map received (prod_map Some id <$> ps) ++ stop :: rest in
  let packets := (fun p => {| ep_data := p.1; ep_is_key_frame := p.2 |}) <$> ps in
  qsv_drain answers [] = Some packets /\
  gpu_drain answers [] = match stop with RError => None | _ => Some packets end.
Proof.
  cbn zeta. rewrite gpu_drain_packets, qsv_drain_packets by done. split.
  - cbn [app]. f_equal. induction ps as [|[d k] ps IH]; [done|]. rewrite !fmap_cons. cbn. by f_equal.
  - destruct stop; try done; cbn [app]; do 2 f_equal; induction ps as [|[d k] ps IH]; cbn; by f_equal.
Qed.

Lemma drains_differ_witness :
  qsv_drain [RPacket (Some [1]) true; RError] [] = Some [{| ep_data := [1]; ep_is_key_frame := true |}] /\
  gpu_drain [RPacket (Some [1]) true; RError] [] = None.
Proof. apply (drains_differ [([1], true)] RError []). reflexivity. Defined.

(** ** The Media Foundation encoder *)

Lemma pack_u64_spec hi lo : is_u32 hi -> is_u32 lo ->
  pack_u64 hi lo / 2 ^ 32 = hi /\ pack_u64 hi lo mod 2 ^ 32 = lo.
Proof.
  unfold is_u32, pack_u64. intros Hh Hl. rewrite Z.lor_comm, lor_shiftl_add by lia.
  rewrite Z.div_add, Z.mod_add, Z.div_small, Z.mod_small by lia. lia.
Qed.

(** A transform has finitely many samples to give before it asks for input. *)
Class MediaLaws (M : MediaTransform) := {
  pending : Mft -> nat;
  pending_less t supplied t' s : process_output t supplied = (t', Produced s) -> (pending t' < pending t)%nat
}.

Section MfProofs.
Context `{L : MediaLaws}.

Lemma sample_to_packet_nonempty s p : sample_to_packet s = Some (Some p) -> ep_data p <> [].
Proof. unfold sample_to_packet. destruct (sample_data s) as [[|z l]|]; [done| |done]. by intros [= <-]. Qed.

Lemma drain_output_total provides n : forall t packets, (pending t < n)%nat ->
  Forall (fun p => ep_data p <> []) packets ->
  exists t' r, drain_output n provides t packets = Some (t', r) /\
  (forall ps, r = Some ps -> packets `prefix_of` ps /\ Forall (fun p => ep_data p <> []) ps).
Proof.
  induction n as [|n IH]; intros t packets Hn Hp; [lia|]. cbn [drain_output].
  destruct (process_output t (negb provides)) as [t' [[s|]| | |]] eqn:E;
    [| |eexists _, _; split; [done|]; by intros ? [= <-]..|eexists _, _; by split].
  - pose proof (pending_less _ _ _ _ E).
    destruct (sample_to_packet s) as [p|] eqn:Es; [|eexists _, _; by split].
    assert (Forall (fun p => ep_data p <> []) (packets ++ match p with Some p => [p] | None => [] end)) as Hp'.
    { apply Forall_app_2; [done|]. destruct p; constructor; [by eapply sample_to_packet_nonempty|done]. }
    destruct (IH t' _ ltac:(lia) Hp') as (t2 & r & Er & Hr). eexists _, _. split; [exact Er|].
    intros ps Hps. destruct (Hr ps Hps). split; [by eapply prefix_app_l|done].
  - pose proof (pending_less _ _ _ _ E). apply IH; [lia|done].
Qed.

(** a call of the software encoder returns: a picture smaller than a frame
    is refused and never reaches the transform, any other is given to it, and
    the packets that come back are never empty. *)
Theorem encode_nv12_total (e : H264Encoder M) (nv12 : list Z) (time_100ns dur_100ns : Z) :
  exists fuel e' r, encode_nv12 fuel e nv12 time_100ns dur_100ns = Some (e', r) /\
  (Z.of_nat (length nv12) < nv12_size (h_width e) (h_height e) -> e' = e /\ r = None) /\
  (forall ps, r = Some ps -> Forall (fun p => ep_data p <> []) ps).
Proof.
  unfold encode_nv12. destruct (_ <? _) eqn:E; bool_prop; [exists 0%nat, e, None; by split_and!|].
  destruct (process_input _ _ _ _) as [t []]; [|exists 0%nat; eexists _, _; split; [done|]; split; [lia|done]].
  destruct (drain_output_total (output_provides_samples e) (S (pending t)) t []) as (t' & r & Hr & Hps); [lia|constructor|].
  exists (S (pending t)). rewrite Hr. eexists _, _. split; [done|]. split; [lia|]. intros ps Hp. by apply Hps.
Qed.
End MfProofs.

(** ** The floating-point conversion *)

Lemma put_chroma_length bgra w j i uv uv' : put_chroma bgra w j i uv = Some uv' -> length uv' = length uv.
Proof.
  unfold put_chroma. destruct (bgra_at _ _); [|done]. destruct (chroma_f32 _). case_if; [|done].
  intros [= <-]. by rewrite !length_insert.
Qed.

Lemma put_chromas_total bgra w at_ : forall uv,
  Forall (fun p => is_Some (bgra_at bgra ((p.1 * w + p.2) * 4))) at_ ->
  if forallb (fun p => (p.1 / 2 * w + p.2 / 2 * 2 + 1 <? length uv)%nat) at_
  then exists uv', put_chromas bgra w at_ uv = Some uv' /\ length uv' = length uv
  else put_chromas bgra w at_ uv = None.
Proof.
  induction at_ as [|[j i] at_ IH]; intros uv Hs; cbn [forallb put_chromas fst snd]; [by eauto|].
  apply Forall_cons in Hs as [[p Hp] Hs]. cbn [fst snd] in Hp. unfold put_chroma. rewrite Hp.
  destruct (chroma_f32 p) as [u v]. destruct (_ <? _)%nat; cbn [andb]; [|done].
  specialize (IH (<[(j / 2 * w + i / 2 * 2 + 1)%nat:=v]> (<[(j / 2 * w + i / 2 * 2)%nat:=u]> uv)) Hs).
  rewrite !length_insert in IH. exact IH.
Qed.

Lemma evens_bound n k : k ∈ evens n -> exists m, k = (2 * m)%nat /\ (k < n)%nat.
Proof.
  unfold evens. intros (m & -> & Hm%elem_of_seq)%list_elem_of_fmap. exists m. split; [done|].
  pose proof (Nat.Div0.mul_div_le (n + 1) 2). lia.
Qed.

Lemma evens_mem n m : (2 * m < n)%nat -> (2 * m)%nat ∈ evens n.
Proof.
  intros H. unfold evens. apply list_elem_of_fmap. exists m. split; [done|]. apply elem_of_seq. split; [lia|].
  rewrite Nat.add_0_l. apply (Nat.div_le_lower_bound (n + 1) 2 (S m)); lia.
Qed.

Lemma double_half m : (2 * m / 2)%nat = m.
Proof. rewrite Nat.mul_comm. by apply Nat.div_mul. Qed.

(** Every chroma sample has its place exactly when both dimensions are even:
    otherwise the last of the last row has none. *)
Lemma chroma_fits w h : (0 < w)%nat -> (0 < h)%nat ->
  forallb (fun p => (p.1 / 2 * w + p.2 / 2 * 2 + 1 <? w * h / 2)%nat) (list_prod (evens h) (evens w)) =
  Nat.even w && Nat.even h.
Proof.
  intros Hw Hh. apply eq_true_iff_eq. rewrite forallb_forall, andb_true_iff. split.
  - intros H.
    assert (forall b a, (2 * b < h)%nat -> (2 * a < w)%nat -> (b * w + a * 2 + 1 < w * h / 2)%nat) as Hb.
    { intros b a Hj%evens_mem Hi%evens_mem. specialize (H ((2 * b)%nat, (2 * a)%nat)). rewrite in_prod_iff, <- !list_elem_of_In in H.
      cbn [fst snd] in H. rewrite !double_half in H. by apply Nat.ltb_lt, H. }
    clear H. pose proof (Nat.Div0.mul_div_le (w * h) 2) as Hd.
    destruct (Nat.Even_or_Odd h) as [[k Hk]|[k Hk]], (Nat.Even_or_Odd w) as [[m Hm]|[m Hm]].
    + split; apply Nat.even_spec; [by exists m|by exists k].
    + specialize (Hb (k - 1)%nat m). exfalso. nia.
    + specialize (Hb k (m - 1)%nat). exfalso. nia.
    + specialize (Hb k m). exfalso. nia.
  - intros [[m Hm]%Nat.even_spec [k Hk]%Nat.even_spec] [j i] [Hj%list_elem_of_In Hi%list_elem_of_In]%in_prod_iff.
    cbn [fst snd]. apply Nat.ltb_lt. destruct (evens_bound _ _ Hj) as (a & -> & ?), (evens_bound _ _ Hi) as (b & -> & ?).
    rewrite !double_half. subst. replace (2 * m * (2 * k))%nat with (2 * m * k * 2)%nat by lia.
    rewrite Nat.div_mul by done. nia.
Qed.

(** On a picture with bytes for every pixel the conversion runs to the end,
    filling both planes, exactly when both dimensions are even; otherwise it
    indexes past the chroma plane and panics. *)
Theorem bgra_to_nv12_even (bgra : list Z) (w h : nat) (Hw : (0 < w)%nat) (Hh : (0 < h)%nat)
    (Hlen : (w * h * 4 <= length bgra)%nat) :
  if Nat.even w && Nat.even h
  then exists out, bgra_to_nv12 bgra w h = Some out /\ length out = (w * h + w * h / 2)%nat
  else bgra_to_nv12 bgra w h = None.
Proof.
  assert (forall k, (k < w * h)%nat -> is_Some (bgra_at bgra (k * 4))) as Hat.
  { intros k Hk. unfold bgra_at. destruct (lookup_lt_is_Some_2 bgra (k * 4)) as [b ->]; [lia|].
    destruct (lookup_lt_is_Some_2 bgra (k * 4 + 1)) as [g ->]; [lia|].
    destruct (lookup_lt_is_Some_2 bgra (k * 4 + 2)) as [r ->]; [lia|]. eauto. }
  unfold bgra_to_nv12. rewrite (mapM_all _ (fun k => default 0 (luma_f32 <$> bgra_at bgra (k * 4)))).
  2: { intros k Hk%elem_of_seq. destruct (Hat k) as [p ->]; [lia|done]. }
  pose proof (put_chromas_total bgra w (list_prod (evens h) (evens w)) (replicate (w * h / 2) 0)) as Hp.
  assert (Forall (fun p => is_Some (bgra_at bgra ((p.1 * w + p.2) * 4))) (list_prod (evens h) (evens w))) as HF.
  { apply Forall_forall. intros [j i] [Hj%list_elem_of_In Hi%list_elem_of_In]%list_elem_of_In%in_prod_iff. cbn [fst snd].
    destruct (evens_bound _ _ Hj) as (? & _ & ?), (evens_bound _ _ Hi) as (? & _ & ?). apply Hat. nia. }
  specialize (Hp HF). rewrite length_replicate in Hp.
  rewrite <- (chroma_fits w h Hw Hh). destruct (forallb _ _).
  - destruct Hp as (uv & -> & Hl). eexists. split; [done|]. by rewrite length_app, length_map, length_seq, Hl.
  - by rewrite Hp.
Qed.

Lemma bgra_to_nv12_even_witness : bgra_to_nv12 (replicate 12 0) 1 3 = None.
Proof.
  refine (bgra_to_nv12_even (replicate 12 0) 1 3 _ _ _); [lia|lia|reflexivity].
Defined.

(** ** Instances the hypotheses hold of *)

(** A 2 by 3 picture mapped with rows of four bytes. *)
Definition small_processor : VideoProcessor := {|
  VpTexture := list Z;
  Nv12Surface := list Z;
  vp_create _ := true;
  input_view_ok _ := true;
  vp_blt s t := if bool_decide (vp_out s = (2, 3)) then Some (take 16 (t ++ replicate 16 0)) else None;
  map_read s := Some (4%nat, s)
|}.

Lemma small_laws : VpLaws small_processor.
Proof.
  refine {| plane_y := fun s : @Nv12Surface small_processor => pitched s 4 2 0 3;
            plane_uv := fun s : @Nv12Surface small_processor => pitched s 4 2 12 1 |}.
  intros setup tex s pitch mem w h Hb Hm Ho. cbn in Hb. rewrite Ho in Hb. case_bool_decide as E; [|done].
  injection E as Ew Eh. assert (w = 2%nat) as -> by lia. assert (h = 3%nat) as -> by lia.
  injection Hb as <-. injection Hm as <- <-. split_and!; [lia| |done|done].
  rewrite length_take, length_app. change (3 / 2)%nat with 1%nat. cbn [length]. lia.
Defined.

Definition plain_codec : VideoCodec := {|
  Codec := unit;
  Picture := list (list Z) * list (list Z);
  open_codec _ := Some tt;
  encode_picture _ p _ force := (tt, Some [{| ep_data := concat p.1 ++ concat p.2; ep_is_key_frame := force |}]);
  picture_of_planes y uv := (y, uv)
|}.

Definition small_converter : GpuConverter :=
  {| gc_setup := vp_setup 8 8 2 3; tw := 2; th := 3; nv12_buf := replicate 9 0 |}.
Definition small_encoder : QsvEncoder plain_codec :=
  {| qs_encoder := tt : @Codec plain_codec; qs_width := 2; qs_height := 3; qs_bitrate := 1000; qs_pts := 0;
     force_idr := true; qs_last_reconfig := 0 |}.

Lemma convert_feeds_encoder_witness :
  exists c' r, @convert small_processor small_converter [1; 2; 0; 0; 3; 4; 0; 0; 5; 6; 0; 0; 7; 8] = Some (c', r) /\
  exists buf, r = Some buf /\
    option_map snd (qsv_encode small_encoder buf) = Some (Some [{| ep_data := [1; 2; 3; 4; 5; 6; 7; 8]; ep_is_key_frame := true |}]).
Proof.
  destruct (@convert_feeds_encoder small_processor small_laws plain_codec small_converter
    [1; 2; 0; 0; 3; 4; 0; 0; 5; 6; 0; 0; 7; 8] small_encoder) as (c' & r & H1 & _ & H2);
    [by split|reflexivity|reflexivity|].
  exists c', r. split; [exact H1|exact H2].
Defined.

(** A transform that gives back what it was given, once. *)
Definition echo_transform : MediaTransform := {|
  Mft := list (list Z);
  MfSample := list Z;
  mft_create _ _ := Some ([], 0, 0);
  process_input t nv12 _ _ := (t ++ [nv12], true);
  process_output t _ := match t with s :: t => (t, Produced (Some s)) | [] => ([], NeedMoreInput) end;
  sample_data s := Some s;
  clean_point _ := Some 1
|}.

Lemma echo_laws : MediaLaws echo_transform.
Proof.
  refine {| pending := fun t : @Mft echo_transform => length t |}.
  intros [|s t] supplied t' o; cbn; [done|]. intros [= <- _]. lia.
Defined.

Lemma encode_nv12_total_witness : exists fuel e' r,
  @encode_nv12 echo_transform fuel
    {| transform := [] : @Mft echo_transform; h_width := 2; h_height := 2; output_provides_samples := true; output_buf_size := 6 |}
    [1; 2; 3; 4; 5; 6] 0 0 = Some (e', r).
Proof.
  destruct (@encode_nv12_total echo_transform echo_laws
    {| transform := [] : @Mft echo_transform; h_width := 2; h_height := 2; output_provides_samples := true; output_buf_size := 6 |}
    [1; 2; 3; 4; 5; 6] 0 0) as (fuel & e' & r & H & _). exists fuel, e', r. exact H.
Defined.
