(* ===== verification/Device.v ===== *)
(** * Devices and shared textures ([kmc-streamhost/src/xdevice.rs],
    [setup_zerocopy] and the life of a pipeline in [capture.rs])

    The references a capture pipeline takes, on the ledger of Ffmpeg.v.  A COM
    reference is released by Rust where its owner goes out of scope, which the
    functions spell out; the NT handle of the shared texture is an [isize]
    that only the program itself could close. *)
From S2P Require Import Prelude Ffmpeg.

(** ** Adapters *)

Record Luid := mkLuid { HighPart : Z; LowPart : Z }.

#[export] Instance luid_eq_dec : EqDecision Luid.
Proof. solve_decision. Defined.

(** The locally unique id of an adapter as one [i64]. *)
Definition pack_luid (l : Luid) : Z := Z.lor (Z.shiftl (HighPart l) 32) (LowPart l).

(** The loop over the adapters; [None] in the list is a description that
    cannot be read, which ends the function. *)
Fixpoint find_adapter (adapters : list (option Luid)) (target : Z) (i : nat) : option nat :=
  match adapters with
  | [] => None
  | None :: _ => None
  | Some l :: adapters => if pack_luid l =? target then Some i else find_adapter adapters target (S i)
  end.

Definition create_device_for_luid (adapters : list (option Luid)) (target : Z) : Fx (option (nat * nat)) :=
  match find_adapter adapters target 0 with
  | None => fx_ret None
  | Some _ =>
      let! dev := acquire KCom in
      match dev with
      | None => fx_ret None
      | Some dev =>
          let! ctx := acquire KCom in
          match ctx with
          | None => (let! _ := release KCom dev in fx_ret None)
          | Some ctx => fx_ret (Some (dev, ctx))
          end
      end
  end.

(** ** Textures *)

Record SharedTex := mkSharedTex { sh_tex : nat; sh_mutex : nat; sh_handle : nat }.

Definition create_shared_bgra : Fx (option SharedTex) :=
  let! tex := acquire KCom in
  match tex with
  | None => fx_ret None
  | Some tex =>
      let! mutex := acquire KCom in
      match mutex with
      | None => (let! _ := release KCom tex in fx_ret None)
      | Some mutex =>
          let! res1 := acquire KCom in
          match res1 with
          | None => (let! _ := release KCom mutex in let! _ := release KCom tex in fx_ret None)
          | Some res1 =>
              let! handle := acquire KHandle in
              match handle with
              | None =>
                  (let! _ := release KCom res1 in let! _ := release KCom mutex in let! _ := release KCom tex in fx_ret None)
              | Some handle =>
                  let! _ := release KCom res1 in
                  fx_ret (Some {| sh_tex := tex; sh_mutex := mutex; sh_handle := handle |})
              end
          end
      end
  end.

(** A [SharedTex] goes out of scope. *)
Definition drop_shared (s : SharedTex) : Fx unit :=
  let! _ := release KCom (sh_tex s) in release KCom (sh_mutex s).

Definition open_shared : Fx (option (nat * nat)) :=
  let! dev1 := acquire KCom in
  match dev1 with
  | None => fx_ret None
  | Some dev1 =>
      let! tex := acquire KCom in
      match tex with
      | None => (let! _ := release KCom dev1 in fx_ret None)
      | Some tex =>
          let! mutex := acquire KCom in
          match mutex with
          | None => (let! _ := release KCom tex in let! _ := release KCom dev1 in fx_ret None)
          | Some mutex => (let! _ := release KCom dev1 in fx_ret (Some (tex, mutex)))
          end
      end
  end.

Definition create_bgra : Fx (option nat) := acquire KCom.

(** ** The encode side of a pipeline *)

Record ZcState := mkZcState {
  zc_ctx_b : nat; zc_shared_b : nat; zc_mutex_b : nat; zc_local_b : nat; zc_converter : nat;
  zc_encoder : FfEncoder; zc_dev_b : nat
}.

(** The converter is one reference; its parts live and die with it. *)
Definition setup_zerocopy (adapters : list (option Luid)) (luid : Z) : Fx (option ZcState) :=
  let! dc := create_device_for_luid adapters luid in
  match dc with
  | None => fx_ret None
  | Some (dev, ctx) =>
      let! sm := open_shared in
      match sm with
      | None => (let! _ := release KCom ctx in let! _ := release KCom dev in fx_ret None)
      | Some (shared, mutex) =>
          let! loc := create_bgra in
          match loc with
          | None =>
              (let! _ := release KCom mutex in let! _ := release KCom shared in
               let! _ := release KCom ctx in let! _ := release KCom dev in fx_ret None)
          | Some loc =>
              let! conv := acquire KCom in
              match conv with
              | None =>
                  (let! _ := release KCom loc in let! _ := release KCom mutex in let! _ := release KCom shared in
                   let! _ := release KCom ctx in let! _ := release KCom dev in fx_ret None)
              | Some conv =>
                  let! enc := encoder_new 6 true in
                  match enc with
                  | None =>
                      (let! _ := release KCom conv in let! _ := release KCom loc in let! _ := release KCom mutex in
                       let! _ := release KCom shared in let! _ := release KCom ctx in let! _ := release KCom dev in fx_ret None)
                  | Some enc =>
                      fx_ret (Some {| zc_ctx_b := ctx; zc_shared_b := shared; zc_mutex_b := mutex; zc_local_b := loc;
                                      zc_converter := conv; zc_encoder := enc; zc_dev_b := dev |})
                  end
              end
          end
      end
  end.

Definition drop_zerocopy (z : ZcState) : Fx unit :=
  let! _ := release KCom (zc_ctx_b z) in
  let! _ := release KCom (zc_shared_b z) in
  let! _ := release KCom (zc_mutex_b z) in
  let! _ := release KCom (zc_local_b z) in
  let! _ := release KCom (zc_converter z) in
  let! _ := encoder_drop (zc_encoder z) in
  release KCom (zc_dev_b z).

(** A pipeline from the first frame to its end, its codec reopened [n] times:
    whether a shared texture was made. *)
Definition pipeline_life (adapters : list (option Luid)) (luid : Z) (n : nat) : Fx bool :=
  let! st := create_shared_bgra in
  match st with
  | None => fx_ret false
  | Some st =>
      let! have_luid := ask in
      if negb have_luid then (let! _ := drop_shared st in fx_ret true)
      else
        let! zc := setup_zerocopy adapters luid in
        match zc with
        | None => (let! _ := drop_shared st in fx_ret true)
        | Some z =>
            let! e := reopen_times n (zc_encoder z) in
            let! _ := drop_zerocopy {| zc_ctx_b := zc_ctx_b z; zc_shared_b := zc_shared_b z; zc_mutex_b := zc_mutex_b z;
                                       zc_local_b := zc_local_b z; zc_converter := zc_converter z; zc_encoder := e;
                                       zc_dev_b := zc_dev_b z |} in
            let! _ := drop_shared st in
            fx_ret true
        end
  end.

(** ** What each function leaves owned *)

Ltac fx_give_up := repeat match goal with H : owns _ _ ?l |- fx_wp _ _ ?l => first [by apply wp_ret | fx_step H] end.

Lemma create_device_spec base hs adapters target l : owns base hs l ->
  fx_wp (create_device_for_luid adapters target)
    (fun l r => match r with
                | Some dc => owns base ((dc.2, KCom) :: (dc.1, KCom) :: hs) l
                | None => owns base hs l
                end) l.
Proof.
  intros H. unfold create_device_for_luid. destruct (find_adapter adapters target 0); [|by apply wp_ret].
  fx_step H as dev; destruct dev; [|by apply wp_ret].
  fx_step H as ctx; destruct ctx; fx_give_up.
Qed.

Definition shared_handles (s : SharedTex) : list (nat * FKind) := [(sh_tex s, KCom); (sh_mutex s, KCom)].

(** The handle is owned besides the references of the value. *)
Lemma create_shared_spec base hs l : owns base hs l ->
  fx_wp create_shared_bgra
    (fun l r => match r with
                | Some s => owns base (shared_handles s ++ (sh_handle s, KHandle) :: hs) l
                | None => owns base hs l
                end) l.
Proof.
  intros H. unfold create_shared_bgra. fx_step H as tex; destruct tex as [tex|]; [|by apply wp_ret].
  fx_step H as mutex; destruct mutex as [mutex|]; [|fx_give_up].
  fx_step H as res1; destruct res1 as [res1|]; [|fx_give_up].
  fx_step H as handle; destruct handle as [handle|]; [|fx_give_up].
  apply wp_bind. eapply wp_mono.
  - eapply (wp_release base res1 KCom ([(mutex, KCom); (tex, KCom)] ++ (handle, KHandle) :: hs)); [|exact H].
    cbn [app]. solve_Permutation.
  - intros ? ? H'. apply wp_ret. eapply owns_perm; [|exact H']. cbn. solve_Permutation.
Qed.

Lemma drop_shared_spec base hs s l : owns base (shared_handles s ++ hs) l ->
  fx_wp (drop_shared s) (fun l _ => owns base hs l) l.
Proof. intros H. unfold drop_shared. cbn [shared_handles app] in H. fx_step H. by eapply wp_release. Qed.

Lemma open_shared_spec base hs l : owns base hs l ->
  fx_wp open_shared
    (fun l r => match r with
                | Some tm => owns base ((tm.2, KCom) :: (tm.1, KCom) :: hs) l
                | None => owns base hs l
                end) l.
Proof.
  intros H. unfold open_shared. fx_step H as dev1; destruct dev1 as [dev1|]; [|by apply wp_ret].
  fx_step H as tex; destruct tex as [tex|]; [|fx_give_up].
  fx_step H as mutex; destruct mutex as [mutex|]; [|fx_give_up].
  apply wp_bind. eapply wp_mono.
  - eapply (wp_release base dev1 KCom ((mutex, KCom) :: (tex, KCom) :: hs)); [|exact H]. solve_Permutation.
  - intros ? ? H'. by apply wp_ret.
Qed.

Definition zc_handles (z : ZcState) : list (nat * FKind) :=
  [(zc_ctx_b z, KCom); (zc_shared_b z, KCom); (zc_mutex_b z, KCom); (zc_local_b z, KCom); (zc_converter z, KCom)] ++
  enc_handles (zc_encoder z) ++ [(zc_dev_b z, KCom)].

(** A setup that fails may leave the encoder's references behind, and none
    of its own. *)
Lemma setup_zerocopy_spec base hs adapters luid l : owns base hs l ->
  fx_wp (setup_zerocopy adapters luid)
    (fun l r => match r with
                | Some z => owns base (zc_handles z ++ hs) l
                | None => exists left, owns base (left ++ hs) l
                end) l.
Proof.
  intros H. unfold setup_zerocopy. apply wp_bind. eapply wp_mono; [by apply create_device_spec|].
  clear H l. intros l [[dev ctx]|] H; [|apply wp_ret; by exists []]. cbn [fst snd] in H.
  apply wp_bind. eapply wp_mono; [apply open_shared_spec, H|].
  clear H l. intros l [[shared mutex]|] H; [cbn [fst snd] in H|do 2 fx_step H; apply wp_ret; by exists []].
  unfold create_bgra. fx_step H as loc; destruct loc as [loc|]; [|do 4 fx_step H; apply wp_ret; by exists []].
  fx_step H as conv; destruct conv as [conv|]; [|do 5 fx_step H; apply wp_ret; by exists []].
  apply wp_bind. eapply wp_mono; [apply encoder_new_spec, H|]. clear H. intros le [enc|] H.
  - apply wp_ret. eapply owns_perm; [|exact H]. unfold zc_handles.
    cbn [zc_ctx_b zc_shared_b zc_mutex_b zc_local_b zc_converter zc_encoder zc_dev_b]. solve_Permutation.
  - assert (exists left, owns base ([(conv, KCom); (loc, KCom); (mutex, KCom); (shared, KCom); (ctx, KCom); (dev, KCom)] ++ left ++ hs) le)
      as [left H'].
    { destruct H as [[H _]|(left & H & _)]; [by exists []|]. exists left. eapply owns_perm; [|exact H]. solve_Permutation. }
    clear H. cbn [app] in H'. do 6 fx_step H'. apply wp_ret. by exists left.
Qed.

Lemma drop_zerocopy_spec base hs z l : owns base (zc_handles z ++ hs) l ->
  fx_wp (drop_zerocopy z) (fun l _ => owns base hs l) l.
Proof.
  intros H. unfold drop_zerocopy, zc_handles in *. rewrite <- !app_assoc in H. cbn [app] in H.
  do 5 fx_step H. apply wp_bind. eapply wp_mono; [apply encoder_drop_spec, H|]. clear H. intros ? ? H.
  by eapply wp_release.
Qed.

Definition zc_with (z : ZcState) (e : FfEncoder) : ZcState :=
  {| zc_ctx_b := zc_ctx_b z; zc_shared_b := zc_shared_b z; zc_mutex_b := zc_mutex_b z; zc_local_b := zc_local_b z;
     zc_converter := zc_converter z; zc_encoder := e; zc_dev_b := zc_dev_b z |}.

Lemma zc_reopen_spec base hs z n l : owns base (zc_handles z ++ hs) l ->
  fx_wp (reopen_times n (zc_encoder z)) (fun l e => owns base (zc_handles (zc_with z e) ++ hs) l) l.
Proof.
  intros H. eapply wp_mono.
  - apply (reopen_times_spec base ([(zc_ctx_b z, KCom); (zc_shared_b z, KCom); (zc_mutex_b z, KCom); (zc_local_b z, KCom);
      (zc_converter z, KCom); (zc_dev_b z, KCom)] ++ hs)).
    eapply owns_perm; [|exact H]. unfold zc_handles. solve_Permutation.
  - intros l' e H'. eapply owns_perm; [|exact H']. unfold zc_handles, zc_with.
    cbn [zc_ctx_b zc_shared_b zc_mutex_b zc_local_b zc_converter zc_encoder zc_dev_b]. solve_Permutation.
Qed.

(** ** Properties *)

Lemma find_adapter_None adapters target : forall i,
  find_adapter adapters target i = None ->
  (exists k, adapters !! k = Some None /\ forall j l, (j < k)%nat -> adapters !! j = Some (Some l) -> pack_luid l <> target) \/
  (forall j l, adapters !! j = Some (Some l) -> pack_luid l <> target).
Proof.
  induction adapters as [|[l|] adapters IH]; intros i H; cbn [find_adapter] in H.
  - right. intros j l Hj. by rewrite lookup_nil in Hj.
  - case_match eqn:E; [done|]. apply Z.eqb_neq in E. destruct (IH _ H) as [(k & Hk & Hb)|Hb].
    + left. exists (S k). split; [done|]. intros [|j] l' Hj Hl; cbn in Hl; [by simplify_eq|]. eapply (Hb j); [lia|done].
    + right. intros [|j] l' Hl; cbn in Hl; [by simplify_eq|]. by eapply (Hb j).
  - left. exists O. split; [done|]. lia.
Qed.

Lemma find_adapter_Some adapters target : forall i n,
  find_adapter adapters target i = Some n -> exists l, (i <= n)%nat /\ adapters !! (n - i)%nat = Some (Some l) /\ pack_luid l = target.
Proof.
  induction adapters as [|[l|] adapters IH]; intros i n H; cbn [find_adapter] in H; try done.
  case_match eqn:E.
  - simplify_eq. exists l. rewrite Nat.sub_diag. apply Z.eqb_eq in E. repeat split; auto.
  - destruct (IH _ _ H) as (l' & Hle & Hl & Hp). exists l'. split; [lia|]. split; [|done].
    replace (n - i)%nat with (S (n - S i)) by lia. done.
Qed.

Definition luid_ok (l : Luid) : Prop := -2 ^ 31 <= HighPart l < 2 ^ 31 /\ 0 <= LowPart l < 2 ^ 32.

(** The packed id names the adapter: neither part is lost. *)
Lemma pack_luid_split l : luid_ok l -> pack_luid l = HighPart l * 2 ^ 32 + LowPart l.
Proof.
  intros [H1 H2]. unfold pack_luid. rewrite Z.lor_comm, lor_shiftl_add by lia. lia.
Qed.

Lemma pack_luid_inj l l' : luid_ok l -> luid_ok l' -> pack_luid l = pack_luid l' -> l = l'.
Proof.
  intros H H'. rewrite !pack_luid_split by done. destruct l as [h o], l' as [h' o'], H, H'; cbn in *.
  intros. f_equal; lia.
Qed.

(** The device of the encoder is made on the adapter of the capture device:
    among adapters with their own ids the one found from the packed id is it,
    whatever its place and the sign of the high part. *)
Theorem encode_on_capture_adapter (adapters : list Luid) (k : nat) (l : Luid)
    (Hok : Forall luid_ok adapters) (Hdup : NoDup adapters) (Hk : adapters !! k = Some l) :
  find_adapter (Some <$> adapters) (pack_luid l) 0 = Some k.
Proof.
  destruct (find_adapter _ _ 0) as [n|] eqn:E.
  - apply find_adapter_Some in E as (l' & _ & Hl & Hp). rewrite Nat.sub_0_r, list_lookup_fmap in Hl.
    destruct (adapters !! n) as [l2|] eqn:Hn; cbn in Hl; [|done]. injection Hl as ->.
    rewrite Forall_lookup in Hok. f_equal. apply (NoDup_lookup adapters n k l Hdup); [|done].
    rewrite Hn. f_equal. apply pack_luid_inj; eauto.
  - apply find_adapter_None in E as [(j & Hj & _)|Hb].
    + rewrite list_lookup_fmap in Hj. destruct (adapters !! j); by simplify_eq/=.
    + exfalso. apply (Hb k l); [|done]. by rewrite list_lookup_fmap, Hk.
Qed.

Lemma handle_left base left h hs l : owns base (left ++ (h, KHandle) :: hs) l ->
  base !! h = None /\ lg_owned l !! h = Some KHandle.
Proof. intros H. apply (ow_in _ _ _ H). apply elem_of_app. right. by left. Qed.

(** Whatever its calls answer, a pipeline from its first frame to its end
    frees nothing twice and nothing it does not own; and each time it made a
    shared texture the handle of that texture, which no other value owns, is
    still open when the pipeline is gone. *)
Theorem pipeline_leaks_handle adapters luid n l (Hl : ledger_ok l) :
  exists l' shared, pipeline_life adapters luid n l = Some (l', shared) /\
  (shared = false -> lg_owned l' = lg_owned l) /\
  (shared = true -> exists h, lg_owned l !! h = None /\ lg_owned l' !! h = Some KHandle).
Proof.
  assert (fx_wp (pipeline_life adapters luid n) (fun l' b =>
    (b = false -> lg_owned l' = lg_owned l) /\
    (b = true -> exists h, lg_owned l !! h = None /\ lg_owned l' !! h = Some KHandle)) l) as H.
  { unfold pipeline_life. apply wp_bind. eapply wp_mono; [apply (create_shared_spec (lg_owned l) []), owns_nil, Hl|].
    intros l1 [st|] H; [|apply wp_ret; split; [by intros _; apply owns_back|done]].
    assert (forall left lx, owns (lg_owned l) (shared_handles st ++ left ++ [(sh_handle st, KHandle)]) lx ->
      fx_wp (let! _ := drop_shared st in fx_ret true) (fun l' b =>
        (b = false -> lg_owned l' = lg_owned l) /\
        (b = true -> exists h, lg_owned l !! h = None /\ lg_owned l' !! h = Some KHandle)) lx) as Hend.
    { intros left lx Hx. apply wp_bind. eapply wp_mono; [apply drop_shared_spec, Hx|]. intros ly [] Hy. apply wp_ret.
      split; [done|]. intros _. exists (sh_handle st). by eapply handle_left. }
    fx_step H as b; destruct b; cbn [negb]; [|by apply (Hend [])].
    apply wp_bind. eapply wp_mono; [apply setup_zerocopy_spec, H|]. clear H. intros l2 [z|] H.
    - apply wp_bind. eapply wp_mono; [apply zc_reopen_spec, H|]. clear H. intros l3 e H.
      apply wp_bind. eapply wp_mono; [apply drop_zerocopy_spec, H|]. clear H. intros l4 [] H. by apply (Hend []).
    - destruct H as [left H]. apply (Hend left). eapply owns_perm; [|exact H]. solve_Permutation. }
  unfold fx_wp in H. destruct (pipeline_life adapters luid n l) as [[l' b]|]; [eauto|done].
Qed.

(** ** Witnesses *)

Lemma encode_on_capture_adapter_witness :
  find_adapter (Some <$> [mkLuid 0 5; mkLuid (-1) 4294967295; mkLuid 0 4294967295]) (pack_luid (mkLuid 0 4294967295)) 0 = Some 2%nat.
Proof.
  apply encode_on_capture_adapter; [|by apply (bool_decide_unpack _); vm_compute|done].
  repeat constructor; cbn; lia.
Defined.

(** Every call succeeds; the pipeline is reopened twice. *)
Lemma pipeline_leaks_handle_witness : exists l' h,
  pipeline_life [Some (mkLuid 0 7)] 7 2 (l_empty []) = Some (l', true) /\ lg_owned l' !! h = Some KHandle.
Proof.
  destruct (pipeline_leaks_handle [Some (mkLuid 0 7)] 7 2 (l_empty [])) as (l' & b & Hr & Hf & Ht); [apply l_empty_ok|].
  exists l'. destruct b.
  - destruct (Ht eq_refl) as (h & _ & Hh). exists h. by split.
  - exfalso. vm_compute in Hr. discriminate Hr.
Defined.
