(* ===== verification/Capture.v ===== *)
(** * Capture and encoding ([kmc-streamhost/src/capture.rs], [xdevice.rs])

    The capture callback runs on one Direct3D device, the encode loop on
    another; they share one texture behind a keyed mutex.  Each places between
    two calls of the graphics API is a program counter, so that the two
    threads interleave as they do in the code.  When the texture cannot be
    shared the frames go through memory ([FrameSlot], [encode_loop]).

    The keyed mutex is the class [KeyedMutex], the GPU colour conversion the
    class [GraphicsDevice], FFmpeg the class [VideoCodec] of Encoder.v. *)
From Stdlib Require Import Floats.SpecFloat.
From S2P Require Import Prelude Float Bitrate VideoHost Encoder.

(** ** The graphics API *)

(** A keyed mutex is held, or free with the key it was last released with. *)
Class KeyedMutex := {
  Mutex : Type;
  km_new : Mutex;
  km_acquire : Mutex -> Z -> option Mutex;
  km_release : Mutex -> Z -> option Mutex;
  km_free : Mutex -> option Z
}.

Class KeyedMutexLaws (K : KeyedMutex) : Prop := {
  km_new_free : km_free km_new = Some 0;
  km_acquire_free m k m' : km_acquire m k = Some m' -> km_free m = Some k /\ km_free m' = None;
  km_acquire_can m k : km_free m = Some k -> is_Some (km_acquire m k);
  km_release_free m k m' : km_release m k = Some m' -> km_free m = None /\ km_free m' = Some k;
  km_release_can m k : km_free m = None -> is_Some (km_release m k)
}.

(** Textures of the capture, and their conversion to an NV12 picture on the
    GPU and to NV12 bytes in memory. *)
Class GraphicsDevice (C : VideoCodec) := {
  Tex : Type;
  to_picture : Tex -> Picture;
  to_nv12 : Tex -> list Z
}.

Definition KEY_CAPTURE : Z := 0.
Definition KEY_ENCODE : Z := 1.

(** [acquire_sync]: [0] is success, [0x102] a time-out, the rest an error. *)
Inductive Acquired := AcqOk | AcqTimeout | AcqErr.

Definition acquire_result (hr : Z) : Acquired :=
  if hr =? 0 then AcqOk else if hr =? 0x102 then AcqTimeout else AcqErr.

(** ** The slot between capture and encoder in memory *)

Record FrameSlot := mkFrameSlot { fs_inner : option (list Z); fs_generation : Z }.

Definition frame_slot_new : FrameSlot := {| fs_inner := None; fs_generation := 0 |}.

Definition store (s : FrameSlot) (nv12 : list Z) : FrameSlot :=
  {| fs_inner := Some nv12; fs_generation := u64 (fs_generation s + 1) |}.

Definition load (s : FrameSlot) : option (list Z * Z) :=
  buf <-? fs_inner s; Some (buf, fs_generation s).

(** [during]: what the capture stores while the lock is released to wait. *)
Definition wait_new (s : FrameSlot) (last_gen : Z) (during : list (list Z)) : FrameSlot * option (list Z * Z) :=
  let s := if fs_generation s =? last_gen then foldl store s during else s in
  (s, load s).

(** ** Time *)

(** [Duration::as_secs_f64] of nanoseconds *)
Definition as_secs_f64 (ns : Z) : f64 :=
  f64_add (f64_of_Z (ns / 1000000000)) (f64_div (f64_of_Z (ns mod 1000000000)) (f64_of_Z 1000000000)).

Definition rtp_ts (elapsed : Z) : Z := u32_of_f64 (f64_mul (as_secs_f64 elapsed) (f64_of_Z 90000)).

(** [Duration::from_secs_f64], rounded to the nearest nanosecond *)
Definition from_secs_f64 (x : f64) : Z :=
  match x with
  | S754_finite false m e =>
      if e <? 0 then
        let n := Zpos m * 1000000000 in
        let d := 2 ^ (- e) in
        let q := n / d in
        let r := 2 * (n mod d) in
        if r <? d then q else if d <? r then q + 1 else if Z.even q then q else q + 1
      else Zpos m * 2 ^ e * 1000000000
  | _ => 0
  end.

Definition frame_interval (fps : Z) : Z := from_secs_f64 (f64_div (f64_of_Z 1) (f64_of_Z fps)).

(** ** Settings and shared flags ([CaptureFlags]) *)

Record CaptureFlags := mkCaptureFlags {
  cf_width : nat;
  cf_height : nat;
  cf_fps : Z;
  cf_bitrate_bps : Z;
  cf_sender : list EncodedFrame;
  cf_sender_open : bool;
  stop_rx : bool;
  idr_req : bool;
  cf_client_active : bool;
  cf_bitrate : BitrateController
}.

Definition set_idr (f : CaptureFlags) (b : bool) : CaptureFlags :=
  {| cf_width := cf_width f; cf_height := cf_height f; cf_fps := cf_fps f; cf_bitrate_bps := cf_bitrate_bps f;
     cf_sender := cf_sender f; cf_sender_open := cf_sender_open f; stop_rx := stop_rx f; idr_req := b;
     cf_client_active := cf_client_active f; cf_bitrate := cf_bitrate f |}.

Definition set_controller (f : CaptureFlags) (c : BitrateController) : CaptureFlags :=
  {| cf_width := cf_width f; cf_height := cf_height f; cf_fps := cf_fps f; cf_bitrate_bps := cf_bitrate_bps f;
     cf_sender := cf_sender f; cf_sender_open := cf_sender_open f; stop_rx := stop_rx f; idr_req := idr_req f;
     cf_client_active := cf_client_active f; cf_bitrate := c |}.

Definition set_sent (f : CaptureFlags) (l : list EncodedFrame) : CaptureFlags :=
  {| cf_width := cf_width f; cf_height := cf_height f; cf_fps := cf_fps f; cf_bitrate_bps := cf_bitrate_bps f;
     cf_sender := l; cf_sender_open := cf_sender_open f; stop_rx := stop_rx f; idr_req := idr_req f;
     cf_client_active := cf_client_active f; cf_bitrate := cf_bitrate f |}.

Definition encoded_frame (elapsed : Z) (p : EncodedPacket) : EncodedFrame :=
  {| ef_data := ep_data p; ef_is_key_frame := ep_is_key_frame p; ef_rtp_timestamp := rtp_ts elapsed |}.

(** The sends of one encoded picture; [false] when the channel is closed. *)
Definition send_packets (f : CaptureFlags) (elapsed : Z) (ps : list EncodedPacket) : CaptureFlags * bool :=
  match ps with
  | [] => (f, true)
  | _ => if cf_sender_open f then (set_sent f (cf_sender f ++ map (encoded_frame elapsed) ps), true) else (f, false)
  end.

(** ** Choosing the mode *)

Record SetupMsg := mkSetupMsg { sm_luid : Z; sm_handle : Z; sm_src_w : Z; sm_src_h : Z }.

Inductive CaptureMode := CapUndecided | CapZeroCopy | CapRam | CapFailed.
Inductive EncodeMode := EncWaiting | EncZeroCopy | EncRam | EncExited.

(** The first frame: [shared] is the adapter and the handle of the shared
    texture, if it could be made; [reply] what the encode thread answers
    within 5 s ([None] for a time-out or a closed channel). *)
Definition setup_message (shared : option (Z * Z)) (fw fh : Z) : SetupMsg :=
  match shared with
  | Some (luid, handle) => {| sm_luid := luid; sm_handle := handle; sm_src_w := fw; sm_src_h := fh |}
  | None => {| sm_luid := 0; sm_handle := 0; sm_src_w := fw; sm_src_h := fh |}
  end.

Definition choose_capture_mode (shared : option (Z * Z)) (reply : option bool) (converter_ok : bool) : CaptureMode :=
  match shared, reply with
  | Some _, Some true => CapZeroCopy
  | _, _ => if converter_ok then CapRam else CapFailed
  end.

(** [msg] is [None] when no frame came within 10 s; [setup] is the result of
    [setup_zerocopy].  The second component is what is sent to the capture. *)
Definition encode_thread (msg : option SetupMsg) (setup : bool) : EncodeMode * option bool :=
  match msg with
  | None => (EncExited, None)
  | Some m =>
      if sm_handle m =? 0 then (EncRam, None)
      else if setup then (EncZeroCopy, Some true) else (EncRam, Some false)
  end.

Definition SETUP_TIMEOUT : Z := 10 * 1000000000.
Definition MODE_TIMEOUT : Z := 5 * 1000000000.

(** Both threads: the first frame arrives [t_first] after the encode thread
    began to wait, and the set-up on the second device takes [t_setup]. *)
Definition negotiate_mode (t_first t_setup fw fh : Z) (shared : option (Z * Z)) (setup converter_ok : bool)
  : CaptureMode * EncodeMode :=
  let msg := if t_first <? SETUP_TIMEOUT then Some (setup_message shared fw fh) else None in
  let '(mode, answer) := encode_thread msg setup in
  let reply := if t_setup <? MODE_TIMEOUT then answer else None in
  (choose_capture_mode shared reply converter_ok, mode).

(** ** The two threads *)

Section Handoff.
Context {K : KeyedMutex} {C : VideoCodec} {G : GraphicsDevice C}.
Context (powf : f64 -> f64 -> f64).

(** Where [on_frame_arrived] stands: it holds a texture, waits for the
    mutex, then copies and releases. *)
Inductive CapPc := CapIdle | CapAcquire (t : Tex) | CapCopy (t : Tex) | CapRelease | CapStopped.

(** Where [zerocopy_loop] stands; [idr] is its local variable. *)
Inductive EncPc :=
| EncTop | EncAcquire (idr : bool) | EncCopy (idr : bool) | EncRelease (idr : bool) | EncConvert (idr : bool)
| EncSubmit (idr : bool) (elapsed : Z) | EncStopped.

(** [h_written], [h_read] and [h_submitted] are histories: the textures
    copied into the shared one, those copied out of it, and those given to
    the encoder with the flag they were submitted with. *)
Record Handoff := mkHandoff {
  h_mutex : Mutex;
  h_shared : Tex;
  h_local : Tex;
  h_cap : CapPc;
  h_enc : EncPc;
  h_encoder : ZeroCopyEncoder C;
  h_frames : Z;
  h_start : Z;
  h_mode : CaptureMode;
  h_slot : FrameSlot;
  h_flags : CaptureFlags;
  h_written : list Tex;
  h_read : list Tex;
  h_submitted : list (Tex * bool)
}.

Definition set_cap (h : Handoff) (pc : CapPc) (m : Mutex) : Handoff :=
  {| h_mutex := m; h_shared := h_shared h; h_local := h_local h; h_cap := pc; h_enc := h_enc h;
     h_encoder := h_encoder h; h_frames := h_frames h; h_start := h_start h; h_mode := h_mode h; h_slot := h_slot h;
     h_flags := h_flags h; h_written := h_written h; h_read := h_read h; h_submitted := h_submitted h |}.

Definition set_enc (h : Handoff) (pc : EncPc) (m : Mutex) : Handoff :=
  {| h_mutex := m; h_shared := h_shared h; h_local := h_local h; h_cap := h_cap h; h_enc := pc;
     h_encoder := h_encoder h; h_frames := h_frames h; h_start := h_start h; h_mode := h_mode h; h_slot := h_slot h;
     h_flags := h_flags h; h_written := h_written h; h_read := h_read h; h_submitted := h_submitted h |}.

Definition set_flags (h : Handoff) (f : CaptureFlags) : Handoff :=
  {| h_mutex := h_mutex h; h_shared := h_shared h; h_local := h_local h; h_cap := h_cap h; h_enc := h_enc h;
     h_encoder := h_encoder h; h_frames := h_frames h; h_start := h_start h; h_mode := h_mode h; h_slot := h_slot h;
     h_flags := f; h_written := h_written h; h_read := h_read h; h_submitted := h_submitted h |}.

Definition set_slot (h : Handoff) (s : FrameSlot) : Handoff :=
  {| h_mutex := h_mutex h; h_shared := h_shared h; h_local := h_local h; h_cap := h_cap h; h_enc := h_enc h;
     h_encoder := h_encoder h; h_frames := h_frames h; h_start := h_start h; h_mode := h_mode h; h_slot := s;
     h_flags := h_flags h; h_written := h_written h; h_read := h_read h; h_submitted := h_submitted h |}.

Definition set_encoder (h : Handoff) (e : ZeroCopyEncoder C) (frames : Z) : Handoff :=
  {| h_mutex := h_mutex h; h_shared := h_shared h; h_local := h_local h; h_cap := h_cap h; h_enc := h_enc h;
     h_encoder := e; h_frames := frames; h_start := h_start h; h_mode := h_mode h; h_slot := h_slot h;
     h_flags := h_flags h; h_written := h_written h; h_read := h_read h; h_submitted := h_submitted h |}.

(** [CopyResource] in either direction and the submission, with their history. *)
Definition copy_to_shared (h : Handoff) (t : Tex) : Handoff :=
  {| h_mutex := h_mutex h; h_shared := t; h_local := h_local h; h_cap := h_cap h; h_enc := h_enc h;
     h_encoder := h_encoder h; h_frames := h_frames h; h_start := h_start h; h_mode := h_mode h; h_slot := h_slot h;
     h_flags := h_flags h; h_written := h_written h ++ [t]; h_read := h_read h; h_submitted := h_submitted h |}.

Definition copy_to_local (h : Handoff) : Handoff :=
  {| h_mutex := h_mutex h; h_shared := h_shared h; h_local := h_shared h; h_cap := h_cap h; h_enc := h_enc h;
     h_encoder := h_encoder h; h_frames := h_frames h; h_start := h_start h; h_mode := h_mode h; h_slot := h_slot h;
     h_flags := h_flags h; h_written := h_written h; h_read := h_read h ++ [h_shared h];
     h_submitted := h_submitted h |}.

Definition note_submitted (h : Handoff) (idr : bool) : Handoff :=
  {| h_mutex := h_mutex h; h_shared := h_shared h; h_local := h_local h; h_cap := h_cap h; h_enc := h_enc h;
     h_encoder := h_encoder h; h_frames := h_frames h; h_start := h_start h; h_mode := h_mode h; h_slot := h_slot h;
     h_flags := h_flags h; h_written := h_written h; h_read := h_read h;
     h_submitted := h_submitted h ++ [(h_local h, idr)] |}.

(** [let _ = ReleaseSync(key)]: an error is ignored. *)
Definition release_sync (m : Mutex) (key : Z) : Mutex := default m (km_release m key).

(** *** [on_frame_arrived]; [None] for a step that is not enabled *)

Definition on_frame_arrived (h : Handoff) (t : Tex) (convert_ok : bool) : option Handoff :=
  match h_cap h with
  | CapIdle =>
      if stop_rx (h_flags h) then Some (set_cap h CapStopped (h_mutex h))
      else match h_mode h with
           | CapZeroCopy => Some (set_cap h (CapAcquire t) (h_mutex h))
           | CapRam => Some (if convert_ok then set_slot h (store (h_slot h) (to_nv12 t)) else h)
           | _ => Some h
           end
  | _ => None
  end.

Definition capture_acquire (h : Handoff) (r : Acquired) : option Handoff :=
  match h_cap h, r with
  | CapAcquire t, AcqOk => m <-? km_acquire (h_mutex h) KEY_CAPTURE; Some (set_cap h (CapCopy t) m)
  | CapAcquire _, _ => Some (set_cap h CapIdle (h_mutex h))
  | _, _ => None
  end.

Definition capture_copy (h : Handoff) : option Handoff :=
  match h_cap h with
  | CapCopy t => Some (set_cap (copy_to_shared h t) CapRelease (h_mutex h))
  | _ => None
  end.

Definition capture_release (h : Handoff) : option Handoff :=
  match h_cap h with
  | CapRelease => Some (set_cap h CapIdle (release_sync (h_mutex h) KEY_ENCODE))
  | _ => None
  end.

(** *** [zerocopy_loop] *)

(** Every 30 frames the target bit rate is polled. *)
Definition poll_bitrate (h : Handoff) (now : Z) : Handoff :=
  if h_frames h mod 30 =? 0 then
    let '(tgt, ctl) := poll_target powf (cf_bitrate (h_flags h)) now in
    let h := set_flags h (set_controller (h_flags h) ctl) in
    if tgt =? 0 then h else set_encoder h (zero_copy_set_bitrate (h_encoder h) now tgt).1 (h_frames h)
  else h.

Definition encode_top (h : Handoff) (now : Z) : option Handoff :=
  match h_enc h with
  | EncTop =>
      if stop_rx (h_flags h) then Some (set_enc h EncStopped (h_mutex h))
      else if negb (cf_client_active (h_flags h)) then Some h
      else
        let h := poll_bitrate h now in
        let idr := idr_req (h_flags h) in
        Some (set_enc (set_flags h (set_idr (h_flags h) false)) (EncAcquire idr) (h_mutex h))
  | _ => None
  end.

Definition encode_acquire (h : Handoff) (r : Acquired) : option Handoff :=
  match h_enc h, r with
  | EncAcquire idr, AcqOk => m <-? km_acquire (h_mutex h) KEY_ENCODE; Some (set_enc h (EncCopy idr) m)
  | EncAcquire _, _ => Some (set_enc h EncTop (h_mutex h))
  | _, _ => None
  end.

Definition encode_copy (h : Handoff) : option Handoff :=
  match h_enc h with
  | EncCopy idr => Some (set_enc (copy_to_local h) (EncRelease idr) (h_mutex h))
  | _ => None
  end.

Definition encode_release (h : Handoff) : option Handoff :=
  match h_enc h with
  | EncRelease idr => Some (set_enc h (EncConvert idr) (release_sync (h_mutex h) KEY_CAPTURE))
  | _ => None
  end.

Definition encode_convert (h : Handoff) (ok : bool) (now : Z) : option Handoff :=
  match h_enc h with
  | EncConvert idr =>
      Some (set_enc h (if ok then EncSubmit idr (saturating_sub now (h_start h)) else EncTop) (h_mutex h))
  | _ => None
  end.

(** Stage, submit and send. *)
Definition encode_submit (h : Handoff) : option Handoff :=
  match h_enc h with
  | EncSubmit idr elapsed =>
      r <-? zero_copy_encode (h_encoder h) (to_picture (h_local h)) idr;
      let h := note_submitted h idr in
      match r.2 with
      | None => Some (set_enc (set_encoder h r.1 (u64 (h_frames h + 1))) EncTop (h_mutex h))
      | Some packets =>
          let '(f, ok) := send_packets (h_flags h) elapsed packets in
          let h := set_flags h f in
          if ok then Some (set_enc (set_encoder h r.1 (u64 (h_frames h + 1))) EncTop (h_mutex h))
          else Some (set_enc (set_encoder h r.1 (h_frames h)) EncStopped (h_mutex h))
      end
  | _ => None
  end.

(** What can happen next; the last ones are other threads'. *)
Inductive Event :=
| FrameArrived (t : Tex) (convert_ok : bool)
| CaptureAcquire (r : Acquired) | CaptureCopy | CaptureRelease
| EncodeTop (now : Z) | EncodeAcquire (r : Acquired) | EncodeCopy | EncodeRelease
| EncodeConvert (ok : bool) (now : Z) | EncodeSubmit
| SharedFlags (f : CaptureFlags).

Definition handoff_step (h : Handoff) (e : Event) : option Handoff :=
  match e with
  | FrameArrived t ok => on_frame_arrived h t ok
  | CaptureAcquire r => capture_acquire h r
  | CaptureCopy => capture_copy h
  | CaptureRelease => capture_release h
  | EncodeTop now => encode_top h now
  | EncodeAcquire r => encode_acquire h r
  | EncodeCopy => encode_copy h
  | EncodeRelease => encode_release h
  | EncodeConvert ok now => encode_convert h ok now
  | EncodeSubmit => encode_submit h
  | SharedFlags f => Some (set_flags h f)
  end.

Fixpoint run (h : Handoff) (es : list Event) : option Handoff :=
  match es with
  | [] => Some h
  | e :: es => h' <-? handoff_step h e; run h' es
  end.

(** Both loops at their start; the textures' content is whatever it is. *)
Definition handoff_initial (t : Tex) (e : ZeroCopyEncoder C) (start : Z) (mode : CaptureMode) (f : CaptureFlags) : Handoff :=
  {| h_mutex := km_new; h_shared := t; h_local := t; h_cap := CapIdle; h_enc := EncTop; h_encoder := e;
     h_frames := 0; h_start := start; h_mode := mode; h_slot := frame_slot_new; h_flags := f;
     h_written := []; h_read := []; h_submitted := [] |}.
End Handoff.
Arguments Event {C G}.

(** ** The encode loop fed from memory *)

Section Ram.
Context {C : VideoCodec} (powf : f64 -> f64 -> f64).

Record RamLoop := mkRamLoop {
  rl_encoder : QsvEncoder C;
  rl_nv12 : list Z;
  rl_gen : Z;
  rl_frame_count : Z;
  rl_start : Z;
  rl_last_encode : Z;
  rl_slot : FrameSlot;
  rl_flags : CaptureFlags
}.

Definition target_fps (f : CaptureFlags) : Z := Z.max (cf_fps f) 1.
Definition min_fps (f : CaptureFlags) : Z := Z.max (target_fps f / 2) 2.

(** Up to the first frame in the slot; [None] when the codec cannot be
    opened or the loop is stopped first. *)
Definition ram_loop_new (f : CaptureFlags) (s : FrameSlot) (now : Z) : option RamLoop :=
  enc <-? qsv_new (cf_width f) (cf_height f) (cf_bitrate_bps f) now;
  if stop_rx f then None
  else
    '(buf, gen) ← load s;
    Some {| rl_encoder := Encoder.request_idr enc; rl_nv12 := buf; rl_gen := gen; rl_frame_count := 0;
            rl_start := now; rl_last_encode := now; rl_slot := s; rl_flags := f |}.

(** What one turn meets: the instant of the poll, the frames stored during
    the wait, the instant the wait ends, and by how much the sleep runs over. *)
Record RamTurn := mkRamTurn { rt_poll : Z; rt_during : list (list Z); rt_woken : Z; rt_oversleep : Z }.

Inductive Outcome (A : Type) := Continue (a : A) | Return (a : A).
Arguments Continue {A} a.
Arguments Return {A} a.

Definition ram_poll (r : RamLoop) (now : Z) : QsvEncoder C * CaptureFlags :=
  if rl_frame_count r mod 30 =? 0 then
    let '(tgt, ctl) := poll_target powf (cf_bitrate (rl_flags r)) now in
    (if tgt =? 0 then rl_encoder r else (qsv_set_bitrate (rl_encoder r) now tgt).1, set_controller (rl_flags r) ctl)
  else (rl_encoder r, rl_flags r).

(** [None] for a panic. *)
Definition ram_turn (r : RamLoop) (t : RamTurn) : option (Outcome RamLoop) :=
  if stop_rx (rl_flags r) then Some (Return r)
  else if negb (cf_client_active (rl_flags r)) then Some (Continue r)
  else
    let '(enc, flags) := ram_poll r (rt_poll t) in
    let '(slot, got) := wait_new (rl_slot r) (rl_gen r) (rt_during t) in
    let '(nv12, gen) := default (rl_nv12 r, rl_gen r) got in
    let interval := frame_interval (target_fps flags) in
    let since := saturating_sub (rt_woken t) (rl_last_encode r) in
    let last := if since <? interval then rt_woken t + (interval - since) + rt_oversleep t else rt_woken t in
    let enc := if idr_req flags then Encoder.request_idr enc else enc in
    let flags := set_idr flags false in
    '(enc, out) ← qsv_encode enc nv12;
    let '(flags, ok) := match out with
                        | None => (flags, true)
                        | Some ps => send_packets flags (saturating_sub last (rl_start r)) ps
                        end in
    let r' := {| rl_encoder := enc; rl_nv12 := nv12; rl_gen := gen;
                 rl_frame_count := if ok then u64 (rl_frame_count r + 1) else rl_frame_count r;
                 rl_start := rl_start r; rl_last_encode := last; rl_slot := slot; rl_flags := flags |} in
    Some (if ok then Continue r' else Return r').
End Ram.

(** ** The hand-off *)

Section HandoffProofs.
Context {K : KeyedMutex} {KL : KeyedMutexLaws K} {C : VideoCodec} {G : GraphicsDevice C}.
Context (powf : f64 -> f64 -> f64).

Definition cap_holds (h : Handoff) : Prop := match h_cap h with CapCopy _ | CapRelease => True | _ => False end.
Definition enc_holds (h : Handoff) : Prop := match h_enc h with EncCopy _ | EncRelease _ => True | _ => False end.

(** Who owns the shared texture, and whether it holds an unread frame. *)
Inductive owned (h : Handoff) : Prop :=
| owned_by_capture : km_free (h_mutex h) = Some KEY_CAPTURE -> ~ cap_holds h -> ~ enc_holds h ->
    h_written h = h_read h -> owned h
| owned_by_encode : km_free (h_mutex h) = Some KEY_ENCODE -> ~ cap_holds h -> ~ enc_holds h ->
    h_written h = h_read h ++ [h_shared h] -> owned h
| capture_copies t : km_free (h_mutex h) = None -> h_cap h = CapCopy t -> ~ enc_holds h ->
    h_written h = h_read h -> owned h
| capture_releases : km_free (h_mutex h) = None -> h_cap h = CapRelease -> ~ enc_holds h ->
    h_written h = h_read h ++ [h_shared h] -> owned h
| encode_copies idr : km_free (h_mutex h) = None -> ~ cap_holds h -> h_enc h = EncCopy idr ->
    h_written h = h_read h ++ [h_shared h] -> owned h
| encode_releases idr : km_free (h_mutex h) = None -> ~ cap_holds h -> h_enc h = EncRelease idr ->
    h_written h = h_read h -> owned h.

(** The frame each thread has in hand. *)
Definition in_capture (h : Handoff) : list Tex := match h_cap h with CapAcquire t | CapCopy t => [t] | _ => [] end.
Definition in_encode (h : Handoff) : list Tex :=
  match h_enc h with EncRelease _ | EncConvert _ | EncSubmit _ _ => [h_local h] | _ => [] end.

Definition arrived (es : list Event) : list Tex :=
  omap (fun e => match e with FrameArrived t _ => Some t | _ => None end) es.

Record handoff_inv (es : list Event) (h : Handoff) : Prop := {
  hi_owned : owned h;
  hi_captured : h_written h ++ in_capture h `sublist_of` arrived es;
  hi_encoded : map fst (h_submitted h) ++ in_encode h `sublist_of` h_read h
}.

Lemma run_snoc h es e : run powf h (es ++ [e]) = (h' <-? run powf h es; handoff_step powf h' e).
Proof.
  revert h. induction es as [|e' es IH]; intros h; cbn [run app]; [by destruct (handoff_step powf h e)|].
  destruct (handoff_step powf h e'); [apply IH|done].
Qed.

Lemma run_app h es es' : run powf h (es ++ es') = (h' <-? run powf h es; run powf h' es').
Proof.
  revert h. induction es as [|e' es IH]; intros h; cbn [run app]; [done|].
  destruct (handoff_step powf h e'); [apply IH|done].
Qed.

Lemma arrived_snoc es e :
  arrived (es ++ [e]) = arrived es ++ match e with FrameArrived t _ => [t] | _ => [] end.
Proof. unfold arrived. rewrite omap_app. by destruct e. Qed.

Lemma arrived_grows l es e : l `sublist_of` arrived es -> l `sublist_of` arrived (es ++ [e]).
Proof. intros. rewrite arrived_snoc. by apply sublist_inserts_r. Qed.

(** [owned] and the histories do not mention the other fields. *)
Lemma owned_ext h h' :
  h_mutex h' = h_mutex h -> h_shared h' = h_shared h -> h_cap h' = h_cap h -> h_enc h' = h_enc h ->
  h_written h' = h_written h -> h_read h' = h_read h -> owned h -> owned h'.
Proof.
  intros Em Es Ec Ee Ew Er []; [eapply owned_by_capture|eapply owned_by_encode|eapply capture_copies
    |eapply capture_releases|eapply encode_copies|eapply encode_releases];
    unfold cap_holds, enc_holds in *; rewrite ?Em, ?Es, ?Ec, ?Ee, ?Ew, ?Er; eassumption.
Qed.

Lemma poll_bitrate_keeps h now :
  let h' := poll_bitrate powf h now in
  h_mutex h' = h_mutex h /\ h_shared h' = h_shared h /\ h_local h' = h_local h /\ h_cap h' = h_cap h /\
  h_enc h' = h_enc h /\ h_written h' = h_written h /\ h_read h' = h_read h /\ h_submitted h' = h_submitted h /\
  idr_req (h_flags h') = idr_req (h_flags h) /\ cf_sender (h_flags h') = cf_sender (h_flags h).
Proof.
  unfold poll_bitrate. case_if; [|done]. destruct (poll_target _ _ _) as [tgt ctl]. by case_if.
Qed.

Lemma release_free m k : km_free m = None -> km_free (release_sync m k) = Some k.
Proof.
  intros H. unfold release_sync. destruct (km_release_can m k H) as [m' E]. rewrite E. simpl.
  by apply km_release_free in E as [_ ->].
Qed.

(** Close [owned] for explicit program counters. *)
Ltac own :=
  let go c := (eapply c; unfold cap_holds, enc_holds in *; simpl;
    repeat match goal with H : h_cap _ = _ |- _ => rewrite H in * | H : h_enc _ = _ |- _ => rewrite H in * end;
    simplify_eq/=; first [done | by apply release_free | congruence | tauto]) in
  first [go owned_by_capture | go owned_by_encode | go capture_copies | go capture_releases
        | go encode_copies | go encode_releases].

(** Open the step and the owner; impossible combinations disappear. *)
Ltac open_step Hs Ho :=
  repeat match type of Hs with
  | (match ?x with _ => _ end) = Some _ => destruct x eqn:?; try discriminate Hs
  end; injection Hs as <-; destruct Ho; unfold cap_holds, enc_holds in *;
  repeat match goal with
  | H : km_acquire _ _ = Some _ |- _ => apply km_acquire_free in H as [? ?]
  | H : h_cap _ = _, H' : context [h_cap _] |- _ => rewrite H in H'
  | H : h_enc _ = _, H' : context [h_enc _] |- _ => rewrite H in H'
  end; simplify_eq/=; try tauto; try congruence.

Lemma step_owned h e h' : owned h -> handoff_step powf h e = Some h' -> owned h'.
Proof.
  intros Ho Hs. destruct e as [t ok|r| | |now|r| | |ok now| |f]; cbn [handoff_step] in Hs.
  - unfold on_frame_arrived in Hs. destruct ok; open_step Hs Ho; own.
  - unfold capture_acquire in Hs. open_step Hs Ho; own.
  - unfold capture_copy in Hs. open_step Hs Ho; own.
  - unfold capture_release in Hs. open_step Hs Ho; own.
  - unfold encode_top in Hs. destruct (poll_bitrate_keeps h now) as (? & ? & ? & ? & ? & ? & ? & ? & _).
    assert (owned (poll_bitrate powf h now)) as Ho' by (by eapply owned_ext).
    destruct (h_enc h) eqn:Ee; try done.
    destruct (stop_rx _); [|destruct (negb _)]; injection Hs as <-.
    + destruct Ho; own.
    + done.
    + assert (h_enc (poll_bitrate powf h now) = EncTop) as Ee' by congruence. destruct Ho'; own.
  - unfold encode_acquire in Hs. open_step Hs Ho; own.
  - unfold encode_copy in Hs. open_step Hs Ho; own.
  - unfold encode_release in Hs. open_step Hs Ho; own.
  - unfold encode_convert in Hs. destruct ok; open_step Hs Ho; own.
  - unfold encode_submit in Hs. destruct (h_enc h) eqn:Ee; try done.
    destruct (zero_copy_encode _ _ _) as [[e [packets|]]|]; try done; cbn [fst snd] in Hs.
    + destruct (send_packets _ _ _) as [f [|]]; injection Hs as <-; destruct Ho; own.
    + injection Hs as <-; destruct Ho; own.
  - injection Hs as <-. by apply (owned_ext h).
Qed.

Lemma step_captured es h e h' :
  h_written h ++ in_capture h `sublist_of` arrived es -> handoff_step powf h e = Some h' ->
  h_written h' ++ in_capture h' `sublist_of` arrived (es ++ [e]).
Proof.
  intros Hc Hs. assert (h_written h `sublist_of` arrived es) as Hw.
  { etrans; [|exact Hc]. by apply sublist_inserts_r. }
  destruct e as [t ok|r| | |now|r| | |ok now| |f]; cbn [handoff_step] in Hs.
  - rewrite arrived_snoc. unfold on_frame_arrived in Hs.
    destruct (h_cap h) eqn:Ec; try done. unfold in_capture in *. rewrite Ec, app_nil_r in Hc.
    destruct (stop_rx _), (h_mode h), ok; injection Hs as <-; simpl; rewrite ?Ec, ?app_nil_r;
      first [by apply sublist_inserts_r | by apply sublist_app].
  - apply arrived_grows. unfold capture_acquire in Hs. destruct (h_cap h) eqn:Ec; try done.
    unfold in_capture in *. rewrite Ec in Hc. destruct r; [destruct (km_acquire _ _); [|done]| |];
      injection Hs as <-; simpl; by rewrite ?app_nil_r.
  - apply arrived_grows. unfold capture_copy in Hs. destruct (h_cap h) eqn:Ec; try done. injection Hs as <-.
    unfold in_capture in *. rewrite Ec in Hc. simpl. by rewrite app_nil_r.
  - apply arrived_grows. unfold capture_release in Hs. destruct (h_cap h) eqn:Ec; try done. injection Hs as <-.
    unfold in_capture in *. rewrite Ec in Hc. simpl. by rewrite app_nil_r.
  - apply arrived_grows. destruct (poll_bitrate_keeps h now) as (_ & _ & _ & Ec & _ & Ew & _).
    unfold encode_top in Hs. destruct (h_enc h); try done. unfold in_capture in *.
    destruct (stop_rx _); [|destruct (negb _)]; injection Hs as <-; try done. simpl. by rewrite Ec, Ew.
  - apply arrived_grows. unfold encode_acquire in Hs. destruct (h_enc h); try done.
    destruct r; [destruct (km_acquire _ _); [|done]| |]; by injection Hs as <-.
  - apply arrived_grows. unfold encode_copy in Hs. destruct (h_enc h); try done. by injection Hs as <-.
  - apply arrived_grows. unfold encode_release in Hs. destruct (h_enc h); try done. by injection Hs as <-.
  - apply arrived_grows. unfold encode_convert in Hs. destruct (h_enc h); try done. by injection Hs as <-.
  - apply arrived_grows. unfold encode_submit in Hs. destruct (h_enc h); try done.
    destruct (zero_copy_encode _ _ _) as [[e [packets|]]|]; try done; cbn [fst snd] in Hs; [|by injection Hs as <-].
    destruct (send_packets _ _ _) as [f [|]]; by injection Hs as <-.
  - apply arrived_grows. by injection Hs as <-.
Qed.

Lemma step_encoded h e h' :
  map fst (h_submitted h) ++ in_encode h `sublist_of` h_read h -> handoff_step powf h e = Some h' ->
  map fst (h_submitted h') ++ in_encode h' `sublist_of` h_read h'.
Proof.
  intros Hc Hs. assert (map fst (h_submitted h) `sublist_of` h_read h) as Hw.
  { etrans; [|exact Hc]. by apply sublist_inserts_r. }
  destruct e as [t ok|r| | |now|r| | |ok now| |f]; cbn [handoff_step] in Hs.
  - unfold on_frame_arrived in Hs. destruct (h_cap h); try done.
    destruct (stop_rx _), (h_mode h), ok; by injection Hs as <-.
  - unfold capture_acquire in Hs. destruct (h_cap h); try done.
    destruct r; [destruct (km_acquire _ _); [|done]| |]; by injection Hs as <-.
  - unfold capture_copy in Hs. destruct (h_cap h); try done. by injection Hs as <-.
  - unfold capture_release in Hs. destruct (h_cap h); try done. by injection Hs as <-.
  - destruct (poll_bitrate_keeps h now) as (_ & _ & _ & _ & _ & _ & Er & Es & _).
    unfold encode_top in Hs. destruct (h_enc h) eqn:Ee; try done. unfold in_encode in *. rewrite Ee, app_nil_r in Hc.
    destruct (stop_rx _); [|destruct (negb _)]; injection Hs as <-; simpl; rewrite ?Ee, ?app_nil_r; [done..|].
    by rewrite Es, Er.
  - unfold encode_acquire in Hs. destruct (h_enc h) eqn:Ee; try done. unfold in_encode in *. rewrite Ee, app_nil_r in Hc.
    destruct r; [destruct (km_acquire _ _); [|done]| |]; injection Hs as <-; simpl; by rewrite app_nil_r.
  - unfold encode_copy in Hs. destruct (h_enc h) eqn:Ee; try done. injection Hs as <-. simpl. by apply sublist_app.
  - unfold encode_release in Hs. destruct (h_enc h) eqn:Ee; try done. injection Hs as <-.
    unfold in_encode in *. by rewrite Ee in Hc.
  - unfold encode_convert in Hs. destruct (h_enc h) eqn:Ee; try done. injection Hs as <-.
    unfold in_encode in *. rewrite Ee in Hc. destruct ok; simpl; by rewrite ?app_nil_r.
  - unfold encode_submit in Hs. destruct (h_enc h) eqn:Ee; try done. unfold in_encode in *. rewrite Ee in Hc.
    destruct (zero_copy_encode _ _ _) as [[e [packets|]]|]; try done; cbn [fst snd] in Hs.
    + destruct (send_packets _ _ _) as [f [|]]; injection Hs as <-; simpl; rewrite map_app, app_nil_r; exact Hc.
    + injection Hs as <-; simpl; rewrite map_app, app_nil_r; exact Hc.
  - by injection Hs as <-.
Qed.

Lemma run_inv t e start mode f es h :
  run powf (handoff_initial t e start mode f) es = Some h -> handoff_inv es h.
Proof.
  revert h. induction es as [|ev es' IH] using rev_ind; intros h.
  - intros [= <-]. split; [|apply sublist_nil_l..].
    apply owned_by_capture; [apply km_new_free|intros []..|done].
  - rewrite run_snoc. destruct (run powf _ es') as [h'|]; [|done]. intros Hs. destruct (IH h' eq_refl) as [Ho Hc He].
    split; [by eapply step_owned|by eapply step_captured|by eapply step_encoded].
Qed.

(** What the invariant says of the shared texture's contents. *)
Lemma inv_contents es h : handoff_inv es h ->
  (h_written h = h_read h \/ h_written h = h_read h ++ [h_shared h]) /\ map fst (h_submitted h) `sublist_of` h_read h.
Proof.
  intros [Ho _ He]. split; [destruct Ho; auto|]. etrans; [|exact He]. by apply sublist_inserts_r.
Qed.

(** C15: however the capture callback and the encode loop interleave, never do
    both hold the shared texture; every frame copied into it is copied out
    exactly once and in order; and what reaches the encoder are captured
    frames, each at most once, in the order they arrived. *)
Theorem handoff_safe t e start mode f es h :
  run powf (handoff_initial t e start mode f) es = Some h ->
  ~ (cap_holds h /\ enc_holds h) /\
  (h_written h = h_read h \/ h_written h = h_read h ++ [h_shared h]) /\
  (map fst (h_submitted h) `sublist_of` h_read h) /\
  (map fst (h_submitted h) `sublist_of` arrived es).
Proof.
  intros Hinv%run_inv. destruct (inv_contents _ _ Hinv) as [Hcont Hs]. destruct Hinv as [Ho Hc He].
  assert (h_read h `sublist_of` h_written h) as Hr by (destruct Ho as [???->|???->|????->|???->|????->|????->]; auto using sublist_inserts_r).
  split_and!.
  - destruct Ho; unfold cap_holds, enc_holds in *; intros [? ?]; tauto.
  - done.
  - done.
  - etrans; [exact Hs|]. etrans; [exact Hr|]. etrans; [|exact Hc]. by apply sublist_inserts_r.
Qed.

Lemma poll_bitrate_ring h now : ring_ok (h_encoder h) -> ring_ok (h_encoder (poll_bitrate powf h now)).
Proof.
  intros H. unfold poll_bitrate. case_if; [|done]. destruct (poll_target _ _ _) as [tgt ctl]. case_if; [done|].
  unfold zero_copy_set_bitrate. simpl. case_if; [|done]. destruct (open_codec tgt); [|done]. by destruct H; split.
Qed.

Lemma poll_bitrate_flags h now :
  cf_sender_open (h_flags (poll_bitrate powf h now)) = cf_sender_open (h_flags h) /\
  h_start (poll_bitrate powf h now) = h_start h.
Proof. unfold poll_bitrate. case_if; [|done]. destruct (poll_target _ _ _) as [tgt ctl]. by case_if. Qed.

Definition capture_events (t : Tex) : list Event := [FrameArrived t true; CaptureAcquire AcqOk; CaptureCopy; CaptureRelease].
Definition encode_events (now : Z) : list Event :=
  [EncodeTop now; EncodeAcquire AcqOk; EncodeCopy; EncodeRelease; EncodeConvert true now; EncodeSubmit].

(** Both loops idle on a live stream. *)
Record ready (h : Handoff) : Prop := {
  rd_cap : h_cap h = CapIdle;
  rd_enc : h_enc h = EncTop;
  rd_mode : h_mode h = CapZeroCopy;
  rd_stop : stop_rx (h_flags h) = false;
  rd_active : cf_client_active (h_flags h) = true;
  rd_open : cf_sender_open (h_flags h) = true;
  rd_ring : ring_ok (h_encoder h)
}.

Lemma capture_delivers h t : ready h -> km_free (h_mutex h) = Some KEY_CAPTURE ->
  exists m, run powf h (capture_events t) = Some (set_cap (copy_to_shared h t) CapIdle m) /\ km_free m = Some KEY_ENCODE.
Proof.
  intros [Hc _ Hm Hs _ _ _] Hk. destruct (km_acquire_can _ _ Hk) as [m Em].
  exists (release_sync m KEY_ENCODE). unfold capture_events. cbn [run handoff_step]. unfold on_frame_arrived.
  rewrite Hc, Hs, Hm. unfold capture_acquire. simpl. rewrite Em. split; [done|].
  apply release_free. by apply km_acquire_free in Em as [_ ?].
Qed.

Lemma encode_submit_spec h idr elapsed : h_enc h = EncSubmit idr elapsed -> cf_sender_open (h_flags h) = true ->
  ring_ok (h_encoder h) ->
  exists h', encode_submit h = Some h' /\ h_enc h' = EncTop /\ h_cap h' = h_cap h /\ h_mutex h' = h_mutex h /\
    h_submitted h' = h_submitted h ++ [(h_local h, idr)] /\ idr_req (h_flags h') = idr_req (h_flags h) /\
    cf_sender (h_flags h') = cf_sender (h_flags h) ++ map (encoded_frame elapsed)
      (default [] (encode_picture (zc_enc (h_encoder h)) (to_picture (h_local h)) (zc_pts (h_encoder h)) idr).2).
Proof.
  intros He Ho Hr. unfold encode_submit. rewrite He.
  destruct (zero_copy_encode_spec (h_encoder h) (to_picture (h_local h)) idr Hr) as (e' & E & _).
  destruct (encode_picture _ _ _ _).2 as [ps|]; rewrite E; cbn [fst snd].
  - unfold send_packets. cbn [h_flags note_submitted]. rewrite Ho.
    destruct ps; eexists; (split; [reflexivity|]); simpl; rewrite ?app_nil_r; done.
  - eexists. split; [reflexivity|]. simpl. by rewrite app_nil_r.
Qed.

(** Up to the submission. *)
Lemma encode_takes h now : h_enc h = EncTop -> stop_rx (h_flags h) = false -> cf_client_active (h_flags h) = true ->
  km_free (h_mutex h) = Some KEY_ENCODE ->
  exists h5, run powf h [EncodeTop now; EncodeAcquire AcqOk; EncodeCopy; EncodeRelease; EncodeConvert true now] = Some h5 /\
    h_enc h5 = EncSubmit (idr_req (h_flags h)) (saturating_sub now (h_start h)) /\ h_cap h5 = h_cap h /\
    km_free (h_mutex h5) = Some KEY_CAPTURE /\ h_local h5 = h_shared h /\ h_submitted h5 = h_submitted h /\
    h_encoder h5 = h_encoder (poll_bitrate powf h now) /\ idr_req (h_flags h5) = false /\
    cf_sender (h_flags h5) = cf_sender (h_flags h) /\ cf_sender_open (h_flags h5) = cf_sender_open (h_flags h).
Proof.
  intros He Hs Ha Hk.
  destruct (poll_bitrate_keeps h now) as (Em & Es & El & Ec & Ee & Ew & Erd & Esu & Ei & Ech).
  destruct (poll_bitrate_flags h now) as [Eo Est]. destruct (km_acquire_can _ _ Hk) as [m Ekm].
  pose proof (proj2 (km_acquire_free _ _ _ Ekm)) as Hf. apply (release_free m KEY_CAPTURE) in Hf.
  assert (handoff_step powf h (EncodeTop now) = Some (set_enc (set_flags (poll_bitrate powf h now)
    (set_idr (h_flags (poll_bitrate powf h now)) false)) (EncAcquire (idr_req (h_flags (poll_bitrate powf h now))))
    (h_mutex (poll_bitrate powf h now)))) as E1.
  { cbn [handoff_step]. unfold encode_top. by rewrite He, Hs, Ha. }
  set (h1 := poll_bitrate powf h now) in *. clearbody h1. cbn [run]. rewrite E1. cbn [handoff_step encode_acquire h_enc set_enc h_mutex].
  rewrite Em, Ekm. eexists. split; [reflexivity|]. simpl. by rewrite Ec, Es, Esu, Ech, Eo, Est, Ei.
Qed.

Lemma encode_delivers h now : h_enc h = EncTop -> stop_rx (h_flags h) = false -> cf_client_active (h_flags h) = true ->
  cf_sender_open (h_flags h) = true -> ring_ok (h_encoder h) -> km_free (h_mutex h) = Some KEY_ENCODE ->
  exists h', run powf h (encode_events now) = Some h' /\
    h_enc h' = EncTop /\ h_cap h' = h_cap h /\ km_free (h_mutex h') = Some KEY_CAPTURE /\
    h_submitted h' = h_submitted h ++ [(h_shared h, idr_req (h_flags h))] /\ idr_req (h_flags h') = false /\
    cf_sender (h_flags h') = cf_sender (h_flags h) ++
      map (encoded_frame (saturating_sub now (h_start h)))
        (default [] (encode_picture (zc_enc (h_encoder (poll_bitrate powf h now))) (to_picture (h_shared h))
           (zc_pts (h_encoder (poll_bitrate powf h now))) (idr_req (h_flags h))).2).
Proof.
  intros He Hs Ha Ho Hr Hk. apply (poll_bitrate_ring h now) in Hr.
  destruct (encode_takes h now He Hs Ha Hk) as (h5 & E5 & Ee & Ec & Hf & El & Esu & Een & Ei & Ech & Eo).
  rewrite <- Een in Hr. destruct (encode_submit_spec h5 _ _ Ee) as (h' & E & ? & Ec' & Em & Es & Ei' & Ech'); [congruence|done|].
  exists h'. change (encode_events now) with
    ([EncodeTop now; EncodeAcquire AcqOk; EncodeCopy; EncodeRelease; EncodeConvert true now] ++ [EncodeSubmit]).
  rewrite run_app, E5. cbn [run handoff_step]. rewrite E. split_and!; try congruence.
Qed.

(** C34: on a live stream a frame that the capture delivers is encoded in the
    next turn of the encode loop: exactly this frame, as an IDR frame exactly
    when one was requested, and its packets go to the sender in order. *)
Theorem handoff_delivers h t now : ready h -> km_free (h_mutex h) = Some KEY_CAPTURE ->
  let e := h_encoder (poll_bitrate powf (copy_to_shared h t) now) in
  exists h', run powf h (capture_events t ++ encode_events now) = Some h' /\
    h_enc h' = EncTop /\ h_cap h' = CapIdle /\ km_free (h_mutex h') = Some KEY_CAPTURE /\
    h_submitted h' = h_submitted h ++ [(t, idr_req (h_flags h))] /\
    cf_sender (h_flags h') = cf_sender (h_flags h) ++ map (encoded_frame (saturating_sub now (h_start h)))
      (default [] (encode_picture (zc_enc e) (to_picture t) (zc_pts e) (idr_req (h_flags h))).2).
Proof.
  intros Hr Hk e. destruct (capture_delivers h t Hr Hk) as (m & E & Hm). rewrite run_app, E. clear E.
  destruct Hr as [Hc He Hmo Hs Ha Ho Hri].
  destruct (encode_delivers (set_cap (copy_to_shared h t) CapIdle m) now) as (h' & E & ? & ? & ? & Hsu & ? & Hch); try done.
  exists h'. rewrite E. split_and!; try done. etrans; [exact Hch|]. subst e. unfold poll_bitrate. simpl.
  case_if; [|done]. destruct (poll_target _ _ _) as [tgt ctl]. by case_if.
Qed.

(** a request for an IDR frame is taken before the loop waits for a frame:
    when none comes within 100 ms the request is forgotten, and the next frame
    is encoded without it. *)
Theorem idr_lost_on_timeout h t now now' : ready h -> km_free (h_mutex h) = Some KEY_CAPTURE ->
  idr_req (h_flags h) = true ->
  exists h1 h2, run powf h [EncodeTop now; EncodeAcquire AcqTimeout] = Some h1 /\
    h_submitted h1 = h_submitted h /\ idr_req (h_flags h1) = false /\
    run powf h1 (capture_events t ++ encode_events now') = Some h2 /\
    h_submitted h2 = h_submitted h ++ [(t, false)].
Proof.
  intros Hr Hk Hi. pose proof Hr as [Hc He Hmo Hs Ha Ho Hri].
  destruct (poll_bitrate_keeps h now) as (Em & Es & El & Ec & Ee & Ew & Erd & Esu & Ei & Ech).
  destruct (poll_bitrate_flags h now) as [Eo Est].
  set (h0 := poll_bitrate powf h now) in *.
  set (h1 := set_enc (set_flags h0 (set_idr (h_flags h0) false)) EncTop (h_mutex h0)).
  assert (run powf h [EncodeTop now; EncodeAcquire AcqTimeout] = Some h1) as E1.
  { cbn [run handoff_step]. unfold encode_top. rewrite He, Hs, Ha. done. }
  assert (ready h1 /\ km_free (h_mutex h1) = Some KEY_CAPTURE) as [Hr1 Hk1].
  { split; [|simpl; by rewrite Em]. split; simpl; try congruence; try by apply poll_bitrate_ring.
    all: unfold h0, poll_bitrate; case_if; [|done]; destruct (poll_target _ _ _); by case_if. }
  destruct (capture_delivers h1 t Hr1 Hk1) as (m & E & Hm). destruct Hr1 as [? ? ? ? ? ? ?].
  destruct (encode_delivers (set_cap (copy_to_shared h1 t) CapIdle m) now') as (h' & E' & _ & _ & _ & Hsu & _); try done.
  exists h1, h'. rewrite run_app, E. split_and!; try done. etrans; [exact Hsu|]. simpl. by rewrite Esu.
Qed.
End HandoffProofs.

(** ** The choice of the mode *)

(** when the first frame comes within 10 s and the second device either
    answers within 5 s or fails, both threads choose the same mode. *)
Theorem modes_agree t_first t_setup fw fh shared setup :
  t_first < SETUP_TIMEOUT -> (setup = false \/ t_setup < MODE_TIMEOUT) ->
  negotiate_mode t_first t_setup fw fh shared setup true =
    match shared with
    | Some (_, handle) => if negb (handle =? 0) && setup then (CapZeroCopy, EncZeroCopy) else (CapRam, EncRam)
    | None => (CapRam, EncRam)
    end.
Proof.
  intros Hf Hs. unfold negotiate_mode. rewrite (proj2 (Z.ltb_lt _ _) Hf).
  destruct shared as [[luid handle]|]; cbn [encode_thread setup_message sm_handle].
  - destruct (handle =? 0); cbn [negb andb]; [by case_if|]. destruct setup; [|by case_if].
    destruct Hs as [?|Hs%Z.ltb_lt]; [done|]. by rewrite Hs.
  - by case_if.
Qed.

Lemma modes_agree_witness :
  negotiate_mode 1000 2000 1920 1080 (Some (7, 9)) true true = (CapZeroCopy, EncZeroCopy).
Proof. apply (modes_agree 1000 2000 1920 1080 (Some (7, 9)) true); [reflexivity|right; reflexivity]. Defined.

Section Starvation.
Context {K : KeyedMutex} {KL : KeyedMutexLaws K} {C : VideoCodec} {G : GraphicsDevice C}.
Context (powf : f64 -> f64 -> f64).

Record starved (h : Handoff) : Prop := {
  sv_mode : h_mode h = CapRam;
  sv_cap : h_cap h = CapIdle \/ h_cap h = CapStopped;
  sv_written : h_written h = []
}.

Lemma step_starved h e h' : starved h -> handoff_step powf h e = Some h' -> starved h'.
Proof.
  intros [Hm Hc Hw] Hs. destruct e as [t ok|r| | |now|r| | |ok now| |f]; cbn [handoff_step] in Hs.
  - unfold on_frame_arrived in Hs. rewrite Hm in Hs. destruct (h_cap h) eqn:Ec; try done.
    destruct (stop_rx _), ok; injection Hs as <-; split; simpl; auto.
  - unfold capture_acquire in Hs. by destruct Hc as [E|E]; rewrite E in Hs.
  - unfold capture_copy in Hs. by destruct Hc as [E|E]; rewrite E in Hs.
  - unfold capture_release in Hs. by destruct Hc as [E|E]; rewrite E in Hs.
  - assert (starved (poll_bitrate powf h now)).
    { unfold poll_bitrate. case_if; [|done]. destruct (poll_target _ _ _). by case_if. }
    unfold encode_top in Hs. destruct (h_enc h); try done.
    destruct (stop_rx _); [|destruct (negb _)]; injection Hs as <-; [done..|]. by destruct H; split.
  - unfold encode_acquire in Hs. destruct (h_enc h); try done.
    destruct r; [destruct (km_acquire _ _); [|done]| |]; by injection Hs as <-.
  - unfold encode_copy in Hs. destruct (h_enc h); try done. by injection Hs as <-.
  - unfold encode_release in Hs. destruct (h_enc h); try done. by injection Hs as <-.
  - unfold encode_convert in Hs. destruct (h_enc h); try done. by injection Hs as <-.
  - unfold encode_submit in Hs. destruct (h_enc h); try done.
    destruct (zero_copy_encode _ _ _) as [[e [packets|]]|]; try done; cbn [fst snd] in Hs; [|by injection Hs as <-].
    destruct (send_packets _ _ _) as [f [|]]; by injection Hs as <-.
  - by injection Hs as <-.
Qed.

(** when the second device takes 5 s or more the capture falls back to
    memory while the encode thread, whose answer nobody reads, goes on with
    the shared texture: from then on nothing is ever encoded. *)
Theorem slow_setup_no_video t_first t_setup fw fh luid handle t e start f es h :
  t_first < SETUP_TIMEOUT -> MODE_TIMEOUT <= t_setup -> handle <> 0 ->
  negotiate_mode t_first t_setup fw fh (Some (luid, handle)) true true = (CapRam, EncZeroCopy) /\
  (run powf (handoff_initial t e start CapRam f) es = Some h -> h_submitted h = []).
Proof.
  intros Hf Hs Hn. split.
  - unfold negotiate_mode. rewrite (proj2 (Z.ltb_lt _ _) Hf), (proj2 (Z.ltb_ge _ _) Hs).
    cbn [encode_thread setup_message sm_handle]. by rewrite (proj2 (Z.eqb_neq _ _) Hn).
  - intros Hrun. assert (starved h) as [_ _ Hw].
    { revert h Hrun. induction es as [|ev es' IH] using rev_ind; intros h.
      - intros [= <-]. split; auto.
      - rewrite run_snoc. destruct (run powf _ es') as [h0|]; [|done]. eauto using step_starved. }
    destruct (inv_contents es h (run_inv powf _ _ _ _ _ _ _ Hrun)) as [Hr Hsub]. rewrite Hw in Hr.
    destruct Hr as [Hr|Hr]; [|by destruct (h_read h)]. rewrite <- Hr in Hsub.
    by apply sublist_nil_r, map_eq_nil in Hsub.
Qed.
End Starvation.

(** ** The loop fed from memory *)

Section RamProofs.
Context {C : VideoCodec} (powf : f64 -> f64 -> f64).

(** The frame a turn encodes: the newest one stored before it wakes. *)
Definition newest (r : RamLoop) (t : RamTurn) (buf : list Z) : list Z :=
  if fs_generation (rl_slot r) =? rl_gen r then List.last (rt_during t) buf else buf.

Lemma last_cons_default {A} (l : list A) x d : List.last (x :: l) d = List.last l x.
Proof. revert x d. induction l as [|y l IH]; intros x d; [done|].
  change (List.last (x :: y :: l) d) with (List.last (y :: l) d). by rewrite !IH.
Qed.

Lemma foldl_store s l buf : fs_inner s = Some buf -> fs_inner (foldl store s l) = Some (List.last l buf).
Proof.
  revert s buf. induction l as [|x l IH]; intros s buf H; [done|]. cbn [foldl]. rewrite (IH _ x) by done.
  by rewrite last_cons_default.
Qed.

Lemma wait_new_newest r t buf : fs_inner (rl_slot r) = Some buf ->
  exists slot gen, wait_new (rl_slot r) (rl_gen r) (rt_during t) = (slot, Some (newest r t buf, gen)).
Proof.
  intros H. unfold wait_new, newest, load. case_if; eexists _, _; [rewrite (foldl_store _ _ buf H)|rewrite H]; done.
Qed.

Lemma ram_poll_keeps r now :
  qs_width (ram_poll powf r now).1 = qs_width (rl_encoder r) /\
  qs_height (ram_poll powf r now).1 = qs_height (rl_encoder r) /\
  idr_req (ram_poll powf r now).2 = idr_req (rl_flags r) /\
  cf_fps (ram_poll powf r now).2 = cf_fps (rl_flags r).
Proof.
  unfold ram_poll. case_if; [|done]. destruct (poll_target _ _ _) as [tgt ctl]. cbn [fst snd].
  case_if; [done|]. unfold qsv_set_bitrate. case_if; [|done]. by destruct (open_codec tgt).
Qed.

Lemma send_packets_idr f elapsed ps : idr_req (send_packets f elapsed ps).1 = idr_req f.
Proof. unfold send_packets. destruct ps; [done|]. by case_if. Qed.

(** a turn of the loop encodes the newest frame (the last one again on a
    static screen), forces an IDR frame if one was requested and clears the
    request, and two encodings are at least a frame interval apart. *)
Theorem ram_turn_spec r t buf :
  stop_rx (rl_flags r) = false -> cf_client_active (rl_flags r) = true ->
  fs_inner (rl_slot r) = Some buf ->
  (qs_width (rl_encoder r) * qs_height (rl_encoder r) * 3 / 2 <= length (newest r t buf))%nat ->
  rl_last_encode r <= rt_woken t -> 0 <= rt_oversleep t ->
  let enc := (ram_poll powf r (rt_poll t)).1 in
  exists r' out, (ram_turn powf r t = Some (Continue _ r') \/ ram_turn powf r t = Some (Return _ r')) /\
    qsv_encode (if idr_req (rl_flags r) then Encoder.request_idr enc else enc) (newest r t buf) = Some (rl_encoder r', out) /\
    rl_nv12 r' = newest r t buf /\ idr_req (rl_flags r') = false /\
    frame_interval (target_fps (rl_flags r)) <= rl_last_encode r' - rl_last_encode r.
Proof.
  intros Hs Ha Hb Hl Hw Ho enc. unfold ram_turn. rewrite Hs, Ha. cbn [negb].
  destruct (wait_new_newest r t buf Hb) as (slot & gen & ->). cbn [default].
  pose proof (ram_poll_keeps r (rt_poll t)) as (Hwd & Hht & Hi & Hfps). subst enc.
  destruct (ram_poll powf r (rt_poll t)) as [enc flags]. cbn [fst snd] in *.
  set (last := if _ <? _ then _ else _).
  assert (frame_interval (target_fps flags) <= last - rl_last_encode r) as Hlast.
  { subst last. unfold saturating_sub. case_if; bool_prop; lia. }
  rewrite Hi. set (enc' := if idr_req (rl_flags r) then _ else _).
  destruct (qsv_encode_total enc' (newest r t buf)) as (y & uv & e' & _ & _ & E).
  { subst enc'. by case_if; simpl; rewrite Hwd, Hht. }
  simpl. rewrite E. simpl. destruct (encode_picture _ _ _ _).2 as [ps|].
  - pose proof (send_packets_idr (set_idr flags false) (saturating_sub last (rl_start r)) ps) as Hi'.
    unfold target_fps in *. rewrite Hfps in Hlast.
    destruct (send_packets _ _ _) as [f [|]]; eexists _, (Some ps); (split; [by eauto|]); by split_and!.
  - unfold target_fps in *. rewrite Hfps in Hlast. eexists _, None. split; [by left|]. by split_and!.
Qed.
End RamProofs.

(** ** Instances and examples *)

#[export] Instance PlainMutex : KeyedMutex := {|
  Mutex := option Z;
  km_new := Some 0;
  km_acquire m k := if bool_decide (m = Some k) then Some None else None;
  km_release m k := match m with None => Some (Some k) | Some _ => None end;
  km_free m := m
|}.

#[export] Instance plain_mutex_laws : KeyedMutexLaws PlainMutex.
Proof.
  split; simpl; try done.
  - intros m k m'. case_bool_decide; [by intros [= <-]|done].
  - intros m k ->. by rewrite bool_decide_eq_true_2.
  - intros [?|] k m'; [done|]. by intros [= <-].
  - intros m k ->. done.
Qed.

#[export] Instance PlainDevice : GraphicsDevice PlainCodec :=
  {| Tex := list Z; to_picture t := [t]; to_nv12 t := t |}.

Definition zero_copy_example : ZeroCopyEncoder PlainCodec :=
  mkZeroCopyEncoder PlainCodec 5000000 (replicate RING_SIZE [[]]) 0 0 0 5000000 0.
Definition flags_example (idr : bool) : CaptureFlags :=
  mkCaptureFlags 2 2 60 5000000 [] true false idr true (bitrate_default 0).
Definition tex (z : Z) : Tex (GraphicsDevice := PlainDevice) := [z].
Definition handoff_example (idr : bool) : Handoff :=
  handoff_initial (tex 0) zero_copy_example 0 CapZeroCopy (flags_example idr).
Definition ram_example : RamLoop :=
  mkRamLoop (mkQsvEncoder PlainCodec 5000000 2 2 5000000 0 false 0) [1; 2; 3; 4; 5; 6] 1 0 0 0
    (mkFrameSlot (Some [1; 2; 3; 4; 5; 6]) 1) (flags_example true).

Lemma handoff_ready_example idr : ready (handoff_example idr).
Proof. split; try done. split; [done|]. unfold RING_SIZE. simpl. lia. Qed.

Lemma handoff_safe_witness : exists h,
  run powf_half (handoff_example true) (capture_events (tex 7) ++ encode_events 5 ++ capture_events (tex 8)) = Some h /\
  (map fst (h_submitted h) `sublist_of` h_read h).
Proof.
  destruct (run powf_half (handoff_example true) _) as [h|] eqn:E; [|vm_compute in E; discriminate].
  exists h. split; [done|]. eapply (handoff_safe powf_half _ _ _ _ _ _ _ E).
Defined.

Lemma handoff_delivers_witness : exists h',
  run powf_half (handoff_example true) (capture_events (tex 7) ++ encode_events 5) = Some h' /\
  h_submitted h' = [(tex 7, true)].
Proof.
  destruct (handoff_delivers powf_half (handoff_example true) (tex 7) 5 (handoff_ready_example true)) as (h' & H & _ & _ & _ & Hs & _);
    [reflexivity|]. exists h'. split; [exact H|exact Hs].
Defined.

Lemma idr_lost_on_timeout_witness : exists h1 h2,
  run powf_half (handoff_example true) [EncodeTop 5; EncodeAcquire AcqTimeout] = Some h1 /\
  run powf_half h1 (capture_events (tex 7) ++ encode_events 6) = Some h2 /\ h_submitted h2 = [(tex 7, false)].
Proof.
  destruct (idr_lost_on_timeout powf_half (handoff_example true) (tex 7) 5 6 (handoff_ready_example true))
    as (h1 & h2 & H1 & _ & _ & H2 & Hs); [reflexivity|reflexivity|]. exists h1, h2. auto.
Defined.

Lemma slow_setup_no_video_witness :
  negotiate_mode 1000 6000000000 1920 1080 (Some (7, 9)) true true = (CapRam, EncZeroCopy) /\
  forall h, run powf_half (handoff_initial (tex 0) zero_copy_example 0 CapRam (flags_example true))
      [FrameArrived (tex 7) true; EncodeTop 5; EncodeAcquire AcqTimeout] = Some h -> h_submitted h = [].
Proof.
  split.
  - apply (slow_setup_no_video powf_half 1000 6000000000 1920 1080 7 9 (tex 0) zero_copy_example 0 (flags_example true) []
      (handoff_example true)); done.
  - intros h. apply (slow_setup_no_video powf_half 1000 6000000000 1920 1080 7 9); done.
Defined.

Lemma ram_turn_spec_witness : exists r' out,
  qsv_encode (Encoder.request_idr (rl_encoder ram_example)) [6; 5; 4; 3; 2; 1] = Some (rl_encoder r', out) /\
  16666667 <= rl_last_encode r' - 0.
Proof.
  destruct (ram_turn_spec powf_half ram_example (mkRamTurn 1 [[6; 5; 4; 3; 2; 1]] 2 0) [1; 2; 3; 4; 5; 6])
    as (r' & out & _ & H & _ & _ & Hl); try reflexivity; try (vm_compute; discriminate).
  exists r', out. split; [exact H|]. assert (frame_interval (target_fps (rl_flags ram_example)) = 16666667) as E by (vm_compute; reflexivity).
  rewrite E in Hl. exact Hl.
Defined.
