(* ===== verification/StreamHost.v ===== *)
(** * The streaming host's start-up and pipeline ([kmc-streamhost/src/host.rs])

    [start] puts the parts together: the certificate, the web server, the
    RTSP server with its PLAY hook, and the control channel.  The hook and the
    task it leaves behind keep one capture pipeline per process, started when
    a viewer is there and torn down when none is.  The tasks and threads are
    interleaved step by step. *)
From Stdlib Require Import Floats.SpecFloat.
From S2P Require Import Prelude Float Bitrate HostSession Text RtspTypes Rtsp Encoder Capture.

(** ** Configuration and certificate *)

Record HostConfig := mkHostConfig {
  hc_name : string;
  hc_bind_ip : string;
  hc_http_port : Z;
  hc_https_port : Z;
  hc_rtsp_port : Z;
  hc_cert_path : string;
  hc_key_path : string;
  hc_state_path : string;
  hc_unique_id : string
}.

Definition host_config_default : HostConfig := {|
  hc_name := "KMC Streamhost"; hc_bind_ip := "0.0.0.0"; hc_http_port := 47989; hc_https_port := 47984;
  hc_rtsp_port := 48010; hc_cert_path := "streamhost-cert.pem"; hc_key_path := "streamhost-key.pem";
  hc_state_path := "streamhost-clients.json"; hc_unique_id := "0123456789ABCDEF" |}.

(** The file system: content by path, and which paths can be written.
    [created] is what [create_certificate] returns. *)
Definition write_file (writable : string -> bool) (fs : gmap string string) (path content : string) : option (gmap string string) :=
  if writable path then Some (<[path := content]> fs) else None.

(** The files as they are left, and the result. *)
Definition load_or_create_cert (writable : string -> bool) (created : option (string * string)) (fs : gmap string string)
    (cert_path key_path : string) : gmap string string * option (string * string) :=
  match fs !! cert_path, fs !! key_path with
  | Some cert, Some key => (fs, Some (cert, key))
  | _, _ =>
      match created with
      | None => (fs, None)
      | Some (cert, key) =>
          match write_file writable fs cert_path cert with
          | None => (fs, None)
          | Some fs1 =>
              match write_file writable fs1 key_path key with
              | None => (fs1, None)
              | Some fs2 => (fs2, Some (cert, key))
              end
          end
      end
  end.

(** ** The parameters of the stream *)

Definition f64_min (x y : f64) : f64 := if SFltb y x then y else x.

(** [(x as f64 * y) as u64] on non-negative floats *)
Definition u64_of_f64 (x : f64) : Z :=
  match x with
  | S754_finite false m e => Z.min (2 ^ 64 - 1) (if e <? 0 then Zpos m / 2 ^ (- e) else Zpos m * 2 ^ e)
  | S754_infinity false => 2 ^ 64 - 1
  | _ => 0
  end.

Record StreamSettings := mkStreamSettings {
  ss_width : Z; ss_height : Z; ss_fps : Z; ss_bitrate : Z; ss_hevc : bool
}.

(** The monitor's size, or what the client asked for. *)
Definition native_size (monitor : option (Z * Z)) (ctx : StreamContext) : Z * Z :=
  match monitor with
  | Some (mw, mh) => (Z.max mw 2, Z.max mh 2)
  | None => (Z.max (ctx_width ctx) 2, Z.max (ctx_height ctx) 2)
  end.

Definition fit_size (nw nh bw bh : Z) : Z * Z :=
  if (bw =? 0) || (bh =? 0) || ((nw <=? bw) && (nh <=? bh)) then (nw, nh)
  else
    let s := f64_min (f64_div (f64_of_Z bw) (f64_of_Z nw)) (f64_div (f64_of_Z bh) (f64_of_Z nh)) in
    (Z.max (u32_of_f64 (f64_mul (f64_of_Z nw) s)) 2, Z.max (u32_of_f64 (f64_mul (f64_of_Z nh) s)) 2).

(** [x & !1] on [u32] *)
Definition clear_bit0 (x : Z) : Z := Z.land x 0xFFFFFFFE.

Definition negotiated_bitrate (ctx : StreamContext) : Z :=
  if ctx_bitrate_bps ctx =? 0 then 15000000 else ctx_bitrate_bps ctx.

Definition bitrate_floor (w h fps : Z) : Z :=
  Z.min (u64_of_f64 (f64_mul (f64_of_Z (u64 (u64 (w * h) * fps))) (f64_lit 10 100))) 60000000.

Definition stream_settings (monitor : option (Z * Z)) (ctx : StreamContext) : StreamSettings :=
  let '(nw, nh) := native_size monitor ctx in
  let '(w, h) := fit_size nw nh (ctx_width ctx) (ctx_height ctx) in
  let '(w, h) := (clear_bit0 w, clear_bit0 h) in
  let fps := if ctx_fps ctx =? 0 then 120 else ctx_fps ctx in
  {| ss_width := w; ss_height := h; ss_fps := fps;
     ss_bitrate := Z.max (negotiated_bitrate ctx) (bitrate_floor w h fps);
     ss_hevc := ctx_video_format ctx =? 1 |}.

(** ** Pipelines and the task that watches them *)

(** The stop and done flags of a pipeline, its two threads and whether its
    supervisor runs. *)
Record Pipeline := mkPipeline {
  p_stop : bool; p_done : bool; p_capture : bool; p_encode : bool; p_supervised : bool
}.

(** [spawn_capture]: each thread may fail to start; without a supervisor
    nothing runs and the pipeline is done at once. *)
Definition spawn_capture (supervisor capture encode : bool) : Pipeline :=
  if supervisor then {| p_stop := false; p_done := false; p_capture := capture; p_encode := encode; p_supervised := true |}
  else {| p_stop := false; p_done := true; p_capture := false; p_encode := false; p_supervised := false |}.

Definition p_live (p : Pipeline) : bool := p_capture p || p_encode p.

Definition stop_pipeline (p : Pipeline) : Pipeline :=
  {| p_stop := true; p_done := p_done p; p_capture := p_capture p; p_encode := p_encode p; p_supervised := p_supervised p |}.
Definition end_capture (p : Pipeline) : Pipeline :=
  {| p_stop := p_stop p; p_done := p_done p; p_capture := false; p_encode := p_encode p; p_supervised := p_supervised p |}.
Definition end_encode (p : Pipeline) : Pipeline :=
  {| p_stop := p_stop p; p_done := p_done p; p_capture := p_capture p; p_encode := false; p_supervised := p_supervised p |}.
Definition finish_pipeline (p : Pipeline) : Pipeline :=
  {| p_stop := p_stop p; p_done := true; p_capture := p_capture p; p_encode := p_encode p; p_supervised := p_supervised p |}.

(** How far the first PLAY has come: binding the video socket, starting the
    audio, waiting for StartB, watching (or the dummy generator). *)
Inductive Stage :=
| NotStarted
| BindingVideo (ctx : StreamContext)
| StartingAudio (ctx : StreamContext)
| AwaitingStartB (ctx : StreamContext)
| Watching (s : StreamSettings)
| Dummy (fps : Z).

Record StreamHost := mkStreamHost {
  pipeline_started : bool;
  sh_session_reset : bool;
  sh_idr_req : bool;
  sh_client_active : bool;
  bitrate_ctl : BitrateController;
  sh_stage : Stage;
  sh_packet_size : Z;
  sh_pipelines : list Pipeline;
  running : option nat
}.

Definition set_stage (h : StreamHost) (st : Stage) : StreamHost :=
  {| pipeline_started := pipeline_started h; sh_session_reset := sh_session_reset h; sh_idr_req := sh_idr_req h;
     sh_client_active := sh_client_active h; bitrate_ctl := bitrate_ctl h; sh_stage := st;
     sh_packet_size := sh_packet_size h; sh_pipelines := sh_pipelines h; running := running h |}.

Definition set_started (h : StreamHost) (b : bool) : StreamHost :=
  {| pipeline_started := b; sh_session_reset := sh_session_reset h; sh_idr_req := sh_idr_req h;
     sh_client_active := sh_client_active h; bitrate_ctl := bitrate_ctl h; sh_stage := sh_stage h;
     sh_packet_size := sh_packet_size h; sh_pipelines := sh_pipelines h; running := running h |}.

Definition set_host_flags (h : StreamHost) (reset idr active : bool) (c : BitrateController) : StreamHost :=
  {| pipeline_started := pipeline_started h; sh_session_reset := reset; sh_idr_req := idr;
     sh_client_active := active; bitrate_ctl := c; sh_stage := sh_stage h;
     sh_packet_size := sh_packet_size h; sh_pipelines := sh_pipelines h; running := running h |}.

Definition set_packet_size (h : StreamHost) (n : Z) : StreamHost :=
  {| pipeline_started := pipeline_started h; sh_session_reset := sh_session_reset h; sh_idr_req := sh_idr_req h;
     sh_client_active := sh_client_active h; bitrate_ctl := bitrate_ctl h; sh_stage := sh_stage h;
     sh_packet_size := n; sh_pipelines := sh_pipelines h; running := running h |}.

Definition set_pipelines (h : StreamHost) (ps : list Pipeline) (r : option nat) : StreamHost :=
  {| pipeline_started := pipeline_started h; sh_session_reset := sh_session_reset h; sh_idr_req := sh_idr_req h;
     sh_client_active := sh_client_active h; bitrate_ctl := bitrate_ctl h; sh_stage := sh_stage h;
     sh_packet_size := sh_packet_size h; sh_pipelines := ps; running := r |}.

Section HostSteps.
Context (instant_min : Z) (dummy_video : bool).

Definition stream_host_new (now : Z) : StreamHost :=
  {| pipeline_started := false; sh_session_reset := false; sh_idr_req := false; sh_client_active := false;
     bitrate_ctl := bitrate_default now; sh_stage := NotStarted; sh_packet_size := 0; sh_pipelines := [];
     running := None |}.

(** The PLAY hook up to its first [await]. *)
Definition play (now : Z) (ctx : StreamContext) (h : StreamHost) : StreamHost :=
  if pipeline_started h then
    set_host_flags h true true (sh_client_active h) (configure instant_min (bitrate_ctl h) now (negotiated_bitrate ctx))
  else
    set_stage (set_packet_size (set_started h true) (if ctx_packet_size ctx =? 0 then 1024 else ctx_packet_size ctx))
      (BindingVideo ctx).

(** [video::start] returns. *)
Definition video_bound (ok : bool) (h : StreamHost) : StreamHost :=
  match sh_stage h with
  | BindingVideo ctx => if ok then set_stage h (StartingAudio ctx) else set_stage (set_started h false) NotStarted
  | _ => h
  end.

(** [audio::start] returns; its error is only logged. *)
Definition audio_started (h : StreamHost) : StreamHost :=
  match sh_stage h with
  | StartingAudio ctx => set_stage h (AwaitingStartB ctx)
  | _ => h
  end.

(** StartB: [notify_waiters] wakes the tasks that wait at this moment. *)
Definition start_b (monitor : option (Z * Z)) (now : Z) (h : StreamHost) : StreamHost :=
  match sh_stage h with
  | AwaitingStartB ctx =>
      if dummy_video then set_stage h (Dummy (Z.max (ctx_fps ctx) 1))
      else
        let s := stream_settings monitor ctx in
        set_stage (set_host_flags h (sh_session_reset h) (sh_idr_req h) (sh_client_active h)
                     (configure instant_min (bitrate_ctl h) now (ss_bitrate s)))
          (Watching s)
  | _ => h
  end.

Definition alive (h : StreamHost) : bool :=
  match running h with
  | Some i => match sh_pipelines h !! i with Some p => negb (p_stop p) | None => false end
  | None => false
  end.

(** One turn of the watching loop; [sp], [ca], [en]: which threads start. *)
Definition clear_finished (h : StreamHost) : StreamHost :=
  match running h with
  | Some i =>
      match sh_pipelines h !! i with
      | Some p => if p_stop p && p_done p then set_pipelines h (sh_pipelines h) None else h
      | None => h
      end
  | None => h
  end.

Definition watch_tick (sp ca en : bool) (h : StreamHost) : StreamHost :=
  match sh_stage h with
  | Watching _ =>
      let h := clear_finished h in
      match sh_client_active h, alive h, running h with
      | true, false, None =>
          set_pipelines h (sh_pipelines h ++ [spawn_capture sp ca en]) (Some (length (sh_pipelines h)))
      | false, true, Some i => set_pipelines h (alter stop_pipeline i (sh_pipelines h)) (Some i)
      | _, _, _ => h
      end
  | _ => h
  end.

(** A thread of pipeline [i] ends: asked to, or by itself. *)
Definition thread_ends (capture : bool) (i : nat) (h : StreamHost) : StreamHost :=
  set_pipelines h (alter (if capture then end_capture else end_encode) i (sh_pipelines h)) (running h).

(** The supervisor has joined both threads. *)
Definition supervisor_done (i : nat) (h : StreamHost) : StreamHost :=
  match sh_pipelines h !! i with
  | Some p =>
      if p_supervised p && negb (p_live p) then
        set_pipelines h (alter finish_pipeline i (sh_pipelines h)) (running h)
      else h
  | None => h
  end.

Inductive HostEvent :=
| Play (now : Z) (ctx : StreamContext)
| VideoBound (ok : bool)
| AudioStarted
| StartB (monitor : option (Z * Z)) (now : Z)
| Tick (sp ca en : bool)
| ThreadEnds (capture : bool) (i : nat)
| SupervisorDone (i : nat)
| OtherTasks (reset idr active : bool) (c : BitrateController).

Definition stream_host_step (h : StreamHost) (e : HostEvent) : StreamHost :=
  match e with
  | Play now ctx => play now ctx h
  | VideoBound ok => video_bound ok h
  | AudioStarted => audio_started h
  | StartB monitor now => start_b monitor now h
  | Tick sp ca en => watch_tick sp ca en h
  | ThreadEnds capture i => thread_ends capture i h
  | SupervisorDone i => supervisor_done i h
  | OtherTasks reset idr active c => set_host_flags h reset idr active c
  end.

Definition host_run (h : StreamHost) (es : list HostEvent) : StreamHost := foldl stream_host_step h es.

(** [start]: the RTSP server with the hook. *)
Definition host_start (session : SessionState) (now : Z) : RtspServer StreamHost :=
  set_play_hook (rtsp_server_new stream_ports_default session (stream_host_new now)) (play now).
End HostSteps.

(** ** The parameters *)

Lemma clear_bit0_even x : is_u32 x -> Z.even (clear_bit0 x) = true /\ 0 <= clear_bit0 x <= x /\ (2 <= x -> 2 <= clear_bit0 x).
Proof.
  unfold is_u32. intros Hx. assert (clear_bit0 x = x / 2 * 2) as ->.
  { unfold clear_bit0. apply Z.bits_inj'. intros n Hn. rewrite Z.land_spec.
    change (x / 2 * 2) with (x / 2 ^ 1 * 2 ^ 1). rewrite <- Z.shiftr_div_pow2, <- Z.shiftl_mul_pow2 by lia.
    change 0xFFFFFFFE with (Z.shiftl (Z.ones 31) 1).
    destruct (decide (n < 1)).
    - rewrite !Z.shiftl_spec_low by lia. apply andb_false_r.
    - rewrite !Z.shiftl_spec_high, Z.shiftr_spec by lia. replace (n - 1 + 1) with n by lia.
      destruct (decide (n - 1 < 31)).
      + rewrite Z.ones_spec_low by lia. apply andb_true_r.
      + rewrite Z.ones_spec_high by lia. rewrite andb_false_r. symmetry. apply Z.testbit_false; [lia|].
        rewrite Z.div_small; [done|]. split; [lia|]. eapply Z.lt_le_trans; [apply Hx|]. apply Z.pow_le_mono_r; lia. }
  split; [|split; [div_lia|intros; div_lia]]. rewrite Z.mul_comm, Z.even_mul. done.
Qed.

Lemma u32_of_f64_range x : is_u32 (u32_of_f64 x).
Proof.
  unfold is_u32, u32_of_f64, U32_MAX. destruct x as [|[]| |[] m e]; try lia. split; [|lia].
  apply Z.min_glb; [lia|]. case_if; bool_prop; [apply Z.div_pos; [lia|]; apply Z.pow_pos_nonneg; lia|].
  apply Z.mul_nonneg_nonneg; [lia|]. apply Z.pow_nonneg. lia.
Qed.

Record context_ok (ctx : StreamContext) : Prop := {
  co_width : is_u32 (ctx_width ctx);
  co_height : is_u32 (ctx_height ctx);
  co_fps : is_u32 (ctx_fps ctx);
  co_bitrate : is_u32 (ctx_bitrate_bps ctx)
}.

Lemma native_size_range monitor ctx : context_ok ctx ->
  match monitor with Some (mw, mh) => is_u32 mw /\ is_u32 mh | None => True end ->
  2 <= (native_size monitor ctx).1 < 2 ^ 32 /\ 2 <= (native_size monitor ctx).2 < 2 ^ 32.
Proof. intros [Hw Hh _ _] Hm. unfold native_size, is_u32 in *. destruct monitor as [[mw mh]|]; cbn [fst snd]; lia. Qed.

Lemma fit_size_range nw nh bw bh : 2 <= nw < 2 ^ 32 -> 2 <= nh < 2 ^ 32 ->
  2 <= (fit_size nw nh bw bh).1 < 2 ^ 32 /\ 2 <= (fit_size nw nh bw bh).2 < 2 ^ 32.
Proof.
  intros Hw Hh. unfold fit_size. case_if; [done|]. cbn [fst snd].
  set (x := u32_of_f64 _). set (y := u32_of_f64 _).
  pose proof (u32_of_f64_range (f64_mul (f64_of_Z nw) (f64_min (f64_div (f64_of_Z bw) (f64_of_Z nw)) (f64_div (f64_of_Z bh) (f64_of_Z nh))))) as Hx.
  pose proof (u32_of_f64_range (f64_mul (f64_of_Z nh) (f64_min (f64_div (f64_of_Z bw) (f64_of_Z nw)) (f64_div (f64_of_Z bh) (f64_of_Z nh))))) as Hy.
  fold x in Hx. fold y in Hy. unfold is_u32 in *. lia.
Qed.

(** whatever the client asks for, the encoder is opened with a positive
    frame rate, even dimensions of at least 2, and at least the negotiated bit
    rate; the floor the host adds to it never exceeds 60 Mbit/s. *)
Theorem stream_settings_ok monitor ctx : context_ok ctx ->
  match monitor with Some (mw, mh) => is_u32 mw /\ is_u32 mh | None => True end ->
  let s := stream_settings monitor ctx in
  (Z.even (ss_width s) = true /\ 2 <= ss_width s < 2 ^ 32) /\
  (Z.even (ss_height s) = true /\ 2 <= ss_height s < 2 ^ 32) /\ 0 < ss_fps s /\
  negotiated_bitrate ctx <= ss_bitrate s <= Z.max (negotiated_bitrate ctx) 60000000.
Proof.
  intros Hc Hm. pose proof (native_size_range monitor ctx Hc Hm) as [Hn1 Hn2]. unfold stream_settings.
  destruct (native_size monitor ctx) as [nw nh]. cbn [fst snd] in *.
  pose proof (fit_size_range nw nh (ctx_width ctx) (ctx_height ctx) Hn1 Hn2) as [Hf1 Hf2].
  destruct (fit_size nw nh _ _) as [w h]. cbn [fst snd] in *. cbn [ss_width ss_height ss_fps ss_bitrate].
  destruct (clear_bit0_even w) as (? & ? & ?); [unfold is_u32; lia|].
  destruct (clear_bit0_even h) as (? & ? & ?); [unfold is_u32; lia|].
  destruct Hc as [_ _ Hfps _]. unfold is_u32 in Hfps. split_and!; try done; try lia.
  - case_if; bool_prop; lia.
  - unfold bitrate_floor. lia.
Qed.

(** 2560 by 1600 at 120 Hz: the floor is above what the client asked for. *)
Definition context_example : StreamContext := mkStreamContext 2560 1600 120 1392 10000000 0.

Lemma stream_settings_ok_witness :
  let s := stream_settings (Some (3840, 2160)) (mkStreamContext 1919 1079 0 1392 5000000 1) in
  (Z.even (ss_width s) = true /\ 2 <= ss_width s < 2 ^ 32) /\ 5000000 <= ss_bitrate s.
Proof.
  assert (context_ok (mkStreamContext 1919 1079 0 1392 5000000 1)) as Hc by (split; split; simpl; lia).
  destruct (stream_settings_ok (Some (3840, 2160)) _ Hc) as (Hw & _ & _ & Hb & _); [split; split; lia|].
  split; [exact Hw|exact Hb].
Defined.

Example settings_example :
  stream_settings (Some (2560, 1600)) context_example = mkStreamSettings 2560 1600 120 49152000 false.
Proof. vm_compute. reflexivity. Qed.

(** ** The certificate *)

(** whatever the first start finds, once it returns a certificate every
    later start finds the same one and changes no file. *)
Theorem cert_persists writable created created' fs cert_path key_path fs' pair :
  cert_path <> key_path ->
  load_or_create_cert writable created fs cert_path key_path = (fs', Some pair) ->
  load_or_create_cert writable created' fs' cert_path key_path = (fs', Some pair).
Proof.
  intros Hne. unfold load_or_create_cert at 1, write_file.
  assert (forall c k, <[key_path := k]> (<[cert_path := c]> fs) !! cert_path = Some c) as Hc.
  { intros c k. rewrite lookup_insert_ne by done. apply lookup_insert_eq. }
  assert (forall c k, <[key_path := k]> (<[cert_path := c]> fs) !! key_path = Some k) as Hk.
  { intros c k. apply lookup_insert_eq. }
  destruct (fs !! cert_path) as [c0|] eqn:E1, (fs !! key_path) as [k0|] eqn:E2;
    try (intros [= <- <-]; unfold load_or_create_cert; by rewrite E1, E2).
  all: destruct created as [[c k]|]; [|done]; destruct (writable cert_path), (writable key_path); try done;
    intros [= <- <-]; unfold load_or_create_cert; by rewrite Hc, Hk.
Qed.

Lemma cert_persists_witness :
  load_or_create_cert (fun _ => true) (Some ("C2", "K2")%string)
    (load_or_create_cert (fun _ => true) (Some ("C", "K")%string) ∅ "cert" "key").1 "cert" "key"
  = (<["key" := "K"]> (<["cert" := "C"]> ∅), Some ("C", "K"))%string.
Proof. apply (cert_persists (fun _ => true) (Some ("C", "K")%string) _ ∅); [done|reflexivity]. Defined.

(** ** The pipeline *)

Section HostProofs.
Context (instant_min : Z) (dummy_video : bool).

Abbreviation hrun := (host_run instant_min dummy_video).
Abbreviation hstep := (stream_host_step instant_min dummy_video).

Record stream_host_ok (h : StreamHost) : Prop := {
  so_old : forall i p, sh_pipelines h !! i = Some p -> running h = Some i \/ p_done p = true;
  so_done : forall i p, sh_pipelines h !! i = Some p -> p_done p = true -> p_live p = false;
  so_running : forall i, running h = Some i -> is_Some (sh_pipelines h !! i);
  so_started : pipeline_started h = true <-> sh_stage h <> NotStarted;
  so_stage : sh_pipelines h <> [] -> exists s, sh_stage h = Watching s
}.

Lemma alter_ok h f i :
  (forall p, p_done p = true -> p_done (f p) = true) ->
  (forall p, sh_pipelines h !! i = Some p -> (p_done p = true -> p_live p = false) -> p_done (f p) = true -> p_live (f p) = false) ->
  stream_host_ok h -> stream_host_ok (set_pipelines h (alter f i (sh_pipelines h)) (running h)).
Proof.
  intros Hd Hl [H1 H2 H3 H4 H5]. split; simpl.
  - intros j p Hj. destruct (decide (i = j)) as [->|].
    + rewrite list_lookup_alter_eq in Hj. destruct (sh_pipelines h !! j) as [q|] eqn:E; [|done]. simplify_eq/=.
      destruct (H1 j q E); auto.
    + rewrite list_lookup_alter_ne in Hj by done. eauto.
  - intros j p Hj. destruct (decide (i = j)) as [->|].
    + rewrite list_lookup_alter_eq in Hj. destruct (sh_pipelines h !! j) as [q|] eqn:E; [|done]. simplify_eq/=. eauto.
    + rewrite list_lookup_alter_ne in Hj by done. eauto.
  - intros j Hj. apply H3, lookup_lt_is_Some in Hj. apply lookup_lt_is_Some. by rewrite length_alter.
  - done.
  - intros Hp. apply H5. intros E. apply Hp. by rewrite E.
Qed.

Lemma clear_finished_ok h : stream_host_ok h -> stream_host_ok (clear_finished h).
Proof.
  intros Hok. unfold clear_finished. destruct (running h) as [i|] eqn:Er; [|done].
  destruct (sh_pipelines h !! i) as [p|] eqn:Ep; [|done]. case_if; [|done]. bool_prop.
  destruct Hok as [H1 H2 H3 H4 H5]. split; simpl; try done.
  intros j q Hq. destruct (H1 j q Hq) as [E'|]; [|by right]. right. simplify_eq. done.
Qed.

Lemma start_ok h s sp ca en : stream_host_ok h -> running h = None -> sh_stage h = Watching s ->
  stream_host_ok (set_pipelines h (sh_pipelines h ++ [spawn_capture sp ca en]) (Some (length (sh_pipelines h)))).
Proof.
  intros [H1 H2 H3 H4 H5] Er Es. split; simpl; try done.
  - intros i p. rewrite lookup_app_Some. intros [Hi|[Hl Hi]].
    + right. destruct (H1 i p Hi); [congruence|done].
    + left. f_equal. apply list_lookup_singleton_Some in Hi. lia.
  - intros i p. rewrite lookup_app_Some. intros [Hi|[Hl Hi]]; [eauto|].
    apply list_lookup_singleton_Some in Hi as [_ <-]. unfold spawn_capture. by destruct sp.
  - intros i [= <-]. apply lookup_lt_is_Some. rewrite length_app. simpl. lia.
  - intros _. by eexists.
Qed.

Lemma step_ok h e : stream_host_ok h -> stream_host_ok (hstep h e).
Proof.
  intros Hok. destruct e as [now ctx|ok| |monitor now|sp ca en|[] i|i|reset idr active c]; cbn [stream_host_step].
  - unfold play. destruct (pipeline_started h) eqn:Es; [by destruct Hok|]. destruct Hok as [H1 H2 H3 H4 H5].
    split; simpl; try done. intros [s Hs]%H5. rewrite Es, Hs in H4.
    assert (false = true) by (by apply H4). done.
  - unfold video_bound. destruct (sh_stage h) eqn:Es; try done. destruct Hok as [H1 H2 H3 H4 H5].
    destruct ok; split; simpl; try done; try (intros [s Hs]%H5; congruence); try (rewrite H4, Es; by split).
  - unfold audio_started. destruct (sh_stage h) eqn:Es; try done. destruct Hok as [H1 H2 H3 H4 H5].
    split; simpl; try done; try (intros [s Hs]%H5; congruence). rewrite H4, Es. by split.
  - unfold start_b. destruct (sh_stage h) eqn:Es; try done. destruct Hok as [H1 H2 H3 H4 H5].
    destruct dummy_video; split; simpl; try done; try (intros [s Hs]%H5; congruence); try (rewrite H4, Es; by split).
  - unfold watch_tick. destruct (sh_stage h) eqn:Es; try done.
    assert (sh_stage (clear_finished h) = Watching s) as Es'.
    { unfold clear_finished. destruct (running h); [|done]. destruct (_ !! _); [|done]. by case_if. }
    apply clear_finished_ok in Hok. clear Es. set (h0 := clear_finished h) in *. clearbody h0. clear h.
    destruct (sh_client_active h0), (alive h0) eqn:Ea, (running h0) as [i|] eqn:Er; try done.
    + by apply (start_ok h0 s).
    + rewrite <- Er. apply alter_ok; [done..|]. done.
  - apply alter_ok; [done| |done]. intros p _ Hp Hd. specialize (Hp Hd). unfold p_live in *. simpl.
    by destruct (p_capture p), (p_encode p).
  - apply alter_ok; [done| |done]. intros p _ Hp Hd. specialize (Hp Hd). unfold p_live in *. simpl.
    by destruct (p_capture p), (p_encode p).
  - unfold supervisor_done. destruct (_ !! _) as [p|] eqn:Ep; [|done]. case_if; [|done]. bool_prop.
    apply alter_ok; [done| |done]. intros q Hq _ _. by simplify_eq.
  - by destruct Hok.
Qed.

Lemma run_ok h es : stream_host_ok h -> stream_host_ok (hrun h es).
Proof. revert h. induction es as [|e es IH]; intros h H; [done|]. apply IH. by apply step_ok. Qed.

Lemma new_ok now : stream_host_ok (stream_host_new now).
Proof. split; simpl; try done; by split. Qed.

(** C26: at most one pipeline is alive at any time, whatever the viewers, the
    RTSP connections and the threads do and in whatever order; [done] is set
    only when both threads have ended. *)
Theorem one_pipeline now es i j p q :
  let h := hrun (stream_host_new now) es in
  sh_pipelines h !! i = Some p -> sh_pipelines h !! j = Some q -> p_live p = true ->
  p_done p = false /\ (p_live q = true -> i = j).
Proof.
  intros h Hi Hj Hp. destruct (run_ok _ es (new_ok now)) as [H1 H2 _ _ _]. fold h in H1, H2. split.
  - destruct (p_done p) eqn:E; [|done]. by rewrite (H2 i p Hi E) in Hp.
  - intros Hq. destruct (H1 i p Hi) as [Ei|Ei]; [|by rewrite (H2 i p Hi Ei) in Hp].
    destruct (H1 j q Hj) as [Ej|Ej]; [|by rewrite (H2 j q Hj Ej) in Hq]. congruence.
Qed.

(** *** A pipeline that dies by itself *)

Definition client_stays (e : HostEvent) : Prop := match e with OtherTasks _ _ active _ => active = true | _ => True end.

Record dead_at (i n : nat) (h : StreamHost) : Prop := {
  dd_active : sh_client_active h = true;
  dd_running : running h = Some i;
  dd_length : length (sh_pipelines h) = n;
  dd_stop : exists p, sh_pipelines h !! i = Some p /\ p_stop p = false;
  dd_live : forall j q, sh_pipelines h !! j = Some q -> p_live q = false
}.

Lemma alter_dead f i n j h :
  (forall p, p_stop (f p) = p_stop p) -> (forall p, p_live p = false -> p_live (f p) = false) ->
  dead_at i n h -> dead_at i n (set_pipelines h (alter f j (sh_pipelines h)) (running h)).
Proof.
  intros Hs Hl [Ha Hr Hn (p & Hp & Hst) Hd]. split; simpl; try done.
  - by rewrite length_alter.
  - destruct (decide (i = j)) as [->|].
    + exists (f p). rewrite list_lookup_alter_eq, Hp. by rewrite Hs.
    + exists p. by rewrite list_lookup_alter_ne.
  - intros k q. destruct (decide (j = k)) as [->|].
    + rewrite list_lookup_alter_eq. destruct (_ !! k) eqn:E; [|done]. intros [= <-]. eauto.
    + rewrite list_lookup_alter_ne by done. eauto.
Qed.

Lemma step_dead i n h e : dead_at i n h -> client_stays e -> dead_at i n (hstep h e).
Proof.
  intros Hd He. destruct e as [now ctx|ok| |monitor now|sp ca en|[] j|j|reset idr active c]; cbn [stream_host_step].
  - unfold play. destruct (pipeline_started h); by destruct Hd.
  - unfold video_bound. destruct (sh_stage h), ok; by destruct Hd.
  - unfold audio_started. destruct (sh_stage h); by destruct Hd.
  - unfold start_b. destruct (sh_stage h); try done. destruct dummy_video; by destruct Hd.
  - unfold watch_tick. destruct (sh_stage h); try done. pose proof Hd as [Ha Hr Hn (p & Hp & Hst) Hl].
    unfold clear_finished. rewrite Hr, Hp, Hst. cbn [andb]. unfold alive. by rewrite Ha, Hr, Hp, Hst.
  - apply alter_dead; [done| |done]. intros p Hp. unfold p_live in *. simpl. by destruct (p_capture p), (p_encode p).
  - apply alter_dead; [done| |done]. intros p Hp. unfold p_live in *. simpl. by destruct (p_capture p), (p_encode p).
  - unfold supervisor_done. destruct (_ !! _); [|done]. case_if; [|done]. by apply alter_dead.
  - simpl in He. subst. by destruct Hd.
Qed.

(** when both threads of the running pipeline end by themselves (the codec
    cannot be opened, a thread panics, the capture is closed) while a viewer
    is there, no pipeline is started again for as long as the viewer stays. *)
Theorem dead_pipeline_not_restarted now es es' i p :
  let h := hrun (stream_host_new now) es in
  running h = Some i -> sh_pipelines h !! i = Some p -> p_stop p = false -> p_live p = false ->
  sh_client_active h = true -> Forall client_stays es' ->
  let h' := hrun h es' in
  running h' = Some i /\ length (sh_pipelines h') = length (sh_pipelines h) /\
  forall j q, sh_pipelines h' !! j = Some q -> p_live q = false.
Proof.
  intros h Hr Hp Hs Hl Ha He. destruct (run_ok _ es (new_ok now)) as [H1 H2 _ _ _]. fold h in H1, H2.
  assert (dead_at i (length (sh_pipelines h)) h) as Hd.
  { split; [done|done|done|by exists p|]. intros j q Hq. destruct (H1 j q Hq); [congruence|eauto]. }
  clear - He Hd. set (n := length (sh_pipelines h)) in *. clearbody n h.
  revert h Hd. induction He as [|e es' He _ IH]; intros h Hd; [by destruct Hd|]. by apply IH, step_dead.
Qed.

(** *** Tear-down and restart *)

Lemma tick_stops sp ca en h s i p : sh_stage h = Watching s -> running h = Some i -> sh_pipelines h !! i = Some p ->
  p_stop p = false -> sh_client_active h = false ->
  watch_tick sp ca en h = set_pipelines h (alter stop_pipeline i (sh_pipelines h)) (Some i).
Proof.
  intros Hst Hr Hp Hs Ha. unfold watch_tick, clear_finished. rewrite Hst, Hr, Hp, Hs. cbn [andb].
  unfold alive. by rewrite Hr, Hp, Hs, Ha.
Qed.

Lemma tick_restarts sp ca en h s i p : sh_stage h = Watching s -> running h = Some i -> sh_pipelines h !! i = Some p ->
  p_stop p = true -> p_done p = true -> sh_client_active h = true ->
  watch_tick sp ca en h
  = set_pipelines h (sh_pipelines h ++ [spawn_capture sp ca en]) (Some (length (sh_pipelines h))).
Proof.
  intros Hst Hr Hp Hs Hd Ha. unfold watch_tick, clear_finished. rewrite Hst, Hr, Hp, Hs, Hd. cbn [andb].
  by simpl; rewrite Ha.
Qed.

Lemma threads_finish h i p : sh_pipelines h !! i = Some p -> p_supervised p = true ->
  exists q, sh_pipelines (supervisor_done i (thread_ends false i (thread_ends true i h))) !! i = Some q /\
    p_stop q = p_stop p /\ p_done q = true.
Proof.
  intros Hp Hs. unfold supervisor_done, thread_ends. simpl. rewrite !list_lookup_alter_eq, Hp. simpl. rewrite Hs. simpl.
  rewrite !list_lookup_alter_eq, Hp. by eexists.
Qed.

Lemma threads_finish_rest h i :
  let h' := supervisor_done i (thread_ends false i (thread_ends true i h)) in
  sh_stage h' = sh_stage h /\ running h' = running h /\ length (sh_pipelines h') = length (sh_pipelines h).
Proof.
  cbn zeta. unfold supervisor_done. destruct (_ !! _); [|by simpl; rewrite !length_alter].
  case_if; simpl; by rewrite ?length_alter.
Qed.

(** when the viewer leaves, the pipeline is torn down, and when it returns
    after that a new one is started, with both threads running. *)
Theorem pipeline_restarts now es i p s c reset idr :
  let h := hrun (stream_host_new now) es in
  sh_stage h = Watching s -> running h = Some i -> sh_pipelines h !! i = Some p ->
  p_stop p = false -> p_supervised p = true ->
  let h' := hrun h [OtherTasks reset idr false c; Tick true true true; ThreadEnds true i; ThreadEnds false i;
                    SupervisorDone i; OtherTasks reset idr true c; Tick true true true] in
  running h' = Some (length (sh_pipelines h)) /\
  exists q, sh_pipelines h' !! length (sh_pipelines h) = Some q /\ p_stop q = false /\ p_capture q = true /\ p_encode q = true.
Proof.
  intros h Hst Hr Hp Hs Hsup. clearbody h. cbv zeta. unfold host_run. cbn [foldl stream_host_step].
  rewrite (tick_stops _ _ _ (set_host_flags h reset idr false c) s i p); try done.
  cbn [sh_pipelines set_host_flags].
  set (h1 := set_pipelines _ (alter stop_pipeline i (sh_pipelines h)) (Some i)).
  destruct (threads_finish h1 i (stop_pipeline p)) as (q & Hq & Hqs & Hqd); [by simpl; rewrite list_lookup_alter_eq, Hp|done|].
  destruct (threads_finish_rest h1 i) as (Est & Er & El). set (h2 := supervisor_done _ _) in *. clearbody h2.
  rewrite (tick_restarts _ _ _ (set_host_flags h2 reset idr true c) s i q); try done; try (by simpl; rewrite ?Est, ?Er).
  cbn [sh_pipelines set_host_flags set_pipelines running]. subst h1. cbn [sh_pipelines set_pipelines] in El.
  rewrite length_alter in El. rewrite El. split; [done|].
  eexists. rewrite lookup_app_r, El, Nat.sub_diag by lia. by split.
Qed.

(** *** StartB *)

Definition no_start_b (e : HostEvent) : Prop := match e with StartB _ _ => False | _ => True end.

Record awaiting (ctx : StreamContext) (h : StreamHost) : Prop := {
  aw_stage : sh_stage h = AwaitingStartB ctx;
  aw_started : pipeline_started h = true;
  aw_pipelines : sh_pipelines h = []
}.

Lemma step_awaiting ctx h e : awaiting ctx h -> no_start_b e -> awaiting ctx (hstep h e).
Proof.
  intros [Hs Ht Hp] He. destruct e as [now ctx'|ok| |monitor now|sp ca en|[] j|j|reset idr active c]; try done; cbn [stream_host_step].
  - unfold play. rewrite Ht. by split.
  - unfold video_bound. by rewrite Hs.
  - unfold audio_started. by rewrite Hs.
  - unfold watch_tick. by rewrite Hs.
  - split; simpl; [done..|by rewrite Hp].
  - split; simpl; [done..|by rewrite Hp].
  - unfold supervisor_done. by rewrite Hp.
Qed.

(** StartB only counts when the first PLAY is already waiting for it: one
    that comes after the audio has started opens the pipeline, one that comes
    before is lost, and nothing is streamed until another StartB. *)
Theorem start_b_order ctx now monitor t es : dummy_video = false -> Forall no_start_b es ->
  (exists s, sh_stage (hrun (stream_host_new now) [Play now ctx; VideoBound true; AudioStarted; StartB monitor t]) = Watching s) /\
  let h := hrun (stream_host_new now) ([Play now ctx; VideoBound true; StartB monitor t; AudioStarted] ++ es) in
  sh_stage h = AwaitingStartB ctx /\ sh_pipelines h = [].
Proof.
  intros Hd He. split.
  - unfold host_run. cbn [foldl stream_host_step]. unfold start_b. simpl. rewrite Hd. by eexists.
  - unfold host_run. rewrite foldl_app. set (h0 := foldl _ _ [_; _; _; _]).
    assert (awaiting ctx h0) as Ha by done. clearbody h0.
    revert h0 Ha. induction He as [|e es He _ IH]; intros h0 Ha; [by destruct Ha|]. by apply IH, step_awaiting.
Qed.
End HostProofs.

Definition host_events : list HostEvent :=
  [Play 0 context_example; VideoBound true; AudioStarted; StartB None 1;
   OtherTasks false false true (bitrate_default 0); Tick true true true].

Lemma one_pipeline_witness :
  p_done (spawn_capture true true true) = false /\ (p_live (spawn_capture true true true) = true -> 0%nat = 0%nat).
Proof.
  apply (one_pipeline 0 false 0 host_events 0 0 (spawn_capture true true true) (spawn_capture true true true));
    vm_compute; reflexivity.
Defined.

Lemma dead_pipeline_not_restarted_witness :
  let h := host_run 0 false (stream_host_new 0) (host_events ++ [ThreadEnds true 0; ThreadEnds false 0; SupervisorDone 0]) in
  running (host_run 0 false h [Tick true true true; Play 5 context_example; Tick true true true]) = Some 0%nat.
Proof.
  apply (dead_pipeline_not_restarted 0 false 0 (host_events ++ [ThreadEnds true 0; ThreadEnds false 0; SupervisorDone 0])
    [Tick true true true; Play 5 context_example; Tick true true true] 0 (mkPipeline false true false false true));
    try (vm_compute; reflexivity). by repeat constructor.
Defined.

Lemma pipeline_restarts_witness :
  running (host_run 0 false (host_run 0 false (stream_host_new 0) host_events)
    [OtherTasks false false false (bitrate_default 0); Tick true true true; ThreadEnds true 0; ThreadEnds false 0;
     SupervisorDone 0; OtherTasks false false true (bitrate_default 0); Tick true true true]) = Some 1%nat.
Proof.
  apply (pipeline_restarts 0 false 0 host_events 0 (spawn_capture true true true) (stream_settings None context_example));
    vm_compute; reflexivity.
Defined.

Lemma start_b_order_witness :
  sh_pipelines (host_run 0 false (stream_host_new 0)
    ([Play 0 context_example; VideoBound true; StartB None 1; AudioStarted] ++ [Tick true true true])) = [].
Proof. apply (start_b_order 0 false context_example 0 None 1 [Tick true true true]); [done|by repeat constructor]. Defined.
