(* ===== verification/Launch.v ===== *)
(** * Launching a stream: the web server's GameStream routes, the client's
    HTTP calls and its session ([kmc-streamhost/src/webserver.rs],
    [kmc-moonclient/src/pair.rs], [session.rs], the admin's [stream.rs])

    A query string and an XML document are association lists of names and
    texts: the formats belong to the [url], [hyper] and [roxmltree] crates.
    What the program prints into and parses out of the values (the mode, the
    key, numbers, the session URL) is spelled out.  The hex codec is the class
    [HexCodec]. *)
From Stdlib Require Import Sorted.
From S2P Require Import Prelude Wire HostSession Control Text RtspTypes Rtsp.

Class HexCodec := {
  hex_encode : list Z -> text;
  hex_decode : text -> option (list Z)
}.

Class HexLaws (H : HexCodec) : Prop := {
  hex_roundtrip b : bytes_ok b -> hex_decode (hex_encode b) = Some b
}.

(** ** Requests and documents *)

Definition Params : Type := list (text * text).
Definition Xml : Type := list (text * text).

(** A [HashMap] collected from pairs: the last value of a name counts. *)
Definition get_param (ps : Params) (name : text) : option text :=
  foldl (fun acc p => if decide (p.1 = name) then Some p.2 else acc) None ps.

(** The text of the first element of this name, trimmed; an empty element
    has none. *)
Definition xml_text (doc : Xml) (tag : text) : option text :=
  match filter (fun e => e.1 = tag) doc with
  | (_, t) :: _ => if decide (t = []) then None else Some (trim t)
  | [] => None
  end.

(** ** The host's routes *)

Record ServerConfig := mkServerConfig {
  sc_name : text;
  sc_unique_id : text;
  sc_http_port : Z;
  sc_https_port : Z;
  sc_rtsp_port : Z
}.

Inductive HttpMethod := GET | POST | OtherMethod.

(** Who answers a request; the pairing handlers are those of Pairing.v. *)
Inductive Route := RServerInfo | RPair | RPinPage | RSubmitPin | RAppList | RLaunch | RNotFound.

Definition path_is (path : text) (s : string) : bool := bool_decide (path = str s).

Definition route_of (https : bool) (m : HttpMethod) (path : text) : Route :=
  match https, m with
  | _, GET =>
      if path_is path "/serverinfo" then RServerInfo
      else if path_is path "/pair" then RPair
      else if negb https && path_is path "/pin" then RPinPage
      else if https && path_is path "/applist" then RAppList
      else if https && path_is path "/launch" then RLaunch
      else if https && path_is path "/resume" then RLaunch
      else RNotFound
  | false, POST => if path_is path "/submit-pin" then RSubmitPin else RNotFound
  | _, _ => RNotFound
  end.

Inductive Response := XmlOk (doc : Xml) | Handler (r : Route) | NotFound.

(** Pairing was removed: every client is let in. *)
Definition require_paired (fingerprint : option text) : option Response := None.

Definition CODEC_SUPPORT : Z := 0x0001.

Definition server_info (cfg : ServerConfig) (local : option text) : Xml :=
  [(str "hostname", sc_name cfg); (str "appversion", str "7.1.431.-1"); (str "GfeVersion", str "3.23.0.74");
   (str "uniqueid", sc_unique_id cfg); (str "HttpsPort", to_string (sc_https_port cfg));
   (str "ExternalPort", to_string (sc_http_port cfg)); (str "mac", str "00:00:00:00:00:00");
   (str "MaxLumaPixelsHEVC", str "0"); (str "LocalIP", default [] local);
   (str "ServerCodecModeSupport", to_string CODEC_SUPPORT); (str "SupportedDisplayMode", []);
   (str "PairStatus", str "1"); (str "currentgame", str "0"); (str "state", str "KMC_SERVER_FREE")].

Definition app_list : Xml := [(str "IsHdrSupported", str "0"); (str "AppTitle", str "Desktop"); (str "ID", str "1")].

(** [mode=WxHxR] *)
Definition parse_mode (mode : option text) : Z * Z * Z :=
  match mode with
  | Some m =>
      match split "x"%char m with
      | [w; h; r] => (default 0 (parse_u32 w), default 0 (parse_u32 h), default 60 (parse_u32 r))
      | _ => (0, 0, 60)
      end
  | None => (0, 0, 60)
  end.

Definition session_url (cfg : ServerConfig) (local : option text) : text :=
  str "rtsp://" ++ default (str "127.0.0.1") local ++ str ":" ++ to_string (sc_rtsp_port cfg).

Definition host_launch {H : HexCodec} (cfg : ServerConfig) (ps : Params) (local : option text) (st : SessionState)
  : SessionState * Xml :=
  let '(w, h, r) := parse_mode (get_param ps (str "mode")) in
  let key := default [] (t <-? get_param ps (str "rikey"); hex_decode t) in
  let key_id := default 0 (t <-? get_param ps (str "rikeyid"); parse_i64 t) in
  (session_set st {| remote_input_key := key; remote_input_key_id := key_id; ls_width := w; ls_height := h;
                     refresh_rate := r |},
   [(str "gamesession", str "1"); (str "sessionUrl0", session_url cfg local)]).

(** [route]; the pairing routes answer elsewhere. *)
Definition route {H : HexCodec} (cfg : ServerConfig) (https : bool) (m : HttpMethod) (path : text) (ps : Params)
    (local fingerprint : option text) (st : SessionState) : SessionState * Response :=
  match route_of https m path with
  | RServerInfo => (st, XmlOk (server_info cfg local))
  | RAppList => match require_paired fingerprint with Some deny => (st, deny) | None => (st, XmlOk app_list) end
  | RLaunch =>
      match require_paired fingerprint with
      | Some deny => (st, deny)
      | None => let '(st, doc) := host_launch cfg ps local st in (st, XmlOk doc)
      end
  | RNotFound => (st, NotFound)
  | r => (st, Handler r)
  end.

(** ** The client's calls *)

Definition split_host_base (address : text) : text * Z :=
  match rsplit_once ":"%char address with
  | Some (host, port) =>
      if contains (str ":") host then (address, DEFAULT_BASE_PORT)
      else match parse_unsigned U16_MAX port with
           | Some p => if p =? 0 then (address, DEFAULT_BASE_PORT) else (host, p)
           | None => (address, DEFAULT_BASE_PORT)
           end
  | None => (address, DEFAULT_BASE_PORT)
  end.

Record PairedHost := mkPairedHost { ph_address : text; ph_http_port : Z; ph_https_port : Z; ph_rtsp_port : Z }.

Record ServerInfo := mkServerInfo {
  app_version : text; gfe_version : text; pair_status : bool; current_game : Z; si_https_port : Z;
  codec_mode_support : Z
}.

Record LaunchResult := mkLaunchResult { rtsp_session_url : text; rikey : list Z; rikey_iv : list Z }.

Definition parse_server_info (https_port : Z) (doc : Xml) : ServerInfo :=
  {| app_version := default [] (xml_text doc (str "appversion"));
     gfe_version := default [] (xml_text doc (str "GfeVersion"));
     pair_status := bool_decide (xml_text doc (str "PairStatus") = Some (str "1"));
     current_game := default 0 (t <-? xml_text doc (str "currentgame"); parse_i64 t);
     si_https_port := default https_port (t <-? xml_text doc (str "HttpsPort"); parse_unsigned U16_MAX t);
     codec_mode_support := default 0 (t <-? xml_text doc (str "ServerCodecModeSupport"); parse_i32 t) |}.

(** One HTTP exchange: a transport error, or a body that is a document or not. *)
Inductive Reply := Unreachable | NotXml | Document (doc : Xml).

(** HTTPS first, then HTTP; a body that is no document ends the search. *)
Fixpoint query_server_info (https_port : Z) (replies : list Reply) : option ServerInfo :=
  match replies with
  | [] => None
  | Unreachable :: rs => query_server_info https_port rs
  | NotXml :: _ => None
  | Document doc :: _ => Some (parse_server_info https_port doc)
  end.

(** [i32::from_be_bytes] of the first four bytes *)
Definition rikey_id (iv : list Z) : Z := i32 (be_val (take 4 iv)).

Definition launch_verb (resume : bool) : text := if resume then str "/resume" else str "/launch".

Definition launch_params {H : HexCodec} (unique_id uuid : text) (w h fps : Z) (key iv : list Z) : Params :=
  [(str "uniqueid", unique_id); (str "uuid", uuid); (str "appid", str "1");
   (str "mode", to_string w ++ str "x" ++ to_string h ++ str "x" ++ to_string fps);
   (str "additionalStates", str "1"); (str "sops", str "0"); (str "rikey", hex_encode key);
   (str "rikeyid", i32_to_string (rikey_id iv)); (str "localAudioPlayMode", str "0");
   (str "surroundAudioInfo", str "196610"); (str "remoteControllersBitmap", str "0"); (str "gcmap", str "0");
   (str "gcpersist", str "0"); (str "corever", str "1")].

Definition launch (reply : Reply) (key iv : list Z) : option LaunchResult :=
  match reply with
  | Document doc =>
      url <-? xml_text doc (str "sessionUrl0");
      Some {| rtsp_session_url := url; rikey := key; rikey_iv := iv |}
  | _ => None
  end.

(** ** The client's session *)

Definition PACKET_SIZE : Z := 1392.
Definition SCM_HEVC : Z := 0x0002.
Definition IDR_MIN_INTERVAL : Z := 300 * 1000000.

Definition pick_hevc (codec_mode_support : Z) (allow_hevc : bool) : bool :=
  allow_hevc && negb (Z.land codec_mode_support SCM_HEVC =? 0).

(** What a session sets in motion, in this order. *)
Inductive Action := SpawnVideo (port : Z) | SpawnAudio (port : Z) | ConnectControl (port : Z) (key : list Z).

Record StreamSession := mkStreamSession { ses_control_key : list Z; ses_hevc : bool }.

Section Session.
Context {R : RtspTypes} {N : Type} (transact : N -> text -> N * option (list text)) (is_ipv6 : text -> bool).

(** [resolves]: an address exists for this port; [audio_binds] and
    [connects]: the sockets of the audio receiver and of the control channel. *)
Definition start_stream (resolves : Z -> bool) (audio_binds connects : bool) (info : ServerInfo) (host : PairedHost)
    (l : LaunchResult) (w h fps bitrate_kbps : Z) (allow_hevc : bool) (n : N)
  : N * list Action * option StreamSession :=
  let hevc := pick_hevc (codec_mode_support info) allow_hevc in
  let cfg := {| cfg_width := w; cfg_height := h; cfg_fps := fps; cfg_bitrate_kbps := bitrate_kbps;
                cfg_packet_size := PACKET_SIZE; cfg_video_format := if hevc then 1 else 0 |} in
  match handshake transact is_ipv6 (ph_address host) (ph_rtsp_port host) (rtsp_session_url l) cfg n with
  | (n, Err _) => (n, [], None)
  | (n, Ok neg) =>
      if negb (resolves (video_port neg) && resolves (audio_port neg)) then (n, [], None)
      else if negb audio_binds then (n, [SpawnVideo (video_port neg)], None)
      else
        let acts := [SpawnVideo (video_port neg); SpawnAudio (audio_port neg);
                     ConnectControl (control_port neg) (rikey l)] in
        (n, acts, if connects then Some {| ses_control_key := rikey l; ses_hevc := hevc |} else None)
  end.
End Session.

(** The pumps between the receivers and the control channel. *)
Fixpoint pump_fec (stats : list FrameFecStatus) (c : ControlChannel) : ControlChannel :=
  match stats with
  | [] => c
  | st :: stats => pump_fec stats (send_fec_status c st)
  end.

Definition throttled (last : option Z) (now : Z) : bool :=
  match last with Some t => saturating_sub now t <? IDR_MIN_INTERVAL | None => false end.

(** [losses]: when each lost frame is received; the third component is when a
    request went out. *)
Fixpoint pump_lost (losses : list Z) (last : option Z) (c : ControlChannel) : option Z * ControlChannel * list Z :=
  match losses with
  | [] => (last, c, [])
  | now :: losses =>
      if throttled last now then pump_lost losses last c
      else let '(l, c, ts) := pump_lost losses (Some now) (request_idr c) in (l, c, now :: ts)
  end.

(** The process-wide handles: the control channel of the current or last
    session, and the codec it negotiated. *)
Record ClientGlobals := mkClientGlobals { cg_control : option ControlChannel; cg_hevc : bool }.

Definition negotiated_codec (g : ClientGlobals) : text := if cg_hevc g then str "hevc" else str "h264".

Definition last_termination (g : ClientGlobals) : option Z := c <-? cg_control g; termination c.

Definition with_control (f : ControlChannel -> ControlChannel) (g : ClientGlobals) : ClientGlobals :=
  {| cg_control := f <$> cg_control g; cg_hevc := cg_hevc g |}.

Definition session_request_idr : ClientGlobals -> ClientGlobals := with_control request_idr.
Definition session_send_input (ev : InputEvent) : ClientGlobals -> ClientGlobals :=
  with_control (fun c => send_input c ev).

(** The end of [start_stream], and the drop of the session: the channel is
    shut down but stays readable. *)
Definition publish_session (s : StreamSession) (c : ControlChannel) : ClientGlobals :=
  {| cg_control := Some c; cg_hevc := ses_hevc s |}.
Definition drop_session : ClientGlobals -> ClientGlobals := with_control shutdown.

(** ** The whole start ([StreamState::start] of the admin) *)

Record GsHost (W : Type) := mkGsHost { gs_config : ServerConfig; gs_local : text; gs_rtsp : RtspServer W }.
Arguments mkGsHost {W}.
Arguments gs_config {W}.
Arguments gs_local {W}.
Arguments gs_rtsp {W}.

Section EndToEnd.
Context {R : RtspTypes} {H : HexCodec} {W : Type}.
Context (up down : text -> list text) (is_ipv6 : text -> bool).

Definition set_rtsp (g : GsHost W) (s : RtspServer W) : GsHost W :=
  {| gs_config := gs_config g; gs_local := gs_local g; gs_rtsp := s |}.

Definition set_session (s : RtspServer W) (st : SessionState) : RtspServer W :=
  {| srv_ports := srv_ports s; srv_context := srv_context s; srv_session := st; play_hook := play_hook s;
     srv_world := srv_world s |}.

(** A GET of the client: it reaches the host on the port the host serves. *)
Definition http_get (https : bool) (port : Z) (path : text) (ps : Params) (g : GsHost W) : GsHost W * Reply :=
  if port =? (if https then sc_https_port (gs_config g) else sc_http_port (gs_config g)) then
    let '(st, resp) := route (gs_config g) https GET path ps (Some (gs_local g)) None (srv_session (gs_rtsp g)) in
    (set_rtsp g (set_session (gs_rtsp g) st), match resp with XmlOk doc => Document doc | _ => NotXml end)
  else (g, Unreachable).

Definition rtsp_connect (port : Z) (g : GsHost W) (wire : text) : GsHost W * option (list text) :=
  if port =? sc_rtsp_port (gs_config g) then
    let '(s, out) := host_transact up down (gs_rtsp g) wire in (set_rtsp g s, out)
  else (g, None).

Record StartArgs := mkStartArgs {
  sa_unique_id : text; sa_uuid : text; sa_width : Z; sa_height : Z; sa_fps : Z; sa_allow_hevc : bool;
  sa_key : list Z; sa_iv : list Z
}.

Definition start (a : StartArgs) (resolves : Z -> bool) (audio_binds connects : bool) (address : text) (g : GsHost W)
  : GsHost W * list Action * option StreamSession :=
  let '(addr, base) := split_host_base address in
  let '(http, https, rtsp_port) := ports_from_base base in
  let q := [(str "uniqueid", sa_unique_id a); (str "uuid", sa_uuid a)] in
  let '(g, r1) := http_get true https (str "/serverinfo") q g in
  let '(g, r2) := http_get false http (str "/serverinfo") q g in
  match query_server_info https [r1; r2] with
  | None => (g, [], None)
  | Some info =>
      let host := {| ph_address := addr; ph_http_port := http; ph_https_port := https; ph_rtsp_port := rtsp_port |} in
      let '(g, r) := http_get true https (launch_verb (negb (current_game info =? 0)))
                       (launch_params (sa_unique_id a) (sa_uuid a) (sa_width a) (sa_height a) (sa_fps a) (sa_key a) (sa_iv a)) g in
      match launch r (sa_key a) (sa_iv a) with
      | None => (g, [], None)
      | Some l =>
          start_stream (rtsp_connect rtsp_port) is_ipv6 resolves audio_binds connects info host l
            (sa_width a) (sa_height a) (sa_fps a) 20000 (sa_allow_hevc a) g
      end
  end.
End EndToEnd.

(** ** Printing and parsing the parameters *)

Lemma char_of_digits c z : is_ascii_digit c = false -> c ∉ to_string z.
Proof. intros H. by apply digit_not, to_string_digits. Qed.

Lemma parse_mode_printed w h fps : is_u32 w -> is_u32 h -> is_u32 fps ->
  parse_mode (Some (to_string w ++ str "x" ++ to_string h ++ str "x" ++ to_string fps)) = (w, h, fps).
Proof.
  intros Hw Hh Hf. unfold parse_mode. assert (forall l, str "x" ++ l = "x"%char :: l) as E by done.
  rewrite !E, split_app by (by apply char_of_digits). rewrite split_app by (by apply char_of_digits).
  rewrite split_none by (by apply char_of_digits). by rewrite !parse_to_string_u32.
Qed.

Lemma split_host_base_default addr : ":"%char ∉ addr -> split_host_base addr = (addr, DEFAULT_BASE_PORT).
Proof. intros H. unfold split_host_base. by rewrite rsplit_once_none. Qed.

(** an address is split at its last colon when what follows is a port from
    1 to 65535 and no colon is left before it, so an IPv6 address is never cut;
    everything else is kept whole with the default port. *)
Theorem split_host_base_spec host port : ":"%char ∉ host -> 0 < port <= U16_MAX ->
  split_host_base (host ++ str ":" ++ to_string port) = (host, port) /\
  split_host_base host = (host, DEFAULT_BASE_PORT) /\
  forall rest, contains (str ":") rest = true ->
    split_host_base (rest ++ str ":" ++ to_string port) = (rest ++ str ":" ++ to_string port, DEFAULT_BASE_PORT).
Proof.
  intros Hh Hp. unfold U16_MAX in *.
  assert (forall r, rsplit_once ":"%char (r ++ str ":" ++ to_string port) = Some (r, to_string port)) as Hr.
  { intros r. change (str ":" ++ ?l) with (":"%char :: l). apply rsplit_once_app. by apply char_of_digits. }
  split_and!.
  - unfold split_host_base. rewrite Hr. change (str ":") with [":"%char]. rewrite contains_first by done.
    rewrite parse_to_string by (unfold U16_MAX; lia). by rewrite (proj2 (Z.eqb_neq _ _)) by lia.
  - by apply split_host_base_default.
  - intros rest H. unfold split_host_base. by rewrite Hr, H.
Qed.

Lemma split_host_base_spec_witness :
  split_host_base (str "10.0.0.5:48989") = (str "10.0.0.5", 48989) /\
  split_host_base (str "fd7a::1:48989") = (str "fd7a::1:48989", DEFAULT_BASE_PORT).
Proof.
  destruct (split_host_base_spec (str "10.0.0.5") 48989) as (H1 & _ & H2); [by apply (bool_decide_unpack _)|done|].
  split; [exact H1|]. exact (H2 (str "fd7a::1") eq_refl).
Defined.

(** ** The handshake seen through the whole host *)

Section Lift.
Context {R : RtspTypes} {N M : Type} (tr : N -> text -> N * option (list text)) (tr' : M -> text -> M * option (list text)).
Context (get : M -> N) (put : M -> N -> M) (good : M -> Prop).
Context (Htr : forall m wire, good m -> tr' m wire = (put m (tr (get m) wire).1, (tr (get m) wire).2)).
Context (Hgp : forall m n, get (put m n) = n) (Hpp : forall m n n', put (put m n) n' = put m n').
Context (Hpg : forall m, put m (get m) = m) (Hgood : forall m n, good m -> good (put m n)).

(** Both computations agree, the second keeping what it does not see. *)
Definition lifts {A} (f : RtspM (N := N) A) (g : RtspM (N := M) A) : Prop :=
  forall c m, good m -> g (c, m) = let '((c', n), r) := f (c, get m) in ((c', put m n), r).

Lemma lifts_ret {A} (a : A) : lifts (mret a) (mret a).
Proof. intros c m _. unfold mret. by rewrite Hpg. Qed.

Lemma lifts_fail {A} (e : RtspError) : lifts (fail (A := A) e) (fail e).
Proof. intros c m _. unfold fail. by rewrite Hpg. Qed.

Lemma lifts_modify f : lifts (modify f) (modify f).
Proof. intros c m _. unfold modify. simpl. by rewrite Hpg. Qed.

Lemma lifts_bind {A B} (f : RtspM A) (f' : RtspM A) (k : A -> RtspM B) (k' : A -> RtspM B) :
  lifts f f' -> (forall a, lifts (k a) (k' a)) -> lifts (mbind f k) (mbind f' k').
Proof.
  intros Hf Hk c m Hm. unfold mbind. rewrite (Hf c m Hm). destruct (f (c, get m)) as [[c1 n1] [a|e]]; [|done].
  rewrite (Hk a c1 (put m n1)) by auto. rewrite Hgp. destruct (k a (c1, n1)) as [[c2 n2] r]. by rewrite Hpp.
Qed.

Lemma lifts_round_trip wire : lifts (round_trip tr wire) (round_trip tr' wire).
Proof.
  intros c m Hm. unfold round_trip. cbn [fst snd]. rewrite Htr by done.
  destruct (tr (get m) wire) as [n [reads|]]; cbn [fst snd]; [|done].
  by destruct (read_response [] reads) as [[| |]|].
Qed.

Lemma lifts_exchange mt t ex b : lifts (exchange tr mt t ex b) (exchange tr' mt t ex b).
Proof.
  apply lifts_bind.
  - apply lifts_bind; [apply lifts_modify|]. intros c. destruct (rewrite_request_target _ _); [apply lifts_ret|apply lifts_fail].
  - intros wire. apply lifts_bind; [apply lifts_round_trip|]. intros r. case_bool_decide; [apply lifts_ret|apply lifts_fail].
Qed.

Lemma lifts_setup s p : lifts (client_setup tr s p) (client_setup tr' s p).
Proof. apply lifts_bind; [apply lifts_exchange|]. intros r. apply lifts_bind; [apply lifts_modify|]. intros _. apply lifts_ret. Qed.

Lemma handshake_lifts is_ipv6 ip port url cfg m : good m ->
  handshake tr' is_ipv6 ip port url cfg m
  = (put m (handshake tr is_ipv6 ip port url cfg (get m)).1, (handshake tr is_ipv6 ip port url cfg (get m)).2).
Proof.
  intros Hm. unfold handshake. destruct (resolve_target_url ip port url) as [u|e]; [|by rewrite Hpg].
  assert (lifts (negotiate tr is_ipv6 ip u cfg) (negotiate tr' is_ipv6 ip u cfg)) as Hl.
  { apply lifts_bind; [apply lifts_exchange|]. intros _. apply lifts_bind; [apply lifts_exchange|]. intros d.
    apply lifts_bind; [apply lifts_setup|]. intros v. apply lifts_bind; [apply lifts_setup|]. intros a.
    apply lifts_bind; [apply lifts_setup|]. intros k. apply lifts_bind; [apply lifts_exchange|]. intros _.
    apply lifts_bind; [apply lifts_exchange|]. intros _. apply lifts_ret. }
  rewrite (Hl _ m Hm). by destruct (negotiate tr is_ipv6 ip u cfg (_, get m)) as [[c n] r].
Qed.
End Lift.

(** ** From the address to the running stream *)

Lemma parsed_game https cfg local : current_game (parse_server_info https (server_info cfg local)) = 0.
Proof. unfold parse_server_info. cbn [current_game]. reflexivity. Qed.

Lemma parsed_codec https cfg local : codec_mode_support (parse_server_info https (server_info cfg local)) = 1.
Proof. unfold parse_server_info. cbn [codec_mode_support]. reflexivity. Qed.

Section StartProofs.
Context {R : RtspTypes} {L : RtspTypesLaws R} {H : HexCodec} {HL : HexLaws H} {W : Type}.
Context (up down : text -> list text) (Hup : chunked up) (Hdown : chunked down) (is_ipv6 : text -> bool).

(** The session a launch leaves at the host. *)
Definition launched (a : StartArgs) : LaunchSession :=
  {| remote_input_key := sa_key a; remote_input_key_id := rikey_id (sa_iv a); ls_width := sa_width a;
     ls_height := sa_height a; refresh_rate := sa_fps a |}.

Record args_ok (a : StartArgs) : Prop := {
  ao_width : is_u32 (sa_width a);
  ao_height : is_u32 (sa_height a);
  ao_fps : is_u32 (sa_fps a);
  ao_key : bytes_ok (sa_key a)
}.

Lemma host_launch_spec cfg local st a : args_ok a ->
  host_launch cfg (launch_params (sa_unique_id a) (sa_uuid a) (sa_width a) (sa_height a) (sa_fps a) (sa_key a) (sa_iv a)) local st
  = (Some (launched a), [(str "gamesession", str "1"); (str "sessionUrl0", session_url cfg local)]).
Proof.
  intros [Hw Hh Hf Hk]. unfold host_launch.
  set (ps := launch_params _ _ _ _ _ _ _).
  assert (get_param ps (str "mode") = Some (to_string (sa_width a) ++ str "x" ++ to_string (sa_height a) ++ str "x" ++ to_string (sa_fps a))) as -> by reflexivity.
  assert (get_param ps (str "rikey") = Some (hex_encode (sa_key a))) as -> by reflexivity.
  assert (get_param ps (str "rikeyid") = Some (i32_to_string (rikey_id (sa_iv a)))) as -> by reflexivity.
  rewrite parse_mode_printed by done. rewrite hex_roundtrip by done.
  pose proof (i32_range (be_val (take 4 (sa_iv a)))) as Hi. fold (rikey_id (sa_iv a)) in Hi.
  unfold parse_i64. rewrite parse_signed_to_string by lia. done.
Qed.

(** The context the host announces to its PLAY hook: always H.264. *)
Definition start_context (a : StartArgs) : StreamContext :=
  context_of_cfg {| cfg_width := sa_width a; cfg_height := sa_height a; cfg_fps := sa_fps a; cfg_bitrate_kbps := 20000;
                    cfg_packet_size := PACKET_SIZE; cfg_video_format := 0 |}.

(** The host serves the ports that go with [base]. *)
Definition serves (cfg : ServerConfig) (base : Z) : Prop :=
  (sc_http_port cfg, sc_https_port cfg, sc_rtsp_port cfg) = ports_from_base base.

Lemma session_url_resolves cfg local ip port : url_ok (session_url cfg (Some local)) ->
  xml_text [(str "gamesession", str "1"); (str "sessionUrl0", session_url cfg (Some local))] (str "sessionUrl0")
    = Some (session_url cfg (Some local)) /\
  resolve_target_url ip port (session_url cfg (Some local)) = Ok (session_url cfg (Some local)).
Proof.
  intros [Hp _ _].
  assert (trim (session_url cfg (Some local)) = session_url cfg (Some local)) as Ht.
  { apply trim_id. unfold plain in Hp. rewrite forallb_forall in *. intros c Hc. specialize (Hp c Hc).
    unfold plain_char, is_whitespace in *. lia. }
  split.
  - assert (xml_text [(str "gamesession", str "1"); (str "sessionUrl0", session_url cfg (Some local))] (str "sessionUrl0")
      = Some (trim (session_url cfg (Some local)))) as -> by reflexivity. by rewrite Ht.
  - unfold resolve_target_url. rewrite Ht. reflexivity.
Qed.

Lemma get_server_info (https : bool) port q (g : GsHost W) :
  port = (if https then sc_https_port (gs_config g) else sc_http_port (gs_config g)) ->
  http_get https port (str "/serverinfo") q g = (g, Document (server_info (gs_config g) (Some (gs_local g)))).
Proof.
  intros ->. unfold http_get. rewrite Z.eqb_refl. unfold route.
  assert (route_of https GET (str "/serverinfo") = RServerInfo) as -> by by destruct https.
  by destruct g as [cfg local []].
Qed.

Lemma get_launch a (g : GsHost W) : args_ok a ->
  http_get true (sc_https_port (gs_config g)) (launch_verb false)
    (launch_params (sa_unique_id a) (sa_uuid a) (sa_width a) (sa_height a) (sa_fps a) (sa_key a) (sa_iv a)) g
  = (set_rtsp g (set_session (gs_rtsp g) (Some (launched a))),
     Document [(str "gamesession", str "1"); (str "sessionUrl0", session_url (gs_config g) (Some (gs_local g)))]).
Proof.
  intros Ha. unfold http_get. rewrite Z.eqb_refl. unfold route.
  assert (route_of true GET (launch_verb false) = RLaunch) as -> by reflexivity. cbn [require_paired].
  by rewrite (host_launch_spec _ _ _ _ Ha).
Qed.

Lemma rtsp_connect_handshake ip url cfg (g : GsHost W) :
  handshake (rtsp_connect up down (sc_rtsp_port (gs_config g))) is_ipv6 ip (sc_rtsp_port (gs_config g)) url cfg g
  = (set_rtsp g (handshake (host_transact up down) is_ipv6 ip (sc_rtsp_port (gs_config g)) url cfg (gs_rtsp g)).1,
     (handshake (host_transact up down) is_ipv6 ip (sc_rtsp_port (gs_config g)) url cfg (gs_rtsp g)).2).
Proof.
  apply (handshake_lifts (host_transact up down) (rtsp_connect up down (sc_rtsp_port (gs_config g))) gs_rtsp set_rtsp
           (fun m : GsHost W => sc_rtsp_port (gs_config m) = sc_rtsp_port (gs_config g))); try done.
  - intros m wire E. cbn beta in E. unfold rtsp_connect. rewrite E, Z.eqb_refl. by destruct (host_transact up down (gs_rtsp m) wire).
  - by intros [].
Qed.

(** C3: starting a stream on an address of a host that serves the matching
    ports, whatever session it had: the receivers are started before the
    control channel is connected; both ends hold the key the client drew; the
    host's session and stream context are what was asked for, in H.264 even
    when the client allows HEVC; and the PLAY hook has run once on them. *)
Theorem stream_starts (a : StartArgs) (g : GsHost W) address addr base :
  args_ok a -> split_host_base address = (addr, base) -> serves (gs_config g) base ->
  host_ok addr -> url_ok (session_url (gs_config g) (Some (gs_local g))) -> ports_ok (srv_ports (gs_rtsp g)) ->
  let ports := srv_ports (gs_rtsp g) in
  start up down is_ipv6 a (fun _ => true) true true address g
  = (set_rtsp g (played (set_context (set_session (gs_rtsp g) (Some (launched a))) (start_context a))),
     [SpawnVideo (sp_video ports); SpawnAudio (sp_audio ports); ConnectControl (sp_control ports) (sa_key a)],
     Some {| ses_control_key := sa_key a; ses_hevc := false |}) /\
  session_key (Some (launched a)) (sa_key a).
Proof.
  intros Ha Hs Hports Hip Hurl Hsp. cbn zeta. split; [|by eexists].
  unfold serves in Hports. injection Hports as Eh Ehs Er.
  unfold start. rewrite Hs. cbn [ports_from_base].
  rewrite (get_server_info true), (get_server_info false) by done. cbn [query_server_info].
  rewrite parsed_game, Z.eqb_refl. cbn [negb]. rewrite <- Ehs, <- Er, (get_launch a g Ha).
  destruct (session_url_resolves (gs_config g) (gs_local g) addr (sc_rtsp_port (gs_config g)) Hurl) as [Hx Hr].
  cbn [launch]. rewrite Hx. unfold start_stream. rewrite parsed_codec.
  assert (pick_hevc 1 (sa_allow_hevc a) = false) as -> by by destruct (sa_allow_hevc a).
  set (g1 := set_rtsp g _). change (gs_config g) with (gs_config g1). cbn [ph_address ph_rtsp_port rtsp_session_url].
  rewrite rtsp_connect_handshake, (handshake_negotiates up down Hup Hdown _ _ _ _ _ (session_url (gs_config g1) (Some (gs_local g1))));
    [done|done|done|done|done|done|]. destruct Ha as [? ? ? _]. unfold cfg_ok. simpl. split_and!; try done.
    all: unfold is_u32, PACKET_SIZE; lia.
Qed.
End StartProofs.

(** ** Requests for a key frame *)

Definition spaced (ts : list Z) : Prop := StronglySorted (fun t u => t + IDR_MIN_INTERVAL <= u) ts.

Lemma pump_lost_go losses : forall last c,
  StronglySorted Z.le losses -> (forall t, last = Some t -> Forall (Z.le t) losses) ->
  let '(_, c', ts) := pump_lost losses last c in
  c' = Nat.iter (length ts) request_idr c /\ spaced ts /\
  (forall t u, last = Some t -> u ∈ ts -> t + IDR_MIN_INTERVAL <= u) /\
  Forall (fun x => exists t, (last = Some t \/ t ∈ ts) /\ t <= x < t + IDR_MIN_INTERVAL) losses.
Proof.
  induction losses as [|now losses IH]; intros last c Hs Hl; cbn [pump_lost].
  { split_and!; [done|constructor|set_solver|constructor]. }
  apply StronglySorted_inv in Hs as [Hs Hn]. destruct (throttled last now) eqn:E.
  - assert (forall t, last = Some t -> Forall (Z.le t) losses) as Hl'.
    { intros t Ht. by apply Hl, Forall_cons in Ht as [_ ?]. }
    specialize (IH last c Hs Hl'). destruct (pump_lost losses last c) as [[l c'] ts].
    destruct IH as (Hc & Hsp & Ha & Hcov). split_and!; try done. constructor; [|done].
    unfold throttled in E. destruct last as [t|]; [|done]. exists t. split; [by left|].
    specialize (Hl t eq_refl). apply Forall_cons in Hl as [? _]. bool_prop. unfold saturating_sub in *. lia.
  - specialize (IH (Some now) (request_idr c) Hs). destruct (pump_lost losses (Some now) (request_idr c)) as [[l c'] ts].
    destruct IH as (Hc & Hsp & Ha & Hcov); [by intros t [= <-]|]. split_and!.
    + subst c'. cbn [length]. by rewrite Nat.iter_succ_r.
    + constructor; [done|]. apply Forall_forall. intros u Hu. by apply (Ha now).
    + intros t u Ht Hu. apply elem_of_cons in Hu as [->|Hu].
      * unfold throttled in E. subst last. specialize (Hl t eq_refl). apply Forall_cons in Hl as [? _].
        bool_prop. unfold saturating_sub in *. lia.
      * specialize (Ha now u eq_refl Hu). specialize (Hl t Ht). apply Forall_cons in Hl as [? _]. unfold IDR_MIN_INTERVAL in *. lia.
    + constructor.
      * exists now. split; [right; apply list_elem_of_here|]. unfold IDR_MIN_INTERVAL. lia.
      * eapply Forall_impl; [exact Hcov|]. intros x (t & [[= <-]|Ht] & Hx).
        -- exists now. split; [right; apply list_elem_of_here|done].
        -- exists t. split; [right; by right|done].
Qed.

(** C36: losses ask for key frames at most once in 300 ms, and no loss is more
    than 300 ms after the request that answers it. *)
Theorem idr_throttled losses c : StronglySorted Z.le losses ->
  let '(_, c', ts) := pump_lost losses None c in
  c' = Nat.iter (length ts) request_idr c /\ spaced ts /\
  Forall (fun x => exists t, t ∈ ts /\ t <= x < t + IDR_MIN_INTERVAL) losses.
Proof.
  intros Hs. pose proof (pump_lost_go losses None c Hs ltac:(done)) as Hp.
  destruct (pump_lost losses None c) as [[l c'] ts]. destruct Hp as (? & ? & _ & Hf). split_and!; try done.
  eapply Forall_impl; [exact Hf|]. intros x (t & [?|?] & ?); [done|by exists t].
Qed.

Lemma idr_throttled_witness : exists c ts, (pump_lost [1; 2; 300000002; 400000000] None control_channel_example).1.2 = c /\
  ts = [1; 300000002] /\ c = Nat.iter (length ts) request_idr control_channel_example.
Proof.
  eexists _, _. split; [reflexivity|]. split; [reflexivity|].
  apply (idr_throttled [1; 2; 300000002; 400000000] control_channel_example). repeat constructor; lia.
Defined.

(** The code the host ended the session with outlives the session. *)
Lemma termination_survives g : last_termination (drop_session g) = last_termination g.
Proof. destruct g as [[c|] hevc]; done. Qed.

(** ** The hex codec and an example *)

Definition hex_digits : text := str "0123456789abcdef".
Definition hex_digit (d : Z) : ascii := default "0"%char (hex_digits !! Z.to_nat d).
Definition digit_of (c : ascii) : option Z := Z.of_nat ∘ fst <$> list_find (fun d => d = c) hex_digits.

Fixpoint hex_pairs (s : text) : option (list Z) :=
  match s with
  | [] => Some []
  | [_] => None
  | a :: b :: s => h <-? digit_of a; l <-? digit_of b; r <-? hex_pairs s; Some (16 * h + l :: r)
  end.

#[export] Instance PlainHex : HexCodec := {|
  hex_encode b := concat (map (fun z => [hex_digit (z / 16); hex_digit (z mod 16)]) b);
  hex_decode := hex_pairs
|}.

Lemma digit_of_digit d : 0 <= d < 16 -> digit_of (hex_digit d) = Some d.
Proof.
  intros Hd. rewrite <- (Z2Nat.id d) by lia. assert (Z.to_nat d < 16)%nat as Hn by lia. revert Hn.
  generalize (Z.to_nat d). intros n Hn. do 16 (destruct n as [|n]; [reflexivity|]). lia.
Qed.

#[export] Instance plain_hex_laws : HexLaws PlainHex.
Proof.
  split. intros b Hb. induction Hb as [|z b Hz _ IH]; [done|]. unfold byte_ok in Hz.
  cbn [hex_encode hex_decode PlainHex map concat app hex_pairs] in *.
  rewrite !digit_of_digit by div_lia. rewrite IH. f_equal. f_equal. div_lia.
Qed.

Definition start_example : StartArgs :=
  mkStartArgs (str "0011") (str "ab") 1920 1080 60 true (map Z.of_nat (seq 0 16)) [0; 0; 0; 7].
Definition gs_example : GsHost (list StreamContext) :=
  mkGsHost (mkServerConfig (str "pc") (str "01") 47989 47984 48010) (str "10.0.0.5") rtsp_example.

Lemma stream_starts_witness :
  (start singles singles (fun _ => false) start_example (fun _ => true) true true (str "10.0.0.5") gs_example).2
  = Some {| ses_control_key := map Z.of_nat (seq 0 16); ses_hevc := false |}.
Proof.
  destruct (stream_starts singles singles singles_chunked singles_chunked (fun _ => false) start_example gs_example
    (str "10.0.0.5") (str "10.0.0.5") 47989) as [E _].
  - split; try (split; simpl; lia). repeat constructor; unfold byte_ok; lia.
  - reflexivity.
  - reflexivity.
  - split; [reflexivity|discriminate|simpl; lia|split; reflexivity].
  - split; [reflexivity|split; reflexivity|by eexists].
  - by apply (bool_decide_unpack _).
  - rewrite E. reflexivity.
Defined.
