(* ===== verification/Web.v ===== *)
(** * The host's web server on the wire
    ([kmc-streamhost/src/webserver.rs], [tls.rs])

    Launch.v and Pairing.v give what each route does to the session and to
    the pairing clients, with documents as lists of elements.  Here are the
    bytes of the answers, the PIN page, the complete dispatch over both, and
    the listeners.  Query strings and forms are parsed by the [url] crate and
    documents by [roxmltree], which is the class [XmlParser].  The PIN page
    holds Korean text: a text is its UTF-8 bytes. *)
From S2P Require Import Prelude HostSession Text Pairing Launch.

(** ** Answers *)

Record HttpResponse := mkHttpResponse { hr_status : Z; hr_content_type : option text; hr_body : text }.

Definition quote : text := ["034"%char].

Definition escape_xml (s : text) : text :=
  replace quote (str "&quot;") (replace (str ">") (str "&gt;") (replace (str "<") (str "&lt;") (replace (str "&") (str "&amp;") s))).

Definition xml_element (name content : text) : text :=
  str "<" ++ name ++ str ">" ++ content ++ str "</" ++ name ++ str ">".

Definition root_open (status : text) : text := str "<root status_code=" ++ quote ++ status ++ quote ++ str ">".
Definition root_close : text := str "</root>".

Definition xml_ok (body : text) : HttpResponse := mkHttpResponse 200 (Some (str "application/xml")) body.

Definition paired_xml (inner : text) : HttpResponse :=
  xml_ok (root_open (str "200") ++ xml_element (str "paired") (str "1") ++ inner ++ root_close).

Definition bad_request : HttpResponse :=
  mkHttpResponse 400 (Some (str "application/xml"))
    (root_open (str "400") ++ xml_element (str "paired") (str "0") ++ root_close).

Definition not_found : HttpResponse := mkHttpResponse 404 None (str "not found").

Definition html (body : text) : HttpResponse := mkHttpResponse 200 (Some (str "text/html; charset=utf-8")) body.

Definition server_info_text (cfg : ServerConfig) (local : option text) : text :=
  root_open (str "200")
  ++ xml_element (str "hostname") (escape_xml (sc_name cfg))
  ++ xml_element (str "appversion") (str "7.1.431.-1")
  ++ xml_element (str "GfeVersion") (str "3.23.0.74")
  ++ xml_element (str "uniqueid") (sc_unique_id cfg)
  ++ xml_element (str "HttpsPort") (to_string (sc_https_port cfg))
  ++ xml_element (str "ExternalPort") (to_string (sc_http_port cfg))
  ++ str "<mac>00:00:00:00:00:00</mac>"
  ++ str "<MaxLumaPixelsHEVC>0</MaxLumaPixelsHEVC>"
  ++ xml_element (str "LocalIP") (escape_xml (default [] local))
  ++ xml_element (str "ServerCodecModeSupport") (to_string CODEC_SUPPORT)
  ++ str "<SupportedDisplayMode></SupportedDisplayMode>"
  ++ xml_element (str "PairStatus") (str "1")
  ++ str "<currentgame>0</currentgame>"
  ++ str "<state>KMC_SERVER_FREE</state>"
  ++ root_close.

Definition app_list_text : text :=
  root_open (str "200")
  ++ str "<App><IsHdrSupported>0</IsHdrSupported><AppTitle>Desktop</AppTitle><ID>1</ID></App></root>".

Definition launch_text (cfg : ServerConfig) (local : option text) : text :=
  root_open (str "200") ++ str "<gamesession>1</gamesession><sessionUrl0>rtsp://"
  ++ default (str "127.0.0.1") local ++ str ":" ++ to_string (sc_rtsp_port cfg) ++ str "</sessionUrl0></root>".

(** ** The PIN page *)

Definition pin_page (ps : Params) : HttpResponse :=
  let id := default [] (get_param ps (str "uniqueid")) in
  html (str "<!doctype html><html><body><h3>KMC 페어링 PIN 입력</h3><form method=POST action=/submit-pin><input type=hidden name=uniqueid value="
        ++ quote ++ id ++ quote ++ str ">PIN: <input name=pin autofocus> <button>확인</button></form></body></html>").

Definition pin_accepted : text := str "<html><body>페어링 진행 중… 창을 닫아도 됩니다.</body></html>".

Section WebServer.
Context {C : PairCrypto} {H : HexCodec}.

Definition byte_of (c : ascii) : Z := Z.of_nat (nat_of_ascii c).

(** [form] is [None] when the body cannot be read. *)
Definition submit_pin (m : ClientManager) (form : option Params) : ClientManager * HttpResponse :=
  match form with
  | None => (m, bad_request)
  | Some f =>
      match get_param f (str "uniqueid"), get_param f (str "pin") with
      | Some id, Some pin =>
          match register_pin m (String.string_of_list_ascii id) (map byte_of pin) with
          | Some m => (m, html pin_accepted)
          | None => (m, bad_request)
          end
      | _, _ => (m, bad_request)
      end
  end.

(** ** The dispatch *)

Record Webserver := mkWebserver { web_config : ServerConfig; web_clients : ClientManager; web_session : SessionState }.

Definition set_clients (w : Webserver) (m : ClientManager) : Webserver :=
  {| web_config := web_config w; web_clients := m; web_session := web_session w |}.
Definition set_web_session (w : Webserver) (st : SessionState) : Webserver :=
  {| web_config := web_config w; web_clients := web_clients w; web_session := st |}.

Definition str_param (ps : Params) (name : string) : option string :=
  String.string_of_list_ascii <$> get_param ps (str name).

Definition pair_params (ps : Params) : PairParams := {|
  phrase := str_param ps "phrase"; uniqueid := str_param ps "uniqueid"; salt_hex := str_param ps "salt";
  clientcert := str_param ps "clientcert"; clientchallenge := str_param ps "clientchallenge";
  serverchallengeresp := str_param ps "serverchallengeresp"; clientpairingsecret := str_param ps "clientpairingsecret" |}.

Definition pair_response (r : PairReply) : HttpResponse :=
  match r with
  | PairedXml None => paired_xml []
  | PairedXml (Some (tag, v)) => paired_xml (xml_element (str tag) (str v))
  | BadRequest => bad_request
  end.

(** A request with its parsed query and form, and the 16-byte draws of its
    handler. *)
Record HttpRequest := mkHttpRequest {
  rq_https : bool; rq_method : HttpMethod; rq_path : text; rq_query : Params; rq_form : option Params;
  rq_local : option text; rq_fingerprint : option text; rq_secret : list Z; rq_challenge : list Z
}.

(** Pairing was removed: every client is let in. *)
Definition web_require_paired (fingerprint : option text) : option HttpResponse := None.

(** The answer to [getservercert] leaves when the wait for the PIN ends; the
    PIN itself comes in a request of its own. *)
Definition web_route (w : Webserver) (r : HttpRequest) : Webserver * HttpResponse :=
  match route_of (rq_https r) (rq_method r) (rq_path r) with
  | RServerInfo => (w, xml_ok (server_info_text (web_config w) (rq_local r)))
  | RPair =>
      let '(m, reply) := handle_pair (web_clients w) (pair_params (rq_query r)) None (rq_secret r) (rq_challenge r) in
      (set_clients w m, pair_response reply)
  | RPinPage => (w, pin_page (rq_query r))
  | RSubmitPin => let '(m, resp) := submit_pin (web_clients w) (rq_form r) in (set_clients w m, resp)
  | RAppList =>
      match web_require_paired (rq_fingerprint r) with
      | Some deny => (w, deny)
      | None => (w, xml_ok app_list_text)
      end
  | RLaunch =>
      match web_require_paired (rq_fingerprint r) with
      | Some deny => (w, deny)
      | None =>
          let '(st, _) := host_launch (web_config w) (rq_query r) (rq_local r) (web_session w) in
          (set_web_session w st, xml_ok (launch_text (web_config w) (rq_local r)))
      end
  | RNotFound => (w, not_found)
  end.

Definition web_run (requests : list HttpRequest) (w : Webserver) : Webserver :=
  foldl (fun w r => (web_route w r).1) w requests.

(** ** Listeners and TLS *)

Inductive Listener := HttpListener | HttpsListener.

(** [serve]: the listeners left running, and whether it succeeded.  The two
    addresses are parsed first; the acceptor is built when HTTP already
    answers. *)
Definition serve (addresses_ok http_binds acceptor_ok https_binds : bool) : list Listener * bool :=
  if negb addresses_ok then ([], false)
  else if negb http_binds then ([], false)
  else if negb acceptor_ok then ([HttpListener], false)
  else if negb https_binds then ([HttpListener], false)
  else ([HttpListener; HttpsListener], true).

Definition der_fingerprint (der : list Z) : string := Pairing.hex_encode (sha256 der).

(** The certificates of the handshake, the client's own first. *)
Definition peer_cert_fingerprint (certs : option (list (list Z))) : option string :=
  cs <-? certs; der <-? head cs; Some (der_fingerprint der).
End WebServer.

(** ** Documents *)

(** The character data the host writes: printable ASCII without markup, and
    the four entities. *)
Definition printable (c : ascii) : bool := let n := nat_of_ascii c in ((32 <=? n) && (n <? 127))%nat.

Fixpoint decode_text (s : text) : option text :=
  match s with
  | [] => Some []
  | "&"%char :: "a"%char :: "m"%char :: "p"%char :: ";"%char :: s => cons "&"%char <$> decode_text s
  | "&"%char :: "l"%char :: "t"%char :: ";"%char :: s => cons "<"%char <$> decode_text s
  | "&"%char :: "g"%char :: "t"%char :: ";"%char :: s => cons ">"%char <$> decode_text s
  | "&"%char :: "q"%char :: "u"%char :: "o"%char :: "t"%char :: ";"%char :: s => cons "034"%char <$> decode_text s
  | "&"%char :: _ => None
  | "<"%char :: _ | ">"%char :: _ => None
  | c :: s => if printable c then cons c <$> decode_text s else None
  end.

Definition xml_name_ok (n : text) : bool :=
  negb (bool_decide (n = [])) && forallb (fun c => printable c && negb (Ascii.eqb c "<" || Ascii.eqb c ">" || Ascii.eqb c "/")) n.

Definition flat_doc (els : Xml) : text :=
  root_open (str "200") ++ concat (map (fun e => xml_element e.1 e.2) els) ++ root_close.

(** [roxmltree] on a document of plain elements: their decoded texts. *)
Class XmlParser := { parse_xml : text -> option Xml }.

Class XmlParserLaws (P : XmlParser) : Prop := {
  parse_flat els els' :
    Forall2 (fun e e' => xml_name_ok e.1 = true /\ e'.1 = e.1 /\ decode_text e.2 = Some e'.2) els els' ->
    parse_xml (flat_doc els) = Some els'
}.

(** ** Escaping *)

Lemma replace_char c r s : replace [c] r s = flat_map (fun d => if Ascii.eqb c d then r else [d]) s.
Proof.
  unfold replace. induction s as [|d s IH]; [done|]. cbn [replace_go starts_with flat_map length Nat.sub].
  rewrite andb_true_r. destruct (Ascii.eqb c d); cbn [app]; by rewrite IH.
Qed.

Lemma flat_map_flat_map {A} (f g : A -> list A) l : flat_map g (flat_map f l) = flat_map (fun x => flat_map g (f x)) l.
Proof. induction l as [|x l IH]; [done|]. cbn. by rewrite flat_map_app, IH. Qed.

Definition escape_char (c : ascii) : text :=
  if Ascii.eqb "&" c then str "&amp;" else if Ascii.eqb "<" c then str "&lt;"
  else if Ascii.eqb ">" c then str "&gt;" else if Ascii.eqb "034" c then str "&quot;" else [c].

Lemma escape_xml_chars s : escape_xml s = flat_map escape_char s.
Proof.
  unfold escape_xml, quote. cbn [str String.list_ascii_of_string]. rewrite !replace_char, !flat_map_flat_map.
  apply flat_map_ext. intros c. unfold escape_char.
  destruct (Ascii.eqb "&" c) eqn:E1; [done|]. cbn [flat_map app].
  destruct (Ascii.eqb "<" c) eqn:E2; [done|]. cbn [flat_map app].
  destruct (Ascii.eqb ">" c) eqn:E3; [done|]. cbn [flat_map app]. by rewrite ?app_nil_r.
Qed.

(** Escaping loses nothing, and what it writes is character data. *)
Lemma decode_escape_char c s : printable c = true -> decode_text (escape_char c ++ s) = cons c <$> decode_text s.
Proof. destruct c as [[] [] [] [] [] [] [] []]; try discriminate; reflexivity. Qed.

Lemma decode_escape s : forallb printable s = true -> decode_text (escape_xml s) = Some s.
Proof.
  rewrite escape_xml_chars. induction s as [|c s IH]; [done|]. cbn [forallb flat_map].
  rewrite andb_true_iff. intros [Hc Hs]. by rewrite decode_escape_char, IH by done.
Qed.

(** Character data without entities. *)
Definition plain_char (c : ascii) : bool :=
  printable c && negb (Ascii.eqb c "<" || Ascii.eqb c ">" || Ascii.eqb c "&").

Lemma decode_plain s : forallb plain_char s = true -> decode_text s = Some s.
Proof.
  induction s as [|c s IH]; [done|]. cbn [forallb]. rewrite andb_true_iff. intros [Hc Hs].
  specialize (IH Hs). destruct c as [[] [] [] [] [] [] [] []]; try discriminate; cbn [decode_text]; by rewrite IH.
Qed.

Lemma digit_plain s : forallb is_ascii_digit s = true -> forallb plain_char s = true.
Proof.
  rewrite !forallb_forall. intros H c Hc. specialize (H c Hc).
  destruct c as [[] [] [] [] [] [] [] []]; try discriminate; reflexivity.
Qed.

Lemma web_plain_to_string z : forallb plain_char (to_string z) = true.
Proof. apply digit_plain, to_string_digits. Qed.

(** ** What the client reads *)

Definition paired_doc (r : PairReply) : option Xml :=
  match r with
  | PairedXml None => Some [(str "paired", str "1")]
  | PairedXml (Some (tag, v)) => Some [(str "paired", str "1"); (str tag, str v)]
  | BadRequest => None
  end.

Record web_config_ok (cfg : ServerConfig) (local : option text) : Prop := {
  wc_name : forallb printable (sc_name cfg) = true;
  wc_unique_id : forallb plain_char (sc_unique_id cfg) = true;
  wc_local : forallb plain_char (default [] local) = true
}.

Lemma flat_doc_intro body els :
  body = root_open (str "200") ++ concat (map (fun e => xml_element e.1 e.2) els) ++ root_close -> body = flat_doc els.
Proof. done. Qed.

Lemma server_info_flat cfg local : server_info_text cfg local
  = flat_doc ((fun e => if bool_decide (e.1 = str "hostname") || bool_decide (e.1 = str "LocalIP")
                        then (e.1, escape_xml e.2) else e) <$> server_info cfg local).
Proof.
  unfold flat_doc, server_info_text, server_info. cbn -[xml_element root_open root_close app to_string escape_xml].
  rewrite <- !app_assoc. f_equal.
Qed.

Lemma launch_flat {H : HexCodec} cfg local ps st :
  launch_text cfg local = flat_doc (host_launch cfg ps local st).2.
Proof.
  unfold host_launch. destruct (parse_mode _) as [[w h] r]. cbn [snd].
  unfold flat_doc, launch_text, session_url, xml_element, root_close. cbn -[root_open to_string default].
  rewrite <- !app_assoc. cbn -[root_open to_string default]. done.
Qed.

Lemma paired_flat r doc : paired_doc r = Some doc -> hr_body (pair_response r) = flat_doc doc.
Proof.
  destruct r as [[[tag v]|]|]; [..|done]; intros [= <-]; unfold flat_doc, pair_response, paired_xml, xml_ok;
    cbn [map concat hr_body fst snd]; by rewrite <- ?app_assoc.
Qed.

Lemma plain_app a b : forallb plain_char a = true -> forallb plain_char b = true -> forallb plain_char (a ++ b) = true.
Proof. rewrite forallb_app. by intros -> ->. Qed.

Lemma plain_printable s : forallb plain_char s = true -> forallb printable s = true.
Proof. rewrite !forallb_forall. intros H c Hc. specialize (H c Hc). unfold plain_char in H. by apply andb_prop in H as [? _]. Qed.

Lemma session_url_plain cfg local : forallb plain_char (default [] local) = true -> forallb plain_char (session_url cfg local) = true.
Proof.
  intros Hl. unfold session_url. repeat apply plain_app; try reflexivity; [|apply web_plain_to_string].
  by destruct local.
Qed.


(** ** Who gets paired *)

Section Pins.
Context {C : PairCrypto} {H : HexCodec}.

Definition pin_submitted (id : string) (r : HttpRequest) : Prop :=
  route_of (rq_https r) (rq_method r) (rq_path r) = RSubmitPin
  /\ exists f pin, rq_form r = Some f /\ str_param f "uniqueid" = Some id /\ get_param f (str "pin") = Some pin.

(** A pending client has a key only when its PIN was submitted, and a hash
    only under a key; the paired ones are old or had their PIN submitted. *)
Record pins_inv (old pins : string -> Prop) (m : ClientManager) : Prop := {
  pi_key id c : pending m !! id = Some c -> is_Some (pc_key c) -> pins id;
  pi_hash id c : pending m !! id = Some c -> is_Some (client_hash c) -> is_Some (pc_key c);
  pi_paired id : is_paired m id = true -> old id \/ pins id
}.

Lemma pins_inv_mono old (p q : string -> Prop) m : (forall id, p id -> q id) -> pins_inv old p m -> pins_inv old q m.
Proof. intros Hpq [Hk Hh Hp]. split; [eauto|eauto|]. intros id Hid. destruct (Hp id Hid); auto. Qed.

Lemma pins_inv_set old pins m id c :
  pins_inv old pins m -> (is_Some (pc_key c) -> pins id) -> (is_Some (client_hash c) -> is_Some (pc_key c)) ->
  pins_inv old pins (set_pending m id c).
Proof.
  intros [Hk Hh Hp] H1 H2. split; cbn [pending set_pending].
  - intros i x. destruct (decide (id = i)) as [<-|]; [rewrite lookup_insert_eq|rewrite lookup_insert_ne by done; eauto].
    by intros [= <-].
  - intros i x. destruct (decide (id = i)) as [<-|]; [rewrite lookup_insert_eq|rewrite lookup_insert_ne by done; eauto].
    by intros [= <-].
  - exact Hp.
Qed.

Lemma client_challenge_inv old pins m id ch s c' :
  pins_inv old pins m -> pins_inv old pins (client_challenge m id ch s c').1.
Proof.
  intros Hi. unfold client_challenge. destruct (pending m !! id) as [c|] eqn:Ec; [|done].
  destruct (pc_key c) as [k|] eqn:Ek; [|done].
  assert (pins id) as Hid by (eapply (pi_key _ _ _ Hi); [exact Ec|rewrite Ek; eauto]).
  destruct (aes_ecb_decrypt ch k), (cert_signature (server_cert_pem m)); cbn [fst];
    apply pins_inv_set; cbn [pc_key client_hash]; eauto.
Qed.

Lemma server_challenge_response_inv old pins m id resp :
  pins_inv old pins m -> pins_inv old pins (server_challenge_response m id resp).1.
Proof.
  intros Hi. unfold server_challenge_response. destruct (pending m !! id) as [c|] eqn:Ec; [|done].
  destruct (pc_key c) as [k|] eqn:Ek; [|done]. destruct (aes_ecb_decrypt resp k); [|done]. cbn [fst].
  assert (pins id) as Hid by (eapply (pi_key _ _ _ Hi); [exact Ec|rewrite Ek; eauto]).
  apply pins_inv_set; cbn [pc_key client_hash]; eauto.
Qed.

Lemma check_secret_inv old pins m id secret :
  pins_inv old pins m -> pins_inv old pins (check_client_pairing_secret m id secret).1.
Proof.
  intros Hi. unfold check_client_pairing_secret. destruct (pending m !! id) as [c|] eqn:Ec; [|done].
  destruct (verify_pairing_secret c secret) eqn:Ev; [|done]. destruct (cert_fingerprint (pc_pem c)) as [fp|]; [|done].
  cbn [fst]. destruct Hi as [Hk Hh Hp]. split; [exact Hk|exact Hh|].
  intros i. unfold is_paired. cbn [st_clients add_paired]. destruct (decide (id = i)) as [<-|Hne].
  - intros _. right. eapply Hk; [exact Ec|]. eapply Hh; [exact Ec|].
    unfold verify_pairing_secret in Ev. destruct (client_hash c); [eauto|done].
  - rewrite lookup_insert_ne by done. apply Hp.
Qed.

Lemma handle_pair_inv old pins m p s c' :
  pins_inv old pins m -> pins_inv old pins (handle_pair m p None s c').1.
Proof.
  intros Hi. unfold handle_pair. destruct (phrase p) as [ph|].
  - repeat case_if; try done. unfold pair_get_server_cert. case_match; [|done]. destruct_and?; repeat case_match; try done.
    simplify_eq. cbn [fst]. apply pins_inv_set; [done|by intros []..].
  - unfold pair_client_challenge, pair_server_challenge_response, pair_client_secret.
    repeat case_match; try done; cbn [reply_of fst];
      eauto using client_challenge_inv, server_challenge_response_inv;
      match goal with E : check_client_pairing_secret _ ?i ?x = _ |- _ =>
        pose proof (check_secret_inv old pins m i x Hi) as Hx; rewrite E in Hx; done end.
Qed.

Lemma web_route_inv old (pins : string -> Prop) w r :
  (forall id, pin_submitted id r -> pins id) ->
  pins_inv old pins (web_clients w) -> pins_inv old pins (web_clients (web_route w r).1).
Proof.
  intros Hr Hi. unfold web_route. destruct (route_of _ _ _) eqn:Er; try done.
  - destruct (handle_pair _ _ _ _ _) as [m reply] eqn:E. cbn [fst web_clients set_clients].
    pose proof (handle_pair_inv old pins (web_clients w) (pair_params (rq_query r)) (rq_secret r) (rq_challenge r) Hi) as Hx.
    by rewrite E in Hx.
  - destruct (submit_pin _ _) as [m resp] eqn:E. cbn [fst web_clients set_clients].
    unfold submit_pin in E. destruct (rq_form r) as [f|] eqn:Ef; [|by simplify_eq].
    destruct (get_param f (str "uniqueid")) as [id|] eqn:Ei; [|by simplify_eq].
    destruct (get_param f (str "pin")) as [pin|] eqn:Ep; [|by simplify_eq].
    unfold register_pin in E. destruct (pending _ !! _) as [c|] eqn:Ec; [|by simplify_eq]. simplify_eq.
    apply pins_inv_set; cbn [pc_key client_hash]; [done| |eauto].
    intros _. apply Hr. split; [done|]. exists f, pin. split_and!; [done| |done].
    unfold str_param. by rewrite Ei.
  - unfold web_require_paired. by destruct (host_launch _ _ _ _).
Qed.

(** C9: No sequence of requests, with whatever parameters, makes the host treat
    a client as paired unless one of them submitted a PIN for it. *)
Theorem paired_needs_pin (requests : list HttpRequest) (w : Webserver) (id : string) :
  pending (web_clients w) = ∅ -> is_paired (web_clients (web_run requests w)) id = true ->
  is_paired (web_clients w) id = true \/ Exists (pin_submitted id) requests.
Proof.
  intros Hp. set (old i := is_paired (web_clients w) i = true).
  assert (forall rs, pins_inv old (fun i => Exists (pin_submitted i) rs) (web_clients (web_run rs w))) as Hinv.
  { induction rs as [|r rs IH] using rev_ind.
    - split; cbn [web_run foldl]; [intros ? ?; by rewrite Hp, lookup_empty..|by left].
    - unfold web_run in *. rewrite foldl_app. cbn [foldl]. apply web_route_inv.
      + intros i Hi. apply Exists_app. right. by apply Exists_cons_hd.
      + eapply pins_inv_mono; [|exact IH]. intros i Hi. apply Exists_app. by left. }
  apply Hinv.
Qed.

(** Only [/launch] and [/resume] over HTTPS touch the session. *)
Lemma session_only_launch w r :
  route_of (rq_https r) (rq_method r) (rq_path r) <> RLaunch ->
  web_session (web_route w r).1 = web_session w.
Proof.
  intros Hr. unfold web_route. destruct (route_of _ _ _); try done.
  - by destruct (handle_pair _ _ _ _ _).
  - by destruct (submit_pin _ _).
Qed.
End Pins.

(** The id is put into the PIN page as it came: markup in it is markup of
    the page. *)
Theorem pin_page_unescaped (id : text) : contains id (hr_body (pin_page [(str "uniqueid", id)])) = true.
Proof.
  apply contains_spec. unfold pin_page, html. cbn [hr_body]. unfold get_param. cbn [foldl fst snd].
  rewrite decide_True by done. cbn [default].
  match goal with |- context [?p ++ quote ++ _] => exists (p ++ quote) end. eexists. rewrite <- app_assoc. reflexivity.
Qed.

(** A failure after the HTTP listener is up leaves it up. *)
Lemma serve_half (acceptor_ok https_binds : bool) :
  acceptor_ok && https_binds = false -> serve true true acceptor_ok https_binds = ([HttpListener], false).
Proof. by destruct acceptor_ok, https_binds. Qed.

(** ** A parser of plain documents *)

Fixpoint parse_elements (fuel : nat) (s : text) : option Xml :=
  match fuel with
  | O => None
  | S fuel =>
      if decide (s = root_close) then Some []
      else match s with
           | "<"%char :: s =>
               r <-? split_once ">"%char s;
               q <-? split_once "<"%char r.2;
               (let close := str "/" ++ r.1 ++ str ">" in
                if starts_with close q.2 then
                  v <-? decode_text q.1;
                  rest <-? parse_elements fuel (drop (length close) q.2);
                  Some ((r.1, v) :: rest)
                else None)
           | _ => None
           end
  end.

#[export] Instance plain_parser : XmlParser := {|
  parse_xml s :=
    let open := root_open (str "200") in
    if starts_with open s then parse_elements (length s) (drop (length open) s) else None
|}.

Lemma decode_cons_markup c s v : decode_text (c :: s) = Some v -> c <> "<"%char.
Proof. by intros H ->. Qed.

Lemma decode_no_markup s v : decode_text s = Some v -> "<"%char ∉ s.
Proof.
  remember (length s) as n eqn:En. revert s v En. induction n as [n IH] using lt_wf_ind. intros s v -> H.
  assert (forall k, (0 < k <= length s)%nat -> forall w, decode_text (drop k s) = Some w -> "<"%char ∉ drop k s) as Hk.
  { intros k Hk w. apply (IH (length (drop k s))); [rewrite length_drop; lia|done]. }
  destruct s as [|c s]; [apply not_elem_of_nil|].
  assert (forall k w, (k <= length s)%nat -> "<"%char ∉ take k s -> decode_text (drop k s) = Some w -> "<"%char ∉ c :: s) as Hgo.
  { intros k w Hl Ht Hw. apply not_elem_of_cons. split; [by apply not_eq_sym, (decode_cons_markup c s v)|].
    rewrite <- (take_drop k s). apply not_elem_of_app. split; [done|]. by apply (Hk (S k)) with w; [cbn; lia|]. }
  assert (forall k, bool_decide ("<"%char ∉ take k s) = true -> "<"%char ∉ take k s) as Hb by (intros k; apply bool_decide_eq_true_1).
  destruct c as [[] [] [] [] [] [] [] []]; try discriminate H; cbn [decode_text] in H;
    repeat match type of H with
    | match ?x with _ => _ end = _ => destruct x; try discriminate H
    end; subst;
    destruct (fmap_Some_1 _ _ _ H) as (w & Hw & _);
    first [eapply (Hgo 0%nat); [lia|apply not_elem_of_nil|exact Hw]
          |eapply (Hgo 3%nat); [cbn; lia|apply Hb; reflexivity|exact Hw]
          |eapply (Hgo 4%nat); [cbn; lia|apply Hb; reflexivity|exact Hw]
          |eapply (Hgo 5%nat); [cbn; lia|apply Hb; reflexivity|exact Hw]].
Qed.

Lemma name_no_markup n c : xml_name_ok n = true -> c = "<"%char \/ c = ">"%char -> c ∉ n.
Proof.
  unfold xml_name_ok. rewrite andb_true_iff. intros [_ Hn] Hc Hin. rewrite forallb_forall in Hn.
  specialize (Hn c (proj1 (list_elem_of_In _ _) Hin)). by destruct Hc as [-> | ->].
Qed.

Lemma starts_with_app p s : starts_with p (p ++ s) = true.
Proof. apply starts_with_spec. eauto. Qed.

Lemma parse_elements_flat els els' fuel :
  Forall2 (fun e e' => xml_name_ok e.1 = true /\ e'.1 = e.1 /\ decode_text e.2 = Some e'.2) els els' ->
  (length els < fuel)%nat ->
  parse_elements fuel (concat (map (fun e => xml_element e.1 e.2) els) ++ root_close) = Some els'.
Proof.
  intros Hf. revert fuel. induction Hf as [|[n t] [n' v] els els' (Hn & E & Hd) Hf IH]; intros fuel Hl.
  - destruct fuel; [simpl in Hl; lia|]. reflexivity.
  - destruct fuel as [|fuel]; [simpl in Hl; lia|]. cbn [fst snd map concat length] in *. subst n'.
    set (rest := concat _) in *.
    assert ((xml_element n t ++ rest) ++ root_close
            = "<"%char :: (n ++ ">"%char :: (t ++ "<"%char :: ((str "/" ++ n ++ str ">") ++ (rest ++ root_close))))) as ->
      by (unfold xml_element; rewrite <- !app_assoc; cbn; by rewrite <- ?app_assoc).
    cbn [parse_elements]. rewrite decide_False.
    2:{ unfold xml_name_ok in Hn. destruct n as [|c n]; [done|]. intros [= -> _]. cbn in Hn. done. }
    rewrite split_once_app by (apply name_no_markup; auto). cbn [fst snd].
    rewrite split_once_app by (by apply decode_no_markup in Hd). cbn [fst snd].
    by rewrite starts_with_app, Hd, drop_app_length, IH by lia.
Qed.

#[export] Instance plain_parser_laws : XmlParserLaws plain_parser.
Proof.
  split. intros els els' Hf. unfold parse_xml, plain_parser, flat_doc. rewrite starts_with_app, drop_app_length.
  apply parse_elements_flat; [done|]. rewrite !length_app.
  enough (length els <= length (concat (map (fun e => xml_element e.1 e.2) els)))%nat by (change (length root_close) with 7%nat; lia).
  clear. induction els as [|e els IH]; [done|]. cbn [map concat length]. rewrite length_app.
  enough (0 < length (xml_element e.1 e.2))%nat by lia. cbn. lia.
Qed.

(** ** Witnesses *)

Definition web_cfg_example : ServerConfig :=
  {| sc_name := str "R&D <lab>"; sc_unique_id := str "0123456789ABCDEF"; sc_http_port := 47989;
     sc_https_port := 47984; sc_rtsp_port := 48010 |}.

#[local] Instance no_hex : HexCodec := {| Launch.hex_encode _ := []; Launch.hex_decode _ := Some [] |}.


(** getservercert, the PIN, and the three requests of a client that answers
    under the right key. *)
Definition web_example : Webserver :=
  {| web_config := web_cfg_example; web_clients := manager_example; web_session := None |}.

Definition get_pair (ps : Params) : HttpRequest :=
  {| rq_https := false; rq_method := GET; rq_path := str "/pair"; rq_query := ps; rq_form := None; rq_local := None;
     rq_fingerprint := None; rq_secret := replicate 16 4; rq_challenge := replicate 16 5 |}.

Definition hex_text (l : list Z) : text := str (Pairing.hex_encode l).

Definition pairing_requests (pin : text) : list HttpRequest :=
  let id := (str "uniqueid", str "c1") in
  let k := derive_key (replicate 16 1) (map byte_of pin) in
  let d := draws_example in
  [get_pair [(str "phrase", str "getservercert"); id; (str "salt", hex_text (d_salt d)); (str "clientcert", hex_text [11])];
   {| rq_https := false; rq_method := POST; rq_path := str "/submit-pin"; rq_query := [];
      rq_form := Some [id; (str "pin", pin)]; rq_local := None; rq_fingerprint := None; rq_secret := []; rq_challenge := [] |};
   get_pair [id; (str "clientchallenge", hex_text (default [] (aes_ecb_encrypt (d_challenge d) k)))];
   get_pair [id; (str "serverchallengeresp",
                  hex_text (default [] (aes_ecb_encrypt (sha256 (d_srv_challenge d ++ [1; 11] ++ d_secret d)) k)))];
   get_pair [id; (str "clientpairingsecret", hex_text (d_secret d ++ [11] ++ d_secret d))]].

Example web_pairs : is_paired (web_clients (web_run (pairing_requests (str "1234")) web_example)) "c1" = true.
Proof. vm_compute. reflexivity. Qed.

Lemma paired_needs_pin_witness : Exists (pin_submitted "c1") (pairing_requests (str "1234")).
Proof.
  destruct (paired_needs_pin (pairing_requests (str "1234")) web_example "c1") as [H|H]; [done| |done|exact H].
  vm_compute. reflexivity.
Defined.
