(* ===== verification/Tls.v ===== *)
(** * TLS of the host's web server ([kmc-streamhost/src/tls.rs] and the two
    accept loops of [serve] in [webserver.rs])

    The verifier of client certificates, the acceptor made from the host's PEM
    files, and the connections of both listeners with the requests that come
    over them, over rustls ([Rustls], [RustlsLaws]) and the PEM reader.
    [https_fingerprint_proven]: a fingerprint that reaches a handler is of a
    certificate whose holder signed a handshake; [created_identity_serves]: the
    pair of files a first start makes gives an acceptor, then and at every
    later start; [stranger_launches]: and who offers no certificate at all is
    served the same. *)
From S2P Require Import Prelude HostSession Text Pairing Store Crypto Launch StreamHost Web.

(** ** The verifier *)

Inductive SignatureScheme :=
| RSA_PKCS1_SHA256 | RSA_PKCS1_SHA384 | RSA_PKCS1_SHA512
| RSA_PSS_SHA256 | RSA_PSS_SHA384 | RSA_PSS_SHA512
| ECDSA_NISTP256_SHA256 | ECDSA_NISTP384_SHA384 | ED25519
(** the schemes the verifier does not list, by their code *)
| OtherScheme (code : Z).

#[export] Instance SignatureScheme_eq : EqDecision SignatureScheme.
Proof. solve_decision. Defined.

(** The library: its key type, [DigitallySignedStruct], what a client does on
    its connection, and its functions. *)
Class Rustls := {
  TlsKey : Type;
  DigitallySigned : Type;
  ClientStream : Type;
  dss_scheme : DigitallySigned -> SignatureScheme;
  pem_certs : list Z -> option (list (list Z));
  pem_private_key : list Z -> option (option TlsKey);
  with_single_cert : list (list Z) -> TlsKey -> bool;
  ring_verify_tls12 : list Z -> list Z -> DigitallySigned -> bool;
  ring_verify_tls13 : list Z -> list Z -> DigitallySigned -> bool
}.

(** [ClientCertVerifier] *)
Record ClientCertVerifier {T : Rustls} := mkVerifier {
  offer_client_auth : bool;
  client_auth_mandatory : bool;
  root_hint_subjects : list (list Z);
  verify_client_cert : list Z -> list (list Z) -> Z -> bool;
  verify_tls12_signature : list Z -> list Z -> DigitallySigned -> bool;
  verify_tls13_signature : list Z -> list Z -> DigitallySigned -> bool;
  supported_verify_schemes : list SignatureScheme
}.

Record ServerTls {T : Rustls} := mkServerTls { st_verifier : ClientCertVerifier; st_certs : list (list Z); st_key : TlsKey }.

Arguments mkServerTls {T}.

Inductive AcceptorError := ParseServerCerts | ParseServerKey | NoPrivateKey | BuildServerConfig.

Section Acceptor.
Context {T : Rustls}.

(** [AcceptAnyClientCert::new] *)
Definition accept_any_schemes : list SignatureScheme :=
  [RSA_PKCS1_SHA256; RSA_PKCS1_SHA384; RSA_PKCS1_SHA512; RSA_PSS_SHA256; RSA_PSS_SHA384; RSA_PSS_SHA512;
   ECDSA_NISTP256_SHA256; ECDSA_NISTP384_SHA384; ED25519].

(** [AcceptAnyClientCert]: a certificate is asked for and not required, any
    chain is accepted at any time, signatures are ring's to check. *)
Definition accept_any : ClientCertVerifier := {|
  offer_client_auth := true;
  client_auth_mandatory := false;
  root_hint_subjects := [];
  verify_client_cert end_entity intermediates now := true;
  verify_tls12_signature := ring_verify_tls12;
  verify_tls13_signature := ring_verify_tls13;
  supported_verify_schemes := accept_any_schemes
|}.

(** [make_acceptor]; installing the provider for the process, which the first
    call does, is the library's. *)
Definition make_acceptor (cert_pem key_pem : list Z) : ServerTls + AcceptorError :=
  match pem_certs cert_pem with
  | None => inr ParseServerCerts
  | Some certs =>
      match pem_private_key key_pem with
      | None => inr ParseServerKey
      | Some None => inr NoPrivateKey
      | Some (Some key) =>
          if with_single_cert certs key then inl (mkServerTls accept_any certs key) else inr BuildServerConfig
      end
  end.
End Acceptor.

(** ** Connections *)

(** [accept] of the acceptor: the certificates of the peer, the inner [None]
    for a client that offered none; the outer for a handshake that failed. *)
Class TlsAccept (T : Rustls) := { tls_accept : ServerTls -> ClientStream -> option (option (list (list Z))) }.

(** What rustls documents of a verifier's part: a certificate is only there
    when it was asked for and the verifier accepted its chain and a signature
    under it by a scheme it supports, in this handshake or the one it resumes;
    and who offers none is let in where none is required. *)
Class RustlsLaws {T : Rustls} (A : TlsAccept T) := {
  completes_without_cert : ServerTls -> ClientStream -> bool;
  tl_peer s c chain : tls_accept s c = Some (Some chain) ->
    offer_client_auth (st_verifier s) = true /\
    exists end_entity intermediates now message dss,
      chain = end_entity :: intermediates /\ verify_client_cert (st_verifier s) end_entity intermediates now = true /\
      dss_scheme dss ∈ supported_verify_schemes (st_verifier s) /\
      (verify_tls12_signature (st_verifier s) message end_entity dss = true \/
       verify_tls13_signature (st_verifier s) message end_entity dss = true);
  tl_none s c : client_auth_mandatory (st_verifier s) = false -> completes_without_cert s c = true ->
    tls_accept s c = Some None
}.

Section Connections.
Context {T : Rustls} {A : TlsAccept T} {C : PairCrypto} {H : HexCodec}.

(** A connection as its handler closes over it. *)
Record WebConn := mkWebConn { wc_https : bool; wc_local : option text; wc_fingerprint : option text }.

(** The server with its open connections and the requests routed so far. *)
Record WebServing := mkWebServing { wv_server : Webserver; wv_conns : gmap nat WebConn; wv_routed : list HttpRequest }.

Inductive WebEvent :=
| AcceptHttp (i : nat) (local : option text)
| AcceptHttps (i : nat) (local : option text) (client : ClientStream)
| Request (i : nat) (r : HttpRequest)
| Closed (i : nat).

(** The request as [route] is called with it. *)
Definition of_conn (c : WebConn) (r : HttpRequest) : HttpRequest :=
  {| rq_https := wc_https c; rq_method := rq_method r; rq_path := rq_path r; rq_query := rq_query r; rq_form := rq_form r;
     rq_local := wc_local c; rq_fingerprint := wc_fingerprint c; rq_secret := rq_secret r; rq_challenge := rq_challenge r |}.

Definition web_event (acceptor : ServerTls) (s : WebServing) (e : WebEvent) : WebServing * option HttpResponse :=
  match e with
  | AcceptHttp i local => (mkWebServing (wv_server s) (<[i := mkWebConn false local None]> (wv_conns s)) (wv_routed s), None)
  | AcceptHttps i local client =>
      match tls_accept acceptor client with
      | None => (s, None)
      | Some certs =>
          let fingerprint := str <$> peer_cert_fingerprint certs in
          (mkWebServing (wv_server s) (<[i := mkWebConn true local fingerprint]> (wv_conns s)) (wv_routed s), None)
      end
  | Request i r =>
      match wv_conns s !! i with
      | None => (s, None)
      | Some c =>
          let r := of_conn c r in
          let '(w, resp) := web_route (wv_server s) r in
          (mkWebServing w (wv_conns s) (wv_routed s ++ [r]), Some resp)
      end
  | Closed i => (mkWebServing (wv_server s) (delete i (wv_conns s)) (wv_routed s), None)
  end.

Definition web_events (acceptor : ServerTls) (events : list WebEvent) (s : WebServing) : WebServing :=
  foldl (fun s e => (web_event acceptor s e).1) s events.

Definition web_serving (w : Webserver) : WebServing := mkWebServing w ∅ [].
End Connections.

(** ** Who is behind a fingerprint *)

Section Fingerprints.
Context {T : Rustls} {A : TlsAccept T} {L : RustlsLaws A} {C : PairCrypto} {H : HexCodec}.

(** The fingerprint of a certificate under which a handshake was signed. *)
Definition proven (fp : text) : Prop := exists der message dss,
  fp = str (der_fingerprint der) /\ dss_scheme dss ∈ accept_any_schemes /\
  (ring_verify_tls12 message der dss = true \/ ring_verify_tls13 message der dss = true).

Definition fingerprint_ok (https : bool) (fp : option text) : Prop := forall t, fp = Some t -> https = true /\ proven t.

Record serving_ok (s : WebServing) : Prop := {
  sv_conns i c : wv_conns s !! i = Some c -> fingerprint_ok (wc_https c) (wc_fingerprint c);
  sv_routed r : r ∈ wv_routed s -> fingerprint_ok (rq_https r) (rq_fingerprint r)
}.

Lemma make_acceptor_verifier cert key s : make_acceptor cert key = inl s -> st_verifier s = accept_any.
Proof.
  unfold make_acceptor. destruct (pem_certs cert) as [cs|]; [|done]. destruct (pem_private_key key) as [[k|]|]; try done.
  destruct (with_single_cert cs k); [|done]. by intros [= <-].
Qed.

Lemma handshake_fingerprint s client certs : st_verifier s = accept_any -> tls_accept s client = Some certs ->
  fingerprint_ok true (str <$> peer_cert_fingerprint certs).
Proof.
  intros Hv Ha t Ht. split; [done|]. destruct certs as [chain|]; [|done].
  destruct (tl_peer _ _ _ Ha) as (_ & der & rest & now & message & dss & -> & _ & Hs & Hsig). rewrite Hv in Hs, Hsig.
  cbn in Ht. injection Ht as <-. by exists der, message, dss.
Qed.

Lemma web_event_ok s e acceptor : st_verifier acceptor = accept_any -> serving_ok s -> serving_ok (web_event acceptor s e).1.
Proof.
  intros Hv [Hc Hr]. destruct e as [i local|i local client|i r|i]; cbn [web_event].
  - split; cbn; [|done]. by intros j c [[_ <-]|[_ Hj]]%lookup_insert_Some; [intros t|eapply Hc].
  - destruct (tls_accept acceptor client) as [certs|] eqn:Ea; [|done]. split; cbn; [|done].
    intros j c [[_ <-]|[_ Hj]]%lookup_insert_Some; [|by eapply Hc]. by eapply handshake_fingerprint.
  - destruct (wv_conns s !! i) as [c|] eqn:Ei; [|done]. destruct (web_route _ _) as [w resp]. split; cbn; [done|].
    intros q [Hq| ->%list_elem_of_singleton]%elem_of_app; [by apply Hr|]. by eapply Hc.
  - split; cbn; [|done]. intros j c [_ Hj]%lookup_delete_Some. by eapply Hc.
Qed.

Lemma web_events_ok events acceptor w : st_verifier acceptor = accept_any -> serving_ok (web_events acceptor events (web_serving w)).
Proof.
  intros Hv. unfold web_events. apply (foldl_inv (fun s e => (web_event acceptor s e).1)).
  - intros s e. by apply web_event_ok.
  - split; cbn; [by intros i c; rewrite lookup_empty|]. by intros r ?%not_elem_of_nil.
Qed.


(** What is done to the server is the requests routed, in their order. *)
Lemma web_events_run acceptor events w :
  wv_server (web_events acceptor events (web_serving w)) = web_run (wv_routed (web_events acceptor events (web_serving w))) w.
Proof.
  unfold web_events.
  apply (foldl_inv (fun s e => (web_event acceptor s e).1) (fun s => wv_server s = web_run (wv_routed s) w)); [|done].
  intros s e Hs. destruct e as [i local|i local client|i r|i]; cbn [web_event]; try exact Hs.
  - by destruct (tls_accept acceptor client).
  - destruct (wv_conns s !! i) as [c|]; [|done]. destruct (web_route (wv_server s) (of_conn c r)) as [w' resp] eqn:E.
    cbn. unfold web_run. rewrite foldl_app. cbn [foldl]. fold (web_run (wv_routed s) w). by rewrite <- Hs, E.
Qed.

(** Whoever reaches the HTTPS port starts a session under a key of his choice:
    a client that offers no certificate and never paired is let in by the
    verifier, and the answer is the one any certificate would get. *)
Theorem stranger_launches (cert key : list Z) (acceptor : ServerTls) (client : ClientStream) (s : WebServing) (i : nat)
    (local : option text) (r : HttpRequest) (hexkey : text) (k : list Z) :
  let request := [AcceptHttps i local client; Request i r] in
  make_acceptor cert key = inl acceptor -> completes_without_cert acceptor client = true ->
  rq_method r = GET -> rq_path r = str "/launch" -> get_param (rq_query r) (str "rikey") = Some hexkey ->
  Launch.hex_decode hexkey = Some k ->
  remote_input_key <$> web_session (wv_server (web_events acceptor request s)) = Some k /\
  forall fp, web_route (wv_server s) (of_conn (mkWebConn true local fp) r) =
    (wv_server (web_events acceptor request s), xml_ok (launch_text (web_config (wv_server s)) local)).
Proof.
  intros request Ha Hc Hm Hp Hk Hx. apply make_acceptor_verifier in Ha.
  assert (tls_accept acceptor client = Some None) as Hacc by (apply tl_none; [by rewrite Ha|done]).
  assert (forall fp, web_route (wv_server s) (of_conn (mkWebConn true local fp) r) =
    (set_web_session (wv_server s) (host_launch (web_config (wv_server s)) (rq_query r) local (web_session (wv_server s))).1,
     xml_ok (launch_text (web_config (wv_server s)) local))) as Hroute.
  { intros fp. unfold web_route, of_conn. cbn [rq_https rq_method rq_path rq_query rq_local rq_fingerprint wc_https wc_local]. rewrite Hm, Hp.
    change (route_of true GET (str "/launch")) with RLaunch. cbn match. cbn [web_require_paired]. by destruct (host_launch _ _ _ _). }
  assert (wv_server (web_events acceptor request s) =
    set_web_session (wv_server s) (host_launch (web_config (wv_server s)) (rq_query r) local (web_session (wv_server s))).1) as Hs.
  { unfold request, web_events. cbn [foldl web_event]. rewrite Hacc. cbn [fst wv_conns wv_server wv_routed].
    rewrite lookup_insert_eq, Hroute. done. }
  rewrite Hs. split; [|exact Hroute]. cbn [web_session set_web_session]. unfold host_launch. rewrite Hk.
  destruct (parse_mode _) as [[x y] z]. cbn. by rewrite Hx.
Qed.
End Fingerprints.

(** ** The certificates the programs make *)

(** The PEM reader and rustls on what rcgen and the RSA library write: one
    certificate, its key, and the two belong together. *)
Class PemLaws {R : RsaX509} {L : RsaX509Laws R} (T : Rustls) := {
  tls_key : RsaKey -> TlsKey;
  pm_cert p k pem kp cert der : to_pkcs8_pem k = Some pem -> key_pair_from_pem pem = Some kp -> self_signed p kp = Some cert ->
    parse_x509_pem cert = Some der -> pem_certs cert = Some [der];
  pm_key k pem : to_pkcs8_pem k = Some pem -> pem_private_key pem = Some (Some (tls_key k));
  pm_pair k der x : parse_x509 der = Some x -> public_from_der (subject_pki x) = Some (public_of k) ->
    with_single_cert [der] (tls_key k) = true
}.

Definition pem_bytes (s : string) : list Z := map byte_of (str s).

Section Created.
Context {R : RsaX509} {L : RsaX509Laws R} {T : Rustls} {P : PemLaws T}.

(** What the two functions that create a certificate have in common. *)
Lemma created_pair p k pem kp cert : to_pkcs8_pem k = Some pem -> key_pair_from_pem pem = Some kp ->
  self_signed p kp = Some cert ->
  exists der, parse_x509_pem cert = Some der /\ pem_certs cert = Some [der] /\
    make_acceptor cert pem = inl (mkServerTls accept_any [der] (tls_key k)).
Proof.
  intros Hk Hkp Hc. destruct (rl_self_signed p k pem kp cert Hk Hkp Hc) as (_ & der & x & Hder & Hx & Hpub).
  exists der. pose proof (pm_cert _ _ _ _ _ _ Hk Hkp Hc Hder) as Hcs. split_and!; [done..|].
  unfold make_acceptor. by rewrite Hcs, (pm_key _ _ Hk), (pm_pair _ _ _ Hx Hpub).
Qed.

Lemma host_acceptor now g cert key : create_certificate now g = Some (cert, key) ->
  exists acceptor, make_acceptor cert key = inl acceptor.
Proof.
  unfold create_certificate. destruct g as [k|]; [|done]. cbn. destruct (to_pkcs8_pem k) as [pem|] eqn:Hk; [|done].
  cbn. destruct (key_pair_from_pem pem) as [kp|] eqn:Hkp; [|done]. cbn.
  destruct (self_signed (host_params now) kp) as [c|] eqn:Hc; [|done]. intros [= <- <-].
  destruct (created_pair _ _ _ _ _ Hk Hkp Hc) as (der & _ & _ & ->). eauto.
Qed.

Lemma client_der g cert key : create_client_certificate g = Some (cert, key) ->
  exists der, parse_x509_pem cert = Some der /\ pem_certs cert = Some [der].
Proof.
  unfold create_client_certificate. destruct g as [k|]; [|done]. cbn. destruct (to_pkcs8_pem k) as [pem|] eqn:Hk; [|done].
  cbn. destruct (key_pair_from_pem pem) as [kp|] eqn:Hkp; [|done]. cbn.
  destruct (self_signed client_params kp) as [c|] eqn:Hc; [|done]. intros [= <- <-].
  destruct (created_pair _ _ _ _ _ Hk Hkp Hc) as (der & Hd & Hcs & _). eauto.
Qed.

(** The first start of a host in a directory without its two files makes
    them; what it made gives an acceptor, so that with its ports free both
    listeners run, and every later start finds the same two files and the same
    acceptor, whatever it would have created. *)
Theorem created_identity_serves (now : Z) (g : option RsaKey) (writable : string -> bool) (fs : gmap string string)
    (cert_path key_path cert key : string) :
  create_certificate now g = Some (pem_bytes cert, pem_bytes key) ->
  cert_path <> key_path -> writable cert_path = true -> writable key_path = true ->
  fs !! cert_path = None \/ fs !! key_path = None ->
  exists fs' acceptor,
    load_or_create_cert writable (Some (cert, key)) fs cert_path key_path = (fs', Some (cert, key)) /\
    (forall writable created, load_or_create_cert writable created fs' cert_path key_path = (fs', Some (cert, key))) /\
    make_acceptor (pem_bytes cert) (pem_bytes key) = inl acceptor /\
    serve true true (match make_acceptor (pem_bytes cert) (pem_bytes key) with inl _ => true | inr _ => false end) true
      = ([HttpListener; HttpsListener], true).
Proof.
  intros Hc Hne Hw1 Hw2 Hfs. destruct (host_acceptor _ _ _ _ Hc) as (acceptor & Ha).
  exists (<[key_path := key]> (<[cert_path := cert]> fs)), acceptor. rewrite Ha. split_and!; [| |done..].
  - unfold load_or_create_cert, write_file. rewrite Hw1, Hw2.
    destruct (fs !! cert_path), (fs !! key_path); by destruct Hfs.
  - intros w created. unfold load_or_create_cert. by rewrite lookup_insert_ne, !lookup_insert_eq by done.
Qed.

(** C8: A client and a host that have just made their certificates: pairing with
    the same PIN goes through, the host's pair of files gives an acceptor, and
    the fingerprint a handshake under the client's certificate yields is one
    the host has stored; its bytes are those of the PEM that was sent. *)
Theorem paired_client_recognised (encode_upper : list Z -> string) (gc gh : option RsaKey) (now : Z) (random pin : list Z)
    (d : Draws) (id : Identity) (m : ClientManager) :
  generate encode_upper (create_client_certificate gc) random = Some id ->
  create_certificate now gh = Some (server_cert_pem m, server_key_pem m) -> draws_ok d ->
  exists m' chain fp acceptor,
    pair_client id pin (Some pin) d m = (m', Some (server_cert_pem m)) /\
    st_clients m' = <[unique_id id := cert_pem id]> (st_clients m) /\
    make_acceptor (server_cert_pem m) (server_key_pem m) = inl acceptor /\
    pem_certs (cert_pem id) = Some chain /\ peer_cert_fingerprint (Some chain) = Some fp /\ is_cert_paired m' fp = true.
Proof.
  intros Hid Hm Hd. pose proof (new_installation_pairs encode_upper gc gh now random pin d id m Hid Hm Hd)
    as (m' & fp & Hp & Hs & Hf & Hpaired).
  destruct (host_acceptor _ _ _ _ Hm) as (acceptor & Ha). unfold generate in Hid.
  destruct (create_client_certificate gc) as [[cert key]|] eqn:Hc; [|done]. injection Hid as <-. cbn [fst snd cert_pem unique_id] in *.
  destruct (client_der _ _ _ Hc) as (der & Hder & Hcs).
  exists m', [der], fp, acceptor. split_and!; try done.
  change (Crypto.cert_fingerprint cert = Some fp) in Hf. unfold Crypto.cert_fingerprint in Hf. rewrite Hder in Hf. exact Hf.
Qed.
End Created.

(** ** Libraries for which the laws hold, and examples *)

(** A PEM is its bytes, a key is its certificate, a signature appends the
    message to it; a client is the chain it presents, if any, with the message
    and signature of its handshake. *)
Definition plain_rustls : Rustls := {|
  TlsKey := list Z;
  DigitallySigned := SignatureScheme * list Z;
  ClientStream := option (list (list Z) * list Z * (SignatureScheme * list Z));
  dss_scheme := fst;
  pem_certs c := Some [c];
  pem_private_key p := Some (Some p);
  with_single_cert certs key := bool_decide (certs = [key]);
  ring_verify_tls12 message cert dss := bool_decide (dss.2 = cert ++ message);
  ring_verify_tls13 message cert dss := bool_decide (dss.2 = cert ++ message)
|}.

#[local] Existing Instance plain_rustls.
#[local] Existing Instance plain_rsa.
#[local] Existing Instance plain_rsa_laws.
#[local] Instance tls_hex : HexCodec := {| Launch.hex_encode _ := []; Launch.hex_decode _ := Some (replicate 16 9) |}.

#[local] Instance plain_accept : TlsAccept plain_rustls := {|
  tls_accept s c :=
    match c with
    | None => if client_auth_mandatory (st_verifier s) then None else Some None
    | Some (end_entity :: intermediates, message, dss) =>
        if offer_client_auth (st_verifier s) && verify_client_cert (st_verifier s) end_entity intermediates 0
           && bool_decide (dss.1 ∈ supported_verify_schemes (st_verifier s))
           && verify_tls13_signature (st_verifier s) message end_entity dss
        then Some (Some (end_entity :: intermediates)) else None
    | Some ([], _, _) => None
    end
|}.

#[local] Instance plain_rustls_laws : RustlsLaws plain_accept.
Proof.
  refine {| completes_without_cert _ c := bool_decide (c = None) |}.
  - intros s [[[[|leaf rest] message] dss]|] chain; cbn [tls_accept plain_accept]; [done| |by destruct (client_auth_mandatory _)].
    destruct (offer_client_auth (st_verifier s)) eqn:Eo; [|done].
    destruct (verify_client_cert (st_verifier s) leaf rest 0) eqn:Ev; [|done].
    case_bool_decide as Hs; [|done]. destruct (verify_tls13_signature _ _ _ _) eqn:E13; [|done]. intros [= <-].
    split; [done|]. exists leaf, rest, 0, message, dss. by split_and!; [..|right].
  - intros s c Hm Hc. apply bool_decide_eq_true in Hc as ->. cbn. by rewrite Hm.
Defined.

#[local] Instance plain_pem_laws : PemLaws plain_rustls.
Proof.
  refine {| tls_key := fun k : @RsaKey plain_rsa => k |}; cbn.
  - intros p k pem kp cert der [= <-] [= <-] [= <-] [= <-]. reflexivity.
  - by intros k pem [= <-].
  - intros k der x [= <-] [= <-]. by apply bool_decide_true.
Defined.

Definition acceptor_example : ServerTls := mkServerTls accept_any [[22]] [22].
Definition launch_example : HttpRequest :=
  {| rq_https := false; rq_method := GET; rq_path := str "/launch"; rq_query := [(str "rikey", str "0909")]; rq_form := None;
     rq_local := None; rq_fingerprint := None; rq_secret := []; rq_challenge := [] |}.
Definition signed_client_example : @ClientStream plain_rustls := Some ([[11]], [5], (RSA_PSS_SHA256, [11; 5])).
Definition web_rust_example : Webserver := mkWebserver web_cfg_example manager_example None.


(** The handshake of a client without a certificate, and its first request. *)
Lemma stranger_launches_witness :
  remote_input_key <$> web_session (wv_server (web_events acceptor_example [AcceptHttps 1 None None; Request 1 launch_example]
    (web_serving web_rust_example))) = Some (replicate 16 9).
Proof.
  apply (stranger_launches [22] [22] acceptor_example None (web_serving web_rust_example) 1 None launch_example (str "0909") (replicate 16 9));
    reflexivity.
Defined.

Lemma created_identity_serves_witness : exists fs',
  load_or_create_cert (fun _ => true) (Some ("P", "P")%string) ∅ "cert" "key" = (fs', Some ("P", "P")%string).
Proof.
  destruct (created_identity_serves (R := plain_rsa) 0 (Some (pem_bytes "P")) (fun _ => true) ∅ "cert" "key" "P" "P")
    as (fs' & acceptor & H & _); [reflexivity|discriminate|reflexivity|reflexivity|left; reflexivity|].
  exists fs'. exact H.
Defined.

Lemma paired_client_recognised_witness :
  exists m' chain fp acceptor,
    pair_client {| cert_pem := [11]; key_pem := [11]; unique_id := "c1" |} [1; 2; 3; 4] (Some [1; 2; 3; 4]) draws_example
      manager_example = (m', Some [22]) /\
    st_clients m' = <["c1" := [11]]> ∅ /\
    make_acceptor [22] [22] = inl acceptor /\
    pem_certs [11] = Some chain /\ peer_cert_fingerprint (Some chain) = Some fp /\ is_cert_paired m' fp = true.
Proof.
  apply (paired_client_recognised (R := plain_rsa) (fun _ => "c1"%string) (Some [11]) (Some [22]) 0 [1; 2; 3; 4; 5; 6; 7; 8] [1; 2; 3; 4]
    draws_example {| cert_pem := [11]; key_pem := [11]; unique_id := "c1" |} manager_example);
    [reflexivity|reflexivity|apply draws_example_ok].
Defined.
