(* ===== verification/Agent.v ===== *)
(** * The agent on the laptop ([kmc-agent])

    Provisioning with its state file, the reconnect loop and what it takes
    for a rejected identity, the execution of commands with the revival of
    the automation daemon, the waits for Tailscale and the daemon, and the
    status report.  Processes, the network, files and clocks are inputs. *)
From stdpp Require Import sorting.
From Stdlib Require Import Floats.SpecFloat Sorting.Permutation Sorted.
From S2P Require Import Prelude Float HubState Hub Text.

(** ** State and provisioning ([config.rs], [provision.rs]) *)

Record AgentState := mkAgentState { as_agent_id : Uuid; as_name : string; as_token : string }.

(** The state file: absent, unreadable, or a state. *)
Inductive StateFile := NoFile | Unparsable | Saved (s : AgentState).

Definition delays : list Z := [1; 2; 4; 8; 16; 30].

Definition state_of_resp (l : Laptop) : AgentState :=
  {| as_agent_id := lp_agent_id l; as_name := lp_name l; as_token := lp_token l |}.

(** [{:06x}] of the fallback name *)
Definition hex6 (z : Z) : string :=
  String.string_of_list_ascii (map (fun k => default "0"%char (str "0123456789abcdef" !! Z.to_nat (Z.land (Z.shiftr z (4 * k)) 15)))
    [5; 4; 3; 2; 1; 0]).

Definition fallback_state (id : Uuid) (rnd : Z) : AgentState :=
  {| as_agent_id := id; as_name := "student-temp-" +:+ hex6 (Z.land rnd 0xffffff); as_token := EmptyString |}.

(** The attempts over the list of delays; [answers] are the hub's, [None] a
    failure of any kind.  [slept] counts the seconds waited. *)
Fixpoint try_all (ds : list Z) (answers : list (option Laptop)) (slept : Z) : option AgentState * Z :=
  match ds with
  | [] => (None, slept)
  | d :: ds' =>
      match answers with
      | Some l :: _ => (Some (state_of_resp l), slept)
      | _ => try_all ds' (tail answers) (match ds' with [] => slept | _ => slept + d end)
      end
  end.

(** What a run of [provision] meets. *)
Record ProvisionEnv := mkProvisionEnv {
  pe_answers : list (option Laptop); pe_write_ok : bool; pe_id : Uuid; pe_rnd : Z
}.

(** The file as it is left, the state ([None] when it cannot be written) and
    the seconds slept. *)
Definition provision (file : StateFile) (e : ProvisionEnv) : StateFile * option AgentState * Z :=
  match file with
  | Saved s => (file, Some s, 0)
  | _ =>
      match try_all delays (pe_answers e) 0 with
      | (Some s, t) => if pe_write_ok e then (Saved s, Some s, t) else (file, None, t)
      | (None, t) => (file, Some (fallback_state (pe_id e) (pe_rnd e)), t)
      end
  end.

(** ** The connection ([run.rs]) *)

Inductive WsEvent :=
| TextFrame (m : option HubToAgent)
| CloseFrame | PingPong | OtherFrame
| StreamError (e : text)
| StreamEnd.

(** The error's text is its outermost context. *)
Definition ERR_CONNECT : text := str "ws connect".
Definition ERR_SEND_HELLO : text := str "send hello".
Definition ERR_HELLO_CLOSED : text := str "hub closed connection during hello (auth failed?)".
Definition ERR_HELLO : text := str "ws error during hello: ".
Definition ERR_RECV : text := str "ws recv: ".

Definition is_auth_failure (e : text) : bool := contains (str "during hello") e.

(** The wait for [HelloOk]: the events left, or the error. *)
Fixpoint await_hello (es : list WsEvent) : list WsEvent + text :=
  match es with
  | [] => inr ERR_HELLO_CLOSED
  | TextFrame (Some HelloOk) :: es => inl es
  | (TextFrame _ | PingPong | OtherFrame) :: es => await_hello es
  | (CloseFrame | StreamEnd) :: _ => inr ERR_HELLO_CLOSED
  | StreamError e :: _ => inr (ERR_HELLO ++ e)
  end.

(** The receive loop: the commands it starts, and how it ends. *)
Fixpoint receive (es : list WsEvent) : list CommandRequest * option text :=
  match es with
  | [] => ([], None)
  | TextFrame (Some (RunCommand req)) :: es => let '(rs, r) := receive es in (req :: rs, r)
  | (TextFrame _ | PingPong | OtherFrame) :: es => receive es
  | (CloseFrame | StreamEnd) :: _ => ([], None)
  | StreamError e :: _ => ([], Some (ERR_RECV ++ e))
  end.

Record ConnectEnv := mkConnectEnv { ce_connects : bool; ce_sends : bool; ce_events : list WsEvent }.

Definition hello_of (s : AgentState) (stream_addr : option string) : AgentToHub :=
  Hello (as_agent_id s) (as_name s) (as_token s) stream_addr.

(** The error, if any, and the commands that were started. *)
Definition connect_once (e : ConnectEnv) : list CommandRequest * option text :=
  if negb (ce_connects e) then ([], Some ERR_CONNECT)
  else if negb (ce_sends e) then ([], Some ERR_SEND_HELLO)
  else match await_hello (ce_events e) with
       | inr err => ([], Some err)
       | inl es => receive es
       end.

Record Agent := mkAgent { ag_file : StateFile; ag_state : AgentState }.

Definition token_empty (s : AgentState) : bool := bool_decide (as_token s = EmptyString).

(** One turn of the loop of [run]; [removed]: the state file could be deleted. *)
Definition agent_turn (a : Agent) (c : ConnectEnv) (removed : bool) (p : ProvisionEnv) : Agent :=
  match (connect_once c).2 with
  | None => a
  | Some err =>
      if is_auth_failure err then
        let file := if removed then NoFile else ag_file a in
        match provision file p with
        | (file, Some fresh, _) =>
            if negb (token_empty fresh) then {| ag_file := file; ag_state := fresh |}
            else {| ag_file := file; ag_state := ag_state a |}
        | (file, None, _) => {| ag_file := file; ag_state := ag_state a |}
        end
      else a
  end.

(** The start of the process: [None] when it ends, without a token or because
    the state could not be saved. *)
Definition agent_start (file : StateFile) (p : ProvisionEnv) : StateFile * option Agent :=
  match provision file p with
  | (file, Some s, _) => (file, if token_empty s then None else Some {| ag_file := file; ag_state := s |})
  | (file, None, _) => (file, None)
  end.

(** ** Addresses and waits ([run.rs], [tailscale.rs], [cua.rs]) *)

(** [replacen(p, r, 1)] *)
Definition replace_first (p r s : text) : text :=
  match find p s with Some i => take i s ++ r ++ drop (i + length p) s | None => s end.

Definition trim_end_slash (s : text) : text := reverse (drop_while (fun c => bool_decide (c = "/"%char)) (reverse s)).

Definition ws_url (hub_url : text) : text :=
  trim_end_slash (replace_first (str "http://") (str "ws://") (replace_first (str "https://") (str "wss://") hub_url))
  ++ str "/agent/ws".

(** The first line of [tailscale ip -4], if it begins like a tailnet address. *)
Definition self_ip (installed : bool) (stdout : option text) : option text :=
  if installed then
    out <-? stdout;
    let t := trim out in
    if bool_decide (t = []) then None
    else
      let ip := trim (before LF t) in
      if starts_with (str "100.") ip then Some ip else None
  else None.

(** [wait_ready] polls until the connection is up or the deadline passes;
    [up k] and [elapsed k] are what the k-th poll sees.  [None]: out of fuel. *)
Fixpoint wait_ready_go (fuel : nat) (up : nat -> bool) (elapsed : nat -> Z) (timeout : Z) (k : nat) : option bool :=
  match fuel with
  | O => None
  | S fuel =>
      if up k then Some true
      else if timeout <=? elapsed k then Some false
      else wait_ready_go fuel up elapsed timeout (S k)
  end.

Definition wait_ready (fuel : nat) (installed : bool) (up : nat -> bool) (elapsed : nat -> Z) (timeout : Z) : option bool :=
  if installed then wait_ready_go fuel up elapsed timeout 0 else Some false.

(** [ensure_daemon]: [running k] is the k-th status query. *)
Fixpoint poll_daemon (n : nat) (running : nat -> bool) (k : nat) : bool :=
  match n with
  | O => false
  | S n => if running k then true else poll_daemon n running (S k)
  end.

Definition ensure_daemon (running : nat -> bool) (spawn_ok : bool) : bool :=
  if running 0%nat then true else if negb spawn_ok then false else poll_daemon 20 running 1.

(** ** Commands ([exec.rs]) *)

Record Output := mkOutput { o_code : option Z; o_stdout : text; o_stderr : text }.

Definition of_output (id : Uuid) (what : string) (out : Output + string) : CommandResult :=
  match out with
  | inl o => {| res_id := id; exit_code := o_code o; res_stdout := String.string_of_list_ascii (o_stdout o);
                res_stderr := String.string_of_list_ascii (o_stderr o); res_error := None |}
  | inr e => {| res_id := id; exit_code := None; res_stdout := EmptyString; res_stderr := EmptyString;
                res_error := Some (what +:+ ": " +:+ e) |}
  end.

Definition daemon_down (out : Output + string) : bool :=
  match out with
  | inl o => contains (str "daemon is not running") (o_stdout o ++ o_stderr o)
  | inr _ => false
  end.

(** The machine behind the commands: a shell, the automation driver and its
    daemon, the browser. *)
Section Commands.
Context {M : Type} (shell : M -> string -> M * (Output + string)).
Context (cua_call : M -> string -> string -> M * (Output + string)) (revive : M -> M) (ensure_browser : M -> M * string).
Context (exe : string).

Definition run_powershell (m : M) (id : Uuid) (script : string) : M * CommandResult :=
  let '(m, out) := shell m script in (m, of_output id "spawn powershell" out).

Definition run_gui (m : M) (id : Uuid) (tool args : string) : M * CommandResult :=
  if bool_decide (tool = "kmc_ensure_browser"%string) then
    let '(m, v) := ensure_browser m in
    (m, {| res_id := id; exit_code := Some 0; res_stdout := v; res_stderr := EmptyString; res_error := None |})
  else
    let '(m, out) := cua_call m tool args in
    let '(m, out) := if daemon_down out then cua_call (revive m) tool args else (m, out) in
    (m, of_output id ("spawn cua-driver (" +:+ exe +:+ ")") out).

Definition exec_run (m : M) (req : CommandRequest) : M * CommandResult :=
  match cr_kind req with
  | PowerShell script => run_powershell m (cr_id req) script
  | Gui tool args => run_gui m (cr_id req) tool args
  end.
End Commands.

(** ** The status report ([sysstat.rs]) *)

(** The stable sort by memory, largest first. *)
Fixpoint insert_mem (p : ProcessInfo) (l : list ProcessInfo) : list ProcessInfo :=
  match l with
  | [] => [p]
  | q :: l' => if pi_mem_bytes q <? pi_mem_bytes p then p :: l else q :: insert_mem p l'
  end.

Definition sort_mem (l : list ProcessInfo) : list ProcessInfo := foldl (fun acc p => insert_mem p acc) [] l.

Definition top_processes (l : list ProcessInfo) : list ProcessInfo := take 15 (sort_mem l).

Record Disk := mkDisk { d_mount : text; d_total : Z; d_free : Z }.

Definition pick_system_disk (ds : list Disk) : Z * Z :=
  match (match list_find (fun d => starts_with (str "C:") (d_mount d) || bool_decide (d_mount d = str "/")) ds with
         | Some (_, d) => Some d
         | None => head ds
         end) with
  | Some d => (d_total d, d_free d)
  | None => (0, 0)
  end.

(** [battery]: state of charge from 0 to 1 and whether it charges or is full. *)
Definition read_battery (fake : option f32) (battery : option (f32 * bool)) : option f32 * option bool :=
  match fake with
  | Some f => (Some f, Some false)
  | None =>
      match battery with
      | Some (soc, charging) => (Some (SFmul 24 128 soc (f32_lit 100 1)), Some charging)
      | None => (None, None)
      end
  end.

Definition collect (procs : list ProcessInfo) (disks : list Disk) (fake : option f32) (battery : option (f32 * bool))
    (now : Z) (encoder : bool) : StatusReport :=
  let '(total, free) := pick_system_disk disks in
  let '(percent, charging) := read_battery fake battery in
  {| battery_percent := percent; battery_charging := charging; disk_free_bytes := free; disk_total_bytes := total;
     processes := top_processes procs; reported_at := now; encoder_ok := Some encoder |}.

(** ** Provisioning *)

(** The last delay is never slept. *)
Lemma try_all_bound ds answers slept : Forall (Z.le 0) ds ->
  slept <= (try_all ds answers slept).2 <= slept + foldr Z.add 0 (List.removelast ds).
Proof.
  intros H. revert answers slept. induction H as [|d ds Hd Hds IH]; intros answers slept; cbn [try_all snd]; [simpl; lia|].
  assert (forall l, Forall (Z.le 0) l -> 0 <= foldr Z.add 0 (List.removelast l)) as Hnn.
  { clear. intros l Hl. induction Hl as [|x l Hx Hl IH]; [done|]. cbn [List.removelast]. destruct l; simpl in *; lia. }
  pose proof (Hnn ds Hds) as Hp. destruct ds as [|d' ds'].
  - destruct answers as [|[l|] answers]; simpl; lia.
  - change (List.removelast (d :: d' :: ds')) with (d :: List.removelast (d' :: ds')). cbn [foldr].
    set (ds := d' :: ds') in *. clearbody ds.
    destruct answers as [|[l|] answers]; cbn [snd tail]; [specialize (IH [] (slept + d))| |specialize (IH answers (slept + d))]; lia.
Qed.

Lemma try_all_answers ds answers slept :
  (try_all ds answers slept).1 = state_of_resp <$> head (omap id (take (length ds) answers)).
Proof.
  revert answers slept. induction ds as [|d ds IH]; intros answers slept; [done|].
  cbn [try_all]. destruct answers as [|[l|] answers]; [|done|]; rewrite IH; [|done].
  cbn [tail]. by rewrite !take_nil.
Qed.

(** The run without a readable state file. *)
Lemma provision_exec file e : match file with Saved _ => False | _ => True end ->
  provision file e =
  match head (omap id (take 6 (pe_answers e))) with
  | Some l => if pe_write_ok e
              then (Saved (state_of_resp l), Some (state_of_resp l), (try_all delays (pe_answers e) 0).2)
              else (file, None, (try_all delays (pe_answers e) 0).2)
  | None => (file, Some (fallback_state (pe_id e) (pe_rnd e)), (try_all delays (pe_answers e) 0).2)
  end.
Proof.
  intros Hf. pose proof (try_all_answers delays (pe_answers e) 0) as Ha. change (length delays) with 6%nat in Ha.
  unfold provision. destruct (try_all delays (pe_answers e) 0) as [[s|] t]; cbn [fst snd] in *;
    destruct (head (omap id (take 6 (pe_answers e)))) as [l|]; simplify_eq/=; by destruct file.
Qed.

(** provisioning asks the hub only without a readable state file, at most
    six times with at most 31 s of waiting in all; the first answer becomes
    the state, which is saved; without an answer the state is a fallback with
    an empty token, and the file is left as it was. *)
Theorem provision_spec file e :
  match file with
  | Saved s => provision file e = (file, Some s, 0)
  | _ =>
      let r := provision file e in
      0 <= r.2 <= 31 /\
      match head (omap id (take 6 (pe_answers e))) with
      | Some l => r.1 = if pe_write_ok e then (Saved (state_of_resp l), Some (state_of_resp l)) else (file, None)
      | None => exists s, r.1 = (file, Some s) /\ token_empty s = true
      end
  end.
Proof.
  pose proof (try_all_bound delays (pe_answers e) 0 ltac:(repeat constructor; lia)) as Hb.
  change (foldr Z.add 0 (List.removelast delays)) with 31 in Hb.
  destruct file as [| |s]; [| |done]; cbn zeta; rewrite provision_exec by done;
    destruct (head (omap id (take 6 (pe_answers e)))) as [l|];
    try destruct (pe_write_ok e); (split; [cbn [fst snd]; lia|]); try done; by eexists.
Qed.

Lemma provision_spec_witness :
  (provision NoFile (mkProvisionEnv [None; None; Some (mkLaptop 7 "aa" "student-01" "t")] true 1 2)).1.2
  = Some (mkAgentState 7 "student-01" "t").
Proof.
  destruct (provision_spec NoFile (mkProvisionEnv [None; None; Some (mkLaptop 7 "aa" "student-01" "t")] true 1 2)) as [_ E].
  exact (f_equal snd E).
Defined.

(** ** The reconnect loop *)

Lemma hello_error_is_auth es err : await_hello es = inr err -> is_auth_failure err = true.
Proof.
  induction es as [|e es IH]; cbn [await_hello]; [by intros [= <-]|].
  destruct e as [[[|req]|]| | | |e|]; try done; try apply IH; intros [= <-]; try done.
Qed.

(** The identity in memory against the file: the file never holds another. *)
Record agent_ok (a : Agent) : Prop := {
  ao_token : token_empty (ag_state a) = false;
  ao_file : match ag_file a with Saved s => s = ag_state a | _ => True end
}.

(** What the hub answers are rows of its database, whose tokens are drawn. *)
Definition answers_ok (p : ProvisionEnv) : Prop :=
  Forall (fun o => match o with Some l => lp_token l <> EmptyString | None => True end) (pe_answers p).

Definition first_answer (p : ProvisionEnv) : option Laptop := head (omap id (take 6 (pe_answers p))).

Lemma first_answer_token p l : answers_ok p -> first_answer p = Some l -> token_empty (state_of_resp l) = false.
Proof.
  unfold answers_ok, first_answer, token_empty. intros Hp H. apply bool_decide_eq_false. simpl.
  destruct (omap id (take 6 (pe_answers p))) as [|x k] eqn:E; simplify_eq/=.
  assert (l ∈ omap id (take 6 (pe_answers p))) as Hin by (rewrite E; left).
  apply list_elem_of_omap in Hin as (o & Ho & Eo). simpl in Eo. subst o.
  rewrite Forall_forall in Hp. apply (Hp (Some l)). rewrite <- (take_drop 6 (pe_answers p)). apply elem_of_app. by left.
Qed.

(** Whether a turn provisions anew: after an error before [HelloOk], unless
    the state file is still there. *)
Definition reprovisions (a : Agent) (c : ConnectEnv) (removed : bool) : bool :=
  match (connect_once c).2 with
  | Some err => is_auth_failure err && (removed || match ag_file a with Saved _ => false | _ => true end)
  | None => false
  end.

Lemma agent_turn_spec a c removed p : agent_ok a -> answers_ok p ->
  agent_turn a c removed p =
  if reprovisions a c removed then
    match first_answer p, pe_write_ok p with
    | Some l, true => {| ag_file := Saved (state_of_resp l); ag_state := state_of_resp l |}
    | _, _ => {| ag_file := if removed then NoFile else ag_file a; ag_state := ag_state a |}
    end
  else a.
Proof.
  intros [Ht Hf] Hp. unfold agent_turn, reprovisions. destruct (connect_once c).2 as [err|]; [|done].
  destruct (is_auth_failure err); [|done]. cbn [andb]. set (file := if removed then NoFile else ag_file a).
  pose proof (provision_exec file p) as Hs.
  assert (file = Saved (ag_state a) /\ (removed || match ag_file a with Saved _ => false | _ => true end) = false /\ a = mkAgent file (ag_state a) \/
    match file with Saved _ => False | _ => True end /\ (removed || match ag_file a with Saved _ => false | _ => true end) = true)
    as [(E & -> & Ea)|[Hn ->]].
  { subst file. destruct removed; [by right|]. destruct a as [[| |s] st]; simpl in *; [by right|by right|]. subst s. by left. }
  - rewrite E in *. cbn [provision]. rewrite Ht. cbn [negb]. by rewrite Ea.
  - rewrite Hs by done. destruct (first_answer p) as [l|] eqn:El.
    + pose proof (first_answer_token p l Hp El) as Hl. unfold first_answer in El. rewrite El. destruct (pe_write_ok p); [|done]. by rewrite Hl.
    + unfold first_answer in El. by rewrite El.
Qed.

Lemma turn_ok a c removed p : agent_ok a -> answers_ok p -> agent_ok (agent_turn a c removed p).
Proof.
  intros Ha Hp. rewrite agent_turn_spec by done. case_if; [|done]. destruct Ha as [Ht Hf].
  destruct (first_answer p) as [l|] eqn:El; [destruct (pe_write_ok p)|]; try (by destruct removed; split).
  split; [by apply (first_answer_token p)|done].
Qed.

(** Any number of turns. *)
Definition agent_turns (a : Agent) (ts : list (ConnectEnv * bool * ProvisionEnv)) : Agent :=
  foldl (fun a t => agent_turn a t.1.1 t.1.2 t.2) a ts.

(** from a start that did not end, whatever the network and the files do,
    the agent never runs without a token, and its state file never holds
    another identity than the one it uses. *)
Theorem agent_identity file p a ts : answers_ok p -> Forall (fun t => answers_ok t.2) ts ->
  agent_start file p = (ag_file a, Some a) -> agent_ok (agent_turns a ts).
Proof.
  intros Hp Hts Hs. assert (agent_ok a) as Ha.
  { unfold agent_start in Hs. destruct file as [| |s].
    1,2: rewrite provision_exec in Hs by done; destruct (head _) as [l|] eqn:E; [destruct (pe_write_ok p); [|done]|by injection Hs].
    1,2: rewrite (first_answer_token p l Hp E) in Hs; injection Hs as _ <-; by split; [apply (first_answer_token p)|].
    simpl in Hs. destruct (token_empty s) eqn:Et; [done|]. injection Hs as _ <-. by split. }
  clear Hs. revert a Ha. induction Hts as [|t ts Ht _ IH]; intros a Ha; [done|]. by apply IH, turn_ok.
Qed.

(** The hub's side of a hello that it does not know. *)
Definition rejects (h : Hub) (s : AgentState) : Prop := verify_agent (hub_db h) (as_agent_id s) (as_token s) = None.

(** C29: an identity the hub has lost heals itself: the hub closes the
    connection, the agent drops its state file and asks again for its MAC,
    and with the answer the hub's handler accepts its next hello. *)
Theorem agent_recovers (h h' : Hub) a c p mac id tok l peer addr :
  agent_ok a -> answers_ok p -> rejects h (ag_state a) ->
  ce_connects c = true -> ce_sends c = true -> ce_events c = [CloseFrame] ->
  get_or_create_laptop (hub_db h) mac id tok = Some (l, hub_db h') -> db_ok (hub_db h) ->
  first_answer p = Some l -> pe_write_ok p = true ->
  let a' := agent_turn a c true p in
  on_hello h peer (Text (Some (hello_of (ag_state a) addr))) = Done RClosed /\
  a' = {| ag_file := Saved (state_of_resp l); ag_state := state_of_resp l |} /\
  exists name, on_hello h' peer (Text (Some (hello_of (ag_state a') addr))) = AwConnId (lp_agent_id l) name (default peer addr).
Proof.
  intros Ha Hp Hr Hc Hs He Hg Hdb Hf Hw a'.
  assert (a' = {| ag_file := Saved (state_of_resp l); ag_state := state_of_resp l |}) as Ea.
  { subst a'. rewrite agent_turn_spec by done. unfold reprovisions, connect_once. rewrite Hc, Hs, He, Hf, Hw. reflexivity. }
  split_and!; [|done|].
  - simpl. unfold rejects in Hr. by rewrite Hr.
  - rewrite Ea. simpl. destruct (get_or_create_ok _ _ _ _ _ _ Hdb Hg) as (_ & _ & Hl & _).
    unfold verify_agent. destruct (list_find _ (laptops (hub_db h'))) as [[i x]|] eqn:E; [by eexists|].
    exfalso. apply list_find_None in E. rewrite Forall_forall in E. by apply (E l Hl).
Qed.

(** an error of the network while the agent waits for [HelloOk] counts as
    a rejection: the state file is deleted although the hub still knows the
    identity; if the hub then cannot be reached and the laptop restarts, the
    agent ends at once for want of a token. *)
Theorem hello_error_strands_agent a c p p' e es : agent_ok a -> answers_ok p ->
  ce_connects c = true -> ce_sends c = true -> ce_events c = StreamError e :: es ->
  first_answer p = None -> first_answer p' = None ->
  agent_turn a c true p = {| ag_file := NoFile; ag_state := ag_state a |} /\
  agent_start (ag_file (agent_turn a c true p)) p' = (NoFile, None).
Proof.
  intros Ha Hp Hc Hs He Hf Hf'.
  assert (agent_turn a c true p = {| ag_file := NoFile; ag_state := ag_state a |}) as E.
  { rewrite agent_turn_spec by done. unfold reprovisions, connect_once. rewrite Hc, Hs, He, Hf. reflexivity. }
  split; [done|]. rewrite E. unfold agent_start. rewrite provision_exec by done.
  unfold first_answer in Hf'. by rewrite Hf'.
Qed.

(** ** Waits *)

(** the wait for Tailscale ends: polls are half a second apart, so within
    a time-out of [n] half seconds [n + 1] polls are enough, and the answer is
    whether some poll before the deadline saw the connection. *)
Theorem wait_ready_terminates (n : nat) up elapsed :
  (forall k, 500000000 * Z.of_nat k <= elapsed k) ->
  exists b, wait_ready (S n) true up elapsed (500000000 * Z.of_nat n) = Some b /\
    (b = true <-> exists k, up k = true /\ forall j, (j < k)%nat -> elapsed j < 500000000 * Z.of_nat n).
Proof.
  intros Hel. unfold wait_ready.
  assert (forall m k, (m + k = S n)%nat -> (forall j, (j < k)%nat -> up j = false /\ elapsed j < 500000000 * Z.of_nat n) ->
    exists b, wait_ready_go m up elapsed (500000000 * Z.of_nat n) k = Some b /\
      (b = true <-> exists k, up k = true /\ forall j, (j < k)%nat -> elapsed j < 500000000 * Z.of_nat n)) as Hgo.
  { induction m as [|m IH]; intros k Hk Hj.
    - destruct (Hj n) as [_ H]; [lia|]. specialize (Hel n). lia.
    - cbn [wait_ready_go]. destruct (up k) eqn:Eu.
      + exists true. split; [done|]. split; [|done]. intros _. exists k. split; [done|]. intros j Hjk. by apply Hj.
      + destruct (_ <=? elapsed k) eqn:Et; bool_prop.
        * exists false. split; [done|]. split; [done|]. intros (k' & Hu & Hb).
          destruct (decide (k < k')%nat); [specialize (Hb k ltac:(lia)); lia|].
          destruct (decide (k' = k)) as [->|]; [congruence|]. destruct (Hj k') as [Hf _]; [lia|congruence].
        * apply IH; [lia|]. intros j Hlt. destruct (decide (j = k)) as [->|]; [done|]. apply Hj. lia. }
  apply Hgo; [lia|]. intros j. lia.
Qed.

Lemma wait_ready_terminates_witness :
  exists b, wait_ready 41 true (fun k => (30 <=? k)%nat) (fun k => 500000000 * Z.of_nat k) 20000000000 = Some b /\
    (b = true <-> exists k, (30 <=? k)%nat = true /\ forall j, (j < k)%nat -> 500000000 * Z.of_nat j < 20000000000).
Proof. apply (wait_ready_terminates 40 (fun k => (30 <=? k)%nat) (fun k => 500000000 * Z.of_nat k)). intros k. lia. Defined.

(** ** Commands and the status report *)

Lemma exec_run_id {M} (shell : M -> string -> M * (Output + string)) cua_call revive ensure_browser exe m req :
  res_id (exec_run shell cua_call revive ensure_browser exe m req).2 = cr_id req.
Proof.
  unfold exec_run, run_powershell, run_gui. destruct (cr_kind req) as [script|tool args].
  - by destruct (shell m script) as [m' [o|e]].
  - case_bool_decide; [by destruct (ensure_browser m)|]. destruct (cua_call m tool args) as [m' out].
    destruct (daemon_down out); [destruct (cua_call (revive m') tool args) as [m2 [o|e]]; done|]. by destruct out.
Qed.

Abbreviation mem_ge := (fun p q : ProcessInfo => pi_mem_bytes q <= pi_mem_bytes p).

Lemma insert_mem_perm p l : insert_mem p l ≡ₚ p :: l.
Proof.
  induction l as [|q l IH]; [done|]. cbn [insert_mem]. case_if; [done|]. rewrite IH. apply perm_swap.
Qed.

Lemma insert_mem_sorted p l : StronglySorted mem_ge l -> StronglySorted mem_ge (insert_mem p l).
Proof.
  induction 1 as [|q l Hl IH Hq]; [by repeat constructor|]. cbn [insert_mem]. case_if; bool_prop.
  - constructor; [by constructor|]. constructor; [lia|]. eapply Forall_impl; [exact Hq|]. simpl. lia.
  - constructor; [done|]. rewrite insert_mem_perm. by constructor.
Qed.

Lemma sort_mem_spec l : sort_mem l ≡ₚ l /\ StronglySorted mem_ge (sort_mem l).
Proof.
  unfold sort_mem. assert (forall acc, StronglySorted mem_ge acc ->
    foldl (fun acc p => insert_mem p acc) acc l ≡ₚ l ++ acc /\ StronglySorted mem_ge (foldl (fun acc p => insert_mem p acc) acc l)) as H.
  { induction l as [|p l IH]; intros acc Ha; [done|]. cbn [foldl]. destruct (IH (insert_mem p acc) (insert_mem_sorted p acc Ha)) as [Hp Hs].
    split; [|done]. rewrite Hp, insert_mem_perm. symmetry. apply Permutation_middle. }
  destruct (H [] (SSorted_nil _)) as [Hp Hs]. split; [|done]. by rewrite Hp, app_nil_r.
Qed.

(** the report carries at most 15 processes, in order of memory, and none
    that was left out uses more than one that is in. *)
Theorem top_processes_spec l : exists rest,
  l ≡ₚ top_processes l ++ rest /\ StronglySorted mem_ge (top_processes l) /\ (length (top_processes l) <= 15)%nat /\
  (rest <> [] -> length (top_processes l) = 15%nat) /\
  (forall p q, p ∈ top_processes l -> q ∈ rest -> pi_mem_bytes q <= pi_mem_bytes p).
Proof.
  destruct (sort_mem_spec l) as [Hp Hs]. exists (drop 15 (sort_mem l)). unfold top_processes. split_and!.
  - by rewrite take_drop.
  - rewrite <- (take_drop 15 (sort_mem l)) in Hs. by apply StronglySorted_app_1_l in Hs.
  - rewrite length_take. lia.
  - intros H. rewrite length_take. destruct (decide (15 <= length (sort_mem l))%nat); [lia|].
    rewrite drop_ge in H by lia. done.
  - intros p q Hp' Hq. rewrite <- (take_drop 15 (sort_mem l)) in Hs.
    by apply (StronglySorted_app_1_elem_of mem_ge _ _ p q Hs).
Qed.

(** ** Examples *)

Definition laptop_example : Laptop := mkLaptop 8 "aa" "student-01" "t8".
Definition agent_example : Agent := mkAgent (Saved (mkAgentState 7 "student-01" "t7")) (mkAgentState 7 "student-01" "t7").
Definition no_answers : ProvisionEnv := mkProvisionEnv [] true 1 2.

Lemma agent_identity_witness :
  agent_ok (agent_turns (mkAgent (Saved (state_of_resp laptop_example)) (state_of_resp laptop_example))
    [(mkConnectEnv true true [StreamError (str "reset")], true, no_answers)]).
Proof.
  apply (agent_identity NoFile (mkProvisionEnv [Some laptop_example] true 1 2)); [by repeat constructor|by repeat constructor|reflexivity].
Defined.



Lemma agent_recovers_witness : exists name,
  on_hello (hub_new (mkDb [laptop_example] [] 1)) "10.0.0.9"
    (Text (Some (hello_of (state_of_resp laptop_example) None))) = AwConnId 8 name "10.0.0.9".
Proof.
  destruct (agent_recovers (hub_new db_empty) (hub_new (mkDb [laptop_example] [] 1)) agent_example
    (mkConnectEnv true true [CloseFrame]) (mkProvisionEnv [Some laptop_example] true 1 2) "aa" 8 "t8" laptop_example
    "10.0.0.9" None) as (_ & _ & H); try reflexivity.
  - by split.
  - by repeat constructor.
  - split; [constructor..|by intros ? ?].
  - exact H.
Defined.

Lemma hello_error_strands_agent_witness :
  agent_start (ag_file (agent_turn agent_example (mkConnectEnv true true [StreamError (str "reset")]) true no_answers)) no_answers
  = (NoFile, None).
Proof.
  apply (hello_error_strands_agent agent_example (mkConnectEnv true true [StreamError (str "reset")]) no_answers no_answers
    (str "reset") []); try reflexivity; [by split|by constructor].
Defined.

(** An address outside 100.64.0.0/10 passes. *)
Example self_ip_example : self_ip true (Some (str "100.1.2.3")) = Some (str "100.1.2.3").
Proof. reflexivity. Qed.
