(* ===== verification/HubApi.v ===== *)
(** * The hub seen from its REST clients ([kmc-mcp/src/hub.rs] over
    [kmc-hub/src/routes.rs])

    [HubServer] is what a client needs of the hub: an operation per HTTP call
    and the set of tokens it accepts, with laws on both.  [hub_server]
    implements it by running the handlers of Hub.v.  [HubClient] caches a
    token and logs in again once when it is refused; its calls are small
    steps, so that any number of them can interleave. *)
From S2P Require Import Prelude Float HubState Hub Text Agent.

(** ** HTTP *)

Inductive ApiReq :=
| PostLogin (username password : string)
| GetAgents
| PostCommand (agent_id : Uuid) (req : CommandApiReq)
| PostSessionRequest (agent_id : Uuid)
| PostSessionRelease (agent_id : Uuid).

Record ApiCall := mkApiCall { bearer : option string; api_req : ApiReq }.

(** A response body, as the client's decoders see it. *)
Inductive Body :=
| BToken (token : option string)
| BAgents (l : list AgentView)
| BResult (r : CommandResult)
| BProvision (agent_id : Uuid) (name provision_token : string)
| BSession (token : string) (addr : option string)
| BText (text : string).

Inductive HttpReply := NoReply | Reply (code : Z) (body : Body).

Definition is_success (code : Z) : bool := (200 <=? code) && (code <? 300).
Definition UNAUTHORIZED : Z := 401.

(** [code] of [reply], 0 without one. *)
Definition code_of (r : HttpReply) : Z := match r with Reply c _ => c | NoReply => 0 end.

Definition authenticated (r : ApiReq) : bool := match r with PostLogin _ _ => false | _ => true end.

Class HubServer (S : Type) := {
  serve : S -> ApiCall -> S * HttpReply;
  valid : S -> string -> Prop;
  (** whether these credentials are an administrator's *)
  admits : S -> string -> string -> Prop
}.

Class HubServerLaws (S : Type) (H : HubServer S) : Prop := {
  serve_valid (s : S) (c : ApiCall) (t : string) : valid s t -> valid (serve s c).1 t;
  serve_admits (s : S) (c : ApiCall) (u p : string) : admits s u p -> admits (serve s c).1 u p;
  serve_login (s : S) (u p : string) : admits s u p ->
    exists t, (serve s (mkApiCall None (PostLogin u p))).2 = Reply 200 (BToken (Some t)) /\
              valid (serve s (mkApiCall None (PostLogin u p))).1 t;
  serve_authorised (s : S) (t : string) (r : ApiReq) : authenticated r = true -> valid s t ->
    code_of (serve s (mkApiCall (Some t) r)).2 <> UNAUTHORIZED;
  serve_refused (s : S) (t : string) (r : ApiReq) : authenticated r = true -> ~ valid s t ->
    exists b, serve s (mkApiCall (Some t) r) = (s, Reply UNAUTHORIZED b);
  serve_decides (s : S) (t : string) : valid s t \/ ~ valid s t
}.

(** ** The client *)

Inductive ApiError :=
| ETransport (what : string)
| EDecode (what : string)
| EMissingToken
| EStatus (what : string) (code : Z) (text : string).

Record Credentials := mkCredentials { cr_username : string; cr_password : string }.

(** [HubClient::from_env]; the environment is a function. *)
Definition from_env (var : string -> option string) : (text * Credentials) + string :=
  let base_url := trim_end_slash (str (default "http://127.0.0.1:8080"%string (var "KMC_HUB_URL"%string))) in
  match var "KMC_MCP_USER"%string with
  | None => inr "KMC_MCP_USER not set (hub admin username)"%string
  | Some u =>
      match var "KMC_MCP_PASSWORD"%string with
      | None => inr "KMC_MCP_PASSWORD not set (hub admin password)"%string
      | Some p => inl (base_url, mkCredentials u p)
      end
  end.

(** The client and the hub behind it; [w_log] is the traffic, oldest first. *)
Record World (S : Type) := mkWorld { w_server : S; w_token : option string; w_log : list (ApiCall * HttpReply) }.
Arguments mkWorld {S}.
Arguments w_server {S}.
Arguments w_token {S}.
Arguments w_log {S}.

(** What a call decodes its answer to. *)
Inductive ApiOk := OkAgents (l : list AgentView) | OkResult (r : CommandResult).

Definition send_what (r : ApiReq) : string :=
  match r with GetAgents => "list agents request" | _ => "run command request" end.

Definition body_text (b : Body) : string := match b with BText t => t | _ => EmptyString end.

(** The end of a call whose answer is not retried. *)
Definition finish (r : ApiReq) (code : Z) (b : Body) : ApiOk + ApiError :=
  match r with
  | GetAgents =>
      if negb (is_success code) then inr (EStatus "GET /agents failed" code EmptyString)
      else match b with BAgents l => inl (OkAgents l) | _ => inr (EDecode "decode agents") end
  | _ =>
      if negb (is_success code) then inr (EStatus "command failed" code (body_text b))
      else match b with BResult x => inl (OkResult x) | _ => inr (EDecode "decode command result") end
  end.

(** Where a call stands between two awaits. *)
Inductive Call :=
| CStart
| CLogin (attempt : nat)
| CSend (attempt : nat) (token : string)
| CDone (r : ApiOk + ApiError).

Section Client.
Context {S : Type} {HS : HubServer S} (cred : Credentials).

Definition api_exchange (w : World S) (c : ApiCall) : World S * HttpReply :=
  let '(s, r) := serve (w_server w) c in
  (mkWorld s (w_token w) (w_log w ++ [(c, r)]), r).

Definition login (w : World S) : World S * (string + ApiError) :=
  let '(w, r) := api_exchange w (mkApiCall None (PostLogin (cr_username cred) (cr_password cred))) in
  match r with
  | NoReply => (w, inr (ETransport "login request"))
  | Reply code b =>
      if negb (is_success code) then (w, inr (EStatus "hub login failed" code EmptyString))
      else match b with
           | BText _ => (w, inr (EDecode "decode login"))
           | BToken (Some t) => (mkWorld (w_server w) (Some t) (w_log w), inl t)
           | _ => (w, inr EMissingToken)
           end
  end.

(** [list_agents] and [run_req], one await at a time: [CStart] is [token()],
    [CLogin k] the login before attempt [k], [CSend k] attempt [k]. *)
Definition call_step (r : ApiReq) (w : World S) (c : Call) : World S * Call :=
  match c with
  | CStart => (w, match w_token w with Some t => CSend 0 t | None => CLogin 0 end)
  | CLogin k =>
      match login w with
      | (w, inl t) => (w, CSend k t)
      | (w, inr e) => (w, CDone (inr e))
      end
  | CSend k t =>
      match api_exchange w (mkApiCall (Some t) r) with
      | (w, NoReply) => (w, CDone (inr (ETransport (send_what r))))
      | (w, Reply code b) =>
          if (code =? UNAUTHORIZED) && (k =? 0)%nat then (w, CLogin 1)
          else (w, CDone (finish r code b))
      end
  | CDone x => (w, CDone x)
  end.

Fixpoint call_run (fuel : nat) (r : ApiReq) (w : World S) (c : Call) : World S * Call :=
  match fuel with
  | O => (w, c)
  | Datatypes.S fuel => let '(w, c) := call_step r w c in call_run fuel r w c
  end.

(** A call takes at most five steps. *)
Definition call (r : ApiReq) (w : World S) : World S * (ApiOk + ApiError) :=
  match call_run 5 r w CStart with
  | (w, CDone x) => (w, x)
  | (w, _) => (w, inr EMissingToken)
  end.

Definition list_agents (w : World S) : World S * (list AgentView + ApiError) :=
  match call GetAgents w with
  | (w, inl (OkAgents l)) => (w, inl l)
  | (w, inl _) => (w, inr (EDecode "decode agents"))
  | (w, inr e) => (w, inr e)
  end.

Definition run_req (agent_id : Uuid) (req : CommandApiReq) (w : World S) : World S * (CommandResult + ApiError) :=
  match call (PostCommand agent_id req) w with
  | (w, inl (OkResult x)) => (w, inl x)
  | (w, inl _) => (w, inr (EDecode "decode command result"))
  | (w, inr e) => (w, inr e)
  end.

Definition run_command (agent_id : Uuid) (script : string) (destructive : bool) : World S -> World S * (CommandResult + ApiError) :=
  run_req agent_id {| ca_script := script; ca_destructive := destructive; ca_kind := None |}.

Definition run_kind (agent_id : Uuid) (kind : CommandKind) (destructive : bool) : World S -> World S * (CommandResult + ApiError) :=
  run_req agent_id {| ca_script := EmptyString; ca_destructive := destructive; ca_kind := Some kind |}.
End Client.

(** ** The hub behind the interface *)

(** [util::random_hex], the random bytes given. *)
Definition hex_char (d : Z) : ascii := default "0"%char (str "0123456789abcdef" !! Z.to_nat d).
Definition random_hex (bytes : list Z) : string :=
  String.string_of_list_ascii (flat_map (fun b => [hex_char (Z.land (Z.shiftr b 4) 15); hex_char (Z.land b 15)]) bytes).

(** The HTTP status and body of a handler's answer. *)
Definition http_of (r : Response) : HttpReply :=
  match r with
  | ROk | RClosed => Reply 200 (BText EmptyString)
  | RUnauthorized what => Reply 401 (BText what)
  | RNotFound => Reply 404 (BText "unknown agent")
  | RConflict what => Reply 409 (BText what)
  | RForbidden => Reply 403 (BText "not the session owner")
  | RInternal what => Reply 500 (BText what)
  | RGatewayTimeout => Reply 504 (BText "command timed out")
  | RProvision l => Reply 200 (BProvision (lp_agent_id l) (lp_name l) (lp_token l))
  | RLogin t => Reply 200 (BToken (Some t))
  | RSession t addr => Reply 200 (BSession t addr)
  | RResult r => Reply 200 (BResult r)
  end.

(** The enrolment script; the environment is a function. *)
Definition enroll (var : string -> option string) (secret : string) : HttpReply :=
  let expected := default EmptyString (var "KMC_ENROLL_SECRET"%string) in
  if bool_decide (expected = EmptyString) || bool_decide (secret <> expected) then Reply 404 (BText "not found")
  else
    let authkey := default EmptyString (var "KMC_ENROLL_AUTHKEY"%string) in
    let hub_url := default "http://127.0.0.1:8080"%string (var "KMC_ENROLL_HUB_URL"%string) in
    let release_url := default "https://github.com/JungyoKim/kmcontrol/releases/latest/download/kmc-agent-bundle.zip"%string
                         (var "KMC_RELEASE_URL"%string) in
    let install_url := default "https://raw.githubusercontent.com/JungyoKim/kmcontrol/main/deploy/install.ps1"%string
                         (var "KMC_INSTALL_URL"%string) in
    let nl := String LF EmptyString in
    Reply 200 (BText ("$env:KMC_HUB_URL='" +:+ hub_url +:+ "'" +:+ nl +:+ "$env:KMC_TS_AUTHKEY='" +:+ authkey +:+ "'" +:+ nl
      +:+ "$env:KMC_RELEASE_URL='" +:+ release_url +:+ "'" +:+ nl +:+ "irm '" +:+ install_url +:+ "' | iex" +:+ nl)).

(** The hub, the machines behind it and the number of requests served. *)
Record HubWorld (M : Type) := mkHubWorld { hw_hub : Hub; hw_machines : M; hw_count : nat }.
Arguments mkHubWorld {M}.
Arguments hw_hub {M}.
Arguments hw_machines {M}.
Arguments hw_count {M}.

Section Instance.
Context (verify_password : string -> string -> bool) (id_text : Uuid -> string) (order : list Laptop -> list Laptop).
Context {M : Type} (agent : M -> Uuid -> CommandRequest -> M * option CommandResult).
Context (fresh_id : nat -> Uuid) (fresh_bytes : nat -> list Z).
Implicit Types (h : Hub) (w : HubWorld M).

(** A handler run through [inputs]; it stops where it cannot go on. *)
Fixpoint thread_run (tid : nat) (inputs : list Input) h (t : Thread) : Hub * Thread :=
  match inputs with
  | [] => (h, t)
  | i :: inputs =>
      match thread_step verify_password id_text tid h t i with
      | Some (h, t) => thread_run tid inputs h t
      | None => (h, t)
      end
  end.

Definition fresh w : Input := IFresh (fresh_id (hw_count w)) (random_hex (fresh_bytes (hw_count w))).

(** The extractor [AdminAuth]. *)
Definition admin_auth h (bearer : option string) : option string :=
  admin_from_token h (String.string_of_list_ascii (trim (str (default EmptyString bearer)))).

Definition answered (p : Hub * Thread) : HttpReply := match p.2 with Done r => http_of r | _ => NoReply end.

(** [run_command] with the agent's part: the command is executed on the
    machine and its result arrives over the agent's connection. *)
Definition serve_command w (agent_id : Uuid) (req : CommandApiReq) : HubWorld M * HttpReply :=
  match thread_run (hw_count w) [INone; fresh w; INone] (hw_hub w) (RcLookup agent_id req) with
  | (h, RcWait id) =>
      let cmd := {| cr_id := id; cr_kind := default (PowerShell (ca_script req)) (ca_kind req); cr_destructive := ca_destructive req |} in
      let '(m, result) := agent (hw_machines w) agent_id cmd in
      let '(h, wait) := match result with Some r => (deliver_result h r, INone) | None => (h, ITimeout) end in
      let p := thread_run (hw_count w) [wait] h (RcWait id) in
      (mkHubWorld p.1 m (Datatypes.S (hw_count w)), answered p)
  | p => (mkHubWorld p.1 (hw_machines w) (Datatypes.S (hw_count w)), answered p)
  end.

Definition serve_thread w (inputs : list Input) (t : Thread) : HubWorld M * HttpReply :=
  let p := thread_run (hw_count w) inputs (hw_hub w) t in
  (mkHubWorld p.1 (hw_machines w) (Datatypes.S (hw_count w)), answered p).

Definition hub_serve w (c : ApiCall) : HubWorld M * HttpReply :=
  match api_req c with
  | PostLogin u p => serve_thread w [INone; fresh w; INone] (LgVerify u p)
  | r =>
      match admin_auth (hw_hub w) (bearer c) with
      | None => (w, http_of (RUnauthorized "invalid or missing admin token"))
      | Some admin =>
          match r with
          | GetAgents => (w, Reply 200 (BAgents (snapshot (hw_hub w) order)))
          | PostCommand a req => serve_command w a req
          | PostSessionRequest a => serve_thread w ([INone; fresh w; INone] ++ replicate 4 INone) (SrKnown admin a)
          | PostSessionRelease a => serve_thread w (INone :: replicate 4 INone) (ReLock admin a)
          | PostLogin _ _ => (w, NoReply)
          end
      end
  end.

#[export] Instance hub_server : HubServer (HubWorld M) := {
  serve := hub_serve;
  valid w t := is_Some (admin_auth (hw_hub w) (Some t));
  admits w u p := is_Some (verify_admin verify_password (hub_db (hw_hub w)) u p)
}.

(** Tokens and credentials outlive every step of a handler but provisioning. *)
Definition keeps h h' : Prop :=
  hub_db h' = hub_db h /\ (forall t, is_Some (admin_names h !! t) -> is_Some (admin_names h' !! t)).

Lemma keeps_refl h : keeps h h.
Proof. split; auto. Qed.

Lemma keeps_trans h1 h2 h3 : keeps h1 h2 -> keeps h2 h3 -> keeps h1 h3.
Proof. intros [? ?] [? ?]. split; [congruence|auto]. Qed.

Lemma keeps_eq h h' : hub_db h' = hub_db h -> admin_names h' = admin_names h -> keeps h h'.
Proof. intros ? E. split; [done|]. by rewrite E. Qed.

Lemma deliver_keeps h r : keeps h (deliver_result h r).
Proof. unfold deliver_result. destruct (pending_cmds h !! res_id r); [by apply keeps_eq|apply keeps_refl]. Qed.

(** Handlers that are not about to provision never will be. *)
Fixpoint no_provision (t : Thread) : bool :=
  match t with PvProvision _ => false | Bcast _ _ next => no_provision next | _ => true end.

Lemma bcast_step_keeps h a st next : no_provision next = true ->
  keeps h (bcast_step id_text h a st next).1 /\ no_provision (bcast_step id_text h a st next).2 = true.
Proof.
  intros Hn. destruct st as [bare|name|name o stat|v]; cbn [bcast_step fst snd].
  - split; [apply keeps_refl|]. destruct (laptop_name _ _); [done|]. by destruct bare.
  - split; [apply keeps_refl|]. by destruct (online h !! a).
  - by split; [apply keeps_refl|].
  - by split; [apply keeps_eq|].
Qed.

Lemma thread_step_keeps tid h t i h' t' : no_provision t = true ->
  thread_step verify_password id_text tid h t i = Some (h', t') -> keeps h h' /\ no_provision t' = true.
Proof.
  intros Hp E. destruct t, i; try done; cbn [thread_step] in E.
  all: try (injection E as <- <-; split; [by apply keeps_eq|done]).
  - injection E as <- <-. unfold on_hello. split; [apply keeps_refl|].
    destruct f as [[[]|]| | | |]; try done. by destruct (verify_agent _ _ _).
  - injection E as <- <-. split; [apply keeps_refl|]. by destruct ok.
  - injection E as E. unfold on_agent_frame in E.
    destruct f as [[[]|]| | | |]; simplify_eq; try (split; [apply keeps_refl|done]).
    + split; [|by cbn; destruct (low_battery report)]. unfold store_status.
      by destruct (online h !! agent_id); [apply keeps_eq|apply keeps_refl].
    + split; [apply deliver_keeps|done].
  - unfold cleanup_online in E. destruct (online h !! agent_id) as [c|]; [destruct (conn_id c =? cid)|];
      injection E as <- <-; (split; [|done]); [by apply keeps_eq|apply keeps_refl..].
  - injection E as <- <-. split; [apply keeps_refl|]. by destruct (verify_admin _ _ _ _).
  - injection E as <- <-. split; [|done]. split; [done|]. intros t Ht. simpl.
    destruct (decide (t = token)) as [->|]; [rewrite lookup_insert_eq; eauto|by rewrite lookup_insert_ne].
  - injection E as <- <-. split; [apply keeps_refl|]. by destruct (laptop_name _ _).
  - injection E as E. unfold request_session in E. destruct (sessions h !! agent_id) as [s|]; [case_bool_decide|];
      injection E as <- <-; (split; [|done]); (by apply keeps_eq) || apply keeps_refl.
  - injection E as E. unfold release_session in E. destruct (sessions h !! agent_id) as [s|]; [case_bool_decide|];
      injection E as <- <-; (split; [|done]); (by apply keeps_eq) || apply keeps_refl.
  - injection E as <- <-. split; [apply keeps_refl|]. by destruct (online h !! agent_id).
  - injection E as E. unfold send_command in E. case_bool_decide; injection E as <- <-; (split; [|done]); by apply keeps_eq.
  - destruct (answer_for h tid); [|done]. injection E as <- <-. split; [apply keeps_refl|done].
  - injection E as E. pose proof (bcast_step_keeps h agent_id st t Hp) as H. by rewrite E in H.
Qed.

Lemma thread_run_keeps tid l h t : no_provision t = true -> keeps h (thread_run tid l h t).1.
Proof.
  revert h t. induction l as [|i l IH]; intros h t Hp; [apply keeps_refl|]. cbn [thread_run].
  destruct (thread_step _ _ _ _ _ _) as [[h' t']|] eqn:E; [|apply keeps_refl].
  apply thread_step_keeps in E as [Hk Hp']; [|done]. eapply keeps_trans; eauto.
Qed.

Lemma hex_char_plain d : is_whitespace (hex_char d) = false.
Proof.
  unfold hex_char. destruct (str "0123456789abcdef" !! Z.to_nat d) as [c|] eqn:E; [|done]. cbn [default].
  assert (forallb (fun c => negb (is_whitespace c)) (str "0123456789abcdef") = true) as H by reflexivity.
  rewrite forallb_forall in H. apply list_elem_of_lookup_2 in E. rewrite list_elem_of_In in E. apply H in E. by apply negb_true_iff in E.
Qed.

Lemma random_hex_trim b : String.string_of_list_ascii (trim (str (random_hex b))) = random_hex b.
Proof.
  unfold random_hex. rewrite String.list_ascii_of_string_of_list_ascii, trim_id; [done|].
  induction b as [|x b IH]; [done|]. simpl. by rewrite !hex_char_plain, IH.
Qed.

Lemma admin_auth_keeps h h' b : keeps h h' -> is_Some (admin_auth h b) -> is_Some (admin_auth h' b).
Proof. intros [_ H]. apply H. Qed.

Lemma serve_thread_keeps w l t : no_provision t = true -> keeps (hw_hub w) (hw_hub (serve_thread w l t).1).
Proof. apply thread_run_keeps. Qed.

Lemma serve_command_keeps w a req : keeps (hw_hub w) (hw_hub (serve_command w a req).1).
Proof.
  unfold serve_command. pose proof (thread_run_keeps (hw_count w) [INone; fresh w; INone] (hw_hub w) (RcLookup a req)) as Hk.
  destruct (thread_run _ _ _ _) as [h t]. specialize (Hk ltac:(done)). cbn [fst] in Hk. destruct t; try exact Hk.
  destruct (agent _ _ _) as [m [r|]]; cbn [fst hw_hub]; (eapply keeps_trans; [exact Hk|]).
  - eapply keeps_trans; [apply deliver_keeps|]. by apply thread_run_keeps.
  - by apply thread_run_keeps.
Qed.

Lemma hub_serve_keeps w c : keeps (hw_hub w) (hw_hub (hub_serve w c).1).
Proof.
  unfold hub_serve. destruct (api_req c); try (destruct (admin_auth _ _); [|apply keeps_refl]).
  all: (by apply serve_thread_keeps) || apply serve_command_keeps || apply keeps_refl.
Qed.

(** Only the login handler answers 401 by itself. *)
Fixpoint past_login (t : Thread) : bool :=
  match t with LgVerify _ _ | Done (RUnauthorized _) => false | Bcast _ _ next => past_login next | _ => true end.

Lemma step_past_login h tid t i h' t' :
  thread_step verify_password id_text tid h t i = Some (h', t') -> past_login t = true -> past_login t' = true.
Proof.
  intros E H. destruct t, i; try done; cbn [thread_step] in E; try (by injection E as <- <-).
  all: unfold on_hello, on_agent_frame, request_session, release_session, send_command, bcast_step in E.
  all: injection E as <- <- || injection E as E || idtac.
  all: repeat (case_match; simplify_eq; try done).
  all: cbn [past_login]; by repeat case_match.
Qed.

Lemma command_code h tid l t : past_login t = true -> code_of (answered (thread_run tid l h t)) <> UNAUTHORIZED.
Proof.
  revert h t. induction l as [|i l IH]; intros h t H; cbn [thread_run].
  - unfold answered. cbn [snd]. destruct t; try done. by destruct r.
  - destruct (thread_step _ _ _ _ _ _) as [[h' t']|] eqn:E; [eauto using step_past_login|].
    unfold answered. cbn [snd]. destruct t; try done. by destruct r.
Qed.

Lemma login_thread w u p id : verify_admin verify_password (hub_db (hw_hub w)) u p = Some id ->
  let t := random_hex (fresh_bytes (hw_count w)) in
  let w' := (hub_serve w (mkApiCall None (PostLogin u p))).1 in
  (hub_serve w (mkApiCall None (PostLogin u p))).2 = Reply 200 (BToken (Some t)) /\ admin_names (hw_hub w') !! t = Some u.
Proof.
  intros E. cbn zeta. unfold hub_serve, serve_thread. cbn [api_req thread_run thread_step fresh]. rewrite E.
  cbn [thread_run thread_step fresh]. split; [done|]. cbn. by rewrite lookup_insert_eq.
Qed.

#[export] Instance hub_server_laws : HubServerLaws (HubWorld M) hub_server.
Proof.
  split.
  - intros w c t. apply admin_auth_keeps, hub_serve_keeps.
  - intros w c u p. cbn [admits hub_server]. destruct (hub_serve_keeps w c) as [E _]. cbn [serve hub_server].
    by rewrite E.
  - intros w u p [id E]. destruct (login_thread w u p id E) as [Hr Hn]. eexists. split; [exact Hr|].
    change (is_Some (admin_names (hw_hub (hub_serve w (mkApiCall None (PostLogin u p))).1)
      !! String.string_of_list_ascii (trim (str (random_hex (fresh_bytes (hw_count w))))))).
    rewrite random_hex_trim. eauto.
  - intros w t r Hr [admin Ha]. cbn [serve hub_server valid] in *. unfold hub_serve. cbn [api_req bearer].
    destruct r; [done|rewrite Ha..]; try done.
    + unfold serve_command. pose proof (command_code (hw_hub w) (hw_count w) [INone; fresh w; INone] (RcLookup agent_id req)) as Hc.
      destruct (thread_run _ _ _ _) as [h t']. specialize (Hc eq_refl). destruct t'; try exact Hc.
      destruct (agent _ _ _) as [m [x|]]; by apply command_code.
    + by apply command_code.
    + by apply command_code.
  - intros w t r Hr Ha. cbn [serve hub_server valid] in *. unfold hub_serve. cbn [api_req bearer].
    apply eq_None_not_Some in Ha. destruct r; [done|rewrite Ha; by eexists..].
  - intros w t. cbn [valid hub_server]. destruct (admin_auth _ _); [left; eauto|right; by intros []].
Qed.
End Instance.

(** ** Calls, alone and interleaved *)

#[export] Instance command_kind_eq : EqDecision CommandKind.
Proof. solve_decision. Defined.
#[export] Instance command_api_req_eq : EqDecision CommandApiReq.
Proof. solve_decision. Defined.
#[export] Instance api_req_eq : EqDecision ApiReq.
Proof. solve_decision. Defined.

(** What the client makes of the reply it does not retry. *)
Definition outcome (r : ApiReq) (reply : HttpReply) : ApiOk + ApiError :=
  match reply with NoReply => inr (ETransport (send_what r)) | Reply code b => finish r code b end.

(** The requests selected by [P] that the hub did not refuse, with its
    replies. *)
Definition accepted (P : ApiReq -> bool) (log : list (ApiCall * HttpReply)) : list (ApiReq * HttpReply) :=
  omap (fun e => if P (api_req e.1) && authenticated (api_req e.1) && negb (code_of e.2 =? UNAUTHORIZED)
                 then Some (api_req e.1, e.2) else None) log.

Definition all_requests : ApiReq -> bool := fun _ => true.
Definition only (r : ApiReq) : ApiReq -> bool := fun q => bool_decide (q = r).

Lemma accepted_app P l l' : accepted P (l ++ l') = accepted P l ++ accepted P l'.
Proof. apply omap_app. Qed.

Lemma accepted_skip P c rep : P (api_req c) && authenticated (api_req c) && negb (code_of rep =? UNAUTHORIZED) = false ->
  accepted P [(c, rep)] = [].
Proof. intros H. unfold accepted. cbn [omap list_omap fst snd]. by rewrite H. Qed.

Definition rank (c : Call) : nat :=
  match c with
  | CStart => 5
  | CLogin k => if (k =? 0)%nat then 4 else 2
  | CSend k _ => if (k =? 0)%nat then 3 else 1
  | CDone _ => 0
  end.

(** Several calls in flight over one client; the schedule says whose turn it
    is. *)
Section Fan.
Context {S : Type} {HS : HubServer S} (cred : Credentials).

Fixpoint fan_run (reqs : list ApiReq) (schedule : list nat) (w : World S) (cs : list Call) : World S * list Call :=
  match schedule with
  | [] => (w, cs)
  | i :: schedule =>
      match reqs !! i, cs !! i with
      | Some r, Some c => let '(w, c) := call_step cred r w c in fan_run reqs schedule w (<[i := c]> cs)
      | _, _ => fan_run reqs schedule w cs
      end
  end.

Definition fan_start (reqs : list ApiReq) : list Call := map (fun _ => CStart) reqs.

(** [join_all]: the results, in the order of the requests. *)
Definition joined (cs : list Call) : list (ApiOk + ApiError) :=
  omap (fun c => match c with CDone x => Some x | _ => None end) cs.

Lemma api_exchange_log (w : World S) c :
  (api_exchange w c).1 = mkWorld (serve (w_server w) c).1 (w_token w) (w_log w ++ [(c, (serve (w_server w) c).2)]).
Proof. unfold api_exchange. by destruct (serve (w_server w) c). Qed.

Lemma api_exchange_reply (w : World S) c : (api_exchange w c).2 = (serve (w_server w) c).2.
Proof. unfold api_exchange. by destruct (serve (w_server w) c). Qed.

Lemma call_step_rank r (w : World S) c : (rank (call_step cred r w c).2 <= rank c - 1)%nat.
Proof.
  destruct c as [|k|k t|x]; cbn [call_step].
  - destruct (w_token w); simpl; lia.
  - destruct (login cred w) as [w' [t|e]]; cbn [snd rank]; [|lia]. by destruct (k =? 0)%nat eqn:E; simpl; lia.
  - destruct (api_exchange _ _) as [w' [|code b]]; cbn [snd rank]; [lia|]. destruct ((code =? UNAUTHORIZED) && (k =? 0)%nat) eqn:E.
    + bool_prop. subst k. cbn. lia.
    + cbn. lia.
  - simpl. lia.
Qed.

Lemma fan_run_length reqs sch (w : World S) cs : length (fan_run reqs sch w cs).2 = length cs.
Proof.
  revert w cs. induction sch as [|i sch IH]; intros w cs; [done|]. cbn [fan_run].
  destruct (reqs !! i), (cs !! i); try apply IH. destruct (call_step _ _ _ _) as [w' c']. rewrite IH. apply length_insert.
Qed.

Lemma fan_run_rank reqs sch (w : World S) cs i r c :
  reqs !! i = Some r -> cs !! i = Some c ->
  exists c', (fan_run reqs sch w cs).2 !! i = Some c' /\ (rank c' <= rank c - count_occ Nat.eq_dec sch i)%nat.
Proof.
  intros Hr. revert w cs c. induction sch as [|j sch IH]; intros w cs c Hc; [exists c; simpl; split; [done|lia]|].
  cbn [fan_run count_occ]. destruct (Nat.eq_dec j i) as [->|Hne].
  - rewrite Hr, Hc. pose proof (call_step_rank r w c) as Hk. destruct (call_step _ _ _ _) as [w' c'].
    destruct (IH w' (<[i:=c']> cs) c') as (d & Hd & Hle).
    { apply list_lookup_insert_eq. by eapply lookup_lt_Some. }
    exists d. split; [done|]. simpl in Hk. lia.
  - destruct (reqs !! j), (cs !! j); try by apply IH. destruct (call_step _ _ _ _) as [w' c'].
    apply IH. by rewrite list_lookup_insert_ne.
Qed.

(** Every call ends after five of its own turns. *)
Lemma fan_run_done reqs sch (w : World S) i r :
  reqs !! i = Some r -> (5 <= count_occ Nat.eq_dec sch i)%nat ->
  exists x, (fan_run reqs sch w (fan_start reqs)).2 !! i = Some (CDone x).
Proof.
  intros Hr Hn. destruct (fan_run_rank reqs sch w (fan_start reqs) i r CStart Hr) as (c & Hc & Hle).
  { unfold fan_start. rewrite list_lookup_fmap. by rewrite Hr. }
  simpl in Hle. destruct c as [|k|k t|x]; [simpl in Hle; lia|cbn in Hle; destruct (k =? 0)%nat; lia..|by exists x].
Qed.

Context {HL : HubServerLaws S _}.

Record client_ok (w : World S) : Prop := {
  ck_admits : admits (w_server w) (cr_username cred) (cr_password cred)
}.

(** Where call [r] stands, against what the hub has accepted of the requests
    [P] since the log was [l0]. *)
Definition call_ok (P : ApiReq -> bool) (l0 : list (ApiCall * HttpReply)) (r : ApiReq) (w : World S) (c : Call) : Prop :=
  match c with
  | CStart | CLogin _ => accepted P (w_log w) = accepted P l0
  | CSend k t => accepted P (w_log w) = accepted P l0 /\ (k <> 0%nat -> valid (w_server w) t)
  | CDone x => exists reply, accepted P (w_log w) = accepted P l0 ++ [(r, reply)] /\ x = outcome r reply
  end.

Lemma login_spec (w : World S) : client_ok w -> exists t rep,
  login cred w = (mkWorld (serve (w_server w) (mkApiCall None (PostLogin (cr_username cred) (cr_password cred)))).1
                    (Some t) (w_log w ++ [(mkApiCall None (PostLogin (cr_username cred) (cr_password cred)), rep)]), inl t) /\
  valid (serve (w_server w) (mkApiCall None (PostLogin (cr_username cred) (cr_password cred)))).1 t.
Proof.
  intros [Ha]. destruct (serve_login _ _ _ Ha) as (t & Hr & Hv).
  exists t, (Reply 200 (BToken (Some t))). split; [|done]. unfold login.
  destruct (api_exchange w _) as [w' rep] eqn:E. pose proof (api_exchange_log w (mkApiCall None (PostLogin (cr_username cred) (cr_password cred)))) as H1.
  pose proof (api_exchange_reply w (mkApiCall None (PostLogin (cr_username cred) (cr_password cred)))) as H2.
  rewrite E in H1, H2. cbn [fst snd] in H1, H2. subst w' rep. rewrite Hr. reflexivity.
Qed.

Lemma call_step_server r (w : World S) c :
  (call_step cred r w c).1 = w \/
  exists k rep tok, (call_step cred r w c).1 = mkWorld (serve (w_server w) k).1 tok (w_log w ++ [(k, rep)]) /\
    (authenticated (api_req k) = false \/ api_req k = r).
Proof.
  destruct c as [|k|k t|x]; cbn [call_step]; [by left| | |by left]; right.
  - unfold login. destruct (api_exchange w _) as [w' rep] eqn:E.
    pose proof (api_exchange_log w (mkApiCall None (PostLogin (cr_username cred) (cr_password cred)))) as H1. rewrite E in H1.
    cbn [fst] in H1. subst w'.
    destruct rep as [|code b]; [eexists _, _, _; split; [reflexivity|by left]|].
    destruct (negb _); [eexists _, _, _; split; [reflexivity|by left]|]. destruct b as [[]| | | | |]; (eexists _, _, _; split; [reflexivity|by left]).
  - destruct (api_exchange w _) as [w' rep] eqn:E. pose proof (api_exchange_log w (mkApiCall (Some t) r)) as H1. rewrite E in H1.
    cbn [fst] in H1. subst w'.
    destruct rep as [|code b]; [eexists _, _, _; split; [reflexivity|by right]|].
    destruct (_ && _); (eexists _, _, _; split; [reflexivity|by right]).
Qed.

Lemma call_step_client_ok r (w : World S) c : client_ok w -> client_ok (call_step cred r w c).1.
Proof.
  intros [Ha]. destruct (call_step_server r w c) as [->|(k & rep & tok & -> & _)]; [done|].
  split. by apply serve_admits.
Qed.

(** A step of one call leaves the others where they stand. *)
Lemma call_step_accepted P r (w : World S) c : P r = false -> accepted P (w_log (call_step cred r w c).1) = accepted P (w_log w).
Proof.
  intros Hp. destruct (call_step_server r w c) as [->|(k & rep & tok & -> & Hk)]; [done|].
  cbn [w_log]. rewrite accepted_app, accepted_skip, app_nil_r; [done|].
  destruct Hk as [->| ->]; [by rewrite andb_false_r|by rewrite Hp].
Qed.

Lemma call_step_frame P l0 r r' (w : World S) c c' : P r = false ->
  call_ok P l0 r' w c' -> call_ok P l0 r' (call_step cred r w c).1 c'.
Proof.
  intros Hp Hok. pose proof (call_step_accepted P r w c Hp) as E.
  destruct c'; cbn [call_ok] in *; rewrite E; try done. destruct Hok as [Hl Hv]. split; [done|]. intros Hn. specialize (Hv Hn).
  destruct (call_step_server r w c) as [->|(k & rep & tok & -> & Hk)]; [done|]. by apply serve_valid.
Qed.

Lemma call_step_ok P l0 r (w : World S) c : P r = true -> authenticated r = true -> client_ok w ->
  call_ok P l0 r w c -> call_ok P l0 r (call_step cred r w c).1 (call_step cred r w c).2.
Proof.
  intros Hp Ha Hc Hok. destruct c as [|k|k t|x]; cbn [call_step call_ok] in *.
  - destruct (w_token w); cbn [fst snd call_ok]; [split; [done|by intros []]|done].
  - destruct (login_spec w Hc) as (t & rep & -> & Hv). cbn [fst snd call_ok w_log w_server].
    rewrite accepted_app, Hok, accepted_skip, app_nil_r by (cbn; by rewrite andb_false_r). by split.
  - destruct Hok as [Hl Hv]. destruct (api_exchange w _) as [w' rep] eqn:E.
    pose proof (api_exchange_log w (mkApiCall (Some t) r)) as H1. pose proof (api_exchange_reply w (mkApiCall (Some t) r)) as H2.
    rewrite E in H1, H2. cbn [fst snd] in H1, H2. subst w' rep.
    destruct (serve_decides (w_server w) t) as [Hval|Hinv].
    + pose proof (serve_authorised (w_server w) t r Ha Hval) as Hn. apply Z.eqb_neq in Hn.
      assert (accepted P (w_log w ++ [(mkApiCall (Some t) r, (serve (w_server w) (mkApiCall (Some t) r)).2)])
              = accepted P l0 ++ [(r, (serve (w_server w) (mkApiCall (Some t) r)).2)]) as Hacc.
      { rewrite accepted_app, Hl. f_equal. unfold accepted. cbn [omap list_omap fst snd api_req]. by rewrite Hp, Ha, Hn. }
      destruct (serve (w_server w) _) as [s' [|code b]]; cbn [snd code_of] in *; [by eexists|]. rewrite Hn. by eexists.
    + destruct (decide (k = 0%nat)) as [->|Hk]; [|by destruct Hinv; apply Hv].
      destruct (serve_refused (w_server w) t r Ha Hinv) as [b Hb]. rewrite Hb in *. cbn [fst snd].
      unfold UNAUTHORIZED in *. rewrite Z.eqb_refl. cbn [andb Nat.eqb call_ok fst snd w_log].
      rewrite accepted_app, Hl, accepted_skip, app_nil_r; [done|]. cbn [code_of snd]. by rewrite andb_false_r.
  - done.
Qed.

(** Calls over distinct requests, in any order of their steps. *)
Lemma fan_run_ok l0 reqs sch (w : World S) cs :
  NoDup reqs -> Forall (fun r => authenticated r = true) reqs -> client_ok w ->
  (forall i r c, reqs !! i = Some r -> cs !! i = Some c -> call_ok (only r) l0 r w c) ->
  client_ok (fan_run reqs sch w cs).1 /\
  (forall i r c, reqs !! i = Some r -> (fan_run reqs sch w cs).2 !! i = Some c -> call_ok (only r) l0 r (fan_run reqs sch w cs).1 c).
Proof.
  intros Hnd Ha. revert w cs. induction sch as [|j sch IH]; intros w cs Hc Hok; [done|]. cbn [fan_run].
  destruct (reqs !! j) as [r|] eqn:Hr, (cs !! j) as [c|] eqn:Hcj; try by apply IH.
  pose proof (call_step_client_ok r w c Hc) as Hc'.
  assert (authenticated r = true) as Har by (rewrite Forall_forall in Ha; by eapply Ha, list_elem_of_lookup_2).
  pose proof (call_step_ok (only r) l0 r w c (bool_decide_eq_true_2 _ eq_refl) Har Hc (Hok _ _ _ Hr Hcj)) as Hown.
  pose proof (fun r' c' => call_step_frame (only r') l0 r r' w c c') as Hframe.
  destruct (call_step cred r w c) as [w' c'] eqn:E. cbn [fst snd] in *. apply IH; [done|].
  intros i r' d Hr' Hd. destruct (decide (i = j)) as [->|Hij].
  - rewrite list_lookup_insert_eq in Hd by by eapply lookup_lt_Some. by simplify_eq.
  - rewrite list_lookup_insert_ne in Hd by done. apply Hframe; [|by eapply Hok].
    apply bool_decide_eq_false. intros ->. by apply Hij, (NoDup_lookup reqs i j r').
Qed.

(** Nothing but the given requests is sent, logins apart. *)
Lemma fan_run_accepted P reqs sch (w : World S) cs : Forall (fun r => P r = false) reqs ->
  accepted P (w_log (fan_run reqs sch w cs).1) = accepted P (w_log w).
Proof.
  intros Hp. revert w cs. induction sch as [|j sch IH]; intros w cs; [done|]. cbn [fan_run].
  destruct (reqs !! j) as [r|] eqn:Hr, (cs !! j) as [c|]; try by apply IH.
  pose proof (call_step_accepted P r w c) as H. destruct (call_step cred r w c) as [w' c']. rewrite IH. apply H.
  rewrite Forall_forall in Hp. by eapply Hp, list_elem_of_lookup_2.
Qed.

Lemma call_run_ok P l0 r fuel (w : World S) c : P r = true -> authenticated r = true -> client_ok w -> call_ok P l0 r w c ->
  client_ok (call_run cred fuel r w c).1 /\ call_ok P l0 r (call_run cred fuel r w c).1 (call_run cred fuel r w c).2.
Proof.
  intros Hp Ha. revert w c. induction fuel as [|fuel IH]; intros w c Hc Hok; [done|]. cbn [call_run].
  pose proof (call_step_client_ok r w c Hc) as H1. pose proof (call_step_ok P l0 r w c Hp Ha Hc Hok) as H2.
  destruct (call_step cred r w c) as [w' c']. by apply IH.
Qed.

Lemma call_run_rank r fuel (w : World S) c : (rank (call_run cred fuel r w c).2 <= rank c - fuel)%nat.
Proof.
  revert w c. induction fuel as [|fuel IH]; intros w c; [simpl; lia|]. cbn [call_run].
  pose proof (call_step_rank r w c) as H. destruct (call_step cred r w c) as [w' c'].
  specialize (IH w' c'). simpl in H. lia.
Qed.

(** A call ends with the hub's answer to the one request it accepted. *)
Lemma call_spec r (w : World S) : authenticated r = true -> client_ok w ->
  client_ok (call cred r w).1 /\
  exists reply, accepted all_requests (w_log (call cred r w).1) = accepted all_requests (w_log w) ++ [(r, reply)] /\
    (call cred r w).2 = outcome r reply.
Proof.
  intros Ha Hc. unfold call.
  pose proof (call_run_ok all_requests (w_log w) r 5 w CStart eq_refl Ha Hc eq_refl) as [H1 H2].
  pose proof (call_run_rank r 5 w CStart) as H3. destruct (call_run cred 5 r w CStart) as [w' c]. cbn [fst snd] in *.
  split; [by destruct c|]. destruct c as [|k|k t|x]; [simpl in H3; lia|cbn in H3; destruct (k =? 0)%nat; lia..|done].
Qed.

Lemma run_req_spec a req (w : World S) : client_ok w ->
  client_ok (run_req cred a req w).1 /\
  exists reply,
    accepted all_requests (w_log (run_req cred a req w).1) = accepted all_requests (w_log w) ++ [(PostCommand a req, reply)] /\
    (run_req cred a req w).2 = match outcome (PostCommand a req) reply with
                               | inl (OkResult x) => inl x
                               | inl _ => inr (EDecode "decode command result")
                               | inr e => inr e
                               end.
Proof.
  intros Hc. unfold run_req. destruct (call_spec (PostCommand a req) w eq_refl Hc) as (H1 & reply & H2 & H3).
  destruct (call cred (PostCommand a req) w) as [w' [[l|x]|e]]; cbn [fst snd] in *; (split; [done|]); exists reply;
    (split; [done|]); by rewrite <- H3.
Qed.

(** The same, down to the server: an invariant of it that logins keep holds
    when the request is served. *)
Lemma send_valid r (w : World S) k t : authenticated r = true -> valid (w_server w) t ->
  call_step cred r w (CSend k t)
  = ((api_exchange w (mkApiCall (Some t) r)).1, CDone (outcome r (serve (w_server w) (mkApiCall (Some t) r)).2)).
Proof.
  intros Ha Hv. cbn [call_step]. pose proof (serve_authorised _ _ _ Ha Hv) as Hn. rewrite <- api_exchange_reply in *.
  destruct (api_exchange w _) as [w' [|code b]]; [done|]. cbn [snd code_of] in Hn. by rewrite (proj2 (Z.eqb_neq _ _) Hn).
Qed.

Definition served (I : S -> Prop) (r : ApiReq) (p : World S * Call) : Prop :=
  exists s t, I s /\ valid s t /\ w_server p.1 = (serve s (mkApiCall (Some t) r)).1 /\
    p.2 = CDone (outcome r (serve s (mkApiCall (Some t) r)).2).

Lemma send_served (I : S -> Prop) r fuel k t (w : World S) : authenticated r = true -> I (w_server w) -> valid (w_server w) t ->
  served I r (call_run cred (Datatypes.S fuel) r w (CSend k t)).
Proof.
  intros Ha Hi Hv. exists (w_server w), t. cbn [call_run]. rewrite send_valid by done.
  assert (forall n (u : World S) x, call_run cred n r u (CDone x) = (u, CDone x)) as Hd by (by intros n; induction n).
  by rewrite Hd, api_exchange_log.
Qed.

Lemma login_served (I : S -> Prop) r fuel k (w : World S) : authenticated r = true -> client_ok w ->
  (forall s u p, I s -> I (serve s (mkApiCall None (PostLogin u p))).1) -> I (w_server w) ->
  served I r (call_run cred (Datatypes.S (Datatypes.S fuel)) r w (CLogin k)).
Proof.
  intros Ha Hc HI Hi. destruct (login_spec w Hc) as (t & rep & E & Hv).
  remember (Datatypes.S fuel) as f eqn:Ef. cbn [call_run call_step]. rewrite E. subst f. apply send_served; [done|by apply HI|done].
Qed.

Lemma call_served (I : S -> Prop) r (w : World S) : authenticated r = true -> client_ok w ->
  (forall s u p, I s -> I (serve s (mkApiCall None (PostLogin u p))).1) -> I (w_server w) ->
  exists s t, I s /\ valid s t /\ w_server (call cred r w).1 = (serve s (mkApiCall (Some t) r)).1 /\
    (call cred r w).2 = outcome r (serve s (mkApiCall (Some t) r)).2.
Proof.
  intros Ha Hc HI Hw.
  assert (served I r (call_run cred 5 r w CStart)) as (s & t & ? & ? & E1 & E2).
  { change (call_run cred 5 r w CStart) with (call_run cred 4 r w (match w_token w with Some t => CSend 0 t | None => CLogin 0 end)).
    destruct (w_token w) as [t|]; [|by apply login_served].
    destruct (serve_decides (w_server w) t) as [Hv|Hv]; [by apply send_served|].
    destruct (serve_refused (w_server w) t r Ha Hv) as [b Hb].
    change (call_run cred 4 r w (CSend 0 t)) with (let '(w, c) := call_step cred r w (CSend 0 t) in call_run cred 3 r w c).
    cbn [call_step]. pose proof (api_exchange_log w (mkApiCall (Some t) r)) as Hx.
    pose proof (api_exchange_reply w (mkApiCall (Some t) r)) as Hy. destruct (api_exchange w _) as [w' rep]. cbn [fst snd] in Hx, Hy. subst w' rep.
    rewrite Hb. cbn [fst snd]. change (served I r (call_run cred 3 r (mkWorld (w_server w) (w_token w) (w_log w ++ [(mkApiCall (Some t) r, Reply UNAUTHORIZED b)])) (CLogin 1))).
    apply login_served; [done| |done..]. split. apply Hc. }
  exists s, t. split_and!; [done..| |]; unfold call; destruct (call_run cred 5 r w CStart) as [w' c]; cbn [fst snd] in *; by subst c.
Qed.
End Fan.
