(* ===== verification/Service.v ===== *)
(** * The hub as a process: command line, routing table and extractors
    ([kmc-hub/src/main.rs], with [AdminAuth] of [routes.rs] and the two
    WebSocket handlers)

    The routing table decides which handler of Hub.v a request reaches; the
    handlers run one after the other, as in HubApi.v.  clap, axum's path
    matching and serde are libraries: the command line and the path arrive
    parsed, the decoders of a JSON body are the class [JsonBodies]. *)
From Stdlib Require Import Floats.SpecFloat.
From S2P Require Import Prelude Float HubState Hub Text HubApi.

(** ** Command line *)

Inductive AdminCmd := AdminAdd (username password : string).
Inductive HubCmd := Serve | Admin (cmd : AdminCmd).

Definition db_path (var : string -> option string) : string := default "hub.db"%string (var "KMC_HUB_DB"%string).
Definition listen_addr (var : string -> option string) : string :=
  default "0.0.0.0:8080"%string (var "KMC_HUB_ADDR"%string).

(** What a run of the program leaves: the listening hub, or its exit. *)
Inductive HubRun := Listening (addr : string) (h : Hub) | Exited (ok : bool).

(** The database files, by path; opening creates one with its schema. *)
Definition db_open (files : gmap string Db) (path : string) : Db := default db_empty (files !! path).

Section Main.
Context (hash_password : string -> string) (var : string -> option string) (bind_ok : string -> bool).

Definition hub_run_serve (files : gmap string Db) : gmap string Db * HubRun :=
  let path := db_path var in
  let db := db_open files path in
  (<[path := db]> files,
   if bind_ok (listen_addr var) then Listening (listen_addr var) (hub_new db) else Exited false).

Definition hub_main (cmd : option HubCmd) (files : gmap string Db) : gmap string Db * HubRun :=
  match default Serve cmd with
  | Serve => hub_run_serve files
  | Admin (AdminAdd username password) =>
      let path := db_path var in
      let db := db_open files path in
      match add_admin hash_password db username password with
      | Some db => (<[path := db]> files, Exited true)
      | None => (<[path := db]> files, Exited false)
      end
  end.
End Main.

(** ** Requests *)

Class JsonBodies := {
  JBody : Type;
  as_provision : JBody -> option string;
  as_login : JBody -> option (string * string);
  as_session : JBody -> option Uuid;
  as_command : JBody -> option CommandApiReq
}.

Inductive HubMethod := GET | HEAD | POST | OPTIONS | OtherMethod.

Record HubRequest `{J : JsonBodies} := mkHubRequest {
  rq_method : HubMethod;
  rq_path : list string;
  rq_authorization : option string;
  rq_token : option string;   (** [?token=] *)
  rq_upgrade : bool;          (** a WebSocket upgrade *)
  rq_peer : string;
  rq_body : option JBody
}.

Inductive Handler :=
| HProvision | HEnroll (secret : string) | HLogin | HAgents | HSessionRequest | HSessionRelease
| HCommand (id : string) | HAgentWs | HAdminWs.

(** The routing table: whether the route is a [get], and its handler. *)
Definition hub_route (path : list string) : option (bool * Handler) :=
  match path with
  | [a] =>
      if bool_decide (a = "provision"%string) then Some (false, HProvision)
      else if bool_decide (a = "agents"%string) then Some (true, HAgents) else None
  | [a; b] =>
      if bool_decide (a = "enroll"%string /\ b <> EmptyString) then Some (true, HEnroll b)
      else if bool_decide (a = "auth"%string /\ b = "login"%string) then Some (false, HLogin)
      else if bool_decide (a = "session"%string /\ b = "request"%string) then Some (false, HSessionRequest)
      else if bool_decide (a = "session"%string /\ b = "release"%string) then Some (false, HSessionRelease)
      else if bool_decide (a = "agent"%string /\ b = "ws"%string) then Some (true, HAgentWs)
      else if bool_decide (a = "admin"%string /\ b = "ws"%string) then Some (true, HAdminWs) else None
  | [a; b; c] =>
      if bool_decide (a = "agents"%string /\ c = "command"%string /\ b <> EmptyString) then Some (false, HCommand b) else None
  | _ => None
  end.

Definition method_fits (get : bool) (m : HubMethod) : bool :=
  match m, get with GET, true | HEAD, true | POST, false => true | _, _ => false end.

(** [Authorization: Bearer ..], not yet trimmed. *)
Definition bearer_of (header : option string) : option string :=
  h <-? header;
  if starts_with (str "Bearer ") (str h) then Some (String.string_of_list_ascii (drop 7 (str h))) else None.

(** An answer, or a socket handed to its handler. *)
Inductive Served := SReply (r : HttpReply) | SAgentSocket (t : Thread) | SAdminSocket (token : string).

Section Dispatch.
Context (verify_password : string -> string -> bool) (id_text : Uuid -> string) (order : list Laptop -> list Laptop).
Context {M : Type} (agent : M -> Uuid -> CommandRequest -> M * option CommandResult).
Context (fresh_id : nat -> Uuid) (fresh_bytes : nat -> list Z).
Context (var : string -> option string) (parse_uuid : string -> option Uuid).
Context `{J : JsonBodies}.
Implicit Types (w : HubWorld M) (r : HubRequest).

Abbreviation serve_api := (hub_serve verify_password id_text order agent fresh_id fresh_bytes).

Definition refuse w (code : Z) (what : string) : HubWorld M * Served := (w, SReply (Reply code (BText what))).

(** The extractor runs before the path and the body are looked at. *)
Definition with_admin w r (k : HubWorld M * Served) : HubWorld M * Served :=
  match admin_auth (hw_hub w) (bearer_of (rq_authorization r)) with
  | None => (w, SReply (http_of (RUnauthorized "invalid or missing admin token")))
  | Some _ => k
  end.

Definition serve_as_admin w r (q : ApiReq) : HubWorld M * Served :=
  let '(w, a) := serve_api w (mkApiCall (bearer_of (rq_authorization r)) q) in (w, SReply a).

(** [Json<T>] *)
Definition decoded {A} (d : JBody -> option A) r : option A := b <-? rq_body r; d b.

Definition handle w r (h : Handler) : HubWorld M * Served :=
  match h with
  | HProvision =>
      match decoded as_provision r with
      | None => refuse w 422 "body"
      | Some mac =>
          let '(w, a) := serve_thread verify_password id_text w [fresh fresh_id fresh_bytes w] (PvProvision mac) in
          (w, SReply a)
      end
  | HEnroll secret => (w, SReply (enroll var secret))
  | HLogin =>
      match decoded as_login r with
      | None => refuse w 422 "body"
      | Some (u, p) => let '(w, a) := serve_api w (mkApiCall None (PostLogin u p)) in (w, SReply a)
      end
  | HAgents => with_admin w r (serve_as_admin w r GetAgents)
  | HSessionRequest =>
      with_admin w r (match decoded as_session r with
                      | None => refuse w 422 "body"
                      | Some a => serve_as_admin w r (PostSessionRequest a)
                      end)
  | HSessionRelease =>
      with_admin w r (match decoded as_session r with
                      | None => refuse w 422 "body"
                      | Some a => serve_as_admin w r (PostSessionRelease a)
                      end)
  | HCommand id =>
      with_admin w r (match parse_uuid id, decoded as_command r with
                      | None, _ => refuse w 400 "path"
                      | _, None => refuse w 422 "body"
                      | Some a, Some c => serve_as_admin w r (PostCommand a c)
                      end)
  | HAgentWs => if rq_upgrade r then (w, SAgentSocket (AwHello (rq_peer r))) else refuse w 400 "upgrade"
  | HAdminWs =>
      if rq_upgrade r then
        match rq_token r with Some t => (w, SAdminSocket t) | None => refuse w 400 "query" end
      else refuse w 400 "upgrade"
  end.

(** The whole service; the permissive CORS layer answers every [OPTIONS]. *)
Definition hub_dispatch w r : HubWorld M * Served :=
  match rq_method r with
  | OPTIONS => (w, SReply (Reply 200 (BText EmptyString)))
  | m =>
      match hub_route (rq_path r) with
      | None => refuse w 404 EmptyString
      | Some (get, h) => if method_fits get m then handle w r h else refuse w 405 EmptyString
      end
  end.
End Dispatch.

(** ** Without a token *)

(** What only an administrator or a connected laptop may change. *)
Definition controls (h : Hub) :=
  (online h, agent_addr h, sessions h, pending_cmds h, outbox h, (answers h, broadcasts h, open_channels h, next_conn_id h)).

Section Properties.
Context (verify_password : string -> string -> bool) (id_text : Uuid -> string) (order : list Laptop -> list Laptop).
Context {M : Type} (agent : M -> Uuid -> CommandRequest -> M * option CommandResult).
Context (fresh_id : nat -> Uuid) (fresh_bytes : nat -> list Z).
Context (var : string -> option string) (parse_uuid : string -> option Uuid).
Context `{J : JsonBodies}.
Implicit Types (w : HubWorld M) (r : HubRequest).

Abbreviation handle_request := (handle verify_password id_text order agent fresh_id fresh_bytes var parse_uuid).

(** A login changes nothing but the tokens, and those only for a password
    that verifies. *)
Lemma login_effect w u p :
  let w' := (hub_serve verify_password id_text order agent fresh_id fresh_bytes w (mkApiCall None (PostLogin u p))).1 in
  controls (hw_hub w') = controls (hw_hub w) /\ hub_db (hw_hub w') = hub_db (hw_hub w) /\ hw_machines w' = hw_machines w /\
  (admin_names (hw_hub w') = admin_names (hw_hub w) \/ is_Some (verify_admin verify_password (hub_db (hw_hub w)) u p)).
Proof.
  cbn zeta. unfold hub_serve, serve_thread. cbn [api_req thread_run thread_step fresh].
  destruct (verify_admin _ _ _ _) as [id|]; cbn [thread_run thread_step fresh]; (split_and!; try done); [right|left]; eauto.
Qed.

Lemma provision_effect w mac i :
  let w' := (serve_thread verify_password id_text w [i] (PvProvision mac)).1 in
  controls (hw_hub w') = controls (hw_hub w) /\ admin_names (hw_hub w') = admin_names (hw_hub w) /\
  hw_machines w' = hw_machines w /\ admins (hub_db (hw_hub w')) = admins (hub_db (hw_hub w)) /\
  laptops (hub_db (hw_hub w)) `prefix_of` laptops (hub_db (hw_hub w')).
Proof.
  cbn zeta. unfold serve_thread. destruct i; cbn [thread_run thread_step fst]; try done.
  unfold get_or_create_laptop. destruct (list_find _ _) as [[n l]|]; [done|]. case_bool_decide; [done|].
  cbn [fst hw_hub]. split_and!; try done. by eexists.
Qed.

Lemma with_admin_refused w r k : admin_auth (hw_hub w) (bearer_of (rq_authorization r)) = None ->
  with_admin w r k = (w, SReply (http_of (RUnauthorized "invalid or missing admin token"))).
Proof. intros E. unfold with_admin. by rewrite E. Qed.


(** ** A laptop's identity *)

Lemma list_find_exists {A} (P : A -> Prop) `{forall x, Decision (P x)} l x :
  x ∈ l -> P x -> exists i y, list_find P l = Some (i, y) /\ P y.
Proof.
  intros Hx HP. destruct (list_find P l) as [[i y]|] eqn:E.
  - apply list_find_Some in E as (_ & HPy & _). eauto.
  - apply list_find_None in E. rewrite Forall_forall in E. by destruct (E x).
Qed.

Lemma laptop_token_verifies db l : l ∈ laptops db -> is_Some (verify_agent db (lp_agent_id l) (lp_token l)).
Proof.
  intros Hl. unfold verify_agent.
  destruct (list_find_exists (fun x => lp_agent_id x = lp_agent_id l /\ lp_token x = lp_token l) _ _ Hl) as (i & y & -> & _); [done|].
  eauto.
Qed.

Lemma laptop_name_known db l : l ∈ laptops db -> is_Some (laptop_name db (lp_agent_id l)).
Proof.
  intros Hl. unfold laptop_name.
  destruct (list_find_exists (fun x => lp_agent_id x = lp_agent_id l) _ _ Hl) as (i & y & -> & _); [done|]. eauto.
Qed.

(** What the greeting of a socket does when its token verifies. *)
Lemma hello_registers tid h peer id n tok addr name : verify_agent (hub_db h) id tok = Some name ->
  exists h', thread_run verify_password id_text tid [IFrame (Text (Some (Hello id n tok (Some addr)))); INone; INone; INone] h (AwHello peer)
    = (h', AwHelloOk id (next_conn_id h)) /\
  hub_db h' = hub_db h /\ admin_names h' = admin_names h /\ sessions h' = sessions h /\
  agent_addr h' = <[id := addr]> (agent_addr h) /\ conn_id <$> online h' !! id = Some (next_conn_id h).
Proof.
  intros E. cbn [thread_run thread_step]. unfold on_hello. rewrite E. cbn [thread_run thread_step default].
  eexists. split; [reflexivity|]. split_and!; try done. cbn. by rewrite lookup_insert_eq.
Qed.

(** What an administrator is told who may control the laptop. *)
Lemma session_request_address w admin a addr : is_Some (laptop_name (hub_db (hw_hub w)) a) ->
  (forall s, sessions (hw_hub w) !! a = Some s -> admin_username s = admin) -> agent_addr (hw_hub w) !! a = Some addr ->
  (serve_thread verify_password id_text w ([INone; fresh fresh_id fresh_bytes w; INone] ++ replicate 4 INone) (SrKnown admin a)).2
  = Reply 200 (BSession (random_hex (fresh_bytes (hw_count w))) (Some addr)).
Proof.
  intros [name Hn] Hs Ha. unfold serve_thread. cbn [app replicate thread_run thread_step fresh snd]. rewrite Hn.
  cbn [thread_run thread_step fresh]. unfold request_session.
  destruct (sessions (hw_hub w) !! a) as [s|] eqn:Es; [rewrite bool_decide_true by by apply Hs|].
  all: cbn [thread_run thread_step bcast_step]; change (agent_addr (set_sessions ?h _)) with (agent_addr h); rewrite Ha.
  all: cbn [set_sessions hub_db]; rewrite Hn; cbn [thread_run thread_step bcast_step].
  all: by destruct (online _ !! a).
Qed.

(** Whoever knows the MAC address of a registered laptop can take its place:
    provisioning tells its identity and its token without authentication, a
    socket opened with them becomes the laptop's registered connection, and the
    next administrator who asks for the laptop is given the impostor's
    address. *)
Theorem mac_takes_over w (l : Laptop) (body : JBody) (tid : nat) (peer n evil : string)
    (admin token : string) (body3 : JBody)
    (Hdb : db_ok (hub_db (hw_hub w))) (Hl : l ∈ laptops (hub_db (hw_hub w))) (Hbody : as_provision body = Some (lp_mac l))
    (Hadmin : admin_auth (hw_hub w) (Some token) = Some admin)
    (Hfree : forall s, sessions (hw_hub w) !! lp_agent_id l = Some s -> admin_username s = admin)
    (Hbody3 : as_session body3 = Some (lp_agent_id l)) :
  exists w1 h2 cid,
    hub_dispatch verify_password id_text order agent fresh_id fresh_bytes var parse_uuid w
      (mkHubRequest _ POST ["provision"%string] None None false peer (Some body))
      = (w1, SReply (Reply 200 (BProvision (lp_agent_id l) (lp_name l) (lp_token l)))) /\
    thread_run verify_password id_text tid
      [IFrame (Text (Some (Hello (lp_agent_id l) n (lp_token l) (Some evil)))); INone; INone; INone] (hw_hub w1) (AwHello peer)
      = (h2, AwHelloOk (lp_agent_id l) cid) /\
    conn_id <$> online h2 !! lp_agent_id l = Some cid /\
    (forall w3, hw_hub w3 = h2 -> exists t,
       (hub_dispatch verify_password id_text order agent fresh_id fresh_bytes var parse_uuid w3
          (mkHubRequest _ POST ["session"; "request"]%string (Some ("Bearer " +:+ token)) None false peer (Some body3))).2
       = SReply (Reply 200 (BSession t (Some evil)))).
Proof.
  destruct (laptop_token_verifies _ _ Hl) as [name Hv].
  destruct (hello_registers tid (hw_hub w) peer (lp_agent_id l) n (lp_token l) evil name Hv) as (h2 & Hrun & Hd & Hn & Hs & Ha & Hc).
  eexists (mkHubWorld (hw_hub w) (hw_machines w) (S (hw_count w))), h2, _. split_and!.
  - unfold hub_dispatch. cbn [rq_method rq_path]. change (hub_route ["provision"%string]) with (Some (false, HProvision)).
    cbn [method_fits handle]. unfold decoded. cbn [rq_body]. rewrite Hbody.
    unfold serve_thread. cbn [thread_run thread_step fresh]. rewrite get_or_create_known by done. cbn. by destruct (hw_hub w).
  - exact Hrun.
  - exact Hc.
  - intros w3 E3. eexists.
    unfold hub_dispatch. cbn [rq_method rq_path]. change (hub_route ["session"; "request"]%string) with (Some (false, HSessionRequest)).
    cbn [method_fits handle].
    assert (bearer_of (Some ("Bearer " +:+ token)) = Some token) as Hbt.
    { unfold bearer_of. cbn. f_equal. apply String.string_of_list_ascii_of_string. }
    assert (admin_auth (hw_hub w3) (Some token) = Some admin) as Hauth.
    { rewrite E3. unfold admin_auth, admin_from_token in *. by rewrite Hn. }
    unfold with_admin, serve_as_admin, decoded. cbn [rq_authorization rq_body]. rewrite Hbt, Hauth, Hbody3.
    unfold hub_serve. cbn [api_req bearer]. rewrite Hauth.
    destruct (serve_thread _ _ _ _ _) as [w4 rep] eqn:E4. cbn [snd].
    pose proof (session_request_address w3 admin (lp_agent_id l) evil) as H4. rewrite E4 in H4. cbn [snd] in H4.
    rewrite H4; [done|by rewrite E3, Hd; apply laptop_name_known|by rewrite E3, Hs|by rewrite E3, Ha, lookup_insert_eq].
Qed.

(** ** From the command line to a token *)

Lemma add_admin_verifies hash_password db u p db' : verify_password p (hash_password p) = true ->
  add_admin hash_password db u p = Some db' -> is_Some (verify_admin verify_password db' u p).
Proof.
  intros Hv. unfold add_admin. case_bool_decide as He; [done|]. intros [= <-]. unfold verify_admin. cbn [admins].
  set (row := mkAdminRow _ _ _).
  destruct (list_find_exists (fun a => ad_username a = u) (admins db ++ [row]) row) as (i & y & Ef & Hy);
    [apply elem_of_app; right; by left|done|].
  rewrite Ef. apply list_find_Some in Ef as (Hi & _ & _).
  apply lookup_app_Some in Hi as [Hi|[_ Hi]].
  - exfalso. apply He, Exists_exists. exists y. split; [by eapply list_elem_of_lookup_2|done].
  - apply list_lookup_singleton_Some in Hi as [_ <-]. cbn [ad_hash row]. rewrite Hv. eauto.
Qed.

(** An administrator added on the command line can log in at the hub started
    afterwards on the same database, and the token opens the administrator's
    routes. *)
Theorem added_admin_logs_in hash_password (bind_ok : string -> bool) (files files' : gmap string Db) (u p : string)
    (body : JBody) (m : M)
    (Hhash : verify_password p (hash_password p) = true)
    (Hadd : hub_main hash_password var bind_ok (Some (Admin (AdminAdd u p))) files = (files', Exited true))
    (Hbind : bind_ok (listen_addr var) = true) (Hbody : as_login body = Some (u, p)) :
  exists files'' h t w',
    hub_main hash_password var bind_ok None files' = (files'', Listening (listen_addr var) h) /\
    hub_dispatch verify_password id_text order agent fresh_id fresh_bytes var parse_uuid (mkHubWorld h m 0)
      (mkHubRequest _ POST ["auth"; "login"]%string None None false EmptyString (Some body))
      = (w', SReply (Reply 200 (BToken (Some t)))) /\
    (hub_dispatch verify_password id_text order agent fresh_id fresh_bytes var parse_uuid w'
      (mkHubRequest _ GET ["agents"%string] (Some ("Bearer " +:+ t)) None false EmptyString None)).2
      = SReply (Reply 200 (BAgents (snapshot (hw_hub w') order))).
Proof.
  unfold hub_main in *. cbn [default from_option id] in *.
  destruct (add_admin hash_password (db_open files (db_path var)) u p) as [db|] eqn:Ea; [|done]. injection Hadd as <-.
  unfold hub_run_serve, db_open. rewrite lookup_insert_eq, Hbind. cbn [default from_option id].
  destruct (add_admin_verifies _ _ _ _ _ Hhash Ea) as [id Hid].
  pose proof (login_thread verify_password id_text order agent fresh_id fresh_bytes (mkHubWorld (hub_new db) m 0) u p id Hid) as Hl.
  cbn zeta in Hl. destruct (hub_serve _ _ _ _ _ _ _ _) as [w' rep] eqn:El in Hl. cbn [fst snd] in Hl. destruct Hl as [-> Hn].
  eexists _, _, _, w'. split_and!; [done| |].
  - unfold hub_dispatch. cbn [rq_method rq_path]. change (hub_route _) with (Some (false, HLogin)). cbn [method_fits handle].
    unfold decoded. cbn [rq_body]. rewrite Hbody. by rewrite El.
  - unfold hub_dispatch. cbn [rq_method rq_path]. change (hub_route _) with (Some (true, HAgents)). cbn [method_fits handle].
    set (t := random_hex _) in *. unfold with_admin, serve_as_admin. cbn [rq_authorization].
    assert (bearer_of (Some ("Bearer " +:+ t)) = Some t) as ->.
    { unfold bearer_of. cbn. f_equal. apply String.string_of_list_ascii_of_string. }
    assert (admin_auth (hw_hub w') (Some t) = Some u) as Ht.
    { unfold admin_auth, admin_from_token. change (default EmptyString (Some t)) with t. unfold t. by rewrite random_hex_trim. }
    unfold hub_serve. cbn [api_req bearer]. by rewrite Ht.
Qed.
End Properties.

(** ** Witnesses *)

(** JSON bodies that say what they are. *)
Inductive PlainBody := PbProvision (mac : string) | PbLogin (u p : string) | PbSession (a : Uuid) | PbCommand (c : CommandApiReq).

Definition plain_bodies : JsonBodies := {|
  JBody := PlainBody;
  as_provision b := match b with PbProvision m => Some m | _ => None end;
  as_login b := match b with PbLogin u p => Some (u, p) | _ => None end;
  as_session b := match b with PbSession a => Some a | _ => None end;
  as_command b := match b with PbCommand c => Some c | _ => None end
|}.

Section Witnesses.
#[local] Instance plain_bodies_instance : JsonBodies := plain_bodies.

Definition same_password (p h : string) : bool := bool_decide (p = h).
Definition no_agent (m : unit) (_ : Uuid) (_ : CommandRequest) : unit * option CommandResult := (m, None).
Definition one_laptop : Laptop := mkLaptop 7 "aa:bb" "student-01" "secret".
Definition one_db : Db := {| laptops := [one_laptop]; admins := []; next_admin_id := 1 |}.
Definition logged_in : Hub := set_admin_names (hub_new one_db) {["t"%string := "kim"%string]}.
Definition here : HubWorld unit := mkHubWorld logged_in tt 0.

Lemma one_db_ok : db_ok one_db.
Proof.
  split; cbn.
  - apply NoDup_singleton.
  - apply NoDup_singleton.
  - intros i l Hl. apply list_lookup_singleton_Some in Hl as [-> <-]. reflexivity.
Qed.

Abbreviation serve_here :=
  (hub_dispatch same_password (fun _ => "id"%string) id no_agent Z.of_nat (fun _ => [1; 2]) (fun _ => None) (fun _ => Some 7)).


Lemma mac_takes_over_witness :
  exists w1 h2 cid,
    serve_here here (mkHubRequest plain_bodies POST ["provision"%string] None None false "10.0.0.9" (Some (PbProvision "aa:bb")))
      = (w1, SReply (Reply 200 (BProvision 7 "student-01" "secret"))) /\
    conn_id <$> online h2 !! 7 = Some cid /\
    exists t,
      (serve_here (mkHubWorld h2 tt 5) (mkHubRequest plain_bodies POST ["session"; "request"]%string (Some "Bearer t"%string) None false "10.0.0.2" (Some (PbSession 7)))).2
      = SReply (Reply 200 (BSession t (Some "10.0.0.9"%string))).
Proof.
  destruct (mac_takes_over (J := plain_bodies) same_password (fun _ => "id"%string) id no_agent Z.of_nat (fun _ => [1; 2]) (fun _ => None) (fun _ => Some 7)
    here one_laptop (PbProvision "aa:bb") 3 "10.0.0.9" "x" "10.0.0.9" "kim" "t" (PbSession 7)) as (w1 & h2 & cid & H1 & _ & H3 & H4);
    [exact one_db_ok|by apply list_elem_of_here|reflexivity|reflexivity|done|reflexivity|].
  exists w1, h2, cid. split; [exact H1|]. split; [exact H3|]. by apply H4.
Defined.

Lemma added_admin_logs_in_witness :
  exists files'' h t w',
    hub_main id (fun _ => None) (fun _ => true) None (hub_main id (fun _ => None) (fun _ => true) (Some (Admin (AdminAdd "kim" "pw"))) ∅).1
      = (files'', Listening "0.0.0.0:8080" h) /\
    serve_here (mkHubWorld h tt 0) (mkHubRequest plain_bodies POST ["auth"; "login"]%string None None false EmptyString (Some (PbLogin "kim" "pw")))
      = (w', SReply (Reply 200 (BToken (Some t)))).
Proof.
  destruct (added_admin_logs_in (J := plain_bodies) same_password (fun _ => "id"%string) id no_agent Z.of_nat (fun _ => [1; 2]) (fun _ => None) (fun _ => Some 7)
    id (fun _ => true) ∅ (hub_main id (fun _ => None) (fun _ => true) (Some (Admin (AdminAdd "kim" "pw"))) ∅).1 "kim" "pw" (PbLogin "kim" "pw") tt)
    as (files'' & h & t & w' & H1 & H2 & _); [by apply bool_decide_true|reflexivity|reflexivity|reflexivity|].
  exists files'', h, t, w'. split; [exact H1|exact H2].
Defined.
End Witnesses.
