(* ===== verification/Mcp.v ===== *)
(** * The tool server ([kmc-mcp/src/server.rs])

    The tools an assistant calls: a script on one laptop or on all of them at
    once, sequences of GUI actions, and the text-driven browser.  They are
    proved against the interface of HubApi.v.  The JSON codec and the parser
    of identifiers are arguments; what a tool prints is a constructor. *)
From S2P Require Import Prelude Float HubState Hub Text Agent HubApi.

(** ** JSON values *)

Inductive Json :=
| JNull | JBool (b : bool) | JNum (z : Z) | JStr (s : string)
| JArr (l : list Json) | JObj (l : list (string * Json)).

Definition get (key : string) (j : Json) : option Json :=
  match j with
  | JObj l => snd ∘ snd <$> list_find (fun kv => kv.1 = key) l
  | _ => None
  end.
Definition as_str (j : Json) : option string := match j with JStr s => Some s | _ => None end.
Definition as_array (j : Json) : option (list Json) := match j with JArr l => Some l | _ => None end.
Definition as_bool (j : Json) : option bool := match j with JBool b => Some b | _ => None end.
Definition as_u64 (j : Json) : option Z :=
  match j with JNum z => if (0 <=? z) && (z <? 2 ^ 64) then Some z else None | _ => None end.

Definition get_str (key : string) (j : Json) : option string := v <-? get key j; as_str v.
Definition get_array (key : string) (j : Json) : option (list Json) := v <-? get key j; as_array v.
Definition get_u64 (key : string) (j : Json) : option Z := v <-? get key j; as_u64 v.

Definition or_empty (args : Json) : Json := match args with JNull => JObj [] | _ => args end.

(** [to_lowercase] on ASCII. *)
Definition lower (c : ascii) : ascii :=
  let n := nat_of_ascii c in if ((65 <=? n) && (n <=? 90))%nat then ascii_of_nat (n + 32) else c.
Definition to_lowercase (s : string) : text := map lower (str s).

Definition WEB_SESSION : string := "kmc-web".

(** ** Snapshots of a page *)

Definition element (e : Json) : Json :=
  JObj [("ref", default JNull (get "ref" e)); ("role", default JNull (get "role" e)); ("name", default JNull (get "name" e))]%string.

Definition compact_snapshot (snap : Json) : Json :=
  let page := default (JObj []) (get "page"%string snap) in
  let elements := map element (default [] (get_array "refs"%string snap)) in
  let outline := take 1500 (str (default EmptyString (get_str "outline"%string snap))) in
  JObj [("page", page); ("elements", JArr elements); ("outline", JStr (String.string_of_list_ascii outline))]%string.

Definition typeable (e : Json) : bool :=
  match get_array "actions"%string e with
  | Some a => existsb (fun x => bool_decide (as_str x = Some "type"%string)) a
  | None => false
  end.

Definition name_of (e : Json) : string := default EmptyString (get_str "name"%string e).

(** Whether [find_ref] takes [e], and under which ref. *)
Definition ref_match (q : text) (editable : bool) (e : Json) : option (string * string) :=
  if editable && negb (typeable e) then None
  else if bool_decide (q = []) || contains q (to_lowercase (name_of e)) then
    r <-? get_str "ref"%string e; Some (r, name_of e)
  else None.

Fixpoint find_in (q : text) (editable : bool) (refs : list Json) : option (string * string) :=
  match refs with
  | [] => None
  | e :: refs => match ref_match q editable e with Some x => Some x | None => find_in q editable refs end
  end.

Definition find_ref (snap : Json) (query : string) (editable : bool) : option (string * string) :=
  refs <-? get_array "refs"%string snap; find_in (to_lowercase query) editable refs.

(** ** Tools *)

Inductive ToolErr :=
| BadAgentId (s : string)
| HubError (tool : string) (e : ApiError)
| WebError (what : string)
| CuaParse (out : text)
| Transport (e : ApiError)
| During (what : string) (e : ToolErr)
| NoMatch (text : string) (available : list string)
| NoTypeable.

Record StepResult := mkStepResult { sr_step : nat; sr_tool : string; sr_ok : bool; sr_body : string + ApiError }.
Record FanResult := mkFanResult { fr_agent : Uuid; fr_name : string; fr_result : CommandResult + ApiError }.

Inductive Content :=
| CAgents (l : list AgentView)
| CResult (r : CommandResult)
| CNoneOnline
| CFan (l : list FanResult)
| CText (s : string)
| CSteps (l : list StepResult)
| CPage (j : Json)
| CClicked (name : string) (page : option Json)
| CTyped (name text : string).

Inductive ToolResult := ToolOk (c : Content) | ToolError (e : ToolErr).

Record GuiStep := mkGuiStep { gs_tool : string; gs_args : Json }.

Definition QUOTE : ascii := "034"%char.
Definition quoted (s : string) : text := QUOTE :: str s ++ [QUOTE].

Definition gui_out (r : CommandResult) : string :=
  if bool_decide (res_stdout r = EmptyString) then res_stderr r else res_stdout r.

Definition gui_failed (out : string) : bool :=
  contains (quoted "isError") (str out) || contains (quoted "refused") (str out)
  || contains (str "background_unavailable") (str out).

(** How a step of a sequence is reported. *)
Definition step_outcome (x : CommandResult + ApiError) : bool * (string + ApiError) :=
  match x with
  | inl r => (negb (gui_failed (gui_out r)), inl (gui_out r))
  | inr e => (false, inr e)
  end.

Section Tools.
Context {S : Type} {HS : HubServer S} (cred : Credentials).
Context (parse_uuid : string -> option Uuid) (print_json : Json -> string) (parse_json : string -> option Json).
Implicit Types (w : World S).

Definition with_agent (agent_id : string) (k : Uuid -> World S -> World S * ToolResult) (w : World S) : World S * ToolResult :=
  match parse_uuid agent_id with Some id => k id w | None => (w, ToolError (BadAgentId agent_id)) end.

Definition tool_list_agents w : World S * ToolResult :=
  match list_agents cred w with
  | (w, inl l) => (w, ToolOk (CAgents l))
  | (w, inr e) => (w, ToolError (HubError "list_agents" e))
  end.

Definition tool_run_powershell (agent_id script : string) (destructive : bool) : World S -> World S * ToolResult :=
  with_agent agent_id (fun id w =>
    match run_command cred id script destructive w with
    | (w, inl r) => (w, ToolOk (CResult r))
    | (w, inr e) => (w, ToolError (HubError "run_powershell" e))
    end).

Definition fan_request (script : string) (destructive : bool) (a : AgentView) : ApiReq :=
  PostCommand (av_agent_id a) {| ca_script := script; ca_destructive := destructive; ca_kind := None |}.

Definition command_result (x : ApiOk + ApiError) : CommandResult + ApiError :=
  match x with
  | inl (OkResult r) => inl r
  | inl (OkAgents _) => inr (EDecode "decode command result")
  | inr e => inr e
  end.

Definition fan_result (a : AgentView) (x : ApiOk + ApiError) : FanResult :=
  {| fr_agent := av_agent_id a; fr_name := av_name a; fr_result := command_result x |}.

(** [schedule] is the order in which the commands make progress; [None]: not
    all of them have ended. *)
Definition run_powershell_all (schedule : list nat) (script : string) (destructive : bool) w : World S * option ToolResult :=
  match list_agents cred w with
  | (w, inr e) => (w, Some (ToolError (HubError "run_powershell_all: list_agents" e)))
  | (w, inl agents) =>
      let online := filter (fun a => av_online a = true) agents in
      match online with
      | [] => (w, Some (ToolOk CNoneOnline))
      | _ =>
          let reqs := map (fan_request script destructive) online in
          let '(w, cs) := fan_run cred reqs schedule w (fan_start reqs) in
          (w, if (length (joined cs) =? length online)%nat
              then Some (ToolOk (CFan (zip_with fan_result online (joined cs)))) else None)
      end
  end.

Definition run_gui_tool (id : Uuid) (tool : string) (args : Json) : World S -> World S * (CommandResult + ApiError) :=
  run_kind cred id (Gui tool (print_json args)) false.

Definition gui_action (agent_id tool : string) (args : Json) : World S -> World S * ToolResult :=
  with_agent agent_id (fun id w =>
    match run_gui_tool id tool (or_empty args) w with
    | (w, inl r) => (w, ToolOk (CText (gui_out r)))
    | (w, inr e) => (w, ToolError (HubError "gui_action" e))
    end).

Fixpoint gui_steps (id : Uuid) (continue_on_error : bool) (i : nat) (steps : list GuiStep) w : World S * list StepResult :=
  match steps with
  | [] => (w, [])
  | step :: steps =>
      let '(w, x) := run_gui_tool id (gs_tool step) (or_empty (gs_args step)) w in
      let '(ok, body) := step_outcome x in
      let r := {| sr_step := i; sr_tool := gs_tool step; sr_ok := ok; sr_body := body |} in
      if negb ok && negb continue_on_error then (w, [r])
      else let '(w, rs) := gui_steps id continue_on_error (i + 1)%nat steps w in (w, r :: rs)
  end.

Definition gui_sequence (agent_id : string) (steps : list GuiStep) (continue_on_error : bool) : World S -> World S * ToolResult :=
  with_agent agent_id (fun id w =>
    let '(w, rs) := gui_steps id continue_on_error 0 steps w in (w, ToolOk (CSteps rs))).

(** ** The browser *)

Definition gui_json (id : Uuid) (tool : string) (args : Json) w : World S * (Json + ToolErr) :=
  match run_gui_tool id tool args w with
  | (w, inr e) => (w, inr (Transport e))
  | (w, inl r) =>
      let out := if bool_decide (trim (str (res_stdout r)) = []) then res_stderr r else res_stdout r in
      match parse_json (String.string_of_list_ascii (trim (str out))) with
      | Some j => (w, inl j)
      | None => (w, inr (CuaParse (take 300 (str out))))
      end
  end.

Definition active_tab (tabs : list Json) : option Json :=
  match list_find (fun t => default false (v <-? get "active" t; as_bool v) = true) tabs with
  | Some (_, t) => Some t
  | None => head tabs
  end.

(** The window the browser reports, and the tab bound to it. *)
Definition browser_window (ens : Json) : (Z * Z) + ToolErr :=
  match get_str "error" ens with
  | Some e => inr (WebError e)
  | None =>
      match get_u64 "pid" ens with
      | None => inr (WebError "no pid from ensure")
      | Some pid =>
          match get_u64 "window_id" ens with
          | None => inr (WebError "browser window not visible yet; retry web_open")
          | Some window => inl (pid, window)
          end
      end
  end.

Definition bound_tab (st : Json) : (string * string) + ToolErr :=
  match get_str "target_id" st with
  | None => inr (WebError "no target_id")
  | Some target =>
      match get_array "tabs" st with
      | None => inr (WebError "no tabs")
      | Some tabs =>
          match (t <-? active_tab tabs; get_str "tab_id" t) with
          | None => inr (WebError "no tab_id")
          | Some tab => inl (target, tab)
          end
      end
  end.

Definition web_ctx (id : Uuid) w : World S * ((string * string) + ToolErr) :=
  let '(w, _) := gui_json id "start_session" (JObj [("session", JStr WEB_SESSION); ("capture_scope", JStr "auto")]%string) w in
  match gui_json id "kmc_ensure_browser" (JObj []) w with
  | (w, inr e) => (w, inr e)
  | (w, inl ens) =>
      match browser_window ens with
      | inr e => (w, inr e)
      | inl (pid, window) =>
          match gui_json id "get_browser_state"
                  (JObj [("pid", JNum pid); ("window_id", JNum window); ("session", JStr WEB_SESSION)]%string) w with
          | (w, inr e) => (w, inr e)
          | (w, inl st) => (w, bound_tab st)
          end
      end
  end.

Definition web_args (target tab : string) (more : list (string * Json)) : Json :=
  JObj ([("target_id", JStr target); ("tab_id", JStr tab)]%string ++ more ++ [("session"%string, JStr WEB_SESSION)]).

Definition web_snapshot (id : Uuid) (target tab : string) : World S -> World S * (Json + ToolErr) :=
  gui_json id "get_browser_state" (web_args target tab [("snapshot_format", JStr "semantic_v2")]%string).

(** The page as the tools return it. *)
Definition web_page (id : Uuid) w : World S * ToolResult :=
  match web_ctx id w with
  | (w, inr e) => (w, ToolError e)
  | (w, inl (target, tab)) =>
      match web_snapshot id target tab w with
      | (w, inl snap) => (w, ToolOk (CPage (compact_snapshot snap)))
      | (w, inr e) => (w, ToolError (During "snapshot" e))
      end
  end.

Definition web_open (agent_id url : string) : World S -> World S * ToolResult :=
  with_agent agent_id (fun id w =>
    match web_ctx id w with
    | (w, inr e) => (w, ToolError e)
    | (w, inl (target, tab)) =>
        match gui_json id "browser_navigate" (web_args target tab [("url", JStr url)]%string) w with
        | (w, inr e) => (w, ToolError (During "navigate" e))
        | (w, inl _) => web_page id w
        end
    end).

Definition web_read (agent_id : string) : World S -> World S * ToolResult := with_agent agent_id web_page.

Definition available (snap : Json) : list string :=
  take 30 (omap (get_str "name") (default [] (get_array "refs" snap))).

(** The tools that act on an element share their beginning. *)
Definition with_page (id : Uuid) (k : string -> string -> Json -> World S -> World S * ToolResult) w : World S * ToolResult :=
  match web_ctx id w with
  | (w, inr e) => (w, ToolError e)
  | (w, inl (target, tab)) =>
      match web_snapshot id target tab w with
      | (w, inr e) => (w, ToolError (During "snapshot" e))
      | (w, inl snap) => k target tab snap w
      end
  end.

Definition web_click (agent_id text : string) : World S -> World S * ToolResult :=
  with_agent agent_id (fun id => with_page id (fun target tab snap w =>
    match find_ref snap text false with
    | None => (w, ToolError (NoMatch text (available snap)))
    | Some (rf, name) =>
        match gui_json id "browser_click" (web_args target tab [("ref", JStr rf)]%string) w with
        | (w, inr e) => (w, ToolError (During "click" e))
        | (w, inl _) =>
            match web_page id w with
            | (w, ToolOk (CPage j)) => (w, ToolOk (CClicked name (Some j)))
            | (w, _) => (w, ToolOk (CClicked name None))
            end
        end
    end)).

Definition type_target (snap : Json) (field : option string) : option (string * string) :=
  match find_ref snap (default EmptyString field) true with
  | Some x => Some x
  | None => find_ref snap EmptyString true
  end.

Definition web_type (agent_id text : string) (field : option string) : World S -> World S * ToolResult :=
  with_agent agent_id (fun id => with_page id (fun target tab snap w =>
    match type_target snap field with
    | None => (w, ToolError NoTypeable)
    | Some (rf, name) =>
        match gui_json id "browser_type" (web_args target tab [("ref", JStr rf); ("text", JStr text)]%string) w with
        | (w, inr e) => (w, ToolError (During "type" e))
        | (w, inl _) => (w, ToolOk (CTyped name text))
        end
    end)).
End Tools.

(** ** A script on every laptop *)

Lemma joined_done xs : joined (map CDone xs) = xs.
Proof. unfold joined. induction xs as [|x xs IH]; [done|]. cbn [map omap list_omap]. f_equal. exact IH. Qed.

Lemma all_done (cs : list Call) : (forall i, (i < length cs)%nat -> exists x, cs !! i = Some (CDone x)) ->
  exists xs, cs = map CDone xs.
Proof.
  induction cs as [|c cs IH]; intros H; [by exists []|].
  destruct (H 0%nat) as [x Hx]; [simpl; lia|]. simpl in Hx. injection Hx as ->.
  destruct IH as [xs ->]; [|by exists (x :: xs)]. intros i Hi. apply (H (Datatypes.S i)). simpl. lia.
Qed.

Lemma fan_result_names l xs : length xs = length l ->
  map (fun r => (fr_agent r, fr_name r)) (zip_with fan_result l xs) = map (fun a => (av_agent_id a, av_name a)) l.
Proof.
  revert xs. induction l as [|a l IH]; intros [|x xs] Hlen; try done.
  cbn [zip_with map]. f_equal. apply IH. by injection Hlen.
Qed.

Section FanProofs.
Context {S : Type} {HS : HubServer S} {HL : HubServerLaws S _} (cred : Credentials).
Implicit Types (w : World S).

Lemma fan_request_inj script d a b : fan_request script d a = fan_request script d b -> av_agent_id a = av_agent_id b.
Proof. by intros [= ->]. Qed.

Lemma fan_requests_nodup script d l : NoDup (map av_agent_id l) -> NoDup (map (fan_request script d) l).
Proof.
  intros H. induction l as [|a l IH]; [constructor|]. apply NoDup_cons in H as [Hn H]. constructor; [|by apply IH].
  intros (b & Hb & Hin)%list_elem_of_fmap. apply Hn, list_elem_of_fmap. exists b. split; [|done].
  by eapply fan_request_inj.
Qed.

Lemma list_agents_client_ok w : client_ok cred w -> client_ok cred (list_agents cred w).1.
Proof.
  intros Hc. unfold list_agents. destruct (call_spec cred GetAgents w eq_refl Hc) as [H _].
  by destruct (call cred GetAgents w) as [w' [[]|]].
Qed.

(** C28: [run_powershell_all]: however the commands interleave, re-logins
    included, each online laptop's command is accepted by the hub exactly
    once and its outcome reported under that laptop, in the order of the
    list; no other request is sent. *)
Theorem run_all_spec (schedule : list nat) (script : string) (d : bool) w w1 agents :
  let online := filter (fun a => av_online a = true) agents in
  client_ok cred w -> list_agents cred w = (w1, inl agents) -> NoDup (map av_agent_id agents) -> online <> [] ->
  (forall i, (i < length online)%nat -> (5 <= count_occ Nat.eq_dec schedule i)%nat) ->
  exists w2 results,
    run_powershell_all cred schedule script d w = (w2, Some (ToolOk (CFan results))) /\
    map (fun r => (fr_agent r, fr_name r)) results = map (fun a => (av_agent_id a, av_name a)) online /\
    (forall i a r, online !! i = Some a -> results !! i = Some r ->
       let req := fan_request script d a in
       exists reply, accepted (only req) (w_log w2) = accepted (only req) (w_log w1) ++ [(req, reply)] /\
                     fr_result r = command_result (outcome req reply)) /\
    let others := fun r => bool_decide (r ∉ map (fan_request script d) online) in
    accepted others (w_log w2) = accepted others (w_log w1).
Proof.
  intros online Hc Hl Hnd Hne Hsch. pose proof (list_agents_client_ok w Hc) as Hc1. rewrite Hl in Hc1. cbn [fst] in Hc1.
  unfold run_powershell_all. rewrite Hl. fold online. set (reqs := map (fan_request script d) online).
  assert (NoDup reqs) as Hreqs.
  { apply fan_requests_nodup. refine (sublist_NoDup _ _ Hnd _). apply (fmap_sublist av_agent_id), sublist_filter. }
  clearbody online.
  assert (Forall (fun r => authenticated r = true) reqs) as Hauth by by apply Forall_map, Forall_forall.
  pose proof (fan_run_ok cred (w_log w1) reqs schedule w1 (fan_start reqs) Hreqs Hauth Hc1) as [_ Hok].
  { intros i r c _ Hcs. unfold fan_start in Hcs. apply list_elem_of_lookup_2, list_elem_of_fmap in Hcs as (? & -> & _). done. }
  pose proof (fan_run_accepted cred (fun r => bool_decide (r ∉ reqs)) reqs schedule w1 (fan_start reqs)) as Hother.
  assert (exists xs, (fan_run cred reqs schedule w1 (fan_start reqs)).2 = map CDone xs) as [xs Hxs].
  { apply all_done. intros i. rewrite fan_run_length. unfold fan_start. rewrite length_map. intros Hi.
    destruct (lookup_lt_is_Some_2 reqs i Hi) as [r Hr]. eapply fan_run_done; [exact Hr|]. apply Hsch.
    unfold reqs in Hi. by rewrite length_map in Hi. }
  assert (length xs = length online) as Hlen.
  { pose proof (fan_run_length cred reqs schedule w1 (fan_start reqs)) as H. rewrite Hxs in H.
    unfold fan_start, reqs in H. by rewrite !length_map in H. }
  destruct (fan_run cred reqs schedule w1 (fan_start reqs)) as [w2 cs] eqn:Hrun. cbn [fst snd] in *. subst cs.
  rewrite joined_done, Hlen, Nat.eqb_refl. destruct online as [|a0 rest]; [done|].
  exists w2, (zip_with fan_result (a0 :: rest) xs). split; [done|]. split_and!.
  - by apply fan_result_names.
  - intros i a r Ha Hr. apply lookup_zip_with_Some in Hr as (a' & x & -> & Ha' & Hx). simplify_eq.
    destruct (Hok i (fan_request script d a) (CDone x)) as (reply & Hacc & ->).
    + apply list_lookup_fmap_Some. by exists a.
    + apply list_lookup_fmap_Some. by exists x.
    + by exists reply.
  - apply Hother. apply Forall_forall. intros r Hr. apply bool_decide_eq_false. intros H. by apply H.
Qed.
End FanProofs.

(** ** Sequences of GUI actions *)

Section SequenceProofs.
Context {S : Type} {HS : HubServer S} {HL : HubServerLaws S _} (cred : Credentials) (print_json : Json -> string).
Implicit Types (w : World S).

Definition gui_request (id : Uuid) (step : GuiStep) : ApiReq :=
  PostCommand id {| ca_script := EmptyString; ca_destructive := false;
                    ca_kind := Some (Gui (gs_tool step) (print_json (or_empty (gs_args step)))) |}.

Definition reported (i : nat) (step : GuiStep) (reply : HttpReply) (id : Uuid) : StepResult :=
  let '(ok, body) := step_outcome (command_result (outcome (gui_request id step) reply)) in
  {| sr_step := i; sr_tool := gs_tool step; sr_ok := ok; sr_body := body |}.

Lemma run_gui_tool_spec id step w : client_ok cred w ->
  let p := run_gui_tool cred print_json id (gs_tool step) (or_empty (gs_args step)) w in
  client_ok cred p.1 /\
  exists reply, accepted all_requests (w_log p.1) = accepted all_requests (w_log w) ++ [(gui_request id step, reply)] /\
    p.2 = command_result (outcome (gui_request id step) reply).
Proof.
  intros Hc p. destruct (run_req_spec cred id {| ca_script := EmptyString; ca_destructive := false;
    ca_kind := Some (Gui (gs_tool step) (print_json (or_empty (gs_args step)))) |} w Hc) as (H1 & reply & H2 & H3).
  split; [exact H1|]. exists reply. split; [exact H2|]. unfold p, run_gui_tool, run_kind. rewrite H3.
  unfold command_result, gui_request. by destruct (outcome _ _) as [[]|].
Qed.

(** Whether the sequence goes on after this report. *)
Definition goes_on (continue_on_error : bool) (r : StepResult) : bool := sr_ok r || continue_on_error.

Lemma gui_steps_spec id cont i steps w : client_ok cred w ->
  let p := gui_steps cred print_json id cont i steps w in
  client_ok cred p.1 /\
  exists replies,
    accepted all_requests (w_log p.1) = accepted all_requests (w_log w) ++ zip (map (gui_request id) steps) replies /\
    p.2 = zip_with (fun '(k, s) reply => reported k s reply id) (zip (seq i (length steps)) steps) replies /\
    (length replies <= length steps)%nat /\
    Forall (fun r => goes_on cont r = true) (take (length p.2 - 1) p.2) /\
    (length replies = length steps \/ exists r, List.last (map Some p.2) None = Some r /\ goes_on cont r = false).
Proof.
  revert i w. induction steps as [|step steps IH]; intros i w Hc p.
  { split; [done|]. exists []. cbn. rewrite app_nil_r. split_and!; auto. }
  destruct (run_gui_tool_spec id step w Hc) as (Hc1 & reply & Hl & Ho).
  unfold p. cbn [gui_steps]. destruct (run_gui_tool cred print_json id _ _ w) as [w1 x]. cbn [fst snd] in Hc1, Hl, Ho.
  subst x. remember (reported i step reply id) as r eqn:Er. pose proof Er as Er0. unfold reported in Er0.
  destruct (step_outcome _) as [ok body]. rewrite <- Er0.
  assert (ok = sr_ok r) as -> by by rewrite Er0. clear Er0.
  destruct (goes_on cont r) eqn:Eg.
  - assert (negb (sr_ok r) && negb cont = false) as -> by (unfold goes_on in Eg; by destruct (sr_ok r), cont).
    destruct (IH (i + 1)%nat w1 Hc1) as (Hc2 & replies & Hl2 & Hr2 & Hn & Hg & He).
    destruct (gui_steps cred print_json id cont (i + 1) steps w1) as [w2 rs]. cbn [fst snd] in *.
    split; [done|]. exists (reply :: replies). split_and!.
    + rewrite Hl2, Hl, <- app_assoc. done.
    + cbn [length seq zip zip_with]. rewrite Hr2, <- Er, Nat.add_1_r. done.
    + simpl. lia.
    + cbn [length]. rewrite Nat.sub_succ, Nat.sub_0_r. destruct rs as [|r1 rs]; [constructor|].
      cbn [length take] in *. rewrite Nat.sub_succ, Nat.sub_0_r in Hg. by constructor.
    + destruct He as [He|(q & Hq & Hgq)]; [left; simpl; lia|right]. exists q. split; [|done].
      cbn [map]. destruct rs; [done|]. exact Hq.
  - assert (negb (sr_ok r) && negb cont = true) as -> by (unfold goes_on in Eg; by destruct (sr_ok r), cont).
    cbn [fst snd]. split; [done|]. exists [reply]. split_and!.
    + rewrite Hl. cbn. by destruct (map (gui_request id) steps).
    + cbn [length seq zip zip_with]. by rewrite <- Er, zip_with_nil_r.
    + simpl. lia.
    + constructor.
    + right. by exists r.
Qed.
End SequenceProofs.

Section SequenceTheorem.
Context {S : Type} {HS : HubServer S} {HL : HubServerLaws S _} (cred : Credentials).
Context (parse_uuid : string -> option Uuid) (print_json : Json -> string).

(** [gui_sequence]: the hub accepts the steps of the sequence once each,
    in order and nothing else, up to and including the first that fails (all
    of them when told to continue on errors), and the report has one entry
    per accepted step, made from its reply. *)
Theorem gui_sequence_spec (agent_id : string) (id : Uuid) (steps : list GuiStep) (cont : bool) (w : World S) :
  client_ok cred w -> parse_uuid agent_id = Some id ->
  exists w' rs replies,
    gui_sequence cred parse_uuid print_json agent_id steps cont w = (w', ToolOk (CSteps rs)) /\
    accepted all_requests (w_log w')
      = accepted all_requests (w_log w) ++ zip (map (gui_request print_json id) steps) replies /\
    rs = zip_with (fun '(k, s) reply => reported print_json k s reply id) (zip (seq 0 (length steps)) steps) replies /\
    (length replies <= length steps)%nat /\
    Forall (fun r => goes_on cont r = true) (take (length rs - 1) rs) /\
    (length replies = length steps \/ exists r, List.last (map Some rs) None = Some r /\ goes_on cont r = false).
Proof.
  intros Hc Hp. unfold gui_sequence, with_agent. rewrite Hp.
  destruct (gui_steps_spec cred print_json id cont 0 steps w Hc) as (_ & replies & H).
  destruct (gui_steps cred print_json id cont 0 steps w) as [w' rs]. by exists w', rs, replies.
Qed.
End SequenceTheorem.

(** ** Which element [web_type] types into *)

(** An element with a ref and a type action. *)
Definition input_element (e : Json) : Prop := typeable e = true /\ is_Some (get_str "ref" e).

Definition field_matches (field : string) (e : Json) : Prop :=
  to_lowercase field = [] \/ contains (to_lowercase field) (to_lowercase (name_of e)) = true.

Lemma ref_match_typeable q e x : ref_match q true e = Some x <->
  input_element e /\ (q = [] \/ contains q (to_lowercase (name_of e)) = true) /\ get_str "ref" e = Some x.1 /\ name_of e = x.2.
Proof.
  unfold ref_match, input_element. destruct (typeable e); cbn [andb negb]; [|split; [done|by intros [[? _] _]]].
  destruct x as [r n]. cbn [fst snd]. split.
  - intros H. destruct (bool_decide (q = []) || _) eqn:E; [|done]. destruct (get_str "ref" e) as [r'|]; [|done].
    injection H as -> <-. split_and!; [done|by eexists| |done..]. apply orb_true_iff in E as [E|E]; [left; by apply bool_decide_eq_true in E|by right].
  - intros (_ & Hq & -> & <-). assert (bool_decide (q = []) || contains q (to_lowercase (name_of e)) = true) as ->; [|done].
    apply orb_true_iff. destruct Hq; [left; by apply bool_decide_eq_true|by right].
Qed.

Lemma find_in_some q ed l x : find_in q ed l = Some x <->
  exists k e, l !! k = Some e /\ ref_match q ed e = Some x /\ forall j e', (j < k)%nat -> l !! j = Some e' -> ref_match q ed e' = None.
Proof.
  induction l as [|e l IH]; cbn [find_in].
  { split; [done|]. by intros (k & e & Hk & _). }
  destruct (ref_match q ed e) as [y|] eqn:E.
  - split.
    + intros [= ->]. exists 0%nat, e. split_and!; [done..|lia].
    + intros (k & e' & Hk & Hm & Hb). destruct k; [simpl in Hk; congruence|]. specialize (Hb 0%nat e ltac:(lia) eq_refl). congruence.
  - rewrite IH. split.
    + intros (k & e' & Hk & Hm & Hb). exists (Datatypes.S k), e'. split_and!; [done..|].
      intros [|j] e'' Hj He''; [simpl in He''; congruence|]. eapply Hb; [|exact He'']. lia.
    + intros (k & e' & Hk & Hm & Hb). destruct k as [|k]; [simpl in Hk; congruence|]. exists k, e'. split_and!; [done..|].
      intros j e'' Hj He''. by apply (Hb (Datatypes.S j)); [lia|].
Qed.

Lemma find_in_none q ed l : find_in q ed l = None <-> Forall (fun e => ref_match q ed e = None) l.
Proof.
  induction l as [|e l IH]; cbn [find_in]; [by split|]. rewrite Forall_cons, <- IH.
  destruct (ref_match q ed e); [split; [done|by intros [? _]]|by split; [|intros []]].
Qed.

(** [web_type] never types outside an input element: it takes the first
    one whose label contains the field, the first of all when none does, and
    gives up exactly when the page has none. *)
Theorem type_target_spec (snap : Json) (refs : list Json) (field : option string) :
  get_array "refs" snap = Some refs ->
  match type_target snap field with
  | None => Forall (fun e => ~ input_element e) refs
  | Some (r, name) =>
      exists k e, refs !! k = Some e /\ input_element e /\ get_str "ref" e = Some r /\ name_of e = name /\
        let matches := field_matches (default EmptyString field) in
        (matches e /\ (forall j e', (j < k)%nat -> refs !! j = Some e' -> ~ (input_element e' /\ matches e')) \/
         Forall (fun e' => ~ (input_element e' /\ matches e')) refs /\
         (forall j e', (j < k)%nat -> refs !! j = Some e' -> ~ input_element e'))
  end.
Proof.
  intros Hr. unfold type_target, find_ref. rewrite Hr.
  assert (forall q e, ref_match q true e = None -> ~ (input_element e /\ (q = [] \/ contains q (to_lowercase (name_of e)) = true))) as Hnone.
  { intros q e Hn [Hi Hq]. pose proof Hi as [_ [r Hr']]. 
    assert (ref_match q true e = Some (r, name_of e)); [|congruence]. by apply ref_match_typeable. }
  destruct (find_in (to_lowercase (default EmptyString field)) true refs) as [[r n]|] eqn:E.
  - apply find_in_some in E as (k & e & Hk & Hm & Hb). apply ref_match_typeable in Hm as (Hi & Hq & Hre & Hn).
    exists k, e. split_and!; [done..|]. left. split; [done|]. intros j e' Hj He'. apply Hnone. eauto.
  - apply find_in_none in E. destruct (find_in (to_lowercase EmptyString) true refs) as [[r n]|] eqn:E2.
    + apply find_in_some in E2 as (k & e & Hk & Hm & Hb). apply ref_match_typeable in Hm as (Hi & _ & Hre & Hn).
      exists k, e. split_and!; [done..|]. right. split.
      * eapply Forall_impl; [exact E|]. intros e'. apply Hnone.
      * intros j e' Hj He' Hi'. eapply (Hnone [] e'); [by eapply Hb|]. by split; [|left].
    + apply find_in_none in E2. eapply Forall_impl; [exact E2|]. intros e He Hi. by eapply (Hnone [] e); [|split; [|left]].
Qed.

(** ** From a tool to the laptop and back *)

Section EndToEnd.
Context (verify_password : string -> string -> bool) (id_text : Uuid -> string) (order : list Laptop -> list Laptop).
Context {M : Type} (shell : Uuid -> M -> string -> M * (Output + string)).
Context (cua_call : Uuid -> M -> string -> string -> M * (Output + string)) (revive : Uuid -> M -> M).
Context (ensure_browser : Uuid -> M -> M * string) (exe : string).
Context (fresh_id : nat -> Uuid) (fresh_bytes : nat -> list Z).
Context (cred : Credentials) (parse_uuid : string -> option Uuid) (print_json : Json -> string).
Implicit Types (w : HubWorld M).

(** The laptop that runs [kmc-agent]. *)
Definition laptop_agent (m : M) (a : Uuid) (cmd : CommandRequest) : M * option CommandResult :=
  let '(m, r) := exec_run (shell a) (cua_call a) (revive a) (ensure_browser a) exe m cmd in (m, Some r).

#[local] Instance hub_over_laptops : HubServer (HubWorld M) :=
  hub_server verify_password id_text order laptop_agent fresh_id fresh_bytes.
#[local] Instance hub_over_laptops_laws : HubServerLaws (HubWorld M) hub_over_laptops.
Proof. apply hub_server_laws. Qed.

(** The laptop is connected, and request numbers are fresh. *)
Definition live (a : Uuid) w : Prop :=
  (exists c, online (hw_hub w) !! a = Some c /\ conn_id c ∈ open_channels (hw_hub w)) /\
  Forall (fun x => (x.1 < hw_count w)%nat) (answers (hw_hub w)).

Lemma answer_fresh l tid (r : CommandResult) : Forall (fun x => (x.1 < tid)%nat) l ->
  list_find (fun a : nat * CommandResult => a.1 = tid) (l ++ [(tid, r)]) = Some (length l, (tid, r)).
Proof.
  intros H. apply list_find_Some. split_and!.
  - by rewrite lookup_app_r, Nat.sub_diag.
  - done.
  - intros j y Hj Hlt. rewrite lookup_app_l in Hj by done. rewrite Forall_forall in H.
    apply list_elem_of_lookup_2, H in Hj. lia.
Qed.

Lemma tool_run_id a m cmd : res_id (exec_run (shell a) (cua_call a) (revive a) (ensure_browser a) exe m cmd).2 = cr_id cmd.
Proof.
  unfold exec_run. destruct (cr_kind cmd) as [s|tool args].
  - unfold Agent.run_powershell. destruct (shell a m s) as [m' [o|e]]; done.
  - unfold run_gui. case_bool_decide; [by destruct (ensure_browser a m)|]. destruct (cua_call a m tool args) as [m1 out].
    destruct (daemon_down out).
    + by destruct (cua_call a (revive a m1) tool args) as [m2 [o|e]].
    + by destruct out.
Qed.

Lemma serve_command_live a w req : live a w ->
  let cmd := {| cr_id := fresh_id (hw_count w); cr_kind := default (PowerShell (ca_script req)) (ca_kind req);
                cr_destructive := ca_destructive req |} in
  let '(m, r) := exec_run (shell a) (cua_call a) (revive a) (ensure_browser a) exe (hw_machines w) cmd in
  let p := serve_command verify_password id_text laptop_agent fresh_id fresh_bytes w a req in
  p.2 = Reply 200 (BResult r) /\ hw_machines p.1 = m /\ live a p.1.
Proof.
  intros [(c & Ho & Hopen) Hans] cmd. pose proof (tool_run_id a (hw_machines w) cmd) as Hid.
  destruct (exec_run _ _ _ _ _ (hw_machines w) cmd) as [m r] eqn:Ex. cbn [snd] in Hid.
  unfold serve_command. cbn [thread_run thread_step fresh]. rewrite Ho. cbn [thread_run thread_step fresh].
  unfold send_command. rewrite bool_decide_true by done. fold cmd.
  change (cr_id cmd) with (fresh_id (hw_count w)). fold cmd. unfold laptop_agent. rewrite Ex.
  unfold deliver_result. cbn [pending_cmds set_outbox set_pending_cmds]. rewrite Hid.
  change (cr_id cmd) with (fresh_id (hw_count w)). cbn [thread_run]. rewrite lookup_insert_eq. cbn [thread_run thread_step]. unfold answer_for. cbn [answers set_answers set_pending_cmds set_outbox].
  rewrite answer_fresh by done. cbn [fst snd answered http_of]. split_and!; [done..|].
  split; [by exists c|]. cbn. apply Forall_app. split; [|by apply Forall_singleton; simpl; lia].
  eapply Forall_impl; [exact Hans|]. simpl. intros. lia.
Qed.

Lemma login_live a w u p : live a w -> live a (serve w (mkApiCall None (PostLogin u p))).1 /\
  hw_machines (serve w (mkApiCall None (PostLogin u p))).1 = hw_machines w.
Proof.
  intros [Hc Hans]. cbn [serve hub_over_laptops hub_server]. unfold hub_serve, serve_thread. cbn [api_req thread_run thread_step fresh].
  assert (Forall (fun x : nat * CommandResult => (x.1 < S (hw_count w))%nat) (answers (hw_hub w))) as Ha.
  { eapply Forall_impl; [exact Hans|]. simpl. intros. lia. }
  destruct (verify_admin _ _ _ _); cbn [thread_run thread_step fst]; by split.
Qed.

(** One command through the whole chain. *)
Lemma run_req_live a req (w : World (HubWorld M)) : client_ok cred w -> live a (w_server w) ->
  let p := run_req cred a req w in
  client_ok cred p.1 /\ live a (w_server p.1) /\
  exists id, let cmd := {| cr_id := id; cr_kind := default (PowerShell (ca_script req)) (ca_kind req); cr_destructive := ca_destructive req |} in
    exec_run (shell a) (cua_call a) (revive a) (ensure_browser a) exe (hw_machines (w_server w)) cmd
    = (hw_machines (w_server p.1), match p.2 with inl r => r | inr _ => mkCommandResult id None EmptyString EmptyString None end) /\
    is_Some (match p.2 with inl r => Some r | inr _ => None end).
Proof.
  intros Hc Hl p. destruct (run_req_spec cred a req w Hc) as [Hc' _]. split; [exact Hc'|].
  destruct (call_served cred (fun s => live a s /\ hw_machines s = hw_machines (w_server w)) (PostCommand a req) w)
    as (s & t & [Hs Hm] & Hv & Hw & Ho); [done..| |done|].
  { intros s u q [Hs <-]. by apply login_live. }
  assert (serve s (mkApiCall (Some t) (PostCommand a req)) = serve_command verify_password id_text laptop_agent fresh_id fresh_bytes s a req) as Es.
  { destruct Hv as [admin Hv]. cbn [serve hub_over_laptops hub_server]. unfold hub_serve. cbn [api_req bearer]. by rewrite Hv. }
  pose proof (serve_command_live a s req Hs) as Hsc. cbn zeta in Hsc. rewrite Hm in Hsc. rewrite Es in Hw, Ho.
  unfold p, run_req. destruct (call cred (PostCommand a req) w) as [w' x]. cbn [fst snd] in Hw, Ho. subst x.
  destruct (exec_run _ _ _ _ _ _ _) as [m r] eqn:Ex. destruct Hsc as (Hr & Hm' & Hl').
  rewrite Hr. cbn [outcome finish is_success negb Z.leb Z.ltb Z.compare Pos.compare Pos.compare_cont andb fst snd].
  rewrite Hw. split; [exact Hl'|]. exists (fresh_id (hw_count s)). split; [|by eexists]. rewrite Hm'. exact Ex.
Qed.

(** C6: a script sent through [run_powershell] to a connected laptop runs
    there once, through the hub and the agent, and the tool returns exactly
    what the shell gave back, whether or not the cached token had expired. *)
Theorem script_runs (agent_id script : string) (a : Uuid) (d : bool) (w : World (HubWorld M)) :
  client_ok cred w -> live a (w_server w) -> parse_uuid agent_id = Some a ->
  let '(m, out) := shell a (hw_machines (w_server w)) script in
  exists (w' : World (HubWorld M)) id,
    tool_run_powershell cred parse_uuid agent_id script d w = (w', ToolOk (CResult (of_output id "spawn powershell" out))) /\
    hw_machines (w_server w') = m /\ client_ok cred w' /\ live a (w_server w').
Proof.
  intros Hc Hl Hp. unfold tool_run_powershell, with_agent. rewrite Hp. unfold run_command.
  destruct (run_req_live a {| ca_script := script; ca_destructive := d; ca_kind := None |} w Hc Hl) as (Hc' & Hl' & id & Hx & Hs).
  destruct (run_req cred a _ w) as [w' [r|e]]; cbn [fst snd] in *; [|by destruct Hs].
  unfold exec_run, Agent.run_powershell in Hx. cbn [cr_kind default ca_kind ca_script from_option Datatypes.id cr_id] in Hx.
  destruct (shell a (hw_machines (w_server w)) script) as [m out]. injection Hx as -> <-. by exists w', id.
Qed.

Lemma gui_steps_dead a cont i steps (w : World (HubWorld M)) :
  (forall m tool args, exists e, (cua_call a m tool args).2 = inr e) ->
  Forall (fun s => gs_tool s <> "kmc_ensure_browser"%string) steps -> client_ok cred w -> live a (w_server w) ->
  let rs := (gui_steps cred print_json a cont i steps w).2 in
  length rs = length steps /\ Forall (fun r => sr_ok r = true /\ sr_body r = inl EmptyString) rs.
Proof.
  intros Hdead. revert i w. induction steps as [|step steps IH]; intros i w Hs Hc Hl; [done|].
  apply Forall_cons in Hs as [Hne Hs]. cbn [gui_steps]. unfold run_gui_tool, run_kind.
  destruct (run_req_live a {| ca_script := EmptyString; ca_destructive := false;
    ca_kind := Some (Gui (gs_tool step) (print_json (or_empty (gs_args step)))) |} w Hc Hl) as (Hc' & Hl' & id & Hx & Hok).
  destruct (run_req cred a _ w) as [w' [r|e]]; cbn [fst snd] in *; [|by destruct Hok].
  unfold exec_run, run_gui in Hx. cbn [cr_kind default ca_kind from_option Datatypes.id cr_id] in Hx. rewrite bool_decide_false in Hx by done.
  destruct (Hdead (hw_machines (w_server w)) (gs_tool step) (print_json (or_empty (gs_args step)))) as [e He].
  destruct (cua_call a _ _ _) as [m out]. cbn [snd] in He. subst out. injection Hx as -> <-.
  cbn [of_output step_outcome gui_out res_stdout res_stderr bool_decide decide]. cbn [andb].
  change (gui_failed (gui_out _)) with false. cbn [negb andb].
  specialize (IH (i + 1)%nat w' Hs Hc' Hl'). destruct (gui_steps cred print_json a cont (i + 1) steps w') as [w2 rs].
  cbn [snd] in *. destruct IH as [IH1 IH2]. split; [simpl; lia|]. by constructor.
Qed.

(** when the automation driver cannot even be started on the laptop, so
    that every step of a sequence fails there, the sequence does not stop at
    the first error: it reports every step as done, with an empty result. *)
Theorem sequence_hides_failures (agent_id : string) (a : Uuid) (steps : list GuiStep) (w : World (HubWorld M)) :
  client_ok cred w -> live a (w_server w) -> parse_uuid agent_id = Some a ->
  (forall m tool args, exists e, (cua_call a m tool args).2 = inr e) ->
  Forall (fun s => gs_tool s <> "kmc_ensure_browser"%string) steps ->
  exists (w' : World (HubWorld M)) rs, gui_sequence cred parse_uuid print_json agent_id steps false w = (w', ToolOk (CSteps rs)) /\
    length rs = length steps /\ Forall (fun r => sr_ok r = true /\ sr_body r = inl EmptyString) rs.
Proof.
  intros Hc Hl Hp Hdead Hs. unfold gui_sequence, with_agent. rewrite Hp.
  pose proof (gui_steps_dead a false 0 steps w Hdead Hs Hc Hl) as H.
  destruct (gui_steps cred print_json a false 0 steps w) as [w' rs]. by exists w', rs.
Qed.
End EndToEnd.

(** ** An example: two laptops behind a hub, and a client whose cached token
    the hub has forgotten *)

Definition mcp_db : Db :=
  {| laptops := [{| lp_agent_id := 7; lp_mac := "m7"; lp_name := "student-01"; lp_token := "t7" |};
                 {| lp_agent_id := 8; lp_mac := "m8"; lp_name := "student-02"; lp_token := "t8" |}];
     admins := [{| ad_id := 1; ad_username := "ops"; ad_hash := "pw" |}]; next_admin_id := 2 |}.

Definition mcp_hub : Hub :=
  set_open_channels
    (set_online (hub_new mcp_db)
       {[7 := {| ac_name := "student-01"; last_status := None; conn_id := 1 |};
         8 := {| ac_name := "student-02"; last_status := None; conn_id := 2 |}]}) {[1; 2]}.

Definition mcp_cred : Credentials := mkCredentials "ops" "pw".

(** A machine remembers what was run on it; its driver cannot be started. *)
Definition mcp_shell (a : Uuid) (m : list (Uuid * string)) (script : string) : list (Uuid * string) * (Output + string) :=
  (m ++ [(a, script)], inl {| o_code := Some 0; o_stdout := str "done"; o_stderr := [] |}).
Definition mcp_cua (a : Uuid) (m : list (Uuid * string)) (tool args : string) : list (Uuid * string) * (Output + string) :=
  (m, inr "not found"%string).

Definition mcp_server : HubServer (HubWorld (list (Uuid * string))) :=
  hub_over_laptops String.eqb (fun _ => EmptyString) (fun l => l) mcp_shell mcp_cua (fun _ m => m)
    (fun _ m => (m, EmptyString)) "cua-driver.exe" (fun n => Z.of_nat n) (fun n => [Z.of_nat n]).

Definition mcp_world : World (HubWorld (list (Uuid * string))) :=
  mkWorld (mkHubWorld mcp_hub [] 0) (Some "stale"%string) [].

Definition mcp_uuid (s : string) : option Uuid := if bool_decide (s = "7"%string) then Some 7 else None.

Lemma mcp_client_ok : client_ok (HS := mcp_server) mcp_cred mcp_world.
Proof. split. cbn [valid mcp_server hub_over_laptops hub_server admits]. by exists 1. Qed.

Lemma mcp_live : live 7 (w_server mcp_world).
Proof.
  split; [|constructor]. eexists. split; [reflexivity|]. vm_compute. done.
Qed.

Lemma mcp_laws : HubServerLaws _ mcp_server.
Proof. apply hub_server_laws. Qed.

Definition mcp_agents : list AgentView := snapshot mcp_hub (fun l => l).

(** The two commands progress in alternation; the first refused token makes
    both log in again. *)
Definition mcp_schedule : list nat := [0; 1; 0; 1; 0; 1; 0; 1; 0; 1]%nat.

Lemma run_all_spec_witness :
  exists w2 results,
    run_powershell_all (HS := mcp_server) mcp_cred mcp_schedule "whoami" false mcp_world = (w2, Some (ToolOk (CFan results))) /\
    map (fun r => (fr_agent r, fr_name r)) results = [(7, "student-01"%string); (8, "student-02"%string)].
Proof.
  destruct (run_all_spec (HL := mcp_laws) mcp_cred mcp_schedule "whoami" false mcp_world
              (list_agents (HS := mcp_server) mcp_cred mcp_world).1 mcp_agents) as (w2 & results & H1 & H2 & _).
  - exact mcp_client_ok.
  - vm_compute. reflexivity.
  - apply (bool_decide_unpack _). vm_compute. exact I.
  - vm_compute. discriminate.
  - intros i Hi. assert (length (filter (fun a => av_online a = true) mcp_agents) = 2%nat) as E by (vm_compute; reflexivity).
    rewrite E in Hi. destruct i as [|[|i]]; [vm_compute; lia|vm_compute; lia|lia].
  - exists w2, results. split; [exact H1|]. rewrite H2. vm_compute. reflexivity.
Defined.

Lemma gui_sequence_spec_witness :
  exists w' rs,
    gui_sequence (HS := mcp_server) mcp_cred mcp_uuid (fun _ => EmptyString) "7"
      [mkGuiStep "click" JNull; mkGuiStep "type_text" JNull] false mcp_world = (w', ToolOk (CSteps rs)).
Proof.
  destruct (gui_sequence_spec (HL := mcp_laws) mcp_cred mcp_uuid (fun _ => EmptyString) "7" 7
              [mkGuiStep "click" JNull; mkGuiStep "type_text" JNull] false mcp_world mcp_client_ok eq_refl)
    as (w' & rs & replies & H & _).
  by exists w', rs.
Defined.

Definition page_example : Json :=
  JObj [("refs", JArr [JObj [("ref", JStr "r1"); ("name", JStr "Home")];
                       JObj [("ref", JStr "r2"); ("name", JStr "Search"); ("actions", JArr [JStr "type"])];
                       JObj [("ref", JStr "r3"); ("name", JStr "Password"); ("actions", JArr [JStr "click"; JStr "type"])]])]%string.

Lemma type_target_spec_witness :
  type_target page_example (Some "pass"%string) = Some ("r3"%string, "Password"%string) /\
  exists k e, default [] (get_array "refs" page_example) !! k = Some e /\ input_element e /\ name_of e = "Password"%string.
Proof.
  split; [vm_compute; reflexivity|].
  pose proof (type_target_spec page_example (default [] (get_array "refs" page_example)) (Some "pass"%string) eq_refl) as H.
  assert (type_target page_example (Some "pass"%string) = Some ("r3"%string, "Password"%string)) as E by (vm_compute; reflexivity).
  rewrite E in H. destruct H as (k & e & H1 & H2 & _ & H3 & _). by exists k, e.
Defined.

Lemma script_runs_witness :
  exists w' id,
    tool_run_powershell (HS := mcp_server) mcp_cred mcp_uuid "7" "whoami" false mcp_world
    = (w', ToolOk (CResult (of_output id "spawn powershell" (inl {| o_code := Some 0; o_stdout := str "done"; o_stderr := [] |})))) /\
    hw_machines (w_server w') = [(7, "whoami"%string)].
Proof.
  destruct (script_runs String.eqb (fun _ => EmptyString) (fun l => l) mcp_shell mcp_cua (fun _ m => m)
    (fun _ m => (m, EmptyString)) "cua-driver.exe" (fun n => Z.of_nat n) (fun n => [Z.of_nat n]) mcp_cred mcp_uuid
    "7" "whoami" 7 false mcp_world mcp_client_ok mcp_live eq_refl) as (w' & id & H1 & H2 & _).
  by exists w', id.
Defined.

Lemma sequence_hides_failures_witness :
  exists w' rs,
    gui_sequence (HS := mcp_server) mcp_cred mcp_uuid (fun _ => EmptyString) "7"
      [mkGuiStep "click" JNull; mkGuiStep "type_text" JNull] false mcp_world = (w', ToolOk (CSteps rs)) /\
    length rs = 2%nat /\ Forall (fun r => sr_ok r = true /\ sr_body r = inl EmptyString) rs.
Proof.
  destruct (sequence_hides_failures String.eqb (fun _ => EmptyString) (fun l => l) mcp_shell mcp_cua (fun _ m => m)
    (fun _ m => (m, EmptyString)) "cua-driver.exe" (fun n => Z.of_nat n) (fun n => [Z.of_nat n]) mcp_cred mcp_uuid
    (fun _ => EmptyString) "7" 7 [mkGuiStep "click" JNull; mkGuiStep "type_text" JNull] mcp_world mcp_client_ok mcp_live eq_refl)
    as (w' & rs & H1 & H2 & H3).
  - intros m tool args. by eexists.
  - by repeat constructor.
  - by exists w', rs.
Defined.
