(* ===== verification/Tools.v ===== *)
(** * Calling a tool ([kmc-mcp/src/server.rs])

    The arguments of the tools as their structs decode them, the choice of a
    tool by its name, and one contract for all of them: [allowed] says which
    requests a call may send to the hub, [tools_send_only_allowed] that it
    sends no others, whatever hub answers. *)
From S2P Require Import Prelude Float HubState Hub Text Agent HubApi Mcp.

(** ** Arguments *)

Record RunOne := mkRunOne { ro_agent_id : string; ro_script : string; ro_destructive : bool }.
Record RunAll := mkRunAll { ra_script : string; ra_destructive : bool }.
Record GuiAction := mkGuiAction { ga_agent_id : string; ga_tool : string; ga_args : Json }.
Record GuiSequence := mkGuiSequence { gq_agent_id : string; gq_steps : list GuiStep; gq_continue_on_error : bool }.
Record WebOpen := mkWebOpen { wo_agent_id : string; wo_url : string }.
Record WebRead := mkWebRead { wr_agent_id : string }.
Record WebClick := mkWebClick { wk_agent_id : string; wk_text : string }.
Record WebType := mkWebType { wt_agent_id : string; wt_text : string; wt_field : option string }.

(** A field that has to be there, and one with [#[serde(default)]]: absent, it
    is the default; of the wrong type, [null] included, the call is refused. *)
Definition field {A} (key : string) (decode : Json -> option A) (j : Json) : option A := v <-? get key j; decode v.
Definition field_or {A} (key : string) (decode : Json -> option A) (dflt : A) (j : Json) : option A :=
  match get key j with Some v => decode v | None => Some dflt end.

Definition any_json (j : Json) : option Json := Some j.
(** [Option<String>] *)
Definition nullable_str (j : Json) : option (option string) :=
  match j with JNull => Some None | JStr s => Some (Some s) | _ => None end.

Definition decode_step (j : Json) : option GuiStep :=
  tool <-? field "tool" as_str j; args <-? field_or "args" any_json JNull j; Some (mkGuiStep tool args).

(** [Vec<GuiStep>]: one bad step refuses the call. *)
Fixpoint decode_all {A} (decode : Json -> option A) (l : list Json) : option (list A) :=
  match l with
  | [] => Some []
  | j :: l => x <-? decode j; xs <-? decode_all decode l; Some (x :: xs)
  end.
Definition decode_steps (j : Json) : option (list GuiStep) := l <-? as_array j; decode_all decode_step l.

Definition decode_run_one (j : Json) : option RunOne :=
  agent_id <-? field "agent_id" as_str j; script <-? field "script" as_str j;
  destructive <-? field_or "destructive" as_bool false j; Some (mkRunOne agent_id script destructive).
Definition decode_run_all (j : Json) : option RunAll :=
  script <-? field "script" as_str j; destructive <-? field_or "destructive" as_bool false j; Some (mkRunAll script destructive).
Definition decode_gui_action (j : Json) : option GuiAction :=
  agent_id <-? field "agent_id" as_str j; tool <-? field "tool" as_str j;
  args <-? field_or "args" any_json JNull j; Some (mkGuiAction agent_id tool args).
Definition decode_gui_sequence (j : Json) : option GuiSequence :=
  agent_id <-? field "agent_id" as_str j; steps <-? field "steps" decode_steps j;
  continue_on_error <-? field_or "continue_on_error" as_bool false j; Some (mkGuiSequence agent_id steps continue_on_error).
Definition decode_web_open (j : Json) : option WebOpen :=
  agent_id <-? field "agent_id" as_str j; url <-? field "url" as_str j; Some (mkWebOpen agent_id url).
Definition decode_web_read (j : Json) : option WebRead := agent_id <-? field "agent_id" as_str j; Some (mkWebRead agent_id).
Definition decode_web_click (j : Json) : option WebClick :=
  agent_id <-? field "agent_id" as_str j; text <-? field "text" as_str j; Some (mkWebClick agent_id text).
Definition decode_web_type (j : Json) : option WebType :=
  agent_id <-? field "agent_id" as_str j; text <-? field "text" as_str j;
  fld <-? field_or "field" nullable_str None j; Some (mkWebType agent_id text fld).

(** ** The router *)

Inductive ToolCall :=
| TListAgents
| TRunPowershell (p : RunOne)
| TRunPowershellAll (p : RunAll)
| TGuiAction (p : GuiAction)
| TGuiSequence (p : GuiSequence)
| TWebOpen (p : WebOpen)
| TWebRead (p : WebRead)
| TWebClick (p : WebClick)
| TWebType (p : WebType).

(** The tool of that name with its arguments; without one the protocol library
    answers. *)
Definition decode_tool (name : string) (args : Json) : option ToolCall :=
  if bool_decide (name = "list_agents"%string) then Some TListAgents
  else if bool_decide (name = "run_powershell"%string) then TRunPowershell <$> decode_run_one args
  else if bool_decide (name = "run_powershell_all"%string) then TRunPowershellAll <$> decode_run_all args
  else if bool_decide (name = "gui_action"%string) then TGuiAction <$> decode_gui_action args
  else if bool_decide (name = "gui_sequence"%string) then TGuiSequence <$> decode_gui_sequence args
  else if bool_decide (name = "web_open"%string) then TWebOpen <$> decode_web_open args
  else if bool_decide (name = "web_read"%string) then TWebRead <$> decode_web_read args
  else if bool_decide (name = "web_click"%string) then TWebClick <$> decode_web_click args
  else if bool_decide (name = "web_type"%string) then TWebType <$> decode_web_type args
  else None.

Section Router.
Context {S : Type} {HS : HubServer S} (cred : Credentials).
Context (parse_uuid : string -> option Uuid) (print_json : Json -> string) (parse_json : string -> option Json).
Implicit Types (w : World S).

(** A tool that makes one call after another always has its result. *)
Definition ended (r : World S * ToolResult) : World S * option ToolResult := (r.1, Some r.2).

(** [schedule] orders the commands of [run_powershell_all], the one tool whose
    calls run at the same time. *)
Definition run_tool (schedule : list nat) (t : ToolCall) w : World S * option ToolResult :=
  match t with
  | TListAgents => ended (tool_list_agents cred w)
  | TRunPowershell p => ended (tool_run_powershell cred parse_uuid (ro_agent_id p) (ro_script p) (ro_destructive p) w)
  | TRunPowershellAll p => run_powershell_all cred schedule (ra_script p) (ra_destructive p) w
  | TGuiAction p => ended (gui_action cred parse_uuid print_json (ga_agent_id p) (ga_tool p) (ga_args p) w)
  | TGuiSequence p =>
      ended (gui_sequence cred parse_uuid print_json (gq_agent_id p) (gq_steps p) (gq_continue_on_error p) w)
  | TWebOpen p => ended (web_open cred parse_uuid print_json parse_json (wo_agent_id p) (wo_url p) w)
  | TWebRead p => ended (web_read cred parse_uuid print_json parse_json (wr_agent_id p) w)
  | TWebClick p => ended (web_click cred parse_uuid print_json parse_json (wk_agent_id p) (wk_text p) w)
  | TWebType p => ended (web_type cred parse_uuid print_json parse_json (wt_agent_id p) (wt_text p) (wt_field p) w)
  end.

(** ** What a call may ask of the hub *)

Definition script_on (id : Uuid) (script : string) (destructive : bool) : ApiReq :=
  PostCommand id {| ca_script := script; ca_destructive := destructive; ca_kind := None |}.
Definition gui_on (id : Uuid) (tool : string) (args : Json) : ApiReq :=
  PostCommand id {| ca_script := EmptyString; ca_destructive := false; ca_kind := Some (Gui tool (print_json args)) |}.

(** The tools of the laptop's driver behind the web tools. *)
Definition web_tools : list string :=
  ["start_session"; "kmc_ensure_browser"; "get_browser_state"; "browser_navigate"; "browser_click"; "browser_type"]%string.

Definition web_allowed (agent_id : string) (r : ApiReq) : Prop :=
  exists id tool args, parse_uuid agent_id = Some id /\ tool ∈ web_tools /\ r = gui_on id tool args.

(** Only the laptop named, only the script or the tools given, and only as
    destructive as the call says. *)
Definition allowed (t : ToolCall) (r : ApiReq) : Prop :=
  match t with
  | TListAgents => r = GetAgents
  | TRunPowershell p => exists id, parse_uuid (ro_agent_id p) = Some id /\ r = script_on id (ro_script p) (ro_destructive p)
  | TRunPowershellAll p => r = GetAgents \/ exists id, r = script_on id (ra_script p) (ra_destructive p)
  | TGuiAction p => exists id, parse_uuid (ga_agent_id p) = Some id /\ r = gui_on id (ga_tool p) (or_empty (ga_args p))
  | TGuiSequence p =>
      exists id step, parse_uuid (gq_agent_id p) = Some id /\ step ∈ gq_steps p /\ r = gui_on id (gs_tool step) (or_empty (gs_args step))
  | TWebOpen p => web_allowed (wo_agent_id p) r
  | TWebRead p => web_allowed (wr_agent_id p) r
  | TWebClick p => web_allowed (wk_agent_id p) r
  | TWebType p => web_allowed (wt_agent_id p) r
  end.

(** Between [w] and [w'] the hub was sent logins under our name and requests of [P]. *)
Definition ours (P : ApiReq -> Prop) (e : ApiCall * HttpReply) : Prop :=
  e.1 = mkApiCall None (PostLogin (cr_username cred) (cr_password cred)) \/ P (api_req e.1).
Definition sent_only (P : ApiReq -> Prop) w w' : Prop := exists l, w_log w' = w_log w ++ l /\ Forall (ours P) l.
End Router.

Section Sent.
Context {S : Type} {HS : HubServer S} (cred : Credentials).
Context (parse_uuid : string -> option Uuid) (print_json : Json -> string) (parse_json : string -> option Json).
Implicit Types (w : World S) (P : ApiReq -> Prop).
Local Abbreviation sent := (sent_only cred).

Lemma sent_refl P w : sent P w w.
Proof. exists []. by rewrite app_nil_r. Qed.

Lemma sent_trans P w1 w2 w3 : sent P w1 w2 -> sent P w2 w3 -> sent P w1 w3.
Proof. intros (l1 & E1 & F1) (l2 & E2 & F2). exists (l1 ++ l2). rewrite E2, E1, <- app_assoc. split; [done|by apply Forall_app]. Qed.

Lemma sent_mono P Q w w' : (forall r, P r -> Q r) -> sent P w w' -> sent Q w w'.
Proof.
  intros HPQ (l & E & F). exists l. split; [done|]. eapply Forall_impl; [exact F|]. intros e [H|H]; [by left|right; by apply HPQ].
Qed.

(** One step of a call, and the call. *)
Lemma call_step_sent r w c : sent (eq r) w (call_step cred r w c).1.
Proof.
  destruct c as [|k|k t|x]; cbn [call_step]; try apply sent_refl.
  - unfold login, api_exchange. destruct (serve _ _) as [s rep].
    assert (forall tok, sent (eq r) w (mkWorld s tok (w_log w ++ [(mkApiCall None (PostLogin (cr_username cred) (cr_password cred)), rep)])))
      as H by (intros tok; eexists; split; [reflexivity|]; repeat constructor).
    destruct rep as [|code b]; [apply H|]. destruct (negb (is_success code)); [apply H|]. by destruct b as [[]| | | | |]; apply H.
  - unfold api_exchange. destruct (serve _ _) as [s rep].
    assert (sent (eq r) w (mkWorld s (w_token w) (w_log w ++ [(mkApiCall (Some t) r, rep)])))
      as H by (eexists; split; [reflexivity|]; repeat constructor; by right).
    destruct rep as [|code b]; [exact H|]. by destruct ((code =? UNAUTHORIZED) && (k =? 0)%nat).
Qed.

Lemma call_run_sent r fuel w c : sent (eq r) w (call_run cred fuel r w c).1.
Proof.
  revert w c. induction fuel as [|fuel IH]; intros w c; cbn [call_run]; [apply sent_refl|].
  pose proof (call_step_sent r w c) as H. destruct (call_step cred r w c) as [w1 c1]. eapply sent_trans; [exact H|apply IH].
Qed.

Lemma call_sent P r w : P r -> sent P w (call cred r w).1.
Proof.
  intros HP. apply (sent_mono (eq r)); [by intros ? <-|]. unfold call. pose proof (call_run_sent r 5 w CStart) as H.
  destruct (call_run cred 5 r w CStart) as [w1 c]. by destruct c.
Qed.

(** A call whose answer is only taken apart. *)
Lemma list_agents_sent P w : P GetAgents -> sent P w (list_agents cred w).1.
Proof.
  intros HP. unfold list_agents. pose proof (call_sent P GetAgents w HP) as H. by destruct (call cred GetAgents w) as [w1 [[]|]].
Qed.

Lemma run_req_sent P id q w : P (PostCommand id q) -> sent P w (run_req cred id q w).1.
Proof. intros HP. unfold run_req. pose proof (call_sent P _ w HP) as H. by destruct (call cred (PostCommand id q) w) as [w1 [[]|]]. Qed.

Lemma gui_sent P id tool args w : P (gui_on print_json id tool args) -> sent P w (run_gui_tool cred print_json id tool args w).1.
Proof. apply run_req_sent. Qed.

Lemma with_agent_sent P agent_id k w :
  (forall id w, parse_uuid agent_id = Some id -> sent P w (k id w).1) -> sent P w (with_agent (S := S) parse_uuid agent_id k w).1.
Proof. intros H. unfold with_agent. destruct (parse_uuid agent_id) as [id|]; [by apply H|apply sent_refl]. Qed.

Lemma fan_sent P reqs schedule w cs : Forall P reqs -> sent P w (fan_run cred reqs schedule w cs).1.
Proof.
  intros HP. revert w cs. induction schedule as [|i schedule IH]; intros w cs; cbn [fan_run]; [apply sent_refl|].
  destruct (reqs !! i) as [r|] eqn:Er; [|apply IH]. destruct (cs !! i) as [c|] eqn:Ec; [|apply IH].
  pose proof (call_step_sent r w c) as H. destruct (call_step cred r w c) as [w1 c1].
  eapply sent_trans; [|apply IH]. eapply sent_mono; [|exact H]. intros ? <-. by eapply Forall_lookup_1.
Qed.

Lemma gui_steps_sent P id cont i steps w :
  (forall step, step ∈ steps -> P (gui_on print_json id (gs_tool step) (or_empty (gs_args step)))) ->
  sent P w (gui_steps cred print_json id cont i steps w).1.
Proof.
  revert i w. induction steps as [|step steps IH]; intros i w HP; cbn [gui_steps]; [apply sent_refl|].
  pose proof (gui_sent P id (gs_tool step) (or_empty (gs_args step)) w ltac:(apply HP; by left)) as H.
  destruct (run_gui_tool _ _ _ _ _ w) as [w1 x]. destruct (step_outcome x) as [ok body].
  destruct (negb ok && negb cont); [exact H|].
  pose proof (IH (i + 1)%nat w1 ltac:(intros q Hq; apply HP; by right)) as H1.
  destruct (gui_steps _ _ _ _ _ _ w1) as [w2 rs]. by eapply sent_trans.
Qed.

(** ** The web tools *)

Section Web.
Context (P : ApiReq -> Prop) (id : Uuid).
Context (HP : forall tool args, tool ∈ web_tools -> P (gui_on print_json id tool args)).

Lemma gui_json_sent tool args w : tool ∈ web_tools -> sent P w (gui_json cred print_json parse_json id tool args w).1.
Proof.
  intros Ht. unfold gui_json. pose proof (gui_sent P id tool args w (HP _ _ Ht)) as H.
  destruct (run_gui_tool _ _ _ _ _ w) as [w1 [r|e]]; [|exact H]. by destruct (parse_json _).
Qed.

(** Membership in the list of tools. *)
Local Ltac web_tool := refine (proj1 (bool_decide_eq_true _) _); reflexivity.

Lemma web_ctx_sent w : sent P w (web_ctx cred print_json parse_json id w).1.
Proof.
  unfold web_ctx.
  match goal with |- context [gui_json _ _ _ _ "start_session" ?a w] =>
    pose proof (gui_json_sent "start_session" a w ltac:(web_tool)) as H0;
    destruct (gui_json cred print_json parse_json id "start_session" a w) as [w0 x0] end.
  pose proof (gui_json_sent "kmc_ensure_browser" (JObj []) w0 ltac:(web_tool)) as H1.
  destruct (gui_json _ _ _ _ "kmc_ensure_browser" _ w0) as [w1 [ens|e]]; [|by eapply sent_trans].
  destruct (browser_window ens) as [[pid window]|e]; [|by eapply sent_trans].
  match goal with |- context [gui_json _ _ _ _ "get_browser_state" ?a w1] =>
    pose proof (gui_json_sent "get_browser_state" a w1 ltac:(web_tool)) as H2;
    destruct (gui_json cred print_json parse_json id "get_browser_state" a w1) as [w2 [st|e]] end;
    (eapply sent_trans; [exact H0|]; by eapply sent_trans).
Qed.

Lemma web_snapshot_sent target tab w : sent P w (web_snapshot cred print_json parse_json id target tab w).1.
Proof. apply gui_json_sent. web_tool. Qed.

Lemma web_page_sent w : sent P w (web_page cred print_json parse_json id w).1.
Proof.
  unfold web_page. pose proof (web_ctx_sent w) as H. destruct (web_ctx _ _ _ _ w) as [w1 [[target tab]|e]]; [|exact H].
  pose proof (web_snapshot_sent target tab w1) as H1. destruct (web_snapshot _ _ _ _ _ _ w1) as [w2 []]; by eapply sent_trans.
Qed.

Lemma with_page_sent k w : (forall target tab snap w, sent P w (k target tab snap w).1) ->
  sent P w (with_page cred print_json parse_json id k w).1.
Proof.
  intros Hk. unfold with_page. pose proof (web_ctx_sent w) as H. destruct (web_ctx _ _ _ _ w) as [w1 [[target tab]|e]]; [|exact H].
  pose proof (web_snapshot_sent target tab w1) as H1.
  destruct (web_snapshot _ _ _ _ _ _ w1) as [w2 [snap|e]]; [|by eapply sent_trans].
  eapply sent_trans; [exact H|]. eapply sent_trans; [exact H1|apply Hk].
Qed.

Lemma open_sent target tab url w :
  sent P w (match gui_json cred print_json parse_json id "browser_navigate" (web_args target tab [("url", JStr url)]%string) w with
            | (w, inr e) => (w, ToolError (During "navigate" e))
            | (w, inl _) => web_page cred print_json parse_json id w
            end).1.
Proof.
  match goal with |- context [gui_json _ _ _ _ ?t ?a w] =>
    pose proof (gui_json_sent t a w ltac:(web_tool)) as H; destruct (gui_json cred print_json parse_json id t a w) as [w1 [j|e]] end;
    [|exact H]. eapply sent_trans; [exact H|apply web_page_sent].
Qed.

Lemma click_sent text target tab snap w :
  sent P w (match find_ref snap text false with
            | None => (w, ToolError (NoMatch text (available snap)))
            | Some (rf, name) =>
                match gui_json cred print_json parse_json id "browser_click" (web_args target tab [("ref", JStr rf)]%string) w with
                | (w, inr e) => (w, ToolError (During "click" e))
                | (w, inl _) =>
                    match web_page cred print_json parse_json id w with
                    | (w, ToolOk (CPage j)) => (w, ToolOk (CClicked name (Some j)))
                    | (w, _) => (w, ToolOk (CClicked name None))
                    end
                end
            end).1.
Proof.
  destruct (find_ref snap text false) as [[rf name]|]; [|apply sent_refl].
  match goal with |- context [gui_json _ _ _ _ ?t ?a w] =>
    pose proof (gui_json_sent t a w ltac:(web_tool)) as H; destruct (gui_json cred print_json parse_json id t a w) as [w1 [j|e]] end;
    [|exact H]. pose proof (web_page_sent w1) as H1. destruct (web_page _ _ _ _ w1) as [w2 [[]|]]; by eapply sent_trans.
Qed.

Lemma type_sent text fld target tab snap w :
  sent P w (match type_target snap fld with
            | None => (w, ToolError NoTypeable)
            | Some (rf, name) =>
                match gui_json cred print_json parse_json id "browser_type"
                        (web_args target tab [("ref", JStr rf); ("text", JStr text)]%string) w with
                | (w, inr e) => (w, ToolError (During "type" e))
                | (w, inl _) => (w, ToolOk (CTyped name text))
                end
            end).1.
Proof.
  destruct (type_target snap fld) as [[rf name]|]; [|apply sent_refl].
  match goal with |- context [gui_json _ _ _ _ ?t ?a w] =>
    pose proof (gui_json_sent t a w ltac:(web_tool)) as H; destruct (gui_json cred print_json parse_json id t a w) as [w1 [j|e]] end;
    exact H.
Qed.
End Web.
End Sent.

Section Contract.
Context {S : Type} {HS : HubServer S} (cred : Credentials).
Context (parse_uuid : string -> option Uuid) (print_json : Json -> string) (parse_json : string -> option Json).
Implicit Types (w : World S).

Lemma web_sent agent_id id : parse_uuid agent_id = Some id ->
  forall tool args, tool ∈ web_tools -> web_allowed parse_uuid print_json agent_id (gui_on print_json id tool args).
Proof. intros Hid tool args Ht. by exists id, tool, args. Qed.

Lemma run_all_sent schedule p w :
  sent_only cred (allowed parse_uuid print_json (TRunPowershellAll p)) w
    (run_powershell_all cred schedule (ra_script p) (ra_destructive p) w).1.
Proof.
  unfold run_powershell_all.
  pose proof (list_agents_sent cred (allowed parse_uuid print_json (TRunPowershellAll p)) w ltac:(by left)) as H.
  destruct (list_agents cred w) as [w1 [agents|e]]; [|exact H].
  destruct (filter (fun a => av_online a = true) agents) as [|a online]; [exact H|]. set (reqs := map _ (a :: online)).
  assert (Forall (allowed parse_uuid print_json (TRunPowershellAll p)) reqs) as Hr.
  { apply Forall_forall. intros r (x & -> & _)%list_elem_of_fmap. right. by exists (av_agent_id x). }
  pose proof (fan_sent cred _ reqs schedule w1 (fan_start reqs) Hr) as H1.
  destruct (fan_run cred reqs schedule w1 (fan_start reqs)) as [w2 cs]. by eapply sent_trans.
Qed.

(** C30: Whatever a hub answers and however a call ends, a tool sends it nothing
    but our own logins and the requests its arguments stand for: commands go to
    the laptop named and to no other, a script runs there as it was given and
    is destructive only if the call says so, the web tools use only the
    browser's part of the driver, and listing the laptops commands nothing. *)
Theorem tools_send_only_allowed (schedule : list nat) (t : ToolCall) (w : World S) :
  sent_only cred (allowed parse_uuid print_json t) w (run_tool cred parse_uuid print_json parse_json schedule t w).1.
Proof.
  destruct t as [|p|p|p|p|p|p|p|p]; cbn [run_tool ended fst].
  - unfold tool_list_agents. pose proof (list_agents_sent cred (allowed parse_uuid print_json TListAgents) w eq_refl) as H.
    by destruct (list_agents cred w) as [w1 []].
  - apply with_agent_sent. intros id w1 Hid. unfold run_command.
    match goal with |- context [run_req cred id ?q w1] =>
      pose proof (run_req_sent cred (allowed parse_uuid print_json (TRunPowershell p)) id q w1 ltac:(by exists id)) as H;
      by destruct (run_req cred id q w1) as [w2 []] end.
  - apply run_all_sent.
  - apply with_agent_sent. intros id w1 Hid.
    pose proof (gui_sent cred print_json (allowed parse_uuid print_json (TGuiAction p)) id (ga_tool p) (or_empty (ga_args p)) w1
      ltac:(by exists id)) as H. by destruct (run_gui_tool _ _ _ _ _ w1) as [w2 []].
  - apply with_agent_sent. intros id w1 Hid.
    pose proof (gui_steps_sent cred print_json (allowed parse_uuid print_json (TGuiSequence p)) id (gq_continue_on_error p) 0
      (gq_steps p) w1 ltac:(by intros step Hs; exists id, step)) as H. by destruct (gui_steps _ _ _ _ _ _ w1).
  - apply with_agent_sent. intros id w1 Hid. pose proof (web_sent _ _ Hid) as HP.
    pose proof (web_ctx_sent cred print_json parse_json _ id HP w1) as H.
    destruct (web_ctx _ _ _ _ w1) as [w2 [[target tab]|e]]; [|exact H].
    eapply sent_trans; [exact H|by apply open_sent].
  - apply with_agent_sent. intros id w1 Hid. by apply web_page_sent, web_sent.
  - apply with_agent_sent. intros id w1 Hid. pose proof (web_sent _ _ Hid) as HP. apply with_page_sent; [exact HP|].
    intros. by apply click_sent.
  - apply with_agent_sent. intros id w1 Hid. pose proof (web_sent _ _ Hid) as HP. apply with_page_sent; [exact HP|].
    intros. by apply type_sent.
Qed.
End Contract.

(** ** Examples of the arguments *)

(** Absent defaults are filled in; a [null] flag, a missing field and an
    unknown name are refused. *)
Example decode_defaults :
  decode_tool "run_powershell" (JObj [("agent_id", JStr "a"); ("script", JStr "ls")])%string
    = Some (TRunPowershell (mkRunOne "a" "ls" false)) /\
  decode_tool "run_powershell" (JObj [("agent_id", JStr "a"); ("script", JStr "ls"); ("destructive", JNull)])%string = None /\
  decode_tool "web_type" (JObj [("agent_id", JStr "a"); ("text", JStr "x"); ("field", JNull)])%string
    = Some (TWebType (mkWebType "a" "x" None)) /\
  decode_tool "web_open" (JObj [("agent_id", JStr "a")])%string = None /\
  decode_tool "reboot" (JObj []) = None.
Proof. split_and!; reflexivity. Qed.

Example decode_sequence :
  decode_tool "gui_sequence" (JObj [("agent_id", JStr "a"); ("steps", JArr [JObj [("tool", JStr "click")]; JObj [("tool", JStr "type"); ("args", JNum 1)]])])%string
    = Some (TGuiSequence (mkGuiSequence "a" [mkGuiStep "click" JNull; mkGuiStep "type" (JNum 1)] false)).
Proof. reflexivity. Qed.
