(* ===== verification/Browser.v ===== *)
(** * The dedicated browser of the laptop
    ([kmc-agent/src/browser.rs], the paths of [exec.rs] and [config.rs])

    [ensure] finds the Chrome behind the debugging port or starts one, and
    answers with its process and window; the process id is cached between
    calls.  The machine is a class of the system calls it makes.  The second
    half joins it to the tools of Mcp.v. *)
From stdpp Require Import functions.
From S2P Require Import Prelude Float HubState Hub Text Agent HubApi Mcp.

(** ** Settings from the environment *)

Section Env.
Context (env : string -> option text) (exists_file : text -> bool).

Definition CDP_PORT : Z := 9222.

Definition cdp_port : Z := default CDP_PORT (s <-? env "KMC_BROWSER_PORT"; parse_unsigned U16_MAX s).

Definition profile_dir : text :=
  match env "KMC_BROWSER_PROFILE" with
  | Some p => p
  | None => default (str "C:\Temp") (env "LOCALAPPDATA") ++ str "\kmc\dedicated-chrome"
  end.

Definition chrome_candidates : list text :=
  [str "C:\Program Files\Google\Chrome\Application\chrome.exe";
   str "C:\Program Files (x86)\Google\Chrome\Application\chrome.exe"].

Definition chrome_path : option text :=
  match env "KMC_CHROME" with
  | Some p => Some p
  | None => List.find exists_file chrome_candidates
  end.

Definition cua_driver_path : text :=
  match env "KMC_CUA_DRIVER" with
  | Some p => p
  | None =>
      match env "LOCALAPPDATA" with
      | Some l => l ++ str "\Programs\Cua\cua-driver\bin\cua-driver.exe"
      | None => str "cua-driver.exe"
      end
  end.

(** [config.rs]; an interval that does not parse is the default. *)
Definition hub_url : text := default (str "http://127.0.0.1:8080") (env "KMC_HUB_URL").
Definition agent_state_path : text := default (str "agent-state.json") (env "KMC_AGENT_STATE").
Definition status_interval_secs : Z := default 5 (v <-? env "KMC_STATUS_INTERVAL_SECS"; parse_unsigned (2 ^ 64 - 1) v).
End Env.

(** ** The window of a process *)

Definition has_size (w : Json) : bool :=
  0 <? default 0 (b <-? get "bounds" w; get_u64 "width" b).

(** The first window of the process that has a size, or else the first id of
    the others. *)
Fixpoint pick_window (pid : Z) (wins : list Json) (fallback : option Z) : option Z :=
  match wins with
  | [] => fallback
  | w :: wins =>
      if bool_decide (get_u64 "pid" w = Some pid) then
        let wid := get_u64 "window_id" w in
        if has_size w then wid
        else pick_window pid wins (match fallback with Some f => Some f | None => wid end)
      else pick_window pid wins fallback
  end.

(** [listed]: what [list_windows] printed, if it ran and is JSON. *)
Definition window_of (listed : option Json) (pid : Z) : option Z :=
  v <-? listed; wins <-? get_array "windows" v; pick_window pid wins None.

(** ** The machine *)

Class BrowserOs (M : Type) := {
  os_cdp_alive : M -> Z -> M * bool;
  (** what [Get-NetTCPConnection] prints, if PowerShell runs *)
  os_listener : M -> Z -> M * option text;
  os_list_windows : M -> M * option Json;
  (** the error, if it fails *)
  os_spawn : M -> text -> list text -> M * option string;
  os_mkdir : M -> text -> M;
  os_sleep : M -> Z -> M;
  os_ensure_daemon : M -> M
}.

Definition chrome_flag (name value : text) : text := str "--" ++ name ++ str "=" ++ value.

Section Ensure.
Context {M : Type} {B : BrowserOs M} (env : string -> option text) (exists_file : text -> bool).

Definition listener_pid (m : M) (port : Z) : M * option Z :=
  let '(m, out) := os_listener m port in (m, s <-? out; parse_u32 (trim s)).

Definition window_id_for (m : M) (pid : Z) : M * option Z :=
  let '(m, listed) := os_list_windows m in (m, window_of listed pid).

(** At most [n] looks, 200 ms apart. *)
Fixpoint wait_cdp (n : nat) (m : M) (port : Z) : M :=
  match n with
  | O => m
  | S n => let '(m, up) := os_cdp_alive m port in if up then m else wait_cdp n (os_sleep m 200) port
  end.

Fixpoint wait_window (n : nat) (m : M) (pid : Z) : M * option Z :=
  match n with
  | O => (m, None)
  | S n =>
      let '(m, wid) := window_id_for m pid in
      match wid with Some w => (m, Some w) | None => wait_window n (os_sleep m 200) pid end
  end.

Definition window_reply (pid wid port : Z) (reused : bool) : Json :=
  JObj [("pid", JNum pid); ("window_id", JNum wid); ("port", JNum port); ("reused", JBool reused)]%string.
Definition no_window_reply (pid port : Z) : Json :=
  JObj [("pid", JNum pid); ("port", JNum port); ("reused", JBool false); ("warning", JStr "window_id not found yet")]%string.
Definition error_reply (e : string) : Json := JObj [("error", JStr e)]%string.

Definition chrome_args (port : Z) (profile : text) : list text :=
  [chrome_flag (str "remote-debugging-port") (to_string port); chrome_flag (str "user-data-dir") profile;
   str "--no-first-run"; str "--no-default-browser-check"; str "about:blank"].

(** The cache and the machine as they are left, and the answer when a
    running browser with a window was found. *)
Definition reuse (m : M) (cached : option Z) (port : Z) : M * option Z * option Json :=
  let '(m, up) := os_cdp_alive m port in
  if negb up then (m, cached, None)
  else
    let '(m, found) :=
      match cached with
      | Some pid =>
          let '(m, wid) := window_id_for m pid in (m, w <-? wid; Some (window_reply pid w port true))
      | None => (m, None)
      end in
    match found with
    | Some r => (m, cached, Some r)
    | None =>
        let '(m, pid) := listener_pid m port in
        match pid with
        | Some pid =>
            let '(m, wid) := window_id_for m pid in
            (m, Some pid, w <-? wid; Some (window_reply pid w port true))
        | None => (m, cached, None)
        end
    end.

Definition launch_browser (m : M) (cached : option Z) (port : Z) : M * option Z * Json :=
  match chrome_path env exists_file with
  | None => (m, cached, error_reply "chrome.exe not found (set KMC_CHROME)")
  | Some chrome =>
      let profile := profile_dir env in
      let m := os_mkdir m profile in
      let '(m, failed) := os_spawn m chrome (chrome_args port profile) in
      match failed with
      | Some e => (m, cached, error_reply ("spawn chrome: " +:+ e))
      | None =>
        let m := wait_cdp 40 m port in
        let '(m, pid) := listener_pid m port in
        match pid with
        | None => (m, cached, error_reply "chrome launched but CDP port not listening")
        | Some pid =>
            let '(m, wid) := wait_window 15 m pid in
            (m, Some pid, match wid with Some w => window_reply pid w port false | None => no_window_reply pid port end)
        end
      end
  end.

Definition ensure (m : M) (cached : option Z) : M * option Z * Json :=
  let port := cdp_port env in
  let m := os_ensure_daemon m in
  let '(m, cached, found) := reuse m cached port in
  match found with
  | Some r => (m, cached, r)
  | None => launch_browser m cached port
  end.

(** The script of [unify], up to its constant rest. *)
Definition unify_script (rest prof : text) (port : Z) : text :=
  str "$ErrorActionPreference='SilentlyContinue'" ++ [LF] ++ str "$prof='" ++ prof ++ str "'; $port=" ++ to_string port
  ++ [LF] ++ rest.

(** The machine as it is left, and the script that is run, if any. *)
Definition unify (rest : text) (m : M) (writes : bool) : M * option text :=
  let on := match env "KMC_UNIFY_BROWSER" with
            | Some v => negb (bool_decide (v = [])) && negb (bool_decide (v = str "0"))
            | None => false
            end in
  if negb on then (m, None)
  else match chrome_path env exists_file with
       | None => (m, None)
       | Some _ =>
           let prof := profile_dir env in
           (os_mkdir m prof, if writes then Some (unify_script rest prof (cdp_port env)) else None)
       end.
End Ensure.

(** ** What the calls of the machine do *)

Record View := mkView {
  vw_up : Z -> bool;
  vw_listener : Z -> option text;
  vw_windows : option Json;
  (** how many processes were started *)
  vw_spawned : nat
}.

(** Looking changes nothing; sleeping may change all but the count; a driver
    that answers is left alone. *)
Class BrowserLaws {M} (B : BrowserOs M) := {
  view : M -> View;
  law_alive m p : view (os_cdp_alive m p).1 = view m /\ (os_cdp_alive m p).2 = vw_up (view m) p;
  law_listener m p : view (os_listener m p).1 = view m /\ (os_listener m p).2 = vw_listener (view m) p;
  law_windows m : view (os_list_windows m).1 = view m /\ (os_list_windows m).2 = vw_windows (view m);
  law_spawn m e a : vw_spawned (view (os_spawn m e a).1) = S (vw_spawned (view m));
  law_mkdir m d : view (os_mkdir m d) = view m;
  law_sleep m t : vw_spawned (view (os_sleep m t)) = vw_spawned (view m);
  law_daemon m : vw_spawned (view (os_ensure_daemon m)) = vw_spawned (view m);
  law_daemon_up m : is_Some (vw_windows (view m)) -> view (os_ensure_daemon m) = view m
}.

Section EnsureProofs.
Context {M : Type} {B : BrowserOs M} {L : BrowserLaws B} (env : string -> option text) (exists_file : text -> bool).

Definition listener_of (v : View) (port : Z) : option Z := s <-? vw_listener v port; parse_u32 (trim s).

Lemma window_id_for_spec m pid :
  view (window_id_for m pid).1 = view m /\ (window_id_for m pid).2 = window_of (vw_windows (view m)) pid.
Proof.
  unfold window_id_for. destruct (law_windows m) as [H1 H2]. destruct (os_list_windows m). cbn [fst snd] in *. by subst.
Qed.

Lemma listener_pid_spec m port :
  view (listener_pid m port).1 = view m /\ (listener_pid m port).2 = listener_of (view m) port.
Proof.
  unfold listener_pid, listener_of. destruct (law_listener m port) as [H1 H2]. destruct (os_listener m port).
  cbn [fst snd] in *. by subst.
Qed.

Lemma wait_cdp_spawned n m port : vw_spawned (view (wait_cdp n m port)) = vw_spawned (view m).
Proof.
  revert m. induction n as [|n IH]; intros m; [done|]. cbn [wait_cdp]. destruct (law_alive m port) as [H1 _].
  destruct (os_cdp_alive m port) as [m' up]. cbn [fst] in *. destruct up; [by rewrite H1|]. by rewrite IH, law_sleep, H1.
Qed.

(** The window it ends with is there at the end. *)
Lemma wait_window_spec n m pid : let p := wait_window n m pid in
  vw_spawned (view p.1) = vw_spawned (view m) /\
  (forall w, p.2 = Some w -> window_of (vw_windows (view p.1)) pid = Some w).
Proof.
  revert m. induction n as [|n IH]; intros m; [by split|]. cbn [wait_window]. destruct (window_id_for_spec m pid) as [H1 H2].
  destruct (window_id_for m pid) as [m' wid]. cbn [fst snd] in *. destruct wid as [w|].
  - cbn [fst snd]. rewrite H1. split; [done|]. by intros w' [= <-].
  - destruct (IH (os_sleep m' 200)) as [IH1 IH2]. split; [by rewrite IH1, law_sleep, H1|exact IH2].
Qed.

(** What an answer says. *)
Definition reply_window (r : Json) : option (Z * Z) :=
  match browser_window r with inl p => Some p | inr _ => None end.

Lemma reply_window_reply pid w port b : is_u32 pid -> is_u64 w -> reply_window (window_reply pid w port b) = Some (pid, w).
Proof.
  unfold is_u32, is_u64. intros Hp Hw. unfold reply_window, browser_window.
  change (get_str "error" (window_reply pid w port b)) with (@None string).
  change (get_u64 "pid" (window_reply pid w port b)) with (as_u64 (JNum pid)).
  change (get_u64 "window_id" (window_reply pid w port b)) with (as_u64 (JNum w)). cbn [as_u64].
  replace ((0 <=? pid) && (pid <? 2 ^ 64)) with true by (symmetry; lia).
  by replace ((0 <=? w) && (w <? 2 ^ 64)) with true by (symmetry; lia).
Qed.

Lemma digits_value_nonneg s v : 0 <= v -> 0 <= foldl (fun v c => 10 * v + char_digit c) v s.
Proof.
  revert v. induction s as [|c s IH]; intros v Hv; [done|]. cbn [foldl]. apply IH. unfold char_digit. lia.
Qed.

Lemma parse_unsigned_range max s z : parse_unsigned max s = Some z -> 0 <= z <= max.
Proof.
  unfold parse_unsigned. destruct (_ && _); [|done]. destruct (_ <=? _) eqn:E; [|done].
  intros [= <-]. bool_prop. split; [by apply digits_value_nonneg|done].
Qed.

Lemma listener_of_range v port pid : listener_of v port = Some pid -> is_u32 pid.
Proof.
  unfold listener_of, parse_u32, is_u32, U32_MAX. destruct (vw_listener v port); [|done].
  intros H%parse_unsigned_range. lia.
Qed.

Lemma get_u64_range k j z : get_u64 k j = Some z -> is_u64 z.
Proof.
  unfold get_u64, is_u64. destruct (get k j) as [x|]; [|done]. destruct x; try done. cbn. case_if; [|done].
  intros [= <-]. bool_prop. lia.
Qed.

Lemma pick_window_range pid wins fb w : (forall f, fb = Some f -> is_u64 f) -> pick_window pid wins fb = Some w -> is_u64 w.
Proof.
  revert fb. induction wins as [|x wins IH]; intros fb Hfb; cbn [pick_window]; [apply Hfb|].
  case_if; [|by apply IH]. case_if; [apply get_u64_range|]. apply IH. intros f. destruct fb as [f0|].
  - intros [= <-]. by apply Hfb.
  - apply get_u64_range.
Qed.

Lemma window_of_range listed pid w : window_of listed pid = Some w -> is_u64 w.
Proof.
  unfold window_of. destruct listed as [v|]; [|done]. destruct (get_array _ v) as [wins|]; [|done].
  by apply pick_window_range.
Qed.

(** ** One call *)

Definition cached_ok (c : option Z) : Prop := forall p, c = Some p -> is_u32 p.

(** Where a call with a window leaves the machine: the window is there, its
    process is cached. *)
Definition bound (m : M) (c : option Z) (r : Json) : Prop :=
  forall pid w, reply_window r = Some (pid, w) -> c = Some pid /\ window_of (vw_windows (view m)) pid = Some w.

Lemma reuse_spec m c port : cached_ok c ->
  let '(m', c', found) := reuse m c port in
  view m' = view m /\ cached_ok c' /\
  (forall r, found = Some r -> bound m' c' r /\ is_Some (reply_window r)).
Proof.
  intros Hc. unfold reuse. destruct (law_alive m port) as [H1 H2].
  destruct (os_cdp_alive m port) as [m1 up]. cbn [fst snd] in *. destruct up; cbn [negb]; [|by split_and!].
  set (found := match c with Some pid => _ | None => _ end).
  assert (view found.1 = view m /\ forall r, found.2 = Some r -> bound found.1 c r /\ is_Some (reply_window r)) as [Hv Hr].
  { unfold found. destruct c as [q|]; [|by split]. destruct (window_id_for_spec m1 q) as [V1 V2].
    destruct (window_id_for m1 q) as [m2 wid]. cbn [fst snd] in *. split; [by rewrite V1|]. intros r. destruct wid as [w|]; [|done].
    intros [= <-]. unfold bound. symmetry in V2. rewrite reply_window_reply; [|by apply Hc|by eapply window_of_range].
    split; [|eauto]. intros p w' [= <- <-]. split; [done|]. by rewrite V1. }
  destruct found as [m2 [r|]]; cbn [fst snd] in *; [split_and!; [done..|]; intros r' [= <-]; by apply Hr|].
  destruct (listener_pid_spec m2 port) as [W1 W2]. destruct (listener_pid m2 port) as [m3 [p|]]; cbn [fst snd] in *.
  - destruct (window_id_for_spec m3 p) as [V1 V2]. destruct (window_id_for m3 p) as [m4 wid]. cbn [fst snd] in *.
    symmetry in W2. apply listener_of_range in W2 as Hp.
    split_and!; [by rewrite V1, W1|by intros q [= <-]|]. intros r. destruct wid as [w|]; [|done]. intros [= <-].
    unfold bound. symmetry in V2. rewrite reply_window_reply; [|done|by eapply window_of_range].
    split; [|eauto]. intros p' w' [= <- <-]. split; [done|]. by rewrite V1.
  - split_and!; [by rewrite W1|done..].
Qed.

Lemma error_bound m c e : bound m c (error_reply e).
Proof. intros pid w. discriminate. Qed.

Lemma no_window_bound m c pid port : bound m c (no_window_reply pid port).
Proof.
  intros p w. unfold reply_window, browser_window.
  change (get_str "error" (no_window_reply pid port)) with (@None string).
  change (get_u64 "window_id" (no_window_reply pid port)) with (@None Z).
  by destruct (get_u64 "pid" (no_window_reply pid port)).
Qed.

Lemma launch_spec m c port : cached_ok c ->
  let '(m', c', r) := launch_browser env exists_file m c port in
  (vw_spawned (view m') <= S (vw_spawned (view m)))%nat /\ cached_ok c' /\ bound m' c' r.
Proof.
  intros Hc. unfold launch_browser. destruct (chrome_path _ _) as [chrome|]; [|split_and!; [lia|done|apply error_bound]].
  set (m0 := os_mkdir m _). pose proof (law_spawn m0 chrome (chrome_args port (profile_dir env))) as Hs.
  unfold m0 in Hs at 2. rewrite law_mkdir in Hs.
  destruct (os_spawn _ _ _) as [m1 [e|]]; cbn [fst] in Hs; [split_and!; [lia|done|apply error_bound]|].
  pose proof (wait_cdp_spawned 40 m1 port) as Hw. set (m2 := wait_cdp 40 m1 port) in *.
  destruct (listener_pid_spec m2 port) as [W1 W2]. destruct (listener_pid m2 port) as [m3 [p|]]; cbn [fst snd] in *;
    [|split_and!; [rewrite W1; lia|done|apply error_bound]].
  symmetry in W2. apply listener_of_range in W2 as Hp.
  destruct (wait_window_spec 15 m3 p) as [V1 V2]. destruct (wait_window 15 m3 p) as [m4 wid]. cbn [fst snd] in *.
  split_and!; [rewrite V1, W1; lia|by intros q [= <-]|]. destruct wid as [w|]; [|apply no_window_bound]. unfold bound.
  specialize (V2 w eq_refl). rewrite reply_window_reply; [|done|by eapply window_of_range].
  by intros p' w' [= <- <-].
Qed.

Lemma ensure_spec m c : cached_ok c ->
  let '(m', c', r) := ensure env exists_file m c in
  (vw_spawned (view m') <= S (vw_spawned (view m)))%nat /\ cached_ok c' /\ bound m' c' r.
Proof.
  intros Hc. unfold ensure. pose proof (law_daemon m) as Hd. set (m0 := os_ensure_daemon m) in *.
  pose proof (reuse_spec m0 c (cdp_port env) Hc) as Hr. destruct (reuse m0 c (cdp_port env)) as [[m1 c1] found].
  destruct Hr as (Hv & Hc1 & Hr). destruct found as [r|].
  - split_and!; [rewrite Hv; lia|done|]. by apply Hr.
  - pose proof (launch_spec m1 c1 (cdp_port env) Hc1) as Hl. destruct (launch_browser _ _ _ _ _) as [[m2 c2] r].
    rewrite Hv, Hd in Hl. exact Hl.
Qed.

Lemma ensure_bound_again (m : M) (c : option Z) (pid w : Z) : cached_ok c ->
  let '(m1, c1, r1) := ensure env exists_file m c in
  reply_window r1 = Some (pid, w) -> vw_up (view m1) (cdp_port env) = true ->
  exists m2, ensure env exists_file m1 c1 = (m2, c1, window_reply pid w (cdp_port env) true) /\ view m2 = view m1.
Proof.
  intros Hc. pose proof (ensure_spec m c Hc) as H. destruct (ensure env exists_file m c) as [[m1 c1] r1].
  destruct H as (_ & _ & Hb). intros Hr Hup. destruct (Hb pid w Hr) as [-> Hw].
  unfold ensure. assert (is_Some (vw_windows (view m1))) as Hsome.
  { unfold window_of in Hw. destruct (vw_windows (view m1)); [eauto|done]. }
  pose proof (law_daemon_up m1 Hsome) as Hd. set (m2 := os_ensure_daemon m1) in *. unfold reuse.
  destruct (law_alive m2 (cdp_port env)) as [H1 H2]. destruct (os_cdp_alive m2 (cdp_port env)) as [m3 up].
  cbn [fst snd] in *. rewrite Hd, Hup in H2. subst up. cbn [negb].
  destruct (window_id_for_spec m3 pid) as [V1 V2]. destruct (window_id_for m3 pid) as [m4 wid]. cbn [fst snd] in *.
  rewrite H1, Hd, Hw in V2. subst wid. exists m4. split; [done|]. by rewrite V1, H1.
Qed.

(** A cached process that still has a window is answered with, whoever owns
    the port by now. *)
Theorem stale_cache_wins (m : M) (q w : Z) :
  is_u32 q -> vw_up (view m) (cdp_port env) = true -> window_of (vw_windows (view m)) q = Some w ->
  exists m', ensure env exists_file m (Some q) = (m', Some q, window_reply q w (cdp_port env) true).
Proof.
  intros Hq Hup Hw. unfold ensure. assert (is_Some (vw_windows (view m))) as Hsome.
  { unfold window_of in Hw. destruct (vw_windows (view m)); [eauto|done]. }
  pose proof (law_daemon_up m Hsome) as Hd. set (m2 := os_ensure_daemon m) in *. unfold reuse.
  destruct (law_alive m2 (cdp_port env)) as [H1 H2]. destruct (os_cdp_alive m2 (cdp_port env)) as [m3 up].
  cbn [fst snd] in *. rewrite Hd, Hup in H2. subst up. cbn [negb].
  destruct (window_id_for_spec m3 q) as [V1 V2]. destruct (window_id_for m3 q) as [m4 wid]. cbn [fst snd] in *.
  rewrite H1, Hd, Hw in V2. subst wid. by exists m4.
Qed.
End EnsureProofs.

(** ** The browser through the hub *)

(** The laptops by id, each with the agent's cache. *)
Abbreviation Laptops M := (Uuid -> M * option Z).

Section Remote.
Context (verify_password : string -> string -> bool) (id_text : Uuid -> string) (order : list Laptop -> list Laptop).
Context {M : Type} {B : BrowserOs M} {L : BrowserLaws B} (env : string -> option text) (exists_file : text -> bool).
Context (shell : Uuid -> Laptops M -> string -> Laptops M * (Output + string)).
Context (cua_call : Uuid -> Laptops M -> string -> string -> Laptops M * (Output + string)).
Context (revive : Uuid -> Laptops M -> Laptops M) (exe : string).
Context (fresh_id : nat -> Uuid) (fresh_bytes : nat -> list Z) (cred : Credentials).
Context (print_json : Json -> string) (parse_json : string -> option Json).

(** JSON text neither begins nor ends with a blank, and is read back. *)
Hypothesis json_trimmed : forall j, trim (str (print_json j)) = str (print_json j).
Hypothesis json_read : forall j, parse_json (print_json j) = Some j.
Hypothesis json_text : forall j, print_json j <> EmptyString.

(** [run_gui] on [kmc_ensure_browser]. *)
Definition ensure_browser (a : Uuid) (ls : Laptops M) : Laptops M * string :=
  let '(m, c, r) := ensure env exists_file (ls a).1 (ls a).2 in (<[a := (m, c)]> ls, print_json r).

#[local] Instance browser_hub : HubServer (HubWorld (Laptops M)) :=
  hub_over_laptops verify_password id_text order shell cua_call revive ensure_browser exe fresh_id fresh_bytes.

Abbreviation web_ensure a := (gui_json cred print_json parse_json a "kmc_ensure_browser" (JObj [])).

Lemma ensure_through_hub (a : Uuid) (w : World (HubWorld (Laptops M))) :
  client_ok cred w -> live a (w_server w) ->
  let ls := hw_machines (w_server w) in
  let '(m, c, r) := ensure env exists_file (ls a).1 (ls a).2 in
  exists w', web_ensure a w = (w', inl r) /\ hw_machines (w_server w') = <[a := (m, c)]> ls
             /\ client_ok cred w' /\ live a (w_server w').
Proof using json_trimmed json_read json_text.
  intros Hc Hl ls. unfold gui_json, run_gui_tool, run_kind.
  destruct (run_req_live verify_password id_text order shell cua_call revive ensure_browser exe fresh_id fresh_bytes cred
    (fun _ => None) a {| ca_script := EmptyString; ca_destructive := false;
    ca_kind := Some (Gui "kmc_ensure_browser" (print_json (JObj []))) |} w Hc Hl) as (Hc' & Hl' & id & Hx & Hok).
  change (hub_over_laptops _ _ _ _ _ _ _ _ _ _) with browser_hub in *.
  destruct (run_req cred a _ w) as [w' [r|e]]; cbn [fst snd] in *; [|by destruct Hok].
  unfold exec_run, run_gui in Hx. cbn [HubState.cr_kind default ca_kind from_option Datatypes.id HubState.cr_id] in Hx.
  rewrite bool_decide_true in Hx by done. unfold ensure_browser in Hx. fold ls in Hx.
  destruct (ensure env exists_file (ls a).1 (ls a).2) as [[m c] j]. injection Hx as Hm <-. cbn [res_stdout].
  exists w'. rewrite json_trimmed, bool_decide_false.
  2:{ intros E. apply (json_text j). by destruct (print_json j). }
  rewrite json_trimmed, String.string_of_list_ascii_of_string, json_read. done.
Qed.

(** The administrator's assistant asks twice for the browser of a laptop,
    through the hub: when the first answer names a window, and the port is
    still open then, the second names the same window, starts nothing, and
    leaves what can be seen on the laptop as it was. *)
Theorem browser_stays (a : Uuid) (pid window : Z) (w w1 : World (HubWorld (Laptops M))) (r1 : Json) :
  client_ok cred w -> live a (w_server w) -> cached_ok (hw_machines (w_server w) a).2 ->
  web_ensure a w = (w1, inl r1) -> browser_window r1 = inl (pid, window) ->
  vw_up (view (hw_machines (w_server w1) a).1) (cdp_port env) = true ->
  exists w2 r2, web_ensure a w1 = (w2, inl r2) /\ browser_window r2 = inl (pid, window)
    /\ view (hw_machines (w_server w2) a).1 = view (hw_machines (w_server w1) a).1
    /\ (vw_spawned (view (hw_machines (w_server w2) a).1) <= S (vw_spawned (view (hw_machines (w_server w) a).1)))%nat.
Proof using json_trimmed json_read json_text.
  intros Hc Hl Hca E1 Hb Hup. pose proof (ensure_through_hub a w Hc Hl) as H1. cbn zeta in H1.
  set (ls := hw_machines (w_server w)) in *.
  pose proof (ensure_spec env exists_file (ls a).1 (ls a).2 Hca) as Hs.
  pose proof (ensure_bound_again env exists_file (ls a).1 (ls a).2 pid window Hca) as Hagain.
  destruct (ensure env exists_file (ls a).1 (ls a).2) as [[m1 c1] r].
  destruct H1 as (w1' & E1' & Hm & Hc1 & Hl1). rewrite E1 in E1'. injection E1' as <- <-.
  assert ((hw_machines (w_server w1)) a = (m1, c1)) as Ea by (rewrite Hm; apply fn_lookup_insert).
  rewrite Ea in Hup |- *. cbn [fst snd] in *.
  destruct (Hagain) as (m2 & E2 & Hv); [unfold reply_window; by rewrite Hb|done|].
  pose proof (ensure_through_hub a w1 Hc1 Hl1) as H2. cbn zeta in H2. rewrite Ea in H2. cbn [fst snd] in H2.
  rewrite E2 in H2. destruct H2 as (w2 & W & Hm2 & _). exists w2, (window_reply pid window (cdp_port env) true).
  rewrite Hm2, fn_lookup_insert. cbn [fst]. split_and!; [done| |done|rewrite Hv; apply Hs].
  destruct Hs as (_ & Hc1ok & Hbound). destruct (Hbound pid window) as [-> Hw]; [unfold reply_window; by rewrite Hb|].
  pose proof (reply_window_reply pid window (cdp_port env) true (Hc1ok _ eq_refl) ltac:(by eapply window_of_range)) as Hr.
  unfold reply_window in Hr. revert Hr. destruct (browser_window (window_reply _ _ _ _)); congruence.
Qed.
End Remote.

(** ** A laptop without a browser, and one whose cached process is gone *)

Record ToyLaptop := mkToyLaptop { tl_chrome : option Z; tl_other : option Z; tl_daemon : bool; tl_spawned : nat }.

Definition toy_window (pid wid : Z) : Json :=
  JObj [("pid", JNum pid); ("window_id", JNum wid); ("bounds", JObj [("width", JNum 800)])]%string.

Definition toy_windows (m : ToyLaptop) : option Json :=
  if tl_daemon m then
    Some (JObj [("windows"%string, JArr (match tl_other m with Some p => [toy_window p 5] | None => [] end
                                         ++ match tl_chrome m with Some p => [toy_window p 77] | None => [] end))])
  else None.

#[export] Instance toy_os : BrowserOs ToyLaptop := {|
  os_cdp_alive m p := (m, bool_decide (is_Some (tl_chrome m)));
  os_listener m p := (m, to_string <$> tl_chrome m);
  os_list_windows m := (m, toy_windows m);
  os_spawn m e a := (mkToyLaptop (Some 4242) (tl_other m) (tl_daemon m) (S (tl_spawned m)), None);
  os_mkdir m d := m;
  os_sleep m t := m;
  os_ensure_daemon m := mkToyLaptop (tl_chrome m) (tl_other m) true (tl_spawned m)
|}.

#[export] Instance toy_os_laws : BrowserLaws toy_os.
Proof.
  refine {| view m := mkView (fun _ => bool_decide (is_Some (tl_chrome m))) (fun _ => to_string <$> tl_chrome m)
                             (toy_windows m) (tl_spawned m) |}; try done.
  intros [c o d n]. unfold toy_windows. cbn. destruct d; [done|]. by intros [? ?].
Defined.

Definition empty_env (_ : string) : option text := None.

(** A JSON text: the code of the value in binary digits. *)
Definition JsonTree : Type := gen_tree (Z + bool + string).

Fixpoint json_tree (j : Json) : JsonTree :=
  match j with
  | JNull => GenNode 0 []
  | JBool b => GenLeaf (inl (inr b))
  | JNum z => GenLeaf (inl (inl z))
  | JStr s => GenLeaf (inr s)
  | JArr l => GenNode 1 (map json_tree l)
  | JObj l => GenNode 2 (map (fun kv => GenNode 3 [GenLeaf (inr kv.1); json_tree kv.2]) l)
  end.

Fixpoint tree_json (t : JsonTree) : Json :=
  match t with
  | GenLeaf (inl (inr b)) => JBool b
  | GenLeaf (inl (inl z)) => JNum z
  | GenLeaf (inr s) => JStr s
  | GenNode 1 l => JArr (map tree_json l)
  | GenNode 2 l =>
      JObj (map (fun t => match t with GenNode 3 [GenLeaf (inr k); v] => (k, tree_json v) | _ => (EmptyString, JNull) end) l)
  | GenNode _ _ => JNull
  end.

Lemma tree_json_tree j : tree_json (json_tree j) = j.
Proof.
  revert j. fix IH 1. intros [|b|z|s|l|l]; [reflexivity..| |]; cbn [json_tree tree_json]; rewrite map_map; f_equal.
  - induction l as [|x l IHl]; [done|]. cbn [map]. by rewrite IH, IHl.
  - induction l as [|[k x] l IHl]; [done|]. cbn [map fst snd]. by rewrite IH, IHl.
Qed.

Fixpoint digits_of (p : positive) : text :=
  match p with xO p => "0"%char :: digits_of p | xI p => "1"%char :: digits_of p | xH => ["."%char] end.
Fixpoint of_digits (s : text) : option positive :=
  match s with
  | "0"%char :: s => xO <$> of_digits s
  | "1"%char :: s => xI <$> of_digits s
  | ["."%char] => Some xH
  | _ => None
  end.

Lemma of_digits_of p : of_digits (digits_of p) = Some p.
Proof. induction p as [p IH|p IH|]; simpl; by rewrite ?IH. Qed.

Lemma digits_visible p : forallb (fun c => negb (is_whitespace c)) (digits_of p) = true.
Proof. by induction p. Qed.

Definition toy_print (j : Json) : string := String.string_of_list_ascii (digits_of (encode (json_tree j))).
Definition toy_parse (s : string) : option Json := p <-? of_digits (str s); t <-? decode p; Some (tree_json t).

Lemma toy_str j : str (toy_print j) = digits_of (encode (json_tree j)).
Proof. apply String.list_ascii_of_string_of_list_ascii. Qed.

Lemma toy_trimmed j : trim (str (toy_print j)) = str (toy_print j).
Proof. rewrite toy_str. apply trim_id, digits_visible. Qed.

Lemma toy_read j : toy_parse (toy_print j) = Some j.
Proof. unfold toy_parse. by rewrite toy_str, of_digits_of, decode_encode, tree_json_tree. Qed.

Lemma toy_print_text j : toy_print j <> EmptyString.
Proof. intros E. apply (f_equal str) in E. rewrite toy_str in E. by destruct (encode (json_tree j)). Qed.

Example ensure_example :
  ensure empty_env (fun _ => true) (mkToyLaptop None None false 0) None
  = (mkToyLaptop (Some 4242) None true 1, Some 4242, window_reply 4242 77 9222 false).
Proof. vm_compute. reflexivity. Qed.

Lemma stale_cache_wins_witness :
  exists m', ensure empty_env (fun _ => true) (mkToyLaptop (Some 4242) (Some 99) true 1) (Some 99)
             = (m', Some 99, window_reply 99 5 9222 true).
Proof.
  apply (stale_cache_wins empty_env (fun _ => true) (mkToyLaptop (Some 4242) (Some 99) true 1) 99 5);
    [split; lia|vm_compute; reflexivity..].
Defined.

Definition toy_shell (a : Uuid) (ls : Laptops ToyLaptop) (s : string) : Laptops ToyLaptop * (Output + string) :=
  (ls, inr EmptyString).
Definition toy_cua (a : Uuid) (ls : Laptops ToyLaptop) (t s : string) : Laptops ToyLaptop * (Output + string) :=
  (ls, inr EmptyString).

Definition toy_server : HubServer (HubWorld (Laptops ToyLaptop)) :=
  browser_hub String.eqb (fun _ => EmptyString) (fun l => l) empty_env (fun _ => true) toy_shell toy_cua (fun _ ls => ls)
    "cua-driver.exe" (fun n => Z.of_nat n) (fun n => [Z.of_nat n]) toy_print.

Definition toy_world : World (HubWorld (Laptops ToyLaptop)) :=
  mkWorld (mkHubWorld mcp_hub (fun _ => (mkToyLaptop None None false 0, None)) 0) (Some "stale"%string) [].

Definition toy_first : World (HubWorld (Laptops ToyLaptop)) * (Json + ToolErr) :=
  gui_json (HS := toy_server) mcp_cred toy_print toy_parse 7 "kmc_ensure_browser" (JObj []) toy_world.

Lemma toy_client_ok : client_ok (HS := toy_server) mcp_cred toy_world.
Proof. split. cbn [valid toy_server browser_hub hub_over_laptops hub_server admits]. by exists 1. Qed.

Lemma toy_live : live 7 (w_server toy_world).
Proof. split; [|constructor]. eexists. split; [reflexivity|]. vm_compute. done. Qed.

Lemma browser_stays_witness :
  exists w2 r2, gui_json (HS := toy_server) mcp_cred toy_print toy_parse 7 "kmc_ensure_browser" (JObj []) toy_first.1 = (w2, inl r2)
    /\ browser_window r2 = inl (4242, 77).
Proof.
  destruct (browser_stays String.eqb (fun _ => EmptyString) (fun l => l) empty_env (fun _ => true) toy_shell toy_cua
    (fun _ ls => ls) "cua-driver.exe" (fun n => Z.of_nat n) (fun n => [Z.of_nat n]) mcp_cred toy_print toy_parse
    toy_trimmed toy_read toy_print_text 7 4242 77 toy_world toy_first.1 (window_reply 4242 77 9222 false))
    as (w2 & r2 & H1 & H2 & _).
  - exact toy_client_ok.
  - exact toy_live.
  - done.
  - vm_compute. reflexivity.
  - vm_compute. reflexivity.
  - vm_compute. reflexivity.
  - by exists w2, r2.
Defined.
