(* ===== verification/Boot.v ===== *)
(** * Starting the programs ([kmc-agent/src/main.rs], the sequence of
    [kmc-streamhost/src/host.rs] [start], [kmc-mcp/src/main.rs])

    One logon session of a laptop: the instances of the agent that are
    started in it, the named mutex they claim, and the ports.  A mutex and a
    bound port live as long as a process that holds them. *)
From S2P Require Import Prelude HubState Hub Text Agent HubApi Service StreamHost Web.

(** ** A logon session *)

Record Session := mkSession {
  (** processes with a handle to the mutex *)
  se_holders : gset nat;
  (** ports, by the agent that bound them; [None] is another program *)
  se_ports : gmap Z (option nat);
  se_live : gmap nat Agent;
  se_file : StateFile;
  se_fs : gmap string string
}.

(** What one start meets. *)
Record BootEnv := mkBootEnv {
  be_mutex_ok : bool;
  be_provision : ProvisionEnv;
  be_installed : bool;
  be_tailscale_ip : option text;
  be_writable : string -> bool;
  be_created : option (string * string);
  be_clients_ok : bool;
  be_acceptor_ok : bool
}.

Inductive HostState := HostUp | HostFailed | NoTailnet.
Inductive BootEnd := AlreadyRunning | NotProvisioned | NoToken | Live (a : Agent) (host : HostState).

(** [claim_single_instance]: the handles as they are left, and the answer. *)
Definition claim_single_instance (mutex_ok : bool) (i : nat) (holders : gset nat) : gset nat * bool :=
  if negb mutex_ok then (holders, true)
  else if bool_decide (holders = ∅) then ({[i]}, true) else (holders, false).

Definition free (ports : gmap Z (option nat)) (p : Z) : bool := bool_decide (ports !! p = None).
Definition take_ports (i : nat) (ps : list Z) (ports : gmap Z (option nat)) : gmap Z (option nat) :=
  foldl (fun m p => <[p := Some i]> m) ports ps.

Definition listener_port (c : HostConfig) (l : Listener) : Z :=
  match l with HttpListener => hc_http_port c | HttpsListener => hc_https_port c end.

Definition CONTROL_PORT : Z := 47999.

(** [host::start]: the files, the ports and whether it succeeded. *)
Definition host_boot (i : nat) (c : HostConfig) (e : BootEnv) (fs : gmap string string) (ports : gmap Z (option nat))
    : gmap string string * gmap Z (option nat) * bool :=
  match load_or_create_cert (be_writable e) (be_created e) fs (hc_cert_path c) (hc_key_path c) with
  | (fs, None) => (fs, ports, false)
  | (fs, Some _) =>
      if negb (be_clients_ok e) then (fs, ports, false)
      else
        let '(ls, ok) := serve true (free ports (hc_http_port c)) (be_acceptor_ok e) (free ports (hc_https_port c)) in
        let ports := take_ports i (map (listener_port c) ls) ports in
        if negb ok then (fs, ports, false)
        else if negb (free ports CONTROL_PORT) then (fs, ports, false)
        else
          let ports := take_ports i [CONTROL_PORT] ports in
          if negb (free ports (hc_rtsp_port c)) then (fs, ports, false)
          else (fs, take_ports i [hc_rtsp_port c] ports, true)
  end.

(** A process ends: its handle and its ports go with it. *)
Definition end_process (i : nat) (s : Session) : Session :=
  {| se_holders := se_holders s ∖ {[i]}; se_ports := filter (fun p => p.2 <> Some i) (se_ports s);
     se_live := delete i (se_live s); se_file := se_file s; se_fs := se_fs s |}.

(** [main] of the agent, up to its reconnect loop. *)
Definition agent_main (i : nat) (e : BootEnv) (s : Session) : Session * BootEnd :=
  let '(holders, first) := claim_single_instance (be_mutex_ok e) i (se_holders s) in
  if negb first then (s, AlreadyRunning)
  else
    let s := mkSession holders (se_ports s) (se_live s) (se_file s) (se_fs s) in
    match provision (se_file s) (be_provision e) with
    | (file, None, _) => (end_process i (mkSession holders (se_ports s) (se_live s) file (se_fs s)), NotProvisioned)
    | (file, Some state, _) =>
        let '(fs, ports, host) :=
          match self_ip (be_installed e) (be_tailscale_ip e) with
          | None => (se_fs s, se_ports s, NoTailnet)
          | Some _ =>
              let '(fs, ports, ok) := host_boot i host_config_default e (se_fs s) (se_ports s) in
              (fs, ports, if ok then HostUp else HostFailed)
          end in
        if token_empty state then (end_process i (mkSession holders ports (se_live s) file fs), NoToken)
        else
          let a := {| ag_file := file; ag_state := state |} in
          (mkSession holders ports (<[i := a]> (se_live s)) file fs, Live a host)
    end.

Inductive SessionEvent :=
| Start (i : nat) (e : BootEnv)
| Turn (i : nat) (c : ConnectEnv) (removed : bool) (p : ProvisionEnv)
| Kill (i : nat).

Definition session_step (s : Session) (ev : SessionEvent) : Session :=
  match ev with
  | Start i e => (agent_main i e s).1
  | Turn i c removed p =>
      match se_live s !! i with
      | None => s
      | Some a =>
          let a := agent_turn a c removed p in
          mkSession (se_holders s) (se_ports s) (<[i := a]> (se_live s)) (ag_file a) (se_fs s)
      end
  | Kill i => end_process i s
  end.

Definition session_run (s : Session) (evs : list SessionEvent) : Session := foldl session_step s evs.

(** ** The tools server *)

(** [main] of the MCP server: [None] when the configuration is incomplete. *)
Definition mcp_main (var : string -> option string) : option (text * Credentials) :=
  match from_env var with inl c => Some c | inr _ => None end.

(** ** One instance *)

Record session_ok (s : Session) : Prop := {
  so_holders : forall i, i ∈ se_holders s <-> is_Some (se_live s !! i);
  so_one : forall i j, i ∈ se_holders s -> j ∈ se_holders s -> i = j;
  so_ports : forall p i, se_ports s !! p = Some (Some i) -> i ∈ se_holders s
}.

Definition guarded (ev : SessionEvent) : bool := match ev with Start _ e => be_mutex_ok e | _ => true end.

Lemma end_process_ok i s : session_ok s -> session_ok (end_process i s).
Proof.
  intros [H1 H2 H3]. split; cbn [end_process se_holders se_ports se_live].
  - intros j. rewrite elem_of_difference, elem_of_singleton, H1, lookup_delete_is_Some. naive_solver.
  - intros j k [Hj _]%elem_of_difference [Hk _]%elem_of_difference. by apply H2.
  - intros p j [Hp Hne]%map_lookup_filter_Some. cbn in Hne. apply elem_of_difference. split; [by eapply H3|].
    apply not_elem_of_singleton. congruence.
Qed.

Lemma take_ports_lookup i ps : forall ports p j,
  take_ports i ps ports !! p = Some (Some j) -> j = i \/ ports !! p = Some (Some j).
Proof.
  induction ps as [|q ps IH]; intros ports p j H; [by right|]. apply IH in H as [->|H]; [by left|].
  destruct (decide (p = q)) as [->|Hne].
  - rewrite lookup_insert_eq in H. left. congruence.
  - rewrite lookup_insert_ne in H by done. by right.
Qed.

Lemma host_boot_ports i c e fs ports p j :
  (host_boot i c e fs ports).1.2 !! p = Some (Some j) -> j = i \/ ports !! p = Some (Some j).
Proof.
  unfold host_boot. destruct (load_or_create_cert _ _ _ _ _) as [fs' [k|]]; [|by right].
  destruct (negb (be_clients_ok e)); [by right|]. destruct (serve _ _ _ _) as [ls ok].
  destruct (negb ok); [apply take_ports_lookup|]. destruct (negb (free _ _)); [apply take_ports_lookup|].
  destruct (negb (free _ _)); cbn [fst snd]; intros H;
    repeat (apply take_ports_lookup in H as [H|H]; [by left|]); by right.
Qed.

(** The session a first instance leaves when it ends. *)
Lemma end_process_fresh i s : (forall j, se_live s !! j = None) ->
  (forall p j, se_ports s !! p = Some (Some j) -> j = i) -> se_holders s ⊆ {[i]} -> session_ok (end_process i s).
Proof.
  intros Hl Hp Hh. split; cbn [end_process se_holders se_ports se_live].
  - intros j. rewrite elem_of_difference, lookup_delete_is_Some, Hl, is_Some_alt, elem_of_singleton. set_solver.
  - set_solver.
  - intros p j [Hj Hne]%map_lookup_filter_Some. cbn in Hne. apply Hp in Hj. congruence.
Qed.

Lemma agent_main_ok i e s : be_mutex_ok e = true -> session_ok s -> session_ok (agent_main i e s).1.
Proof.
  intros Hm Hs. unfold agent_main, claim_single_instance. rewrite Hm. cbn [negb].
  case_bool_decide as Hh; cbn [negb]; [|done]. destruct Hs as [H1 H2 H3].
  assert (forall j, se_live s !! j = None) as Hl.
  { intros j. apply eq_None_not_Some. rewrite <- H1, Hh. set_solver. }
  assert (forall p j, se_ports s !! p <> Some (Some j)) as Hp.
  { intros p j Hpj. apply H3 in Hpj. rewrite Hh in Hpj. set_solver. }
  cbn [se_file se_ports se_live se_fs].
  destruct (provision (se_file s) (be_provision e)) as [[file [state|]] t].
  2: { apply end_process_fresh; cbn [se_live se_ports se_holders]; [done| |done]. intros p j H. by destruct (Hp p j). }
  destruct (match self_ip _ _ with Some _ => _ | None => _ end) as [[fs ports] host] eqn:Eh.
  assert (forall p j, ports !! p = Some (Some j) -> j = i) as Hpi.
  { intros p j Hj. destruct (self_ip _ _).
    - destruct (host_boot i host_config_default e (se_fs s) (se_ports s)) as [[fs' ports'] ok] eqn:Eb. injection Eh as <- <- <-.
      pose proof (host_boot_ports i host_config_default e (se_fs s) (se_ports s) p j) as H. rewrite Eb in H.
      destruct (H Hj) as [|H']; [done|by apply Hp in H'].
    - injection Eh as <- <- <-. by apply Hp in Hj. }
  destruct (token_empty state); cbn [fst]; [by apply end_process_fresh|].
  split; cbn [se_holders se_ports se_live].
  - intros j. rewrite elem_of_singleton. destruct (decide (j = i)) as [->|Hne]; [rewrite lookup_insert_eq|rewrite lookup_insert_ne, Hl by done].
    + by split; eauto.
    + split; [done|by intros []].
  - set_solver.
  - intros p j Hj. apply elem_of_singleton. eauto.
Qed.

Lemma session_step_ok s ev : guarded ev = true -> session_ok s -> session_ok (session_step s ev).
Proof.
  intros Hg Hs. destruct ev as [i e|i c r p|i]; cbn [session_step guarded] in *.
  - by apply agent_main_ok.
  - destruct (se_live s !! i) as [a|] eqn:El; [|done]. destruct Hs as [H1 H2 H3]. split; cbn [se_holders se_ports se_live]; [|done|done].
    intros j. rewrite H1. destruct (decide (j = i)) as [->|]; [rewrite lookup_insert_eq, El; split; eauto|by rewrite lookup_insert_ne].
  - by apply end_process_ok.
Qed.

Lemma session_run_ok evs : forall s, Forall (fun ev => guarded ev = true) evs -> session_ok s -> session_ok (session_run s evs).
Proof.
  induction evs as [|ev evs IH]; intros s Hg Hs; [done|]. apply Forall_cons in Hg as [Hg Hgs].
  apply IH; [done|]. by apply session_step_ok.
Qed.

(** Where the mutex can be created, at most one agent of a session is ever
    alive, whatever is started, fails, reconnects or is killed in which order,
    and every port an agent holds is held by that one. *)
Theorem single_instance s evs (Hs : session_ok s) (Hg : Forall (fun ev => guarded ev = true) evs) :
  let s' := session_run s evs in
  (forall i j, is_Some (se_live s' !! i) -> is_Some (se_live s' !! j) -> i = j) /\
  (forall p i, se_ports s' !! p = Some (Some i) -> is_Some (se_live s' !! i)).
Proof.
  cbn zeta. destruct (session_run_ok evs s Hg Hs) as [H1 H2 H3]. split.
  - intros i j Hi Hj. apply H2; by apply H1.
  - intros p i Hp. apply H1. by eapply H3.
Qed.

(** ** Without a tailnet *)

(** Whether the events start or end a process. *)
Definition only_turns (evs : list SessionEvent) : bool := forallb (fun ev => match ev with Turn _ _ _ _ => true | _ => false end) evs.

Lemma turns_keep_ports evs : forall s, only_turns evs = true -> se_ports (session_run s evs) = se_ports s.
Proof.
  induction evs as [|ev evs IH]; intros s H; [done|]. cbn [only_turns forallb] in H. apply andb_prop in H as [He H].
  change (session_run s (ev :: evs)) with (session_run (session_step s ev) evs). rewrite IH by done.
  destruct ev; [done| |done]. cbn [session_step]. by destruct (se_live s !! i).
Qed.

(** An agent started before the tailnet is up binds no port, then or at any
    later turn; but once the address is there its greeting reports it, and the
    hub records for administrators an address where nobody listens. *)
Theorem late_tailnet_no_host (verify_password : string -> string -> bool) (id_text : Uuid -> string)
    i e s s' a evs (h : Hub) (tid : nat) (peer name addr : string)
    (Hboot : agent_main i e s = (s', Live a NoTailnet)) (Hturns : only_turns evs = true)
    (Hknown : verify_agent (hub_db h) (as_agent_id (ag_state a)) (as_token (ag_state a)) = Some name) :
  se_ports (session_run s' evs) = se_ports s /\
  exists h', thread_run verify_password id_text tid
    [IFrame (Text (Some (hello_of (ag_state a) (Some addr)))); INone; INone; INone] h (AwHello peer)
    = (h', AwHelloOk (as_agent_id (ag_state a)) (next_conn_id h)) /\
  agent_addr h' !! as_agent_id (ag_state a) = Some addr.
Proof.
  split.
  - rewrite turns_keep_ports by done. unfold agent_main in Hboot.
    destruct (claim_single_instance _ _ _) as [holders []]; cbn [negb] in Hboot; [|done]. cbn [se_file se_ports se_live se_fs] in Hboot.
    destruct (provision _ _) as [[file [state|]] t]; [|done].
    destruct (self_ip _ _); [destruct (host_boot _ _ _ _ _) as [[fs ports] []]|]; destruct (token_empty state); simplify_eq; done.
  - destruct (hello_registers verify_password id_text tid h peer _ (as_name (ag_state a)) _ addr name Hknown) as (h' & Hr & _ & _ & _ & Ha & _).
    exists h'. split; [exact Hr|]. by rewrite Ha, lookup_insert_eq.
Qed.

(** ** A host that starts halfway *)

(** When only the last port is taken by another program the start fails, but
    the web server and the control channel keep their ports; the agent goes on
    without a host. *)
Theorem host_half_started i e fs ports keys fs'
    (Hc : load_or_create_cert (be_writable e) (be_created e) fs "streamhost-cert.pem" "streamhost-key.pem" = (fs', Some keys))
    (Hm : be_clients_ok e && be_acceptor_ok e = true)
    (Hfree : ports !! 47989 = None /\ ports !! 47984 = None /\ ports !! 47999 = None)
    (Htaken : ports !! 48010 = Some None) :
  exists ports', host_boot i host_config_default e fs ports = (fs', ports', false) /\
  ports' !! 47989 = Some (Some i) /\ ports' !! 47984 = Some (Some i) /\ ports' !! 47999 = Some (Some i).
Proof.
  apply andb_prop in Hm as [Hm1 Hm2]. destruct Hfree as (F1 & F2 & F3). unfold host_boot.
  cbn [hc_cert_path hc_key_path host_config_default]. rewrite Hc, Hm1. cbn [negb hc_http_port hc_https_port hc_rtsp_port host_config_default].
  unfold free. rewrite F1, F2, Hm2. cbn [serve negb bool_decide decide_rel map listener_port].
  rewrite !bool_decide_true by done. cbn [serve negb map listener_port take_ports foldl hc_http_port hc_https_port host_config_default].
  unfold CONTROL_PORT. rewrite bool_decide_true by (by rewrite !lookup_insert_ne).
  cbn [negb]. rewrite bool_decide_false by (by rewrite !lookup_insert_ne, Htaken).
  eexists. split; [reflexivity|]. cbn [take_ports foldl]. split_and!.
  - by rewrite !lookup_insert_ne, lookup_insert_eq by done.
  - by rewrite lookup_insert_ne, lookup_insert_eq by done.
  - by rewrite lookup_insert_eq.
Qed.

(** ** Witnesses *)

Definition session_empty : Session := mkSession ∅ ∅ ∅ NoFile ∅.
Definition boot_example (ip : option text) : BootEnv :=
  {| be_mutex_ok := true; be_provision := mkProvisionEnv [Some (mkLaptop 7 "aa" "student-01" "t")] true 1 2;
     be_installed := true; be_tailscale_ip := ip; be_writable := fun _ => true; be_created := Some ("cert"%string, "key"%string);
     be_clients_ok := true; be_acceptor_ok := true |}.

Lemma session_empty_ok : session_ok session_empty.
Proof.
  split; cbn.
  - intros i. rewrite lookup_empty. split; [set_solver|by intros []].
  - set_solver.
  - intros p i H. by rewrite lookup_empty in H.
Qed.

(** The automatic start and the user's own. *)
Lemma single_instance_witness :
  let evs := [Start 1 (boot_example (Some (str "100.64.0.7"))); Start 2 (boot_example (Some (str "100.64.0.7")))] in
  (forall p i, se_ports (session_run session_empty evs) !! p = Some (Some i) -> is_Some (se_live (session_run session_empty evs) !! i)) /\
  is_Some (se_live (session_run session_empty evs) !! 1%nat) /\ se_live (session_run session_empty evs) !! 2%nat = None.
Proof.
  cbn zeta. split; [|split; vm_compute; by eauto].
  apply (single_instance session_empty); [apply session_empty_ok|by repeat constructor].
Defined.

Lemma late_tailnet_no_host_witness :
  exists s' a, agent_main 1 (boot_example None) session_empty = (s', Live a NoTailnet) /\
  se_ports s' = ∅.
Proof.
  eexists _, _. split; [reflexivity|].
  exact (proj1 (late_tailnet_no_host (fun _ _ => true) (fun _ => EmptyString) 1 (boot_example None) session_empty _ _ []
    (hub_new {| laptops := [mkLaptop 7 "aa" "student-01" "t"]; admins := []; next_admin_id := 1 |}) 0 "10.0.0.1" "student-01" "100.64.0.7"
    eq_refl eq_refl eq_refl)).
Defined.

Lemma host_half_started_witness : exists ports',
  (host_boot 1 host_config_default (boot_example None) ∅ {[48010 := None]}).1.2 = ports' /\ ports' !! 47989 = Some (Some 1%nat).
Proof.
  destruct (host_half_started 1 (boot_example None) ∅ {[48010 := None]} ("cert"%string, "key"%string)
    (<["streamhost-key.pem"%string := "key"%string]> (<["streamhost-cert.pem"%string := "cert"%string]> ∅)))
    as (ports' & H & H1 & _); [vm_compute; reflexivity|reflexivity|split_and!; vm_compute; reflexivity|vm_compute; reflexivity|].
  exists ports'. split; [by rewrite H|exact H1].
Defined.
