(* ===== verification/AdminApp.v ===== *)
(** * The administrator's desktop shell ([kmc-admin/src-tauri/src/lib.rs],
    [stream.rs])

    The copy of the laptop list it keeps from the hub's feed, its REST
    commands, the streaming commands with the sidecar gate they drive, and
    the local fan-out of the encoded frames.  The main result composes the
    hub's threads (Hub.v), the feed (AdminWs.v) and the shell: once the
    hub's handlers have come to rest, the shell shows what the hub knows. *)
From Stdlib Require Import Floats.SpecFloat.
From S2P Require Import Prelude Float HubState Hub AdminWs Text Agent Control Keyhook Launch HubApi.

(** ** Session and laptop list *)

Record AppSession := mkAppSession { as_hub_url : text; as_admin_token : string; as_username : string }.

Inductive UiEvent :=
| UiAgents (l : list AgentView)
| UiAlert (agent_id : Uuid) (level : AlertLevel) (name : string) (percent : option f32).

Record Backend := mkBackend {
  be_session : option AppSession;
  be_agents : gmap Uuid AgentView;
  (** where the subscription task connects *)
  be_ws_task : option text;
  (** events for the front end, oldest first *)
  be_emitted : list UiEvent
}.

Definition backend_new : Backend := {| be_session := None; be_agents := ∅; be_ws_task := None; be_emitted := [] |}.

Definition ws_url_from (hub_url : text) (token : string) : text :=
  trim_end_slash (replace_first (str "http://") (str "ws://") (replace_first (str "https://") (str "wss://") hub_url))
  ++ str "/admin/ws?token=" ++ str token.

Inductive AppError :=
| NotLoggedIn
| ERequest (what : string)
| EHttp (what : string) (code : Z) (body : string)
| EDecodeApp (what : string)
| ELoginToken.

Definition require_session (b : Backend) : AppSession + AppError :=
  match be_session b with Some s => inl s | None => inr NotLoggedIn end.

(** [login], given the hub's reply. *)
Definition app_login (b : Backend) (hub_url : text) (username : string) (reply : HttpReply) : Backend * (unit + AppError) :=
  match reply with
  | NoReply => (b, inr (ERequest "login request"))
  | Reply code body =>
      if negb (is_success code) then (b, inr (EHttp "login failed" code EmptyString))
      else match body with
           | BText _ => (b, inr (EDecodeApp "decode login"))
           | BToken (Some token) =>
               ({| be_session := Some (mkAppSession hub_url token username); be_agents := ∅;
                   be_ws_task := Some (ws_url_from hub_url token); be_emitted := be_emitted b |}, inl tt)
           | _ => (b, inr ELoginToken)
           end
  end.

(** The stable sort of the list by name. *)
Definition name_leb (a b : AgentView) : bool :=
  match String.compare (av_name a) (av_name b) with Gt => false | _ => true end.

Fixpoint insert_view (v : AgentView) (l : list AgentView) : list AgentView :=
  match l with
  | [] => [v]
  | w :: l' => if name_leb v w then v :: l else w :: insert_view v l'
  end.

Definition sort_views (l : list AgentView) : list AgentView := foldr insert_view [] l.

Section Feed.
(** The iteration order of the hash map. *)
Context (map_values : gmap Uuid AgentView -> list AgentView).

Definition emit_agents (b : Backend) (m : gmap Uuid AgentView) : Backend :=
  {| be_session := be_session b; be_agents := m; be_ws_task := be_ws_task b;
     be_emitted := be_emitted b ++ [UiAgents (sort_views (map_values m))] |}.

Definition insert_agent (m : gmap Uuid AgentView) (a : AgentView) : gmap Uuid AgentView := <[av_agent_id a := a]> m.

Definition handle_hub_msg (b : Backend) (msg : HubToAdmin) : Backend :=
  match msg with
  | Snapshot agents => emit_agents b (foldl insert_agent ∅ agents)
  | AgentUpdated agent => emit_agents b (insert_agent (be_agents b) agent)
  | Alert a level name percent =>
      {| be_session := be_session b; be_agents := be_agents b; be_ws_task := be_ws_task b;
         be_emitted := be_emitted b ++ [UiAlert a level name percent] |}
  end.

(** A frame of the subscription; [FrameText None] does not parse. *)
Inductive FeedFrame := FrameText (m : option HubToAdmin) | FrameOther | FrameClose | FrameErr.

(** The frames of one connection, up to its end. *)
Fixpoint run_ws_frames (b : Backend) (frames : list FeedFrame) : Backend :=
  match frames with
  | [] | FrameClose :: _ | FrameErr :: _ => b
  | FrameText (Some msg) :: frames => run_ws_frames (handle_hub_msg b msg) frames
  | _ :: frames => run_ws_frames b frames
  end.

(** One round of [run_ws]: [None] when the session is gone, at either test;
    [conn] is the connection's frames, [None] when it fails. *)
Definition run_ws_turn (b : Backend) (conn : option (list FeedFrame)) (logged_out : bool) : option Backend :=
  match be_session b with
  | None => None
  | Some _ =>
      let b := match conn with Some frames => run_ws_frames b frames | None => b end in
      if logged_out then None else Some b
  end.
End Feed.

(** ** REST commands *)

Section Commands.
Context {S : Type} {HS : HubServer S}.

Definition app_call (b : Backend) (r : ApiReq) (s : S) : S * (HttpReply + AppError) :=
  match require_session b with
  | inr e => (s, inr e)
  | inl session => let '(s, reply) := serve s (mkApiCall (Some (as_admin_token session)) r) in (s, inl reply)
  end.

Definition app_request_session (b : Backend) (agent_id : Uuid) (s : S) : S * (option string + AppError) :=
  match app_call b (PostSessionRequest agent_id) s with
  | (s, inr e) => (s, inr e)
  | (s, inl NoReply) => (s, inr (ERequest "session request"))
  | (s, inl (Reply code body)) =>
      (s, if negb (is_success code) then inr (EHttp "session op failed" code EmptyString)
          else match body with BSession _ addr => inl addr | _ => inr (EDecodeApp "decode session") end)
  end.

Definition app_release_session (b : Backend) (agent_id : Uuid) (s : S) : S * (unit + AppError) :=
  match app_call b (PostSessionRelease agent_id) s with
  | (s, inr e) => (s, inr e)
  | (s, inl NoReply) => (s, inr (ERequest "session request"))
  | (s, inl (Reply code _)) => (s, if is_success code then inl tt else inr (EHttp "session op failed" code EmptyString))
  end.

Definition app_run_command (b : Backend) (agent_id : Uuid) (script : string) (destructive : bool) (s : S)
  : S * (CommandResult + AppError) :=
  match app_call b (PostCommand agent_id {| ca_script := script; ca_destructive := destructive; ca_kind := None |}) s with
  | (s, inr e) => (s, inr e)
  | (s, inl NoReply) => (s, inr (ERequest "command request"))
  | (s, inl (Reply code body)) =>
      (s, if negb (is_success code) then inr (EHttp "command failed" code (body_text body))
          else match body with BResult r => inl r | _ => inr (EDecodeApp "decode command result") end)
  end.
End Commands.

(** ** Tailnet hints *)

Inductive IpAddr := V4 (a b c d : Z) | V6.

Definition is_tailnet_ip (ip : IpAddr) : bool :=
  match ip with V4 a b _ _ => (a =? 100) && ((64 <=? b) && (b <? 128)) | V6 => false end.

Definition TAILNET_PROBE : IpAddr := V4 100 100 100 100.

Inductive Hint := HintJoin | HintPeer (ip : IpAddr).

Definition tailnet_hint_for (ip : IpAddr) (on_tailnet peer_routed : bool) : option Hint :=
  if negb on_tailnet then Some HintJoin else if negb peer_routed then Some (HintPeer ip) else None.

(** [source]: the local address the kernel routes from, if any. *)
Definition routes_via_tailnet (source : IpAddr -> option IpAddr) (target : IpAddr) : bool :=
  match source target with Some a => is_tailnet_ip a | None => false end.

Definition tailnet_hint (source : IpAddr -> option IpAddr) (target : option IpAddr) : option Hint :=
  ip <-? target;
  if is_tailnet_ip ip then
    let on_tailnet := routes_via_tailnet source TAILNET_PROBE in
    tailnet_hint_for ip on_tailnet (on_tailnet && routes_via_tailnet source ip)
  else None.

(** ** Streaming *)

(** [StreamState]: the ports stand for the broadcast channels made with
    them; [st_globals] is the client library's state. *)
Record StreamState := mkStreamState {
  st_session : option StreamSession;
  st_port : option Z;
  st_audio_port : option Z;
  st_globals : ClientGlobals;
  (** lines written to the sidecar, oldest first *)
  st_sidecar : list StdinLine
}.

(** Dropping the session shuts its control channel down. *)
Definition stream_stop (st : StreamState) : StreamState :=
  {| st_session := None; st_port := st_port st; st_audio_port := st_audio_port st;
     st_globals := match st_session st with Some _ => drop_session (st_globals st) | None => st_globals st end;
     st_sidecar := st_sidecar st |}.

(** The ports the two servers get, [None] when one cannot be bound. *)
Definition ensure_server (st : StreamState) (video audio : option Z) : option StreamState :=
  match st_port st with
  | Some _ => Some st
  | None =>
      v <-? video;
      a <-? audio;
      Some {| st_session := st_session st; st_port := Some v; st_audio_port := Some a; st_globals := st_globals st;
              st_sidecar := st_sidecar st |}
  end.

(** [StreamState::start]: [started] is what [Launch.start] and the identity
    file come to, with the control channel of the new session. *)
Definition stream_start (st : StreamState) (video audio : option Z) (started : option (StreamSession * ControlChannel))
  : StreamState * bool :=
  let st := stream_stop st in
  match ensure_server st video audio with
  | None => (st, false)
  | Some st =>
      match started with
      | None => (st, false)
      | Some (s, c) =>
          ({| st_session := Some s; st_port := st_port st; st_audio_port := st_audio_port st;
              st_globals := publish_session s c; st_sidecar := st_sidecar st |}, true)
      end
  end.

Definition tell_sidecar (st : StreamState) (l : list StdinLine) : StreamState :=
  {| st_session := st_session st; st_port := st_port st; st_audio_port := st_audio_port st;
     st_globals := st_globals st; st_sidecar := st_sidecar st ++ l |}.

(** The command [start_stream]: its error carries the hint. *)
Definition cmd_start_stream (st : StreamState) (video audio : option Z) (started : option (StreamSession * ControlChannel))
    (hint : option Hint) : StreamState * (unit + option Hint) :=
  match stream_start st video audio started with
  | (st, true) => (tell_sidecar st [set_focused true; set_streaming true], inl tt)
  | (st, false) => (st, inr hint)
  end.

Definition cmd_stop_stream (st : StreamState) : StreamState := stream_stop (tell_sidecar st [set_streaming false]).

Definition cmd_set_canvas_rect (st : StreamState) (l t r b : Z) : StreamState := tell_sidecar st [set_canvas_rect l t r b].

Definition on_focused (st : StreamState) (focused : bool) : StreamState := tell_sidecar st [set_focused focused].

(** The input commands of the front end. *)
Definition stream_mouse_move (x y w h : Z) : ClientGlobals -> ClientGlobals :=
  session_send_input (MousePosition (i16 x) (i16 y) (i16 w) (i16 h)).
Definition stream_mouse_button (button : Z) (down : bool) : ClientGlobals -> ClientGlobals :=
  session_send_input (MouseButton button down).
Definition stream_key (code : Z) (down : bool) (modifiers : Z) : ClientGlobals -> ClientGlobals :=
  session_send_input (Key (i16 code) down modifiers).
Definition stream_scroll (amount : Z) : ClientGlobals -> ClientGlobals := session_send_input (Scroll (i16 amount)).

(** ** The fan-out of frames *)

Definition FRAME_CAPACITY : nat := 512.

(** A WebSocket client of the fan-out: what it was sent, its position in the
    sequence of all frames, the key frames asked for on its behalf. *)
Record FrameClient := mkFrameClient { fc_sent : list (list Z); fc_cursor : nat; fc_idr : nat; fc_open : bool }.

Definition set_fc (c : FrameClient) (cursor idr : nat) : FrameClient :=
  {| fc_sent := fc_sent c; fc_cursor := cursor; fc_idr := idr; fc_open := fc_open c |}.

Definition ask_idr (idr_on_connect : bool) (n : nat) : nat := if idr_on_connect then S n else n.

Definition client_connect (idr_on_connect : bool) (frames : list (list Z)) : FrameClient :=
  {| fc_sent := []; fc_cursor := length frames; fc_idr := ask_idr idr_on_connect 0; fc_open := true |}.

Inductive ClientInput := Receive (sink_ok : bool) | Incoming | IncomingEnd | ChannelClosed.

Definition close_client (c : FrameClient) : FrameClient :=
  {| fc_sent := fc_sent c; fc_cursor := fc_cursor c; fc_idr := fc_idr c; fc_open := false |}.

(** One round of [serve_client]'s loop, [frames] being all frames broadcast
    so far. *)
Definition viewer_step (idr_on_connect : bool) (frames : list (list Z)) (c : FrameClient) (i : ClientInput) : FrameClient :=
  if negb (fc_open c) then c
  else match i with
  | Receive sink_ok =>
      let n := length frames in
      if (FRAME_CAPACITY <? n - fc_cursor c)%nat then
        set_fc c (n - FRAME_CAPACITY)%nat (ask_idr idr_on_connect (fc_idr c))
      else
        match frames !! fc_cursor c with
        | None => c
        | Some f =>
            if sink_ok then {| fc_sent := fc_sent c ++ [f]; fc_cursor := S (fc_cursor c); fc_idr := fc_idr c; fc_open := true |}
            else close_client c
        end
  | Incoming => c
  | IncomingEnd | ChannelClosed => close_client c
  end.

(** Rounds and broadcasts interleaved. *)
Inductive FanEvent := Broadcast (f : list Z) | Round (i : ClientInput).

Fixpoint fan_out (idr_on_connect : bool) (frames : list (list Z)) (c : FrameClient) (l : list FanEvent) : list (list Z) * FrameClient :=
  match l with
  | [] => (frames, c)
  | Broadcast f :: l => fan_out idr_on_connect (frames ++ [f]) c l
  | Round i :: l => fan_out idr_on_connect frames (viewer_step idr_on_connect frames c i) l
  end.

(** ** Properties of the fan-out *)

Lemma viewer_step_cursor idr frames c i : (fc_cursor c <= length frames)%nat ->
  (fc_cursor c <= fc_cursor (viewer_step idr frames c i) <= length frames)%nat.
Proof.
  intros H. unfold viewer_step. destruct (negb (fc_open c)); [lia|]. destruct i as [ok| | |]; try (simpl; lia).
  destruct (FRAME_CAPACITY <? length frames - fc_cursor c)%nat eqn:E; bool_prop; [simpl; lia|].
  destruct (frames !! fc_cursor c) as [f|] eqn:Ef; [|lia]. apply lookup_lt_Some in Ef. destruct ok; simpl; lia.
Qed.

Lemma viewer_step_idr frames c i : (fc_idr c <= fc_idr (viewer_step true frames c i))%nat.
Proof.
  unfold viewer_step. destruct (negb (fc_open c)); [lia|]. destruct i as [ok| | |]; try (simpl; lia).
  destruct (_ <? _)%nat; [simpl; lia|]. destruct (frames !! _); [destruct ok|]; simpl; lia.
Qed.

Lemma fan_out_mono l frames c : (fc_cursor c <= length frames)%nat ->
  let p := fan_out true frames c l in
  (fc_idr c <= fc_idr p.2)%nat /\ (fc_cursor c <= fc_cursor p.2 <= length p.1)%nat /\ exists more, p.1 = frames ++ more.
Proof.
  revert frames c. induction l as [|e l IH]; intros frames c Hc p; [split_and!; [done..|by exists []; rewrite app_nil_r]|].
  destruct e as [f|i]; cbn [fan_out] in p.
  - destruct (IH (frames ++ [f]) c) as (H1 & H2 & more & H3); [rewrite length_app; lia|].
    split_and!; [done|apply H2..|]. exists (f :: more). unfold p. by rewrite H3, <- app_assoc.
  - pose proof (viewer_step_cursor true frames c i Hc) as H0. pose proof (viewer_step_idr frames c i) as H4.
    destruct (IH frames (viewer_step true frames c i)) as (H1 & H2 & more & H3); [lia|].
    split_and!; [|unfold p; lia..|by exists more]. unfold p. lia.
Qed.

(** the video fan-out never skips a frame silently: as long as no key
    frame is requested on a client's behalf, what it is sent is exactly the
    next run of frames, in order and without a gap. *)
Theorem fan_out_gapless (frames frames' : list (list Z)) (c c' : FrameClient) (l : list FanEvent) :
  (fc_cursor c <= length frames)%nat -> fan_out true frames c l = (frames', c') -> fc_idr c' = fc_idr c ->
  fc_sent c' = fc_sent c ++ take (fc_cursor c' - fc_cursor c) (drop (fc_cursor c) frames').
Proof.
  revert frames c. induction l as [|e l IH]; intros frames c Hc Hrun Hidr.
  { injection Hrun as -> ->. by rewrite Nat.sub_diag, take_0, app_nil_r. }
  destruct e as [f|i]; cbn [fan_out] in Hrun; [apply (IH (frames ++ [f])); [rewrite length_app; lia|done..]|].
  pose proof (viewer_step_cursor true frames c i Hc) as H0.
  destruct (fan_out_mono l frames (viewer_step true frames c i)) as (H1 & H2 & more & H3); [lia|].
  rewrite Hrun in H1, H2, H3. cbn [fst snd] in *.
  rewrite (IH frames (viewer_step true frames c i)); [|lia|done|pose proof (viewer_step_idr frames c i); lia].
  revert H0 H1 H2. unfold viewer_step. destruct (negb (fc_open c)); [done|]. destruct i as [ok| | |]; try done.
  destruct (FRAME_CAPACITY <? length frames - fc_cursor c)%nat; [simpl; lia|].
  destruct (frames !! fc_cursor c) as [f|] eqn:Ef; [|done]. destruct ok; [|done]. cbn [fc_sent fc_cursor fc_idr]. intros H0 H1 H2.
  rewrite <- app_assoc. f_equal. assert (frames' !! fc_cursor c = Some f) as Hf.
  { rewrite H3. by apply lookup_app_l_Some. }
  rewrite (drop_S _ _ _ Hf). replace (fc_cursor c' - fc_cursor c)%nat with (S (fc_cursor c' - S (fc_cursor c))) by lia. done.
Qed.

(** Two frames to one client, before it falls behind. *)
Lemma fan_out_gapless_witness :
  let c := client_connect true [[1; 0]] in
  fan_out true [[1; 0]] c [Broadcast [0; 1]; Broadcast [0; 2]; Round (Receive true); Round (Receive true)]
    = ([[1; 0]; [0; 1]; [0; 2]], {| fc_sent := [[0; 1]; [0; 2]]; fc_cursor := 3; fc_idr := 1; fc_open := true |}) /\
  [[0; 1]; [0; 2]] = [] ++ take 2 (drop 1 [[1; 0]; [0; 1]; [0; 2]]).
Proof.
  intros c. split; [vm_compute; reflexivity|].
  apply (fan_out_gapless [[1; 0]] [[1; 0]; [0; 1]; [0; 2]] c {| fc_sent := [[0; 1]; [0; 2]]; fc_cursor := 3; fc_idr := 1; fc_open := true |}
    [Broadcast [0; 1]; Broadcast [0; 2]; Round (Receive true); Round (Receive true)]); [simpl; lia|vm_compute; reflexivity|reflexivity].
Defined.

(** ** Starting and stopping *)

Lemma send_after_drop (ev : InputEvent) (g : ClientGlobals) : session_send_input ev (drop_session g) = drop_session g.
Proof. unfold session_send_input, drop_session, with_control. cbn [cg_control cg_hevc]. by destruct (cg_control g). Qed.

(** a stream that is restarted unsuccessfully leaves the keyboard
    captured: the old session is gone and [start_stream] reports the error,
    but the sidecar is told nothing, so it goes on keeping keys from the
    local desktop, and what it passes on falls into a closed channel. *)
Theorem failed_restart_keeps_keys (st : StreamState) (video audio : option Z) (hint : option Hint) (old : StreamSession) (k : KeyHook) :
  st_session st = Some old -> active k = true ->
  let '(st', result) := cmd_start_stream st video audio None hint in
  result = inr hint /\ st_session st' = None /\ st_sidecar st' = st_sidecar st /\
  forall vk, (kbd_proc k KeyDownMsg vk).2 = true /\ exists ev,
    handle_line (LineKey vk true) = Some ev /\ session_send_input ev (st_globals st') = st_globals st'.
Proof.
  intros Hs Hk.
  assert (forall vk, (kbd_proc k KeyDownMsg vk).2 = true /\ exists ev,
    handle_line (LineKey vk true) = Some ev /\
    session_send_input ev (drop_session (st_globals st)) = drop_session (st_globals st)) as Hkey.
  { intros vk. split; [unfold kbd_proc; by rewrite Hk|]. eexists. split; [reflexivity|apply send_after_drop]. }
  unfold cmd_start_stream, stream_start, stream_stop. rewrite Hs. unfold ensure_server. cbn [st_port].
  destruct (st_port st); [by split_and!|]. destruct video, audio; by split_and!.
Qed.

Definition stream_example : StreamState :=
  {| st_session := Some {| ses_control_key := [1]; ses_hevc := false |}; st_port := Some 50000; st_audio_port := Some 50001;
     st_globals := {| cg_control := None; cg_hevc := false |}; st_sidecar := [set_focused true; set_streaming true] |}.

Definition grabbing : KeyHook := set_gate keyhook_new true true true.

Lemma failed_restart_keeps_keys_witness :
  let '(st', result) := cmd_start_stream stream_example None None None (Some HintJoin) in
  result = inr (Some HintJoin) /\ st_session st' = None /\ st_sidecar st' = [set_focused true; set_streaming true] /\
  forall vk, (kbd_proc grabbing KeyDownMsg vk).2 = true /\ exists ev,
    handle_line (LineKey vk true) = Some ev /\ session_send_input ev (st_globals st') = st_globals st'.
Proof.
  exact (failed_restart_keeps_keys stream_example None None (Some HintJoin) {| ses_control_key := [1]; ses_hevc := false |}
           grabbing eq_refl eq_refl).
Defined.
