(* ===== verification/FrameServer.v ===== *)
(** * The server that hands the frames to the administrator's windows
    ([kmc-admin/src-tauri/src/stream.rs])

    From its socket on: a start that finds no server yet binds one for the
    pictures and one for the sound, lock by lock; a server accepts windows,
    subscribes each before its WebSocket handshake and fans the frames out.
    [picture_reaches_window] composes it with the video path (StreamPath.v):
    what the laptop encodes is what a window is sent. *)
From S2P Require Import Prelude Wire Fec Packetizer Depacketizer VideoPath Float Bitrate VideoHost StreamPath AdminApp.

(** ** Starting the servers *)

(** The four cells of [StreamState] that [ensure_server] fills; a broadcast
    channel is the number of the server that owns it.  [cl_servers]: the ports
    the server threads listen on, and whether they ask for key frames. *)
Record Cells := mkCells {
  cl_port : option Z;
  cl_bcast : option nat;
  cl_audio_port : option Z;
  cl_audio_bcast : option nat;
  cl_servers : list (Z * bool)
}.

Definition cells_new : Cells := mkCells None None None None [].

(** How the thread of a new server comes along: its runtime, and the port it
    is given, 0 where that cannot be told. *)
Inductive Spawned := NoRuntime | NoBind | Bound (port : option Z).

Definition spawn_ws_server (idr_on_connect : bool) (how : Spawned) (servers : list (Z * bool))
  : list (Z * bool) * option (nat * Z) :=
  match how with
  | NoRuntime | NoBind => (servers, None)
  | Bound port => let p := default 0 port in (servers ++ [(p, idr_on_connect)], Some (length servers, p))
  end.

Inductive StartError := EVideoServer | EAudioServer | ENoVideo | ENoAudio.

(** Where a start stands between two locks. *)
Inductive Starter :=
| StCheck
| StVideo
| StAudio (v : nat * Z)
| StSetPort (v a : nat * Z)
| StSetBcast (v a : nat * Z)
| StSetAudioPort (v a : nat * Z)
| StSetAudioBcast (v a : nat * Z)
| StReadBcast
| StReadAudio (v : nat)
| StReady (v a : nat)
| StFailed (e : StartError).

(** One critical section of [StreamState::start] up to the channels it fans
    out to. *)
Definition starter_step (c : Cells) (t : Starter) (how : Spawned) : Cells * Starter :=
  let '(mkCells port bcast aport abcast servers) := c in
  match t with
  | StCheck => (c, if is_someb port then StReadBcast else StVideo)
  | StVideo =>
      match spawn_ws_server true how servers with
      | (servers, Some v) => (mkCells port bcast aport abcast servers, StAudio v)
      | (servers, None) => (mkCells port bcast aport abcast servers, StFailed EVideoServer)
      end
  | StAudio v =>
      match spawn_ws_server false how servers with
      | (servers, Some a) => (mkCells port bcast aport abcast servers, StSetPort v a)
      | (servers, None) => (mkCells port bcast aport abcast servers, StFailed EAudioServer)
      end
  | StSetPort v a => (mkCells (Some v.2) bcast aport abcast servers, StSetBcast v a)
  | StSetBcast v a => (mkCells port (Some v.1) aport abcast servers, StSetAudioPort v a)
  | StSetAudioPort v a => (mkCells port bcast (Some a.2) abcast servers, StSetAudioBcast v a)
  | StSetAudioBcast v a => (mkCells port bcast aport (Some a.1) servers, StReadBcast)
  | StReadBcast => (c, match bcast with Some v => StReadAudio v | None => StFailed ENoVideo end)
  | StReadAudio v => (c, match abcast with Some a => StReady v a | None => StFailed ENoAudio end)
  | StReady _ _ | StFailed _ => (c, t)
  end.

(** A start that nobody interferes with: nine critical sections. *)
Fixpoint start_alone (fuel : nat) (c : Cells) (t : Starter) (video audio : Spawned) : Cells * Starter :=
  match fuel with
  | O => (c, t)
  | S fuel =>
      let '(c, t) := starter_step c t (match t with StAudio _ => audio | _ => video end) in
      start_alone fuel c t video audio
  end.

Definition start_server (c : Cells) (video audio : Spawned) : Cells * Starter := start_alone 9 c StCheck video audio.

(** Several starts at once: who runs next, and how a server it spawns comes
    along. *)
Fixpoint start_many (c : Cells) (ts : list Starter) (schedule : list (nat * Spawned)) : Cells * list Starter :=
  match schedule with
  | [] => (c, ts)
  | (i, how) :: schedule =>
      match ts !! i with
      | Some t => let '(c, t) := starter_step c t how in start_many c (<[i := t]> ts) schedule
      | None => start_many c ts schedule
      end
  end.

(** ** The server *)

(** A connection the server accepted: it subscribed at [fc_cursor] and its
    WebSocket handshake is open, or it is served, or gone before it was. *)
Inductive Window := Shaking (cursor : nat) | Served (c : FrameClient) | Gone.

(** [fs_queues]: the channels of the sessions, each with the thread that
    drains it; [fs_frames]: all frames ever broadcast. *)
Record FrameServer := mkFrameServer {
  fs_idr_on_connect : bool;
  fs_queues : list (list (list Z));
  fs_frames : list (list Z);
  fs_windows : list Window
}.

Definition frame_server (idr_on_connect : bool) : FrameServer := mkFrameServer idr_on_connect [] [] [].

Inductive ServerEvent :=
| NewSession
| Queue (q : nat) (f : list Z)
| Drain (q : nat)
| AcceptFails
| Accept
| Handshake (w : nat) (ok : bool)
| WindowTurn (w : nat) (i : ClientInput).

Definition set_windows (s : FrameServer) (ws : list Window) : FrameServer :=
  mkFrameServer (fs_idr_on_connect s) (fs_queues s) (fs_frames s) ws.

(** A window whose handshake succeeds asks for a key frame at once. *)
Definition shake (idr_on_connect : bool) (w : Window) (ok : bool) : Window :=
  match w with
  | Shaking cursor =>
      if ok then Served {| fc_sent := []; fc_cursor := cursor; fc_idr := ask_idr idr_on_connect 0; fc_open := true |}
      else Gone
  | w => w
  end.

Definition turn (idr_on_connect : bool) (frames : list (list Z)) (w : Window) (i : ClientInput) : Window :=
  match w with Served c => Served (viewer_step idr_on_connect frames c i) | w => w end.

Definition server_step (s : FrameServer) (e : ServerEvent) : FrameServer :=
  let '(mkFrameServer idr qs frames ws) := s in
  match e with
  | NewSession => mkFrameServer idr (qs ++ [[]]) frames ws
  | Queue q f => mkFrameServer idr (alter (fun l => l ++ [f]) q qs) frames ws
  | Drain q =>
      match qs !! q with
      | Some (f :: l) => mkFrameServer idr (<[q := l]> qs) (frames ++ [f]) ws
      | _ => s
      end
  | AcceptFails => s
  | Accept => set_windows s (ws ++ [Shaking (length frames)])
  | Handshake w ok => set_windows s (alter (fun x => shake idr x ok) w ws)
  | WindowTurn w i => set_windows s (alter (fun x => turn idr frames x i) w ws)
  end.

Definition server_run (s : FrameServer) (es : list ServerEvent) : FrameServer := foldl server_step s es.

(** ** One start after another *)

(** Nothing is started, or the windows are told the ports of the very servers
    the frames are sent to. *)
Inductive cells_agree (c : Cells) : Prop :=
| agree_none : cl_port c = None -> cl_bcast c = None -> cl_audio_port c = None -> cl_audio_bcast c = None -> cells_agree c
| agree_some v a pv pa :
    cl_port c = Some pv -> cl_bcast c = Some v -> cl_servers c !! v = Some (pv, true) ->
    cl_audio_port c = Some pa -> cl_audio_bcast c = Some a -> cl_servers c !! a = Some (pa, false) -> cells_agree c.

(** What a start comes to, given the cells it finds. *)
Inductive start_result (c c' : Cells) (video audio : Spawned) : Starter -> Prop :=
| start_reuses v a pv pa :
    c' = c -> cl_port c = Some pv -> cl_servers c !! v = Some (pv, true) ->
    cl_audio_port c = Some pa -> cl_servers c !! a = Some (pa, false) -> start_result c c' video audio (StReady v a)
| start_binds v a pv pa :
    cl_port c = None -> video = Bound pv -> audio = Bound pa ->
    cl_servers c' = cl_servers c ++ [(default 0 pv, true); (default 0 pa, false)] ->
    v = length (cl_servers c) -> a = S v ->
    cl_port c' = Some (default 0 pv) -> cl_audio_port c' = Some (default 0 pa) -> start_result c c' video audio (StReady v a)
| start_no_video :
    cl_port c = None -> (forall p, video <> Bound p) -> c' = c -> start_result c c' video audio (StFailed EVideoServer)
| start_no_audio p :
    cl_port c = None -> video = Bound p -> (forall p, audio <> Bound p) ->
    c' = mkCells None (cl_bcast c) (cl_audio_port c) (cl_audio_bcast c) (cl_servers c ++ [(default 0 p, true)]) ->
    start_result c c' video audio (StFailed EAudioServer).

(** C31: Starts that do not overlap keep the cells in agreement; the first that
    succeeds binds one server of each kind, every later one uses these, and one
    that fails leaves the cells as they were. *)
Theorem starts_agree (c : Cells) (video audio : Spawned) : cells_agree c ->
  let '(c', t) := start_server c video audio in cells_agree c' /\ start_result c c' video audio t.
Proof.
  destruct c as [port bcast aport abcast servers]. intros [H1 H2 H3 H4|v a pv pa H1 H2 H3 H4 H5 H6]; cbn in *; subst; cbn.
  2: { split; [by eapply agree_some|by eapply start_reuses]. }
  destruct video as [| |p]; [split; [by apply agree_none|by apply start_no_video]..|].
  destruct audio as [| |p']; [split; [by apply agree_none|by eapply start_no_audio]..|].
  cbn. rewrite length_app. cbn. replace (length servers + 1)%nat with (S (length servers)) by lia. split.
  - eapply agree_some; [done|done| |done|done|]; cbn.
    + rewrite <- app_assoc. by apply list_lookup_middle.
    + apply list_lookup_middle. rewrite length_app. simpl. lia.
  - eapply start_binds; try done. cbn. by rewrite <- app_assoc.
Qed.

(** Every failure to bind the sound server leaves one more picture server
    listening that no frame will ever reach. *)
Theorem failed_starts_leak (n : nat) (p : option Z) (audio : Spawned) : (forall p, audio <> Bound p) ->
  let c := Nat.iter n (fun c => (start_server c (Bound p) audio).1) cells_new in
  cl_port c = None /\ cl_servers c = replicate n (default 0 p, true).
Proof.
  intros Ha. cbn zeta.
  assert (Nat.iter n (fun c => (start_server c (Bound p) audio).1) cells_new
          = mkCells None None None None (replicate n (default 0 p, true))) as ->; [|done].
  induction n as [|n IH]; [done|]. rewrite Nat.iter_succ, IH. rewrite replicate_S_end. by destruct audio as [| |q]; [| |destruct (Ha q)].
Qed.

(** Two starts that overlap: both report success, but the windows are told the
    port of one server and the frames go to the other; and a start that finds
    the port and not yet the channel fails although a server is there. *)
Theorem overlapping_starts_disagree (p p' a a' : option Z) :
  (exists schedule c,
     start_many cells_new [StCheck; StCheck] schedule = (c, [StReady 0 2; StReady 0 3]) /\
     cl_servers c !! 0%nat = Some (default 0 p, true) /\ cl_bcast c = Some 0%nat /\ cl_port c = Some (default 0 p')) /\
  (exists schedule c,
     start_many cells_new [StCheck; StCheck] schedule = (c, [StReady 0 1; StFailed ENoVideo]) /\
     cl_port c = Some (default 0 p) /\ cl_servers c = [(default 0 p, true); (default 0 a, false)]).
Proof.
  split.
  - exists [(0%nat, NoBind); (1%nat, NoBind); (0%nat, Bound p); (1%nat, Bound p'); (0%nat, Bound a); (1%nat, Bound a');
            (0%nat, NoBind); (1%nat, NoBind); (1%nat, NoBind); (0%nat, NoBind);
            (0%nat, NoBind); (0%nat, NoBind); (0%nat, NoBind); (0%nat, NoBind);
            (1%nat, NoBind); (1%nat, NoBind); (1%nat, NoBind); (1%nat, NoBind)].
    by eexists.
  - exists [(0%nat, NoBind); (0%nat, Bound p); (0%nat, Bound a); (0%nat, NoBind); (1%nat, NoBind); (1%nat, NoBind);
            (0%nat, NoBind); (0%nat, NoBind); (0%nat, NoBind); (0%nat, NoBind); (0%nat, NoBind)].
    by eexists.
Qed.

(** ** What a window is sent *)

(** [sent] is [n] gapless runs of the frames, in order, the next one to come
    being [k]; the first run starts where the window subscribed. *)
Inductive sent_runs (frames : list (list Z)) : nat -> nat -> list (list Z) -> Prop :=
| sr_first k : (k <= length frames)%nat -> sent_runs frames k 1 []
| sr_next k n sent f : sent_runs frames k n sent -> frames !! k = Some f -> sent_runs frames (S k) n (sent ++ [f])
| sr_gap k k' n sent : sent_runs frames k n sent -> (k < k' <= length frames)%nat -> sent_runs frames k' (S n) sent.

Lemma sent_runs_grow frames more k n sent : sent_runs frames k n sent -> sent_runs (frames ++ more) k n sent.
Proof.
  induction 1 as [k Hk|k n sent f _ IH Hf|k k' n sent _ IH Hk].
  - apply sr_first. rewrite length_app. lia.
  - apply sr_next; [done|]. by apply lookup_app_l_Some.
  - eapply sr_gap; [exact IH|]. rewrite length_app. lia.
Qed.

Definition window_ok (frames : list (list Z)) (w : Window) : Prop :=
  match w with
  | Shaking k => (k <= length frames)%nat
  | Served c => sent_runs frames (fc_cursor c) (fc_idr c) (fc_sent c)
  | Gone => True
  end.

Lemma viewer_runs frames c i : sent_runs frames (fc_cursor c) (fc_idr c) (fc_sent c) ->
  let c' := viewer_step true frames c i in sent_runs frames (fc_cursor c') (fc_idr c') (fc_sent c').
Proof.
  intros H. unfold viewer_step. destruct (negb (fc_open c)); [done|]. destruct i as [ok| | |]; try done.
  destruct (FRAME_CAPACITY <? length frames - fc_cursor c)%nat eqn:E; bool_prop.
  - eapply sr_gap; [exact H|]. cbn [fc_cursor set_fc]. unfold FRAME_CAPACITY in *. lia.
  - destruct (frames !! fc_cursor c) as [f|] eqn:Ef; [|done]. destruct ok; [|done]. by apply sr_next.
Qed.

Lemma alter_Forall {A} (P : A -> Prop) (f : A -> A) l i : Forall P l -> (forall x, P x -> P (f x)) -> Forall P (alter f i l).
Proof. intros H Hf. apply Forall_alter; [done|]. intros x Hx. by apply Hf. Qed.

Lemma server_step_windows s e : fs_idr_on_connect s = true ->
  Forall (window_ok (fs_frames s)) (fs_windows s) ->
  let s' := server_step s e in fs_idr_on_connect s' = true /\ Forall (window_ok (fs_frames s')) (fs_windows s').
Proof.
  destruct s as [idr qs frames ws]. cbn. intros -> H.
  destruct e as [|q f|q| | |w ok|w i]; cbn; [by split|by split| |by split| | |].
  - destruct (qs !! q) as [[|f l]|]; [by split| |by split]. cbn. split; [done|].
    eapply Forall_impl; [exact H|]. intros [k|c|]; cbn; [|apply sent_runs_grow|done]. rewrite length_app. lia.
  - split; [done|]. apply Forall_app. split; [done|]. constructor; [|done]. cbn. lia.
  - split; [done|]. apply alter_Forall; [done|]. intros [k|c|] Hw; [|done..]. cbn. destruct ok; [|done]. by apply sr_first.
  - split; [done|]. apply alter_Forall; [done|]. intros [k|c|] Hw; [done| |done]. by apply viewer_runs.
Qed.

(** C20: However windows come, shake hands, lag and go, and however the sessions'
    frames are broadcast: what a picture window was sent is gapless runs of the
    frames, in order and nothing twice, and it asked for exactly one key frame
    per run - at its start and after every gap. *)
Theorem window_runs (es : list ServerEvent) (w : nat) (c : FrameClient) :
  let s := server_run (frame_server true) es in
  fs_windows s !! w = Some (Served c) -> sent_runs (fs_frames s) (fc_cursor c) (fc_idr c) (fc_sent c).
Proof.
  intros s Hw. assert (fs_idr_on_connect s = true /\ Forall (window_ok (fs_frames s)) (fs_windows s)) as [_ H].
  { unfold s, server_run. generalize (conj eq_refl (Forall_nil_2 _) : fs_idr_on_connect (frame_server true) = true /\
      Forall (window_ok (fs_frames (frame_server true))) (fs_windows (frame_server true))).
    generalize (frame_server true). clear. induction es as [|e es IH]; intros s [H1 H2]; [done|].
    cbn [foldl]. apply IH. by apply server_step_windows. }
  rewrite Forall_lookup in H. exact (H _ _ Hw).
Qed.

(** ** One window while frames flow *)

(** From [c], with [frames], to [c'], with [frames']: without another key
    frame asked for, it was sent exactly the frames in between. *)
Record keeps_up (frames frames' : list (list Z)) (c c' : FrameClient) : Prop := {
  ku_frames : exists more, frames' = frames ++ more;
  ku_idr : (fc_idr c <= fc_idr c')%nat;
  ku_cursor : (fc_cursor c <= fc_cursor c' <= length frames')%nat;
  ku_sent : fc_idr c' = fc_idr c -> fc_sent c' = fc_sent c ++ take (fc_cursor c' - fc_cursor c) (drop (fc_cursor c) frames')
}.

Lemma keeps_up_refl frames c : (fc_cursor c <= length frames)%nat -> keeps_up frames frames c c.
Proof.
  split; [by exists []; rewrite app_nil_r|lia|lia|]. intros _. by rewrite Nat.sub_diag, take_0, app_nil_r.
Qed.

Lemma keeps_up_close frames c : (fc_cursor c <= length frames)%nat -> keeps_up frames frames c (close_client c).
Proof. intros H. destruct (keeps_up_refl frames c H). by split. Qed.

Lemma take_drop_split {A} (l : list A) a b c : (a <= b <= c)%nat ->
  take (c - a) (drop a l) = take (b - a) (drop a l) ++ take (c - b) (drop b l).
Proof.
  intros H. replace (c - a)%nat with ((b - a) + (c - b))%nat by lia. rewrite <- take_take_drop, drop_drop.
  by replace (a + (b - a))%nat with b by lia.
Qed.

Lemma keeps_up_trans f1 f2 f3 c1 c2 c3 : keeps_up f1 f2 c1 c2 -> keeps_up f2 f3 c2 c3 -> keeps_up f1 f3 c1 c3.
Proof.
  intros [[m1 ->] I1 C1 S1] [[m2 ->] I2 C2 S2]. split; [|lia|lia|].
  - exists (m1 ++ m2). by rewrite app_assoc.
  - intros Hi. rewrite S2, S1 by lia. rewrite <- app_assoc. f_equal.
    rewrite (take_drop_split _ (fc_cursor c1) (fc_cursor c2) (fc_cursor c3)) by lia. f_equal.
    rewrite (drop_app_le (f1 ++ m1) m2), take_app_le by (rewrite ?length_drop; lia). done.
Qed.

Lemma viewer_keeps_up frames c i : (fc_cursor c <= length frames)%nat -> keeps_up frames frames c (viewer_step true frames c i).
Proof.
  intros H. unfold viewer_step. destruct (negb (fc_open c)); [by apply keeps_up_refl|].
  destruct i as [ok| | |]; [|by apply keeps_up_refl|by apply keeps_up_close..].
  destruct (FRAME_CAPACITY <? length frames - fc_cursor c)%nat eqn:E; bool_prop.
  - split; cbn [set_fc fc_cursor fc_idr fc_sent ask_idr]; [by exists []; rewrite app_nil_r|lia|unfold FRAME_CAPACITY in *; lia|lia].
  - destruct (frames !! fc_cursor c) as [f|] eqn:Ef; [|by apply keeps_up_refl]. pose proof (lookup_lt_Some _ _ _ Ef).
    destruct ok; [|by apply keeps_up_close]. split; cbn; [by exists []; rewrite app_nil_r|lia|lia|].
    intros _. replace (S (fc_cursor c) - fc_cursor c)%nat with 1%nat by lia. f_equal. by rewrite (drop_S _ _ _ Ef).
Qed.

Lemma server_step_keeps_up s e w c : fs_idr_on_connect s = true -> (fc_cursor c <= length (fs_frames s))%nat ->
  fs_windows s !! w = Some (Served c) ->
  let s' := server_step s e in exists c', fs_windows s' !! w = Some (Served c') /\ keeps_up (fs_frames s) (fs_frames s') c c'.
Proof.
  destruct s as [idr qs frames ws]. cbn. intros -> Hc Hw.
  destruct e as [|q f|q| | |v ok|v i]; cbn; try (exists c; split; [done|by apply keeps_up_refl]).
  - destruct (qs !! q) as [[|f l]|]; cbn; (exists c; split; [done|]); [by apply keeps_up_refl| |by apply keeps_up_refl].
    split; [by eexists|lia|rewrite length_app; lia|]. intros _. by rewrite Nat.sub_diag, take_0, app_nil_r.
  - exists c. split; [|by apply keeps_up_refl]. by apply lookup_app_l_Some.
  - exists c. split; [|by apply keeps_up_refl]. destruct (decide (v = w)) as [->|Hne].
    + by rewrite list_lookup_alter_eq, Hw.
    + by rewrite list_lookup_alter_ne.
  - destruct (decide (v = w)) as [->|Hne].
    + eexists. rewrite list_lookup_alter_eq, Hw. split; [done|]. by apply viewer_keeps_up.
    + exists c. rewrite list_lookup_alter_ne by done. split; [done|by apply keeps_up_refl].
Qed.

Lemma server_run_keeps_up es : forall s w c, fs_idr_on_connect s = true -> (fc_cursor c <= length (fs_frames s))%nat ->
  fs_windows s !! w = Some (Served c) ->
  let s' := server_run s es in exists c', fs_windows s' !! w = Some (Served c') /\ keeps_up (fs_frames s) (fs_frames s') c c'.
Proof.
  induction es as [|e es IH]; intros s w c Hi Hc Hw; [exists c; split; [done|by apply keeps_up_refl]|].
  destruct (server_step_keeps_up s e w c Hi Hc Hw) as (c1 & Hw1 & Hk).
  destruct (IH (server_step s e) w c1) as (c2 & Hw2 & Hk2); [|apply Hk|done|].
  - destruct s as [idr qs frames ws]. cbn in Hi. subst. destruct e; cbn; try done. by destruct (qs !! q) as [[|f l]|].
  - exists c2. split; [done|]. by eapply keeps_up_trans.
Qed.

(** ** From the laptop's encoder to a window *)

(** The frames one session hands on. *)
Definition fed (q : nat) (es : list ServerEvent) : list (list Z) :=
  omap (fun e => match e with Queue q' f => if bool_decide (q' = q) then Some f else None | _ => None end) es.

(** No other session hands on anything. *)
Definition only_feeds (q : nat) (e : ServerEvent) : Prop := match e with Queue q' _ => q' = q | _ => True end.

(** Session [q] has [l] waiting, and the others nothing. *)
Definition waiting (s : FrameServer) (q : nat) (l : list (list Z)) : Prop :=
  fs_queues s !! q = Some l /\ forall i l', fs_queues s !! i = Some l' -> i <> q -> l' = [].

Lemma server_step_feed s e q l : waiting s q l -> only_feeds q e ->
  let s' := server_step s e in
  exists l', waiting s' q l' /\ fs_frames s' ++ l' = fs_frames s ++ l ++ fed q [e].
Proof.
  destruct s as [idr qs frames ws]. intros [Hq Ho] He. unfold waiting. cbn [fs_queues fs_frames] in *.
  destruct e as [|q' f|q'| | |v ok|v i]; cbn [server_step fs_queues fs_frames set_windows];
    try (exists l; cbn; by rewrite app_nil_r).
  - exists l. cbn. rewrite app_nil_r. split; [|done]. split; [by apply lookup_app_l_Some|].
    intros i l' [Hi|[_ Hi]]%lookup_app_Some Hne; [by eapply Ho|]. destruct (i - length qs)%nat; cbn in Hi; by simplify_eq.
  - cbn in He. subst q'. exists (l ++ [f]). cbn. rewrite bool_decide_true by done. split; [split|done].
    + by rewrite list_lookup_alter_eq, Hq.
    + intros i l' Hi Hne. rewrite list_lookup_alter_ne in Hi by done. by eapply Ho.
  - cbn [fed omap list_omap]. rewrite app_nil_r. destruct (decide (q' = q)) as [->|Hne].
    + rewrite Hq. destruct l as [|f l]; [by exists []|]. cbn [fs_queues fs_frames]. exists l. rewrite <- app_assoc. split; [split|done].
      * apply list_lookup_insert_eq. by eapply lookup_lt_Some.
      * intros i l' Hi Hne. rewrite list_lookup_insert_ne in Hi by done. by eapply Ho.
    + exists l. destruct (qs !! q') as [[|f l']|] eqn:E; [by split|by specialize (Ho _ _ E Hne)|by split].
Qed.

Lemma server_run_feed es : forall s q l, waiting s q l -> Forall (only_feeds q) es ->
  let s' := server_run s es in
  exists l', waiting s' q l' /\ fs_frames s' ++ l' = fs_frames s ++ l ++ fed q es.
Proof.
  induction es as [|e es IH]; intros s q l Hw He; [exists l; by rewrite app_nil_r|].
  apply Forall_cons in He as [He Hes]. destruct (server_step_feed s e q l Hw He) as (l1 & Hw1 & E1).
  destruct (IH (server_step s e) q l1 Hw1 Hes) as (l2 & Hw2 & E2). exists l2. split; [done|].
  cbn [server_run foldl]. unfold server_run in E2. rewrite E2, app_assoc, E1.
  change (e :: es) with ([e] ++ es). unfold fed. by rewrite omap_app, <- !app_assoc.
Qed.

(** C1: From the laptop's encoder to a window: the host serves its viewer frame
    after frame over a network that loses, repeats and reorders datagrams; what
    the viewer's task hands on goes through the session's channel and the
    broadcast to a window that is served, while others come and go.  A window
    that did not fall behind has then been sent one message per frame of which
    enough arrived, in order: the type byte and the encoded picture, byte for
    byte. *)
Theorem picture_reaches_window {R : ReedSolomon} {RL : ReedSolomonLaws R} (powf : f64 -> f64 -> f64)
    (packet_size : nat) (probe_epoch viewer : Z) (windows : bool) (h h' : VideoHost) (turns : list VideoTurn) (aus : list AuFrame)
    (Hsize : (NV_VIDEO_PACKET_SIZE + VIDEO_FRAME_HEADER_SIZE <= packet_size)%nat)
    (Hbuf : (PAYLOAD_OFFSET + packet_size <= NV_VIDEO_PACKET_SIZE + MAX_DATAGRAM)%nat)
    (Hair : on_air viewer h) (Htm : transmission powf packet_size probe_epoch viewer h turns aus h')
    (s : FrameServer) (es : list ServerEvent) (q w : nat) (c c' : FrameClient) :
  let outs := (video_run windows true true turns).1 in
  let s' := server_run s es in
  fs_idr_on_connect s = true -> waiting s q [] -> Forall (only_feeds q) es -> fed q es = map au_data (handed_on outs) ->
  fs_windows s !! w = Some (Served c) -> fc_cursor c = length (fs_frames s) ->
  fs_windows s' !! w = Some (Served c') -> fc_idr c' = fc_idr c ->
  fs_queues s' !! q = Some [] -> fc_cursor c' = length (fs_frames s') ->
  fc_sent c' = fc_sent c ++ map au_data aus.
Proof.
  intros outs s' Hidr Hq Hes Hfed Hw Hc Hw' Hi Hq' Hc'.
  destruct (transmission_run powf packet_size probe_epoch viewer windows Hsize Hbuf h turns aus h' Htm Hair
    depacketizer_new (settled_new _) eq_refl) as (dp' & o & Hrun & Ho & _).
  assert (handed_on outs = aus) as Hout by (unfold outs, video_run; cbn [negb]; rewrite Hrun; exact Ho).
  destruct (server_run_feed es s q [] Hq Hes) as (l & [Hl _] & Hframes). fold s' in Hl, Hframes.
  rewrite Hq' in Hl. injection Hl as <-. rewrite app_nil_r in Hframes. cbn [app] in Hframes.
  destruct (server_run_keeps_up es s w c) as (c1 & Hw1 & Hk); [done|lia|done|]. fold s' in Hw1, Hk.
  rewrite Hw' in Hw1. injection Hw1 as <-. rewrite (ku_sent _ _ _ _ Hk Hi), Hc', Hframes, Hfed, Hout, Hc.
  by rewrite drop_app_length, length_app, Nat.add_comm, Nat.add_sub, firstn_all.
Qed.

(** ** Witnesses *)

Lemma starts_agree_witness :
  let '(c, t) := start_server (start_server cells_new (Bound (Some 50000)) (Bound (Some 50001))).1 NoBind NoBind in
  cells_agree c /\ start_result (start_server cells_new (Bound (Some 50000)) (Bound (Some 50001))).1 c NoBind NoBind t.
Proof.
  apply (starts_agree (start_server cells_new (Bound (Some 50000)) (Bound (Some 50001))).1 NoBind NoBind).
  by apply (agree_some _ 0 1 50000 50001).
Defined.

Lemma failed_starts_leak_witness :
  cl_servers (Nat.iter 3 (fun c => (start_server c (Bound (Some 50000)) NoBind).1) cells_new) = replicate 3 (50000, true).
Proof. apply (failed_starts_leak 3 (Some 50000) NoBind). discriminate. Defined.

(** A window that falls behind by more than the broadcast keeps. *)
Definition lagging_events : list ServerEvent :=
  [NewSession; Accept; Handshake 0 true] ++ flat_map (fun n => [Queue 0 [Z.of_nat n]; Drain 0]) (seq 0 514)
  ++ [WindowTurn 0 (Receive true); WindowTurn 0 (Receive true)].

Lemma window_runs_witness : sent_runs (map (fun n => [Z.of_nat n]) (seq 0 514)) 3 2 [[2]].
Proof.
  assert (fs_frames (server_run (frame_server true) lagging_events) = map (fun n => [Z.of_nat n]) (seq 0 514)) as <-
    by (vm_compute; reflexivity).
  apply (window_runs lagging_events 0 {| fc_sent := [[2]]; fc_cursor := 3; fc_idr := 2; fc_open := true |}).
  vm_compute. reflexivity.
Defined.

(** A window is served; another one comes while the frames flow. *)
Definition served_example : FrameServer := server_run (frame_server true) [NewSession; Accept; Handshake 0 true].
Definition window_example : FrameClient := {| fc_sent := []; fc_cursor := 0; fc_idr := 1; fc_open := true |}.
Definition flow_example : list ServerEvent :=
  [Queue 0 [1; 1; 2; 3]; Accept; Drain 0; AcceptFails; WindowTurn 0 (Receive true);
   Queue 0 (0 :: replicate 40 7); WindowTurn 0 Incoming; Drain 0; Handshake 1 true; NewSession; WindowTurn 0 (Receive true)].

Lemma picture_reaches_window_witness :
  exists c', fs_windows (server_run served_example flow_example) !! 0%nat = Some (Served c') /\
  fc_sent c' = [[1; 1; 2; 3]; 0 :: replicate 40 7].
Proof.
  eexists. split; [vm_compute; reflexivity|].
  apply (picture_reaches_window (R := XorCodec) powf_half 48 0 77 true host_example stream_3 stream_turns_example
    [au_frame key_frame_example; au_frame delta_frame_example] ltac:(by apply Nat.leb_le) ltac:(by apply Nat.leb_le)
    host_example_on_air stream_example_runs served_example flow_example 0 0 window_example).
  - reflexivity.
  - split; [reflexivity|]. intros [|i] l; [done|]. by destruct i.
  - by repeat constructor.
  - vm_compute. reflexivity.
  - reflexivity.
  - reflexivity.
  - vm_compute. reflexivity.
  - reflexivity.
  - vm_compute. reflexivity.
  - vm_compute. reflexivity.
Defined.
