(* ===== verification/AdminMirror.v ===== *)
(** * The administrator sees what the hub knows

    The hub's threads (Hub.v), the feed of one administrator (AdminWs.v) and
    the shell's copy of the list (AdminApp.v), composed.  Every step of a
    handler either shows the laptop it changed, or leaves its thread owing a
    broadcast, or changes nothing that is shown; [mirrored] is the invariant
    this gives as long as no two handlers work on one laptop at a time, and
    with no broadcast owed the copy is exact.  When two do overlap, a view read
    before a change can be sent after it: [stale_view_shown]. *)
From Stdlib Require Import Floats.SpecFloat.
From S2P Require Import Prelude Float HubState Hub AdminWs HubApi AdminApp.

Section Mirror.
Context (verify_password : string -> string -> bool) (id_text : Uuid -> string) (order : list Laptop -> list Laptop).
Context (order_perm : forall l, order l ≡ₚ l).
Implicit Types (h : Hub) (s : Sys) (m : gmap Uuid AgentView).
Local Abbreviation step := (sys_step verify_password id_text).
Local Abbreviation view := build_agent_view.

(** ** The copy as a function of the messages *)

Definition apply_msg m (msg : HubToAdmin) : gmap Uuid AgentView :=
  match msg with
  | Snapshot agents => foldl insert_agent ∅ agents
  | AgentUpdated agent => insert_agent m agent
  | Alert _ _ _ _ => m
  end.

Lemma handle_agents mv b msg : be_agents (handle_hub_msg mv b msg) = apply_msg (be_agents b) msg.
Proof. by destruct msg. Qed.

Lemma handle_all_agents mv b msgs : be_agents (foldl (handle_hub_msg mv) b msgs) = foldl apply_msg (be_agents b) msgs.
Proof. revert b. induction msgs as [|msg msgs IH]; intros b; [done|]. cbn [foldl]. by rewrite IH, handle_agents. Qed.

(** The last update of [a] in a run of updates. *)
Definition shown_in (a : Uuid) (msg : HubToAdmin) : option AgentView :=
  match msg with
  | AgentUpdated v => if decide (av_agent_id v = a) then Some v else None
  | _ => None
  end.

Fixpoint last_shown (a : Uuid) (msgs : list HubToAdmin) : option AgentView :=
  match msgs with
  | [] => None
  | msg :: msgs => match last_shown a msgs with Some v => Some v | None => shown_in a msg end
  end.

Definition is_update (msg : HubToAdmin) : Prop := match msg with Snapshot _ => False | _ => True end.

Lemma foldl_updates m a msgs : Forall is_update msgs ->
  foldl apply_msg m msgs !! a = match last_shown a msgs with Some v => Some v | None => m !! a end.
Proof.
  intros H. revert m. induction H as [|msg msgs Hm H IH]; intros m; [done|]. cbn [foldl last_shown]. rewrite IH.
  destruct (last_shown a msgs); [done|]. destruct msg as [|v|]; [done| |done]. cbn [apply_msg shown_in]. unfold insert_agent.
  destruct (decide (av_agent_id v = a)) as [<-|Hne]; [by rewrite lookup_insert_eq|by rewrite lookup_insert_ne].
Qed.

Lemma last_shown_app a l l' :
  last_shown a (l ++ l') = match last_shown a l' with Some v => Some v | None => last_shown a l end.
Proof. induction l as [|x l IH]; cbn [app last_shown]; [by destruct (last_shown a l')|]. rewrite IH. by destruct (last_shown a l'). Qed.

(** ** The snapshot *)

Lemma view_id h a v : view h a = Some v -> av_agent_id v = a.
Proof. unfold build_agent_view. destruct (laptop_name _ _); [|done]. by intros [= <-]. Qed.

Lemma insert_views h l m a : Forall (fun v => view h (av_agent_id v) = Some v) l ->
  foldl insert_agent m l !! a = if decide (a ∈ map av_agent_id l) then view h a else m !! a.
Proof.
  intros H. revert m. induction H as [|v l Hv H IH]; intros m; [done|]. cbn [foldl map]. rewrite IH. unfold insert_agent.
  destruct (decide (a ∈ map av_agent_id l)) as [Hin|Hout].
  - by rewrite decide_True by (by apply elem_of_cons; right).
  - destruct (decide (a = av_agent_id v)) as [->|Hne].
    + rewrite decide_True by (by apply elem_of_cons; left). by rewrite lookup_insert_eq, Hv.
    + rewrite decide_False by (by intros [?|?]%elem_of_cons). by rewrite lookup_insert_ne.
Qed.

Definition known h (a : Uuid) : Prop := is_Some (laptop_name (hub_db h) a).

Lemma known_view h a : known h a <-> is_Some (view h a).
Proof.
  unfold known, build_agent_view. destruct (laptop_name _ _) as [n|]; [|by split; intros [? ?]].
  split; intros _; [by eexists|by exists n].
Qed.

Lemma known_laptop h a : known h a -> exists l, l ∈ laptops (hub_db h) /\ lp_agent_id l = a.
Proof.
  intros [n H]. unfold laptop_name in H. destruct (list_find _ _) as [[i l]|] eqn:E; [|done].
  apply list_find_Some in E as (Hl & Ha & _). exists l. split; [by eapply list_elem_of_lookup_2|done].
Qed.

Lemma snapshot_views h : Forall (fun v => view h (av_agent_id v) = Some v) (snapshot h order).
Proof.
  apply Forall_forall. intros v (l & Hv & Hl)%list_elem_of_omap. by rewrite (view_id _ _ _ Hl).
Qed.

(** A snapshot shows every laptop as it is. *)
Lemma snapshot_shows h m a : apply_msg m (Snapshot (snapshot h order)) !! a = view h a.
Proof.
  cbn [apply_msg]. rewrite (insert_views h) by apply snapshot_views. case_decide as Hin; [done|]. rewrite lookup_empty.
  destruct (view h a) as [v|] eqn:E; [|done]. destruct Hin. apply list_elem_of_fmap. exists v.
  split; [by rewrite (view_id _ _ _ E)|]. apply list_elem_of_omap.
  destruct (known_laptop h a) as (l & Hl & Ha); [apply known_view; by eexists|]. exists l. split; [by rewrite order_perm|by rewrite Ha].
Qed.

(** ** What a handler owes *)

Definition current h (a : Uuid) (cid : Z) : Prop := exists c, online h !! a = Some c /\ conn_id c = cid.

Definition owes h (t : Thread) (a : Uuid) : Prop :=
  match t with
  | AwInsertAddr b _ cid | AwHelloOk b cid | AwCleanupOnline b cid => b = a /\ current h a cid
  | AwCleanupAddr b | AwCleanupSessions b | SrAddr b _ | Bcast b _ _ => b = a
  | _ => False
  end.

(** The laptop a handler has identified. *)
Definition agent_of (t : Thread) : option Uuid :=
  match t with
  | AwConnId a _ _ | AwInsertOnline a _ _ _ | AwInsertAddr a _ _ | AwHelloOk a _ | AwLive a _
  | AwAlert a _ _ | AwAlertSend a _ _ _ | AwCleanupOnline a _ | AwCleanupAddr a | AwCleanupSessions a
  | SrLock _ a | SrAddr a _ | Bcast a _ _ => Some a
  | _ => None
  end.

Definition is_bcast (t : Thread) : bool := match t with Bcast _ _ _ => true | _ => false end.

(** A handler only meets laptops of the database, and a broadcast sends the
    view of its own laptop. *)
Definition well_known h (t : Thread) : Prop :=
  (forall a, agent_of t = Some a -> known h a) /\
  match t with
  | Bcast b st next =>
      is_bcast next = false /\ (forall a, agent_of next = Some a -> known h a) /\
      match st with BvSend v => av_agent_id v = b | _ => True end
  | _ => True
  end.

(** What a broadcast in progress has read is still so. *)
Definition stage_ok h (a : Uuid) (st : BcStage) : Prop :=
  match st with
  | BvName _ => True
  | BvOnline n => laptop_name (hub_db h) a = Some n
  | BvSessions n o stat =>
      laptop_name (hub_db h) a = Some n /\
      (o, stat) = match online h !! a with Some c => (true, last_status c) | None => (false, None) end
  | BvSend v => view h a = Some v
  end.

(** A laptop of which nothing is known but its name. *)
Definition blank h (a : Uuid) : Prop := online h !! a = None /\ sessions h !! a = None.

Record known_inv s : Prop := {
  ki_thread tid t : threads s !! tid = Some t -> well_known (hub s) t;
  ki_online a : is_Some (online (hub s) !! a) -> known (hub s) a;
  ki_session a : is_Some (sessions (hub s) !! a) -> known (hub s) a
}.

(** The copy [m] of laptop [a], against the hub. *)
Definition mirrored m s (a : Uuid) : Prop :=
  m !! a = view (hub s) a \/
  (exists tid t, threads s !! tid = Some t /\ owes (hub s) t a) \/
  (m !! a = None /\ blank (hub s) a).

(** ** One step *)

(** What a step of a thread from [h], [t] to [h'], [t'] that broadcasts
    [news] means for laptop [a]. *)
Inductive shows h t h' t' (news : list HubToAdmin) (a : Uuid) : Prop :=
| shows_new v : last_shown a news = Some v -> view h' a = Some v -> owes h t a -> shows h t h' t' news a
| shows_owed : owes h' t' a -> shows h t h' t' news a
| shows_same :
    last_shown a news = None -> ~ owes h t a -> online h' !! a = online h !! a -> sessions h' !! a = sessions h !! a ->
    (laptop_name (hub_db h') a = laptop_name (hub_db h) a \/ laptop_name (hub_db h) a = None) ->
    shows h t h' t' news a.

Lemma view_fields h h' a : laptop_name (hub_db h') a = laptop_name (hub_db h) a -> online h' !! a = online h !! a ->
  sessions h' !! a = sessions h !! a -> view h' a = view h a.
Proof. intros H1 H2 H3. unfold build_agent_view. by rewrite H1, H2, H3. Qed.

#[local] Instance current_dec h a cid : Decision (current h a cid).
Proof.
  refine (match online h !! a as o return online h !! a = o -> _ with
          | Some c => fun E => cast_if (decide (conn_id c = cid))
          | None => fun E => right _ end eq_refl); unfold current.
  - by exists c.
  - intros (c' & Hc & Hid). congruence.
  - intros (c' & Hc & Hid). congruence.
Defined.

#[local] Instance owes_dec h t a : Decision (owes h t a).
Proof. destruct t; cbn [owes]; apply _. Defined.

(** A step that shows nothing and keeps the tables. *)
Lemma shows_quiet h t h' t' a : online h' !! a = online h !! a -> sessions h' !! a = sessions h !! a -> hub_db h' = hub_db h ->
  (owes h t a -> owes h' t' a) -> shows h t h' t' [] a.
Proof.
  intros Ho Hs Hd Hw. destruct (decide (owes h t a)); [by apply shows_owed, Hw|].
  apply shows_same; [done..|left; by rewrite Hd].
Qed.

(** A step that changes laptop [b] and then owes it. *)
Lemma shows_touch h t h' t' a b : owes h' t' b -> (b <> a -> online h' !! a = online h !! a) ->
  (b <> a -> sessions h' !! a = sessions h !! a) -> hub_db h' = hub_db h -> (owes h t a -> b = a) -> shows h t h' t' [] a.
Proof.
  intros Hw Ho Hs Hd Hold. destruct (decide (b = a)) as [->|Hne]; [by apply shows_owed|].
  apply shows_quiet; auto. intros H. by destruct (Hne (Hold H)).
Qed.

Definition step_shown h t h' t' : Prop :=
  exists news, broadcasts h' = broadcasts h ++ news /\ Forall is_update news /\
    forall a, (forall st k, t = Bcast a st k -> stage_ok h a st) -> shows h t h' t' news a.

Lemma step_quiet h t h' t' : broadcasts h' = broadcasts h ->
  (forall a, shows h t h' t' [] a) -> step_shown h t h' t'.
Proof. intros Hb H. exists []. by rewrite app_nil_r. Qed.

Lemma laptop_name_grows db mac id tok l db' a : get_or_create_laptop db mac id tok = Some (l, db') ->
  laptop_name db' a = laptop_name db a \/ laptop_name db a = None.
Proof.
  unfold get_or_create_laptop. destruct (list_find _ _) as [[i x]|]; [intros [= <- <-]; by left|].
  case_bool_decide; [done|]. intros [= <- <-]. unfold laptop_name at 2 3. destruct (list_find _ (laptops db)) as [[i x]|] eqn:E; [left|by right].
  unfold laptop_name. cbn [laptops]. apply list_find_Some in E as (Hx & Ha & Hb).
  assert (list_find (fun l => lp_agent_id l = a) (laptops db ++ [{| lp_agent_id := id; lp_mac := mac;
    lp_name := student_name (length (laptops db) + 1); lp_token := tok |}]) = Some (i, x)) as ->; [|done].
  apply list_find_Some. split_and!; [by apply lookup_app_l_Some|done|]. intros j y Hj Hlt. apply (Hb j y); [|done].
  apply lookup_app_Some in Hj as [Hj|[Hge _]]; [done|]. apply lookup_lt_Some in Hx. lia.
Qed.

Ltac quiet_step := apply step_quiet; [done|]; intros ?; apply shows_quiet; [done..|].

Lemma bcast_shows h b st next : well_known h (Bcast b st next) ->
  step_shown h (Bcast b st next) (bcast_step id_text h b st next).1 (bcast_step id_text h b st next).2.
Proof.
  intros [Hk (_ & _ & Hid)]. destruct st as [bare|name|name o stat|v]; cbn [bcast_step fst snd].
  - destruct (Hk b eq_refl) as [n ->]. by quiet_step.
  - quiet_step. by destruct (online h !! b).
  - by quiet_step.
  - exists [AgentUpdated v]. split_and!; [done|by repeat constructor|]. intros a Hst. subst b.
    destruct (decide (av_agent_id v = a)) as [<-|Hne].
    + eapply shows_new; [cbn [last_shown shown_in]; by rewrite decide_True|exact (Hst (BvSend v) next eq_refl)|done].
    + apply shows_same; [cbn [last_shown shown_in]; by rewrite decide_False|done|done|done|by left].
Qed.

Lemma step_shows tid h t i h' t' : thread_step verify_password id_text tid h t i = Some (h', t') ->
  well_known h t -> step_shown h t h' t'.
Proof.
  intros E Hk. destruct t, i; try done; cbn [thread_step] in E; try (injection E as <- <-).
  all: try (quiet_step; solve [done|cbn [owes]; tauto]).
  - (* AwInsertOnline *)
    apply step_quiet; [done|]. intros a. eapply (shows_touch _ _ _ _ _ agent_id); try done.
    + split; [done|]. eexists. cbn. by rewrite lookup_insert_eq.
    + intros Hne. cbn. by rewrite lookup_insert_ne.
  - (* AwHelloOk *) quiet_step. intros [-> ?]. by destruct ok.
  - (* AwLive *) injection E as E. unfold on_agent_frame in E.
    destruct f as [[[]|]| | | |]; simplify_eq; try (quiet_step; done).
    + apply step_quiet; [unfold store_status; by destruct (online h !! agent_id)|]. intros a.
      eapply (shows_touch _ _ _ _ _ agent_id); try done.
      * intros Hne. unfold store_status. destruct (online h !! agent_id); [|done]. cbn. by rewrite lookup_insert_ne.
      * intros _. unfold store_status. by destruct (online h !! agent_id).
      * unfold store_status. by destruct (online h !! agent_id).
    + apply step_quiet; [unfold deliver_result; by destruct (pending_cmds h !! _)|]. intros a.
      apply shows_quiet; unfold deliver_result; by destruct (pending_cmds h !! _).
  - (* AwAlertSend *) exists [Alert agent_id LevelCritical name percent].
    split_and!; [done|by repeat constructor|]. intros a _. apply shows_same; [done|by intros []|done|done|by left].
  - (* AwCleanupOnline *) unfold cleanup_online in E. destruct (online h !! agent_id) as [c|] eqn:Ec.
    + destruct (conn_id c =? cid) eqn:Eid; injection E as <- <-; bool_prop.
      * apply step_quiet; [done|]. intros a. eapply (shows_touch _ _ _ _ _ agent_id); try done.
        -- intros Hne. cbn. by rewrite lookup_delete_ne.
        -- by intros [-> _].
      * quiet_step. cbn [owes]. intros [<- (c' & Hc' & Hid)]. congruence.
    + injection E as <- <-. quiet_step. cbn [owes]. intros [<- (c' & Hc' & Hid)]. congruence.
  - (* AwCleanupSessions *) apply step_quiet; [done|]. intros a. eapply (shows_touch _ _ _ _ _ agent_id); try done.
    intros Hne. cbn. by rewrite lookup_delete_ne.
  - (* PvProvision *) injection E as E. destruct (get_or_create_laptop _ _ _ _) as [[l db]|] eqn:Ed; simplify_eq; [|by quiet_step].
    apply step_quiet; [done|]. intros a. apply shows_same; [done|by intros []|done..|]. cbn. by eapply laptop_name_grows.
  - (* SrLock *) injection E as E. unfold request_session in E. destruct (sessions h !! agent_id) as [ss|]; [case_bool_decide|];
      simplify_eq; try (quiet_step; done); apply step_quiet; try done; intros a;
      (eapply (shows_touch _ _ _ _ _ agent_id); try done; intros Hne; cbn; by rewrite lookup_insert_ne).
  - (* ReLock *) injection E as E. unfold release_session in E. destruct (sessions h !! agent_id) as [ss|]; [case_bool_decide|];
      simplify_eq; try (quiet_step; done). apply step_quiet; [done|]. intros a.
    eapply (shows_touch _ _ _ _ _ agent_id); try done. intros Hne. cbn. by rewrite lookup_delete_ne.
  - (* RcSend *) injection E as E. unfold send_command in E. case_bool_decide; simplify_eq; by quiet_step.
  - (* RcWait *) destruct (answer_for h tid); [|done]. injection E as <- <-. by quiet_step.
  - (* Bcast *) pose proof (bcast_shows h agent_id st t Hk) as H. injection E as E. by rewrite E in H.
Qed.

(** A broadcast begins with nothing read. *)
Definition unread (t : Thread) : bool := match t with Bcast _ (BvName _) _ => true | Bcast _ _ _ => false | _ => true end.

Lemma step_unread tid h t i h' t' : thread_step verify_password id_text tid h t i = Some (h', t') -> is_bcast t = false -> unread t' = true.
Proof.
  intros E Hb. destruct t, i; try done; cbn [thread_step] in E; try (by injection E as <- <-).
  all: unfold on_hello, on_agent_frame, request_session, release_session, send_command in E.
  all: repeat (case_match; simplify_eq; try done).
Qed.

Lemma bcast_step_stage h a st next st' next' : well_known h (Bcast a st next) -> stage_ok h a st ->
  (bcast_step id_text h a st next).2 = Bcast a st' next' -> stage_ok (bcast_step id_text h a st next).1 a st'.
Proof.
  intros [Hk (Hb & _ & _)] Hok. destruct st as [bare|name|name o stat|v]; cbn [bcast_step fst snd].
  - destruct (Hk a eq_refl) as [n Hn]. rewrite Hn. by intros [= <- <-].
  - cbn [stage_ok] in Hok. destruct (online h !! a) as [c|] eqn:Eo; intros [= <- <-]; cbn [stage_ok]; by rewrite Eo.
  - intros [= <- <-]. cbn [stage_ok] in *. destruct Hok as [Hn Ho]. unfold build_agent_view. rewrite Hn.
    destruct (online h !! a) as [c|]; injection Ho as -> ->; by destruct (sessions h !! a).
  - intros ->. by cbn in Hb.
Qed.

(** A thread's own broadcast reads what is there. *)
Lemma step_stage tid h t i h' t' a st k : thread_step verify_password id_text tid h t i = Some (h', t') -> well_known h t ->
  (forall st0 k0, t = Bcast a st0 k0 -> stage_ok h a st0) -> t' = Bcast a st k -> stage_ok h' a st.
Proof.
  intros E Hk Hown Et. destruct (is_bcast t) eqn:Eb.
  - destruct t as [| | | | | | | | | | | | | | | | | | | | | | | |b st0 next]; try done. destruct i; try done.
    cbn [thread_step] in E. injection E as E. destruct (decide (a = b)) as [<-|Hne].
    + pose proof (bcast_step_stage h a st0 next st k Hk (Hown st0 next eq_refl)) as H. rewrite E in H. by apply H.
    + subst t'. destruct Hk as [_ (Hb & _ & _)].
      destruct st0; cbn [bcast_step] in E; simplify_eq; repeat (case_match; simplify_eq; try done).
  - apply (step_unread _ _ _ _ _ _ E) in Eb. subst t'. by destruct st.
Qed.

(** ** Handlers only meet laptops of the database *)

Lemma step_known tid h t i h' t' a : thread_step verify_password id_text tid h t i = Some (h', t') -> known h a -> known h' a.
Proof.
  intros E Hk. assert ((exists mac, t = PvProvision mac) \/ hub_db h' = hub_db h) as [[mac ->]|Hd].
  { destruct t, i; try done; try (by left; eexists); right; cbn [thread_step] in E; try (by injection E as <- <-).
    all: unfold on_hello, on_agent_frame, request_session, release_session, send_command, bcast_step, store_status, deliver_result,
      cleanup_online in E; repeat (case_match; simplify_eq; try done). }
  - destruct i; try done. cbn [thread_step] in E. injection E as E.
    destruct (get_or_create_laptop _ _ _ _) as [[l db]|] eqn:Ed; simplify_eq; [|done]. unfold known in *. cbn.
    destruct (laptop_name_grows _ _ _ _ _ _ a Ed) as [->|Hn]; [done|]. rewrite Hn in Hk. by destruct Hk.
  - unfold known in *. by rewrite Hd.
Qed.

Lemma verify_agent_known db a tok n : verify_agent db a tok = Some n -> is_Some (laptop_name db a).
Proof.
  unfold verify_agent, laptop_name. destruct (list_find _ _) as [[i l]|] eqn:E; [|done]. intros _.
  apply list_find_Some in E as (Hl & [Ha _] & _).
  destruct (list_find (fun l => lp_agent_id l = a) (laptops db)) as [[j x]|] eqn:E2; [by eexists|].
  apply list_find_None in E2. rewrite Forall_forall in E2. by destruct (E2 l (list_elem_of_lookup_2 _ _ _ Hl)).
Qed.

(** Threads about a single known laptop. *)
Lemma well_known_same h t b : (forall a, agent_of t = Some a -> a = b) -> is_bcast t = false -> known h b -> well_known h t.
Proof. intros H Hb Hk. split; [by intros a Ha; rewrite (H a Ha)|by destruct t]. Qed.

Lemma well_known_none h t : agent_of t = None -> well_known h t.
Proof. intros H. split; [by rewrite H|by destruct t]. Qed.

Lemma well_known_bcast h b bare next : (forall a, agent_of next = Some a -> a = b) -> is_bcast next = false -> known h b ->
  well_known h (Bcast b (BvName bare) next).
Proof. intros H Hb Hk. split; [by intros a [= <-]|]. split_and!; [done| |done]. by intros a Ha; rewrite (H a Ha). Qed.

Lemma bcast_well_known h b st next : well_known h (Bcast b st next) -> well_known h (bcast_step id_text h b st next).2.
Proof.
  intros [Hk (Hb & Hn & Hid)]. specialize (Hk b eq_refl).
  assert (forall st', match st' with BvSend v => av_agent_id v = b | _ => True end -> well_known h (Bcast b st' next)) as Hgo.
  { intros st' Hst. split; [by intros a [= <-]|]. by split_and!. }
  destruct st as [bare|name|name o stat|v]; cbn [bcast_step fst snd].
  - destruct Hk as [n ->]. by apply Hgo.
  - destruct (online h !! b); by apply Hgo.
  - by apply Hgo.
  - split; [done|by destruct next].
Qed.

Lemma step_well_known tid h t i h' t' : thread_step verify_password id_text tid h t i = Some (h', t') ->
  well_known h t -> (forall a, is_Some (sessions h !! a) -> known h a) -> well_known h t'.
Proof.
  intros E Hk Hs. destruct t, i; try done; cbn [thread_step] in E; try (injection E as <- <-).
  all: try (by apply well_known_none).
  all: try (apply (well_known_same _ _ agent_id); [by intros ? [= <-]|done|by apply Hk]; fail).
  all: try (apply well_known_bcast; [by intros ? [= <-]|done|by apply Hk]; fail).
  - unfold on_hello. destruct f as [[[]|]| | | |]; try (by apply well_known_none).
    destruct (verify_agent _ _ _) as [n|] eqn:Ev; [|by apply well_known_none].
    apply (well_known_same _ _ agent_id); [by intros ? [= <-]|done|by eapply verify_agent_known].
  - destruct ok; [apply well_known_bcast|apply (well_known_same _ _ agent_id)]; try (by intros ? [= <-]); try done; by apply Hk.
  - injection E as E. unfold on_agent_frame in E. destruct f as [[[]|]| | | |]; simplify_eq; try done;
      try (apply (well_known_same _ _ agent_id); [by intros ? [= <-]|done|by apply Hk]).
    apply well_known_bcast; [|by destruct (low_battery report)|by apply Hk]. destruct (low_battery report); by intros ? [= <-].
  - destruct (cleanup_online h agent_id cid); injection E as <- <-; [|by apply well_known_none].
    apply (well_known_same _ _ agent_id); [by intros ? [= <-]|done|by apply Hk].
  - destruct (get_or_create_laptop _ _ _ _) as [[]|]; simplify_eq; by apply well_known_none.
  - destruct (verify_admin _ _ _ _); by apply well_known_none.
  - destruct (laptop_name _ _) as [n|] eqn:En; [|by apply well_known_none].
    apply (well_known_same _ _ agent_id); [by intros ? [= <-]|done|by exists n].
  - injection E as E. unfold request_session in E. destruct (sessions h !! agent_id) as [ss|]; [case_bool_decide|]; simplify_eq;
      try (by apply well_known_none); apply (well_known_same _ _ agent_id); try (by intros ? [= <-]); try done; by apply Hk.
  - injection E as E. unfold release_session in E. destruct (sessions h !! agent_id) as [ss|] eqn:Es; [case_bool_decide|]; simplify_eq;
      try (by apply well_known_none). apply well_known_bcast; [by intros ? [=]|done|apply Hs; by exists ss].
  - destruct (online h !! agent_id); by apply well_known_none.
  - injection E as E. unfold send_command in E. case_bool_decide; simplify_eq; by apply well_known_none.
  - destruct (answer_for h tid); simplify_eq; by apply well_known_none.
  - pose proof (bcast_well_known h agent_id st t Hk) as H. injection E as E. by rewrite E in H.
Qed.

Lemma well_known_grows h h' t : (forall a, known h a -> known h' a) -> well_known h t -> well_known h' t.
Proof.
  intros H [H1 H2]. split; [eauto|]. destruct t; try done. destruct H2 as (? & ? & ?). by split_and!; eauto.
Qed.

(** Where the entries of the tables come from. *)
Lemma step_tables tid h t i h' t' a : thread_step verify_password id_text tid h t i = Some (h', t') ->
  (is_Some (online h' !! a) -> is_Some (online h !! a) \/ agent_of t = Some a) /\
  (is_Some (sessions h' !! a) -> is_Some (sessions h !! a) \/ agent_of t = Some a).
Proof.
  intros E. destruct t, i; try done; cbn [thread_step] in E; try (injection E as <- <-); try (by split; left).
  - split; [|by left]. cbn. destruct (decide (agent_id = a)) as [->|]; [by right|]. rewrite lookup_insert_ne by done. by left.
  - injection E as E. unfold on_agent_frame in E. destruct f as [[[]|]| | | |]; simplify_eq; try (by split; left).
    + unfold store_status. destruct (online h !! agent_id) eqn:Eo; [|by split; left]. split; [|by left]. cbn.
      destruct (decide (agent_id = a)) as [->|]; [by right|]. rewrite lookup_insert_ne by done. by left.
    + unfold deliver_result. destruct (pending_cmds h !! _); by split; left.
  - unfold cleanup_online in E. destruct (online h !! agent_id) as [c|]; [|injection E as <- <-; by split; left].
    destruct (conn_id c =? cid); injection E as <- <-; [|by split; left]. split; [|by left]. cbn.
    intros [x Hx]. apply lookup_delete_Some in Hx as [_ Hx]. left. by exists x.
  - split; [by left|]. cbn. intros [x Hx]. apply lookup_delete_Some in Hx as [_ Hx]. left. by exists x.
  - injection E as E. destruct (get_or_create_laptop _ _ _ _) as [[]|]; simplify_eq; by split; left.
  - injection E as E. unfold request_session in E. split; [destruct (sessions h !! agent_id) as [ss|]; [case_bool_decide|]; simplify_eq; by left|].
    destruct (decide (agent_id = a)) as [->|Hne]; [by right|].
    destruct (sessions h !! agent_id) as [ss|]; [case_bool_decide|]; simplify_eq; cbn; rewrite ?lookup_insert_ne by done; by left.
  - injection E as E. unfold release_session in E. destruct (sessions h !! agent_id) as [ss|]; [case_bool_decide|]; simplify_eq;
      (split; [by left|]); try (by left). cbn. intros [x Hx]. apply lookup_delete_Some in Hx as [_ Hx]. left. by exists x.
  - injection E as E. unfold send_command in E. case_bool_decide; simplify_eq; by split; left.
  - destruct (answer_for h tid); simplify_eq. by split; left.
  - injection E as E. destruct st; cbn [bcast_step] in E; simplify_eq; by split; left.
Qed.

Lemma known_inv_step s s' : known_inv s -> step s s' -> known_inv s'.
Proof.
  intros [Kt Ko Ks]. destruct 1 as [s tid t Hn He|s tid t i h' t' Et E|s cid]; [| |by split].
  - split; cbn [hub threads]; [|done..]. intros k x [[-> ->]|[_ Hx]]%lookup_insert_Some; [|by apply (Kt k)].
    apply well_known_none. by destruct x.
  - assert (forall a, known (hub s) a -> known h' a) as Hup by (intros a; by eapply step_known).
    pose proof (Kt _ _ Et) as Hw. split; cbn [hub threads].
    + intros k x [[-> ->]|[_ Hx]]%lookup_insert_Some; apply (well_known_grows (hub s)); auto; [|by apply (Kt k)].
      by eapply step_well_known.
    + intros a Ha. destruct (step_tables _ _ _ _ _ _ a E) as [H _]. apply Hup. destruct (H Ha); [by apply Ko|by apply Hw].
    + intros a Ha. destruct (step_tables _ _ _ _ _ _ a E) as [_ H]. apply Hup. destruct (H Ha); [by apply Ks|by apply Hw].
Qed.

Lemma known_inv_initial db : known_inv (sys_initial db).
Proof. split; cbn; intros *; rewrite ?lookup_empty; done || by intros []. Qed.

(** ** The invariant of the copy *)

(** At most one handler works on laptop [a]: it has changed it, or may be
    about to show it, and has not shown it yet. *)
Definition calm (a : Uuid) s : Prop := forall tid1 tid2 t1 t2,
  threads s !! tid1 = Some t1 -> threads s !! tid2 = Some t2 -> owes (hub s) t1 a -> owes (hub s) t2 a -> tid1 = tid2.

Definition calm_step (a : Uuid) s s' : Prop := step s s' /\ calm a s'.

(** What the broadcast of [a] in progress has read is still so. *)
Record reading (a : Uuid) s : Prop := {
  rd_known : known_inv s;
  rd_calm : calm a s;
  rd_stage tid st k : threads s !! tid = Some (Bcast a st k) -> stage_ok (hub s) a st
}.

Lemma reading_initial a db : reading a (sys_initial db).
Proof. split; [apply known_inv_initial|intros ? ? ? ?|intros ? ? ?]; cbn; by rewrite lookup_empty. Qed.

Lemma stage_same h h' a st : stage_ok h a st -> online h' !! a = online h !! a -> sessions h' !! a = sessions h !! a ->
  (laptop_name (hub_db h') a = laptop_name (hub_db h) a \/ laptop_name (hub_db h) a = None) -> stage_ok h' a st.
Proof.
  intros Hok Ho Hs [Hn|Hn].
  - destruct st; cbn [stage_ok] in *; rewrite ?Hn, ?Ho; try done. by rewrite (view_fields h h').
  - destruct st; cbn [stage_ok] in *; try done; [congruence|by destruct Hok; congruence|].
    unfold build_agent_view in Hok. by rewrite Hn in Hok.
Qed.

Lemma reading_step a s s' : reading a s -> calm_step a s s' -> reading a s'.
Proof.
  intros [K C R] [Hstep C']. split; [by eapply known_inv_step|done|]. clear -K C R Hstep C' order_perm.
  destruct Hstep as [s tid t Hn He|s tid t i h' t' Et E|s cid]; cbn [hub threads] in *; [| |exact R].
  - intros k st x [[-> ->]|[_ Hx]]%lookup_insert_Some; [done|by eapply R].
  - pose proof (ki_thread _ K _ _ Et) as Hw. intros k st x [[-> ->]|[Hne Hx]]%lookup_insert_Some.
    + eapply step_stage; [exact E|done| |done]. intros st0 k0 ->. by eapply R.
    + destruct (step_shows _ _ _ _ _ _ E Hw) as (news & _ & _ & Hs).
      destruct (Hs a) as [v _ _ Ho|Ho|_ _ Hon Hse Hname].
      * intros st0 k0 ->. by eapply R.
      * destruct Hne. by apply (C tid k t (Bcast a st x)).
      * exfalso. apply Hne, (C' tid k t' (Bcast a st x)); cbn; [by rewrite lookup_insert_eq|by rewrite lookup_insert_ne|done..].
      * apply (stage_same (hub s)); [by eapply R|done..].
Qed.

(** The copy of laptop [a]: the messages broadcast since there were [n],
    applied to [m]. *)
Definition copy m (n : nat) s : gmap Uuid AgentView := foldl apply_msg m (drop n (broadcasts (hub s))).

Record mirror_inv (a : Uuid) m (n : nat) s : Prop := {
  mi_reading : reading a s;
  mi_length : (n <= length (broadcasts (hub s)))%nat;
  mi_updates : Forall is_update (drop n (broadcasts (hub s)));
  mi_mirrored : mirrored (copy m n s) s a
}.

Lemma mirror_step a m n s s' : mirror_inv a m n s -> calm_step a s s' -> mirror_inv a m n s'.
Proof.
  intros [Rd L U I] Hstep. pose proof (reading_step _ _ _ Rd Hstep) as Rd'. destruct Hstep as [Hstep C'], Rd as [K C R].
  destruct Hstep as [s tid t Hn He|s tid t i h' t' Et E|s cid].
  - split; [done..|]. destruct I as [H|[(k & x & Hk & Hx)|H]]; [by left| |by right; right].
    right. left. exists k, x. split; [|done]. cbn. rewrite lookup_insert_ne; [done|]. intros ->. congruence.
  - destruct (step_shows _ _ _ _ _ _ E (ki_thread _ K _ _ Et)) as (news & Hb & Hu & Hs).
    assert (drop n (broadcasts h') = drop n (broadcasts (hub s)) ++ news) as Hd by (rewrite Hb; by apply drop_app_le).
    split; cbn [hub threads]; [done|rewrite Hb, length_app; lia|rewrite Hd; by apply Forall_app|].
    unfold mirrored, copy. cbn [hub threads]. rewrite Hd, foldl_app. fold (copy m n s).
    rewrite (foldl_updates (copy m n s) a news Hu).
    destruct (Hs a) as [v Hv Hview _|Ho|Hl Hno Hon Hse Hname].
    + intros st k ->. by eapply R.
    + left. by rewrite Hv.
    + right. left. exists tid, t'. by rewrite lookup_insert_eq.
    + rewrite Hl. destruct I as [H|[(k & x & Hk & Hx)|[H1 [H2 H3]]]].
      * destruct Hname as [Hname|Hname]; [left; rewrite H; symmetry; by apply view_fields|].
        right. right. split; [rewrite H; unfold build_agent_view; by rewrite Hname|].
        split; [rewrite Hon|rewrite Hse]; apply eq_None_not_Some; intros Hsome.
        -- apply (ki_online _ K) in Hsome as [? ?]. congruence.
        -- apply (ki_session _ K) in Hsome as [? ?]. congruence.
      * right. left. exists k, x. split.
        -- rewrite lookup_insert_ne; [done|]. intros ->. congruence.
        -- revert Hx. destruct x; cbn [owes]; unfold current; try done; intros [<- Hc]; by rewrite Hon.
      * right. right. split; [done|]. split; congruence.
  - by split.
Qed.

(** ** Draining the feed *)

Lemma feed_drain_lagged fuel h sent k :
  (BROADCAST_CAPACITY < length (broadcasts h) - k)%nat -> (BROADCAST_CAPACITY < fuel)%nat ->
  fd_sent (feed_drain order fuel h {| fd_sent := sent; fd_cursor := Some k; fd_closed := false |})
  = sent ++ Snapshot (snapshot h order) :: drop (length (broadcasts h) - BROADCAST_CAPACITY) (broadcasts h).
Proof.
  intros Hlag Hf. destruct fuel as [|fuel]; [lia|]. cbn [feed_drain]. unfold feed_recv at 1. cbn [fd_cursor fd_sent].
  rewrite (proj2 (Nat.ltb_lt _ _) Hlag). rewrite feed_drain_sent by lia. cbn [fd_sent]. by rewrite <- app_assoc.
Qed.

(** the administrator's screen converges: as long as no two handlers of
    the hub work on one laptop at the same time, then whatever else
    interleaves after an administrator subscribed, and however far the feed
    falls behind, once no handler owes that laptop a broadcast and the feed is
    read to its end, the shell holds exactly what the hub would answer; only a
    laptop provisioned since and never heard of is missing. *)
Theorem admin_converges (db : Db) (s0 s : Sys) (token user : string) (fuel : nat) mv (b : Backend) (a : Uuid) :
  steps (calm_step a) (sys_initial db) s0 -> admin_from_token (hub s0) token = Some user -> steps (calm_step a) s0 s ->
  (forall tid t, threads s !! tid = Some t -> ~ owes (hub s) t a) -> (BROADCAST_CAPACITY < fuel)%nat ->
  let feed := feed_drain order fuel (hub s) (feed_subscribe (hub s0) (feed_open order (hub s0) token)) in
  let shown := be_agents (foldl (handle_hub_msg mv) b (fd_sent feed)) in
  shown !! a = view (hub s) a \/ (shown !! a = None /\ blank (hub s) a).
Proof.
  intros H0 Ht Hs Hrest Hfuel feed shown.
  set (m0 := apply_msg ∅ (Snapshot (snapshot (hub s0) order))). set (n := length (broadcasts (hub s0))).
  assert (mirror_inv a m0 n s) as [_ L U I].
  { refine (steps_invariant (calm_step a) (mirror_inv a m0 n) s0 s _ (mirror_step a m0 n) Hs).
    split; [by eapply (steps_invariant (calm_step a) (reading a) _ _ (reading_initial a db) (reading_step a))|done|unfold n; by rewrite drop_all|].
    left. unfold copy, n. rewrite drop_all. cbn [foldl]. apply snapshot_shows. }
  assert (copy m0 n s !! a = view (hub s) a \/ copy m0 n s !! a = None /\ blank (hub s) a) as Hcopy.
  { destruct I as [H|[(tid & t & Htid & Ho)|H]]; [by left|by destruct (Hrest tid t)|by right]. }
  unfold shown, feed, feed_open. rewrite Ht. unfold feed_subscribe. cbn [fd_closed fd_sent]. fold n. rewrite handle_all_agents.
  destruct (decide (BROADCAST_CAPACITY < length (broadcasts (hub s)) - n)%nat) as [Hlag|Hkeep].
  - rewrite feed_drain_lagged by done. cbn [app foldl].
    set (k := (length (broadcasts (hub s)) - BROADCAST_CAPACITY)%nat).
    assert (drop n (broadcasts (hub s)) = take (k - n) (drop n (broadcasts (hub s))) ++ drop k (broadcasts (hub s))) as Hsplit.
    { rewrite <- (take_drop (k - n) (drop n (broadcasts (hub s)))) at 1. f_equal. rewrite drop_drop. f_equal. lia. }
    rewrite foldl_updates by (rewrite Hsplit in U; by apply Forall_app in U as [_ U]).
    destruct (last_shown a (drop k (broadcasts (hub s)))) as [v|] eqn:Ev; [|left; apply snapshot_shows].
    unfold copy in Hcopy. rewrite (foldl_updates _ _ _ U) in Hcopy. rewrite Hsplit, last_shown_app, Ev in Hcopy.
    destruct Hcopy as [Hc|[Hc _]]; [by left|done].
  - rewrite feed_drain_sent by lia. cbn [fd_sent app foldl]. exact Hcopy.
Qed.
End Mirror.

(** ** Examples *)

#[local] Existing Instance owes_dec.

(** The handlers that work on laptop [a]. *)
Definition busy (a : Uuid) (s : Sys) : list nat :=
  (filter (fun p => owes (hub s) p.2 a) (map_to_list (threads s))).*1.

Lemma busy_calm a s : (length (busy a s) <= 1)%nat -> calm a s.
Proof.
  intros H tid1 tid2 t1 t2 H1 H2 O1 O2.
  assert (forall tid t, threads s !! tid = Some t -> owes (hub s) t a -> tid ∈ busy a s) as Hin.
  { intros tid t Ht Ho. apply list_elem_of_fmap. exists (tid, t). split; [done|].
    apply list_elem_of_filter. split; [done|]. by apply elem_of_map_to_list. }
  pose proof (Hin _ _ H1 O1) as B1. pose proof (Hin _ _ H2 O2) as B2.
  destruct (busy a s) as [|x [|]]; [by apply elem_of_nil in B1| |simpl in H; lia].
  apply list_elem_of_singleton in B1, B2. congruence.
Qed.

Lemma nobody_busy a s : busy a s = [] -> forall tid t, threads s !! tid = Some t -> ~ owes (hub s) t a.
Proof.
  intros H tid t Ht Ho. assert (tid ∈ busy a s) as Hin; [|rewrite H in Hin; by apply elem_of_nil in Hin].
  apply list_elem_of_fmap. exists (tid, t). split; [done|]. apply list_elem_of_filter. split; [done|]. by apply elem_of_map_to_list.
Qed.

Definition calm_act (a : Uuid) (s : option Sys) (x : Action) : option Sys :=
  s' <-? act s x; if (length (busy a s') <=? 1)%nat then Some s' else None.

Lemma calm_run_steps a s l s' : foldl (calm_act a) (Some s) l = Some s' -> steps (calm_step pw_example id_example a) s s'.
Proof.
  revert s'. induction l as [|x l IH] using rev_ind; intros s'; [intros [= <-]; apply steps_refl|].
  rewrite foldl_app. cbn [foldl]. destruct (foldl (calm_act a) (Some s) l) as [s1|] eqn:E; [|done].
  unfold calm_act. destruct (act (Some s1) x) as [s2|] eqn:Ea; [|done]. destruct (length (busy a s2) <=? 1)%nat eqn:Eb; [|done].
  intros [= <-]. bool_prop. eapply steps_next; [by apply IH|]. split; [by eapply act_step|by apply busy_calm].
Qed.

(** A laptop comes online after an administrator subscribed, and is then put
    under control. *)
Definition control_actions : list Action :=
  [Spawn 3 (SrKnown "ann" 7); Run 3 INone; Run 3 (IFresh 0 "s1"); Run 3 INone] ++ bcast_actions 3.

Definition subscribed_example : Sys :=
  default (sys_initial db_empty) (run_from (sys_initial hub_db_example) (login_actions 1 "ann")).
Definition controlled_example : Sys :=
  default (sys_initial db_empty) (run_from subscribed_example (online_actions 2 ++ control_actions)).

(** What the shell of [ann] ends up with. *)
Definition screen (s0 s : Sys) : gmap Uuid AgentView :=
  let feed := feed_drain (fun l => l) 300 (hub s) (feed_subscribe (hub s0) (feed_open (fun l => l) (hub s0) "ann")) in
  be_agents (foldl (handle_hub_msg (fun m => (map_to_list m).*2)) backend_new (fd_sent feed)).

Lemma admin_converges_witness :
  screen subscribed_example controlled_example !! 7 = build_agent_view (hub controlled_example) 7 /\
  (v <-? screen subscribed_example controlled_example !! 7; av_controlled_by v) = Some "ann"%string.
Proof.
  assert (screen subscribed_example controlled_example !! 7 = build_agent_view (hub controlled_example) 7 \/
          (screen subscribed_example controlled_example !! 7 = None /\ blank (hub controlled_example) 7)) as H.
  { apply (admin_converges pw_example id_example (fun l => l) (fun l => reflexivity l) hub_db_example subscribed_example controlled_example "ann" "ann").
    - apply (calm_run_steps 7 _ (login_actions 1 "ann")). vm_compute. reflexivity.
    - vm_compute. reflexivity.
    - apply (calm_run_steps 7 _ (online_actions 2 ++ control_actions)). vm_compute. reflexivity.
    - apply nobody_busy. vm_compute. reflexivity.
    - unfold BROADCAST_CAPACITY. lia. }
  assert ((v <-? screen subscribed_example controlled_example !! 7; av_controlled_by v) = Some "ann"%string) as E by (vm_compute; reflexivity).
  split; [|exact E]. destruct H as [H|[H _]]; [exact H|]. rewrite H in E. discriminate.
Defined.

(** The laptop's first broadcast has read the sessions when control is
    granted, and is sent after the grant's own. *)
Definition overlap_actions : list Action :=
  take 9 (online_actions 2) ++ control_actions ++ drop 9 (online_actions 2).
Definition overlap_example : Sys := default (sys_initial db_empty) (run_from subscribed_example overlap_actions).

(** when two handlers do overlap on a laptop, a view read before a change
    can be sent after it: here the hub has granted control of the laptop, no
    handler owes anything and the feed is read to its end, but the
    administrator's screen shows the laptop as free, until that laptop is
    broadcast again. *)
Theorem stale_view_shown :
  steps (sys_step pw_example id_example) (sys_initial hub_db_example) subscribed_example /\
  steps (sys_step pw_example id_example) subscribed_example overlap_example /\
  (forall tid t, threads overlap_example !! tid = Some t -> ~ owes (hub overlap_example) t 7) /\
  (v <-? build_agent_view (hub overlap_example) 7; av_controlled_by v) = Some "ann"%string /\
  exists v, screen subscribed_example overlap_example !! 7 = Some v /\ av_online v = true /\ av_controlled_by v = None.
Proof.
  split_and!.
  - apply (run_from_steps _ (login_actions 1 "ann")). vm_compute. reflexivity.
  - apply (run_from_steps _ overlap_actions). vm_compute. reflexivity.
  - apply nobody_busy. vm_compute. reflexivity.
  - vm_compute. reflexivity.
  - eexists. split_and!; [vm_compute; reflexivity|reflexivity..].
Qed.
