(* ===== verification/Feed.v ===== *)
(** * The administrator's feed, lock by lock ([kmc-hub/src/admin_ws.rs],
    [snapshot] and [build_agent_view] of [kmc-hub/src/state.rs])

    The handler of one administrator's WebSocket as a thread beside those of
    Hub.v: a snapshot takes the database once and then three locks per laptop,
    while the other handlers go on; the subscription comes after it; a feed that
    fell behind takes a second snapshot at its new place.  [feed_converges]:
    what the shell holds in the end is what the hub knows, although no snapshot
    is of one moment; [quiet_snapshot]: where nobody interferes it is the
    [snapshot] of HubState.v. *)
From S2P Require Import Prelude Float HubState Hub AdminWs HubApi AdminApp AdminMirror.

(** ** The handler *)

(** What follows a snapshot: the subscription, or the loop at a new place. *)
Inductive AfterSnapshot := ThenSubscribe | ThenResume (cursor : nat).

Inductive FeedThread :=
| FtToken (token : string)
| FtLaptops (next : AfterSnapshot)
(** [build_agent_view] of [agent_id], then the laptops [todo]. *)
| FtView (agent_id : Uuid) (st : BcStage) (todo : list Uuid) (out : list AgentView) (next : AfterSnapshot)
| FtSendSnapshot (out : list AgentView) (next : AfterSnapshot)
| FtSubscribe
| FtLoop (cursor : nat)
| FtForward (msg : HubToAdmin) (cursor : nat)
| FtClosed.

(** [FiRun]: the next lock or receive; [FiDbError]: the database fails;
    [FiSent]: how a send ends; [FiGone]: the socket closes or fails. *)
Inductive FeedInput := FiRun | FiDbError | FiSent (ok : bool) | FiGone.

Definition after_snapshot (next : AfterSnapshot) : FeedThread :=
  match next with ThenSubscribe => FtSubscribe | ThenResume cursor => FtLoop cursor end.

(** A snapshot that fails ends a new feed; a running one goes on without. *)
Definition snapshot_failed (next : AfterSnapshot) : FeedThread :=
  match next with ThenSubscribe => FtClosed | ThenResume cursor => FtLoop cursor end.

Definition next_row (todo : list Uuid) (out : list AgentView) (next : AfterSnapshot) : FeedThread :=
  match todo with
  | [] => FtSendSnapshot out next
  | b :: todo => FtView b (BvName false) todo out next
  end.

Section Handler.
(** The order of the database's rows. *)
Context (order : list Laptop -> list Laptop).

(** One step with the messages that reach the administrator; [None] where the
    handler waits. *)
Definition feed_step (h : Hub) (t : FeedThread) (i : FeedInput) : option (FeedThread * list HubToAdmin) :=
  match t, i with
  | FtToken token, FiRun =>
      Some (match admin_from_token h token with Some _ => FtLaptops ThenSubscribe | None => FtClosed end, [])
  | FtLaptops next, FiRun => Some (next_row (map lp_agent_id (order (laptops (hub_db h)))) [] next, [])
  | FtLaptops next, FiDbError => Some (snapshot_failed next, [])
  | FtView b (BvName _) todo out next, FiRun =>
      Some (match laptop_name (hub_db h) b with
            | Some name => FtView b (BvOnline name) todo out next
            | None => next_row todo out next
            end, [])
  | FtView b (BvName _) todo out next, FiDbError => Some (snapshot_failed next, [])
  | FtView b (BvOnline name) todo out next, FiRun =>
      Some (match online h !! b with
            | Some c => FtView b (BvSessions name true (last_status c)) todo out next
            | None => FtView b (BvSessions name false None) todo out next
            end, [])
  | FtView b (BvSessions name is_online status) todo out next, FiRun =>
      Some (next_row todo (out ++ [{| av_agent_id := b; av_name := name; av_online := is_online; av_status := status;
                                      av_controlled_by := admin_username <$> sessions h !! b; av_tailscale_addr := None |}]) next, [])
  | FtSendSnapshot out next, FiSent ok =>
      Some (if ok then (after_snapshot next, [Snapshot out]) else (FtClosed, []))
  | FtSubscribe, FiRun => Some (FtLoop (length (broadcasts h)), [])
  | FtLoop cursor, FiRun =>
      let n := length (broadcasts h) in
      if (BROADCAST_CAPACITY <? n - cursor)%nat then Some (FtLaptops (ThenResume (n - BROADCAST_CAPACITY)%nat), [])
      else msg <-? broadcasts h !! cursor; Some (FtForward msg (S cursor), [])
  | FtLoop _, FiGone => Some (FtClosed, [])
  | FtForward msg cursor, FiSent ok => Some (if ok then (FtLoop cursor, [msg]) else (FtClosed, []))
  | _, _ => None
  end.

(** The hub with one such handler; [fy_sent]: what the administrator was sent. *)
Record FeedSys := mkFeedSys { fy_sys : Sys; fy_thread : FeedThread; fy_sent : list HubToAdmin }.

Context (verify_password : string -> string -> bool) (id_text : Uuid -> string).

(** Handlers of the hub and the feed interleave, the database not failing. *)
Inductive feed_sys_step (a : Uuid) : FeedSys -> FeedSys -> Prop :=
| fy_hub f s' :
    calm_step verify_password id_text a (fy_sys f) s' ->
    feed_sys_step a f (mkFeedSys s' (fy_thread f) (fy_sent f))
| fy_feed f i t' msgs :
    i <> FiDbError -> feed_step (hub (fy_sys f)) (fy_thread f) i = Some (t', msgs) ->
    feed_sys_step a f (mkFeedSys (fy_sys f) t' (fy_sent f ++ msgs)).
End Handler.

(** ** A snapshot nobody interferes with *)

Section Quiet.
Context (order : list Laptop -> list Laptop).

(** The handler alone for [n] steps. *)
Fixpoint run_alone (n : nat) (h : Hub) (t : FeedThread) : option FeedThread :=
  match n with
  | O => Some t
  | S n => r <-? feed_step order h t FiRun; run_alone n h r.1
  end.

Lemma run_alone_view h b todo out next :
  exists n, run_alone n h (FtView b (BvName false) todo out next)
  = Some (next_row todo (out ++ match build_agent_view h b with Some v => [v] | None => [] end) next).
Proof.
  unfold build_agent_view. destruct (laptop_name (hub_db h) b) as [name|] eqn:En.
  - exists 3%nat. cbn. rewrite En. cbn. destruct (online h !! b) eqn:Eo; cbn; done.
  - exists 1%nat. cbn. by rewrite En, app_nil_r.
Qed.

Lemma run_alone_add n m h t t' : run_alone n h t = Some t' -> run_alone (n + m) h t = run_alone m h t'.
Proof.
  revert t. induction n as [|n IH]; intros t; cbn; [by intros [= ->]|]. destruct (feed_step order h t FiRun) as [[t1 msgs]|]; [|done].
  apply IH.
Qed.

Lemma run_alone_rows h next : forall todo out,
  exists n, run_alone n h (next_row todo out next) = Some (FtSendSnapshot (out ++ omap (build_agent_view h) todo) next).
Proof.
  induction todo as [|b todo IH]; intros out; [exists 0%nat; cbn; by rewrite app_nil_r|].
  destruct (run_alone_view h b todo out next) as (n & Hn).
  destruct (IH (out ++ match build_agent_view h b with Some v => [v] | None => [] end)) as (m & Hm).
  exists (n + m)%nat. cbn [next_row]. rewrite (run_alone_add _ _ _ _ _ Hn), Hm. do 2 f_equal. rewrite <- app_assoc. f_equal.
  cbn. by destruct (build_agent_view h b).
Qed.

(** Where no other handler takes a lock in between, the snapshot read lock by
    lock is the snapshot of the state, and the handler reaches its sending. *)
Theorem quiet_snapshot (h : Hub) (next : AfterSnapshot) :
  exists n, run_alone n h (FtLaptops next) = Some (FtSendSnapshot (snapshot h order) next).
Proof.
  destruct (run_alone_rows h next (map lp_agent_id (order (laptops (hub_db h)))) []) as (n & Hn).
  exists (S n). cbn [run_alone feed_step mbind option_bind fst]. rewrite Hn. do 2 f_equal. cbn [app]. unfold snapshot.
  generalize (order (laptops (hub_db h))). intros l. induction l as [|x l IH]; [done|]. cbn. by rewrite IH.
Qed.
End Quiet.

(** ** Convergence *)

Section Converge.
Context (verify_password : string -> string -> bool) (id_text : Uuid -> string) (order : list Laptop -> list Laptop).
Context (order_perm : forall l, order l ≡ₚ l).
Context (a : Uuid).
Implicit Types (h : Hub) (s : Sys) (f : FeedSys).
Local Abbreviation reads := (reading a).
Local Abbreviation hub_step := (calm_step verify_password id_text a).
Local Abbreviation fstep := (feed_sys_step order verify_password id_text a).
Local Abbreviation view := build_agent_view.

Definition owed s : Prop := exists tid t, threads s !! tid = Some t /\ owes (hub s) t a.

(** [v] is what the hub knows of the laptop, or nothing is known of it. *)
Definition exact s (v : option AgentView) : Prop := v = view (hub s) a \/ (v = None /\ blank (hub s) a).

(** Nothing about the laptop differs but that it may have got its row. *)
Record same_laptop s s' : Prop := {
  sl_online : online (hub s') !! a = online (hub s) !! a;
  sl_sessions : sessions (hub s') !! a = sessions (hub s) !! a;
  sl_name : laptop_name (hub_db (hub s')) a = laptop_name (hub_db (hub s)) a \/ laptop_name (hub_db (hub s)) a = None
}.

Lemma exact_same s s' v : known_inv s -> same_laptop s s' -> exact s v -> exact s' v.
Proof.
  intros K [Ho Hs [Hn|Hn]] [->|[-> [H1 H2]]].
  - left. symmetry. by apply view_fields.
  - right. split; [done|]. split; congruence.
  - right. split; [unfold build_agent_view; by rewrite Hn|]. split; [rewrite Ho|rewrite Hs]; apply eq_None_not_Some; intros Hsome.
    + apply (ki_online _ K) in Hsome as [? ?]. congruence.
    + apply (ki_session _ K) in Hsome as [? ?]. congruence.
  - right. split; [done|]. split; congruence.
Qed.

(** A step of the hub's handlers shows the laptop as it is, leaves it owed, or
    changes nothing of it. *)
Lemma hub_step_shows s s' : reads s -> hub_step s s' ->
  exists news, broadcasts (hub s') = broadcasts (hub s) ++ news /\ Forall is_update news /\
    ((exists v, last_shown a news = Some v /\ view (hub s') a = Some v) \/ owed s' \/
     (last_shown a news = None /\ same_laptop s s' /\ (owed s -> owed s'))).
Proof.
  intros [K C R] [Hstep C']. destruct Hstep as [s tid t Hn He|s tid t i h' t' Et E|s cid].
  - exists []. rewrite app_nil_r. split_and!; [done|done|]. right. right. split_and!; [done|by split; [..|left]|].
    intros (k & x & Hk & Hx). exists k, x. split; [|done]. cbn. rewrite lookup_insert_ne; [done|]. intros ->. congruence.
  - destruct (step_shows _ _ _ _ _ _ _ _ E (ki_thread _ K _ _ Et)) as (news & Hb & Hu & Hs).
    exists news. split_and!; [done|done|]. destruct (Hs a) as [v Hv Hview _|Ho|Hl Hno Hon Hse Hname].
    + intros st k ->. by eapply R.
    + left. by exists v.
    + right. left. exists tid, t'. cbn. by rewrite lookup_insert_eq.
    + right. right. split_and!; [done|by split|]. intros (k & x & Hk & Hx). exists k, x. split; cbn [threads hub].
      * rewrite lookup_insert_ne; [done|]. intros ->. congruence.
      * revert Hx. destruct x; cbn [owes]; unfold current; try done; intros [<- Hc]; by rewrite Hon.
  - exists []. rewrite app_nil_r. split_and!; [done|done|]. right. right. split_and!; [done|by split; [..|left]|done].
Qed.

Lemma hub_step_reading s s' : reads s -> hub_step s s' -> reads s'.
Proof. eapply reading_step; done. Qed.

(** ** What a snapshot in progress has read *)

(** The view list as the shell will take it. *)
Definition shown_by (out : list AgentView) : option AgentView := foldl insert_agent ∅ out !! a.

(** What has been read of the laptop so far, if it will not be read again. *)
Definition read_so_far s (t : FeedThread) : Prop :=
  match t with
  | FtView b st todo out _ =>
      (a ∈ b :: todo -> known (hub s) a) /\
      (a ∈ todo \/ (if decide (b = a) then stage_ok (hub s) a st else exact s (shown_by out)))
  | FtSendSnapshot out _ => exact s (shown_by out)
  | _ => True
  end.

Lemma stage_same_laptop s s' st : stage_ok (hub s) a st -> same_laptop s s' -> stage_ok (hub s') a st.
Proof. intros H [Ho Hs Hn]. by eapply stage_same. Qed.

Lemma read_so_far_same s s' t : known_inv s -> same_laptop s s' -> read_so_far s t -> read_so_far s' t.
Proof.
  intros K Hsame. destruct t; cbn [read_so_far]; try done.
  - intros [Hk H]. split.
    + intros Hin. destruct (Hk Hin) as [n Hn]. exists n. destruct Hsame as [_ _ [E|E]]; congruence.
    + destruct H as [H|H]; [by left|right]. case_decide; [by eapply stage_same_laptop|by eapply exact_same].
  - by apply exact_same.
Qed.

Lemma next_row_read s todo out next : (a ∈ todo -> known (hub s) a) -> (a ∈ todo \/ exact s (shown_by out)) ->
  read_so_far s (next_row todo out next).
Proof.
  intros Hk H. destruct todo as [|b todo]; cbn.
  - destruct H as [H|H]; [by apply not_elem_of_nil in H|done].
  - split; [done|]. case_decide as Hb; [by right|]. destruct H as [[->|H]%elem_of_cons|H]; [done|by left|by right].
Qed.

Lemma shown_by_snoc out v :
  shown_by (out ++ [v]) = if decide (av_agent_id v = a) then Some v else shown_by out.
Proof.
  unfold shown_by. rewrite foldl_app. cbn [foldl]. unfold insert_agent.
  case_decide as E; [by rewrite E, lookup_insert_eq|by rewrite lookup_insert_ne].
Qed.

Lemma laptop_known h l : l ∈ laptops (hub_db h) -> known h (lp_agent_id l).
Proof.
  intros Hl. unfold known, laptop_name. destruct (list_find _ _) as [[i x]|] eqn:E; [by eexists|].
  apply list_find_None in E. rewrite Forall_forall in E. by destruct (E l Hl).
Qed.

(** The place of a laptop that has no row: a snapshot does not show it. *)
Lemma unknown_exact s : known_inv s -> ~ known (hub s) a -> exact s None.
Proof.
  intros K Hn. right. split; [done|].
  split; apply eq_None_not_Some; intros H; apply Hn; [by apply (ki_online _ K)|by apply (ki_session _ K)].
Qed.

Lemma snapshot_step s t i t' msgs : known_inv s -> i <> FiDbError -> feed_step order (hub s) t i = Some (t', msgs) ->
  read_so_far s t -> read_so_far s t'.
Proof.
  intros K Hi E H. destruct t as [token|next|b st todo out next|out next| |k|msg k|]; try done; cbn [feed_step] in E.
  - destruct i; try done. injection E as <- <-. by destruct (admin_from_token _ _).
  - destruct i; try done. injection E as <- <-. apply next_row_read.
    { intros (l & -> & Hl)%list_elem_of_fmap. apply laptop_known. by rewrite <- order_perm. }
    destruct (decide (a ∈ map lp_agent_id (order (laptops (hub_db (hub s)))))) as [Hin|Hout]; [by left|right].
    apply unknown_exact; [done|]. intros Hk. apply Hout. destruct (known_laptop _ _ Hk) as (l & Hl & Ha).
    apply list_elem_of_fmap. exists l. split; [done|]. by rewrite order_perm.
  - cbn [read_so_far] in H. destruct H as [Hk H].
    assert (a ∈ todo -> known (hub s) a) as Hk' by (intros Hin; by apply Hk, elem_of_cons; right).
    destruct st as [bare|name|name o stat|v], i; try done; injection E as <- <-.
    + destruct (laptop_name (hub_db (hub s)) b) as [name|] eqn:En; cbn [read_so_far].
      * split; [done|]. destruct H as [H|H]; [by left|right]. case_decide as Hb; [by subst|done].
      * apply next_row_read; [done|]. destruct H as [H|H]; [by left|]. case_decide as Hb; [|by right]. subst b.
        destruct (Hk ltac:(by apply elem_of_cons; left)) as [n Hn]. congruence.
    + destruct (online (hub s) !! b) as [c|] eqn:Eo; cbn [read_so_far]; (split; [done|]; destruct H as [H|H]; [by left|right];
        case_decide as Hb; [|done]; subst; cbn [stage_ok] in *; by rewrite Eo).
    + apply next_row_read; [done|]. destruct H as [H|H]; [by left|right]. rewrite shown_by_snoc. cbn [av_agent_id].
      case_decide as Hb; [|done]. subst b. left. destruct H as [Hn Hos]. unfold build_agent_view. rewrite Hn.
      destruct (online (hub s) !! a); by simplify_eq.
  - destruct i as [| |[]|]; try done; injection E as <- <-; by destruct next.
  - by destruct i; simplify_eq.
  - destruct i; try done; [|by simplify_eq]. destruct (_ <? _)%nat; [by simplify_eq|].
    destruct (broadcasts (hub s) !! k); by simplify_eq.
  - destruct i as [| |[]|]; by simplify_eq.
Qed.

(** ** The invariant of the feed *)

(** What the shell holds. *)
Definition mirror f : gmap Uuid AgentView := foldl apply_msg ∅ (fy_sent f).

(** The broadcast from which on the handler will still receive; [k0] before it
    has subscribed. *)
Definition place (k0 : nat) (t : FeedThread) : nat :=
  match t with
  | FtLaptops (ThenResume k) | FtView _ _ _ _ (ThenResume k) | FtSendSnapshot _ (ThenResume k) | FtLoop k | FtForward _ k => k
  | _ => k0
  end.

(** What holds of the laptop if no broadcast from that place on shows it. *)
Definition claim f : Prop :=
  match fy_thread f with
  | FtSubscribe | FtLoop _ => exact (fy_sys f) (mirror f !! a)
  | FtForward msg _ => exact (fy_sys f) (apply_msg (mirror f) msg !! a)
  | t => read_so_far (fy_sys f) t
  end.

Definition told s (k : nat) (P : Prop) : Prop :=
  match last_shown a (drop k (broadcasts (hub s))) with
  | Some v => view (hub s) a = Some v \/ owed s
  | None => P \/ owed s
  end.

Record feed_inv (k0 : nat) f : Prop := {
  fi_reading : reads (fy_sys f);
  fi_place : (place k0 (fy_thread f) <= length (broadcasts (hub (fy_sys f))))%nat;
  fi_updates : Forall is_update (drop (place k0 (fy_thread f)) (broadcasts (hub (fy_sys f))));
  fi_told : told (fy_sys f) (place k0 (fy_thread f)) (claim f)
}.

Lemma told_hub_step s s' k (P P' : Prop) : reads s -> hub_step s s' -> (k <= length (broadcasts (hub s)))%nat ->
  Forall is_update (drop k (broadcasts (hub s))) -> (same_laptop s s' -> P -> P') -> told s k P ->
  (k <= length (broadcasts (hub s')))%nat /\ Forall is_update (drop k (broadcasts (hub s'))) /\ told s' k P'.
Proof.
  intros Hr Hstep Hk Hu HP H. destruct (hub_step_shows s s' Hr Hstep) as (news & Hb & Hun & Hnews).
  assert (drop k (broadcasts (hub s')) = drop k (broadcasts (hub s)) ++ news) as Hd by (rewrite Hb; by apply drop_app_le).
  split; [rewrite Hb, length_app; lia|]. unfold told in *. rewrite Hd, last_shown_app. split; [by apply Forall_app|].
  destruct Hnews as [(v & -> & Hv)|[Ho|(-> & Hsame & Howed)]]; [by left| |].
  - destruct (last_shown a news), (last_shown a (drop k _)); by right.
  - destruct (last_shown a (drop k (broadcasts (hub s)))) as [v|]; (destruct H as [H|H]; [|right; by apply Howed]); left; [|by apply HP].
    destruct Hsame as [Ho Hs [Hn|Hn]]; [by rewrite <- H; apply view_fields|]. unfold build_agent_view in H. by rewrite Hn in H.
Qed.

Lemma claim_same f s' : known_inv (fy_sys f) -> same_laptop (fy_sys f) s' -> claim f -> claim (mkFeedSys s' (fy_thread f) (fy_sent f)).
Proof.
  intros K Hsame. unfold claim. cbn [fy_thread fy_sys]. change (mirror (mkFeedSys s' (fy_thread f) (fy_sent f))) with (mirror f).
  destruct (fy_thread f); first [by apply exact_same|by apply read_so_far_same].
Qed.

Lemma feed_inv_hub k0 f s' : feed_inv k0 f -> hub_step (fy_sys f) s' -> feed_inv k0 (mkFeedSys s' (fy_thread f) (fy_sent f)).
Proof.
  intros [Hr Hp Hu Ht] Hstep.
  destruct (told_hub_step _ _ _ _ (claim (mkFeedSys s' (fy_thread f) (fy_sent f))) Hr Hstep Hp Hu
    (claim_same f s' (rd_known _ _ Hr)) Ht) as (H1 & H2 & H3).
  split; [by eapply hub_step_reading|done..].
Qed.

Lemma told_weaken s k (P P' : Prop) : (P -> P') -> told s k P -> told s k P'.
Proof. intros H. unfold told. destruct (last_shown _ _); [done|]. intros [?|?]; [left|right]; auto. Qed.

(** Falling behind: the messages lost are made up for by what comes later, or
    the snapshot is read afresh. *)
Lemma told_later s k k' (P : Prop) : (k <= k')%nat -> told s k P -> told s k' True.
Proof.
  intros Hk H. unfold told in *. destruct (last_shown a (drop k' _)) as [v|] eqn:E; [|by left].
  assert (drop k (broadcasts (hub s)) = take (k' - k) (drop k (broadcasts (hub s))) ++ drop k' (broadcasts (hub s))) as Hs.
  { rewrite <- (take_drop (k' - k) (drop k _)) at 1. f_equal. rewrite drop_drop. f_equal. lia. }
  by rewrite Hs, last_shown_app, E in H.
Qed.

Lemma told_receive s k m msg : broadcasts (hub s) !! k = Some msg -> is_update msg ->
  told s k (exact s (m !! a)) -> told s (S k) (exact s (apply_msg m msg !! a)).
Proof.
  intros E Hu. unfold told. rewrite (drop_S _ _ _ E). cbn [last_shown].
  destruct (last_shown a (drop (S k) (broadcasts (hub s)))) as [v|]; [done|].
  pose proof (foldl_updates m a [msg] ltac:(by repeat constructor)) as Hm. cbn [foldl last_shown] in Hm. rewrite Hm.
  destruct (shown_in a msg) as [v|]; [|done]. intros [H|H]; [left; left; by rewrite H|by right].
Qed.

Definition resumed (t : FeedThread) : bool :=
  match t with
  | FtLaptops (ThenResume _) | FtView _ _ _ _ (ThenResume _) | FtSendSnapshot _ (ThenResume _) | FtLoop _ | FtForward _ _ | FtClosed => true
  | _ => false
  end.

Lemma place_next_row k0 todo out next : place k0 (next_row todo out next) = place k0 (FtLaptops next).
Proof. by destruct todo. Qed.

Lemma mirror_snoc s t t' sent msgs : mirror (mkFeedSys s t (sent ++ msgs)) = foldl apply_msg (mirror (mkFeedSys s t' sent)) msgs.
Proof. unfold mirror. cbn [fy_sent]. by rewrite foldl_app. Qed.

(** A step of the handler itself; the subscription is taken apart. *)
Lemma feed_inv_feed k0 f i t' msgs : feed_inv k0 f -> i <> FiDbError -> fy_thread f <> FtSubscribe ->
  feed_step order (hub (fy_sys f)) (fy_thread f) i = Some (t', msgs) ->
  t' = FtClosed \/ feed_inv k0 (mkFeedSys (fy_sys f) t' (fy_sent f ++ msgs)).
Proof.
  destruct f as [s t sent]. cbn [fy_sys fy_thread fy_sent]. intros [Hr Hp Hu Ht] Hi Hns E. cbn [fy_sys fy_thread] in *.
  pose proof (rd_known _ _ Hr) as K. unfold claim in Ht. cbn [fy_thread fy_sys] in Ht.
  destruct t as [token|next|b st todo out next|out next| |k|msg k|]; try done.
  - destruct i; try done. injection E as <- <-. destruct (admin_from_token _ _); [right|by left]. by split.
  - pose proof (told_weaken _ _ _ _ (snapshot_step s _ i t' msgs K Hi E) Ht) as Ht'.
    destruct i; try done. injection E as <- <-. right. split; cbn [fy_sys fy_thread]; rewrite ?place_next_row; try done.
    unfold claim. cbn [fy_thread fy_sys]. by destruct (map _ _).
  - pose proof (told_weaken _ _ _ _ (snapshot_step s _ i t' msgs K Hi E) Ht) as Ht'. right.
    assert (place k0 t' = place k0 (FtLaptops next) /\ claim (mkFeedSys s t' (sent ++ msgs)) = read_so_far s t') as [Hpl Hcl].
    { destruct st, i; try done; injection E as <- <-.
      - destruct (laptop_name _ _); [done|]. split; [apply place_next_row|]. by destruct todo.
      - by destruct (online _ !! _).
      - split; [apply place_next_row|]. by destruct todo. }
    change (place k0 (FtView b st todo out next)) with (place k0 (FtLaptops next)) in *.
    split; cbn [fy_sys fy_thread]; rewrite ?Hpl; try done. by rewrite Hcl.
  - destruct i as [| |[]|]; try done; injection E as <- <-; [right|by left].
    assert (forall t, mirror (mkFeedSys s t (sent ++ [Snapshot out])) !! a = shown_by out) as Hm
      by (intros t; by rewrite (mirror_snoc s t t)).
    destruct next as [|k]; (split; [done..|]); unfold claim; cbn [fy_thread fy_sys after_snapshot]; rewrite Hm; exact Ht.
  - destruct i; try done; cbn [feed_step] in E; [|injection E as <- <-; by left].
    destruct (BROADCAST_CAPACITY <? _)%nat eqn:El; bool_prop.
    + injection E as <- <-. right. set (n := length (broadcasts (hub s))) in *. cbn [place] in *.
      split; cbn [fy_sys fy_thread place]; [done|lia| |].
      * replace (n - BROADCAST_CAPACITY)%nat with (k + (n - BROADCAST_CAPACITY - k))%nat by lia.
        rewrite <- drop_drop. by apply Forall_drop.
      * eapply told_later; [|exact Ht]. lia.
    + destruct (broadcasts (hub s) !! k) as [msg|] eqn:Em; [|done]. injection E as <- <-. right. cbn [place] in *.
      rewrite (drop_S _ _ _ Em) in Hu. apply Forall_cons in Hu as [Hm Hu]. pose proof (lookup_lt_Some _ _ _ Em).
      split; cbn [fy_sys fy_thread place]; [done|lia|done|]. unfold claim. cbn [fy_thread fy_sys].
      rewrite (mirror_snoc s _ (FtLoop k)). cbn [foldl]. by apply told_receive.
  - destruct i as [| |[]|]; try done; injection E as <- <-; [right|by left]. split; [done..|].
    unfold claim. cbn [fy_thread fy_sys]. rewrite (mirror_snoc s _ (FtForward msg k)). exact Ht.
Qed.

Lemma resumed_next_row todo out next : resumed (next_row todo out next) = resumed (FtLaptops next).
Proof. by destruct todo. Qed.

Lemma resumed_step h t i t' msgs : feed_step order h t i = Some (t', msgs) -> resumed t = true -> resumed t' = true.
Proof.
  intros E Ht. destruct t as [token|[|k]|b st todo out [|k]|out [|k]| |k|msg k|]; try done; cbn [feed_step] in E.
  - destruct i; try done; injection E as <- <-; by rewrite ?resumed_next_row.
  - destruct st, i; try done; injection E as <- <-; try done; [|by destruct (online h !! b)|by rewrite resumed_next_row].
    destruct (laptop_name _ _); [done|]. by rewrite resumed_next_row.
  - by destruct i as [| |[]|]; simplify_eq.
  - destruct i; try done; [|by simplify_eq]. destruct (_ <? _)%nat; [by simplify_eq|]. by destruct (broadcasts h !! k); simplify_eq.
  - by destruct i as [| |[]|]; simplify_eq.
Qed.

(** Until it subscribes, a handler keeps its invariant; from then on as well. *)
Lemma first_leg k0 f f' : steps fstep f f' -> resumed (fy_thread f) = true \/ feed_inv k0 f ->
  resumed (fy_thread f') = true \/ feed_inv k0 f'.
Proof.
  intros Hs H. refine (steps_invariant fstep (fun f => resumed (fy_thread f) = true \/ feed_inv k0 f) f f' H _ Hs).
  clear -order_perm. intros f f' H Hstep. destruct Hstep as [f s' Hh|f i t' msgs Hi E].
  - destruct H as [H|H]; [by left|right]. by apply feed_inv_hub.
  - destruct H as [H|H]; [left; by eapply resumed_step|]. assert (fy_thread f = FtSubscribe \/ fy_thread f <> FtSubscribe) as [Et|Hne] by (destruct (fy_thread f); first [by left|by right]).
    + left. rewrite Et in E. destruct i; cbn in E; by simplify_eq/=.
    + destruct (feed_inv_feed k0 f i t' msgs H Hi Hne E) as [->|H']; [by left|by right].
Qed.

Lemma second_leg k0 f f' : steps fstep f f' -> resumed (fy_thread f) = true -> feed_inv k0 f ->
  resumed (fy_thread f') = true /\ (fy_thread f' = FtClosed \/ feed_inv k0 f').
Proof.
  intros Hs Hr H.
  refine (steps_invariant fstep (fun f => resumed (fy_thread f) = true /\ (fy_thread f = FtClosed \/ feed_inv k0 f)) f f' _ _ Hs);
    [by split; [|right]|].
  clear -order_perm. intros f f' [Hr H] Hstep. destruct Hstep as [f s' Hh|f i t' msgs Hi E].
  - split; [done|]. destruct H as [H|H]; [by left|right]. by apply feed_inv_hub.
  - split; [by eapply resumed_step|]. destruct H as [H|H]; [by rewrite H in E; destruct i|].
    eapply feed_inv_feed; [done..| |exact E]. intros Et. by rewrite Et in Hr.
Qed.
End Converge.

(** C5: The administrator's screen converges, lock by lock: the snapshot is read
    while the hub's handlers go on, the subscription comes after it, and a feed
    that falls behind reads another.  As long as no two handlers work on a
    laptop at the same time and none shows it between the beginning of the
    first snapshot and the subscription, then once nobody owes it a broadcast
    and the feed is read to its end, the shell holds exactly what the hub would
    answer; only a laptop never heard of is missing. *)
Theorem feed_converges verify_password id_text order (order_perm : forall l : list Laptop, order l ≡ₚ l)
    (db : Db) (a : Uuid) (s0 : Sys) (f1 f2 : FeedSys) mv (b : Backend) :
  let fstep := feed_sys_step order verify_password id_text a in
  let bc f := broadcasts (hub (fy_sys f)) in
  steps (calm_step verify_password id_text a) (sys_initial db) s0 ->
  steps fstep (mkFeedSys s0 (FtLaptops ThenSubscribe) []) f1 -> fy_thread f1 = FtSubscribe ->
  last_shown a (drop (length (broadcasts (hub s0))) (bc f1)) = None ->
  steps fstep (mkFeedSys (fy_sys f1) (FtLoop (length (bc f1))) (fy_sent f1)) f2 ->
  fy_thread f2 = FtLoop (length (bc f2)) -> ~ owed a (fy_sys f2) -> be_agents b = ∅ ->
  let shown := be_agents (foldl (handle_hub_msg mv) b (fy_sent f2)) in
  shown !! a = build_agent_view (hub (fy_sys f2)) a \/ (shown !! a = None /\ blank (hub (fy_sys f2)) a).
Proof.
  intros fstep bc Hs0 Hs1 Ht1 Hnone Hs2 Ht2 Hrest Hb shown.
  assert (feed_inv a (length (broadcasts (hub s0))) f1) as H1.
  { destruct (first_leg _ _ _ order_perm a (length (broadcasts (hub s0))) _ _ Hs1) as [H|H]; [right| |done].
    - split; cbn [fy_sys fy_thread place]; rewrite ?drop_all; try done.
      + eapply steps_invariant; [by apply reading_initial| |exact Hs0]. by apply reading_step.
      + unfold told. rewrite drop_all. cbn. by left.
    - by rewrite Ht1 in H. }
  assert (feed_inv a 0 (mkFeedSys (fy_sys f1) (FtLoop (length (bc f1))) (fy_sent f1))) as H2.
  { destruct H1 as [Hr _ _ Htold]. rewrite Ht1 in Htold. cbn [place] in Htold.
    unfold told in Htold. fold (bc f1) in Htold. rewrite Hnone in Htold. unfold claim in Htold. rewrite Ht1 in Htold.
    split; cbn [fy_sys fy_thread place]; fold (bc f1); rewrite ?drop_all; try done.
    unfold told. fold (bc f1). by rewrite drop_all. }
  destruct (second_leg _ _ _ order_perm a 0 _ _ Hs2 eq_refl H2) as [_ [H|[_ _ _ Htold]]]; [by rewrite Ht2 in H|].
  rewrite Ht2 in Htold. cbn [place] in Htold. unfold told in Htold. fold (bc f2) in Htold. rewrite drop_all in Htold.
  cbn [last_shown] in Htold. unfold claim in Htold. rewrite Ht2 in Htold.
  destruct Htold as [H|H]; [|done]. unfold shown. rewrite handle_all_agents, Hb. exact H.
Qed.

(** ** An example *)

Definition feed_act (a : Uuid) (f : option FeedSys) (x : Action + FeedInput) : option FeedSys :=
  f <-? f;
  match x with
  | inl x => s <-? calm_act a (Some (fy_sys f)) x; Some (mkFeedSys s (fy_thread f) (fy_sent f))
  | inr FiDbError => None
  | inr i => r <-? feed_step (fun l => l) (hub (fy_sys f)) (fy_thread f) i; Some (mkFeedSys (fy_sys f) r.1 (fy_sent f ++ r.2))
  end.

Lemma feed_run_steps a f l f' : foldl (feed_act a) (Some f) l = Some f' ->
  steps (feed_sys_step (fun l => l) pw_example id_example a) f f'.
Proof.
  revert f'. induction l as [|x l IH] using rev_ind; intros f'; [intros [= <-]; apply steps_refl|].
  rewrite foldl_app. cbn [foldl]. destruct (foldl (feed_act a) (Some f) l) as [f1|] eqn:E; [|done].
  intros H. eapply steps_next; [by apply IH|]. destruct x as [x|i].
  - cbn [feed_act] in H. destruct (calm_act a (Some (fy_sys f1)) x) as [s1|] eqn:Ea; [|done]. injection H as <-.
    apply fy_hub. unfold calm_act in Ea. destruct (act (Some (fy_sys f1)) x) as [s2|] eqn:Ex; [|done].
    cbn in Ea. destruct (length (busy a s2) <=? 1)%nat eqn:Eb; [|done]. injection Ea as <-. bool_prop.
    split; [by eapply act_step|by apply busy_calm].
  - assert (i <> FiDbError) as Hi by (by destruct i). cbn [feed_act] in H.
    destruct (feed_step (fun l => l) (hub (fy_sys f1)) (fy_thread f1) i) as [[t' msgs]|] eqn:Es; [|by destruct i].
    assert (f' = mkFeedSys (fy_sys f1) t' (fy_sent f1 ++ msgs)) as -> by (destruct i; by simplify_eq/=).
    by eapply fy_feed.
Qed.

(** The laptop comes online between the two reads of its row: the snapshot
    shows it offline, and its broadcast comes after the subscription. *)
Definition first_leg_acts : list (Action + FeedInput) :=
  [inr FiRun; inr FiRun; inr FiRun] ++ map inl (take 5 (online_actions 2)) ++
  [inr FiRun; inl (Run 2 (ISent true)); inr (FiSent true)].
Definition second_leg_acts : list (Action + FeedInput) := map inl (bcast_actions 2) ++ [inr FiRun; inr (FiSent true)].

Definition feed_start_example : FeedSys := mkFeedSys subscribed_example (FtLaptops ThenSubscribe) [].
Definition feed_run (f : FeedSys) (l : list (Action + FeedInput)) : FeedSys := default f (foldl (feed_act 7) (Some f) l).
Definition feed_middle_example : FeedSys := feed_run feed_start_example first_leg_acts.
Definition feed_subscribed_example : FeedSys :=
  mkFeedSys (fy_sys feed_middle_example) (FtLoop (length (broadcasts (hub (fy_sys feed_middle_example))))) (fy_sent feed_middle_example).
Definition feed_end_example : FeedSys := feed_run feed_subscribed_example second_leg_acts.
Definition feed_screen : gmap Uuid AgentView :=
  be_agents (foldl (handle_hub_msg (fun m => (map_to_list m).*2)) backend_new (fy_sent feed_end_example)).

Lemma feed_converges_witness :
  (v <-? shown_by 7 (match fy_sent feed_end_example with Snapshot out :: _ => out | _ => [] end); Some (av_online v)) = Some false /\
  feed_screen !! 7 = build_agent_view (hub (fy_sys feed_end_example)) 7 /\ (v <-? feed_screen !! 7; Some (av_online v)) = Some true.
Proof.
  assert ((v <-? feed_screen !! 7; Some (av_online v)) = Some true) as E by (vm_compute; reflexivity).
  split; [vm_compute; reflexivity|]. split; [|exact E].
  assert (feed_screen !! 7 = build_agent_view (hub (fy_sys feed_end_example)) 7 \/
          (feed_screen !! 7 = None /\ blank (hub (fy_sys feed_end_example)) 7)) as H.
  { unfold feed_screen.
    refine (feed_converges pw_example id_example (fun l => l) (fun l => reflexivity l) hub_db_example 7 subscribed_example
      feed_middle_example feed_end_example (fun m => (map_to_list m).*2) backend_new _ _ _ _ _ _ _ _).
    - apply (calm_run_steps 7 _ (login_actions 1 "ann")). vm_compute. reflexivity.
    - apply (feed_run_steps 7 _ first_leg_acts). vm_compute. reflexivity.
    - vm_compute. reflexivity.
    - vm_compute. reflexivity.
    - apply (feed_run_steps 7 _ second_leg_acts). vm_compute. reflexivity.
    - vm_compute. reflexivity.
    - intros (tid & t & Ht & Ho). revert tid t Ht Ho. change (forall tid t, threads (fy_sys feed_end_example) !! tid = Some t ->
        owes (hub (fy_sys feed_end_example)) t 7 -> False). apply nobody_busy. vm_compute. reflexivity.
    - reflexivity. }
  destruct H as [H|[H _]]; [exact H|exfalso]. rewrite H in E. change (@None bool = Some true) in E. discriminate E.
Defined.

(** The laptop comes online after its row was read and shows itself before the
    subscription. *)
Definition gap_acts : list (Action + FeedInput) :=
  repeat (inr FiRun) 4 ++ map inl (take 5 (online_actions 2)) ++ [inl (Run 2 (ISent true))] ++ map inl (bcast_actions 2) ++
  [inr (FiSent true); inr FiRun].
Definition feed_gap_example : FeedSys := feed_run feed_start_example gap_acts.

(** The snapshot is read before the subscription is made: without two handlers
    ever at work on the laptop, what it shows of itself in between reaches the
    administrator neither way, and with every broadcast read and nobody owing
    one the screen goes on showing a laptop offline that is online. *)
Theorem gap_loses_update : exists (db : Db) (s0 : Sys) (f : FeedSys) (a : Uuid),
  let shown := foldl apply_msg ∅ (fy_sent f) in
  steps (calm_step pw_example id_example a) (sys_initial db) s0 /\
  steps (feed_sys_step (fun l => l) pw_example id_example a) (mkFeedSys s0 (FtLaptops ThenSubscribe) []) f /\
  fy_thread f = FtLoop (length (broadcasts (hub (fy_sys f)))) /\ ~ owed a (fy_sys f) /\
  (v <-? shown !! a; Some (av_online v)) = Some false /\
  (v <-? build_agent_view (hub (fy_sys f)) a; Some (av_online v)) = Some true.
Proof.
  exists hub_db_example, subscribed_example, feed_gap_example, 7. split_and!.
  - apply (calm_run_steps 7 _ (login_actions 1 "ann")). vm_compute. reflexivity.
  - apply (feed_run_steps 7 _ gap_acts). vm_compute. reflexivity.
  - vm_compute. reflexivity.
  - intros (tid & t & Ht & Ho). by apply (nobody_busy 7 (fy_sys feed_gap_example) ltac:(vm_compute; reflexivity) tid t).
  - vm_compute. reflexivity.
  - vm_compute. reflexivity.
Qed.
